(** * SanMar inventory query: normalisation and cross-tabulation core

    A shallow embedding of [app/inventory_formatter.py], [app/webjson.py],
    [app/exporter.py] and the offline branch of [app/cli.py], with the
    properties of the specification that concern them.  After them come
    the rest of these files and the pure parts of [app/config.py],
    [app/search.py], [app/scraper.py] and [streamlit_app.py], with
    properties read off the code.

    Conventions of the embedding.
    - Python [str] values are [string]s holding ASCII text.  [upper], [strip],
      [isdigit] and [int(str)] are the ASCII restrictions of the Python
      operations; code points from 128 up are outside the embedding, and
      the statements about sizes and warehouse labels say so with an
      [is_ascii] hypothesis.
    - Python [int] is [Z]; Python [float] is the kernel's binary64 [float].
      The [.2f] format is computed exactly.  [float(str)], [repr] of a
      float and [repr] of a [str], which only the parser needs, are
      operations of the runtime that the embedding takes as an interface,
      [PyText].
    - A Python [dict] is an association list in insertion order with unique
      keys; a [set] is a duplicate-free list whose iteration order is a
      parameter ([set_iter]), since CPython iterates a set in hash order.
    - A function that can raise returns a [result]. *)

From Stdlib Require Import ZArith String Ascii Bool List Lia.
From Stdlib Require Import Permutation Sorted.
From Stdlib Require Import Decimal DecimalString.
From Stdlib Require DecimalFacts DecimalPos DecimalZ.
From Stdlib Require Import PrimFloat FloatOps SpecFloat.
Import ListNotations.

Local Set Warnings "-inexact-float".

Local Open Scope string_scope.
Local Open Scope list_scope.
Local Open Scope Z_scope.

(** ** Exceptions and results *)

Inductive exn : Type :=
| IndexError
| AttributeError
| TypeError
| ValueError
| KeyError
| OverflowError
| HTTPError
| JSONDecodeError
| RequestException.

Inductive result (A : Type) : Type :=
| Ok (a : A)
| Raise (e : exn).

Arguments Ok {A} a.
Arguments Raise {A} e.

Definition bind {A B : Type} (m : result A) (k : A -> result B) : result B :=
  match m with
  | Ok a => k a
  | Raise e => Raise e
  end.

Notation "x <- m ;; k" := (bind m (fun x => k))
  (at level 61, m at next level, right associativity).
Notation "' p <- m ;; k" := (bind m (fun x => match x with p => k end))
  (at level 61, p pattern, m at next level, right associativity).

Fixpoint mapM {A B : Type} (f : A -> result B) (l : list A) : result (list B) :=
  match l with
  | [] => Ok []
  | a :: l' => b <- f a ;; bs <- mapM f l' ;; Ok (b :: bs)
  end.

(** ** Python strings (ASCII) *)

Module PyStr.

Definition code (c : ascii) : nat := nat_of_ascii c.

Definition is_ascii_char (c : ascii) : bool := (code c <? 128)%nat.

Fixpoint is_ascii (s : string) : bool :=
  match s with
  | EmptyString => true
  | String c s' => is_ascii_char c && is_ascii s'
  end.

(** [str.isspace] on ASCII: TAB, LF, VT, FF, CR, FS, GS, RS, US and space. *)
Definition isspace (c : ascii) : bool :=
  ((9 <=? code c) && (code c <=? 13) || (28 <=? code c) && (code c <=? 32))%nat.

(** [str.isdigit] on ASCII: the decimal digits. *)
Definition isdigit (c : ascii) : bool :=
  ((48 <=? code c) && (code c <=? 57))%nat.

(** [int(c)] for a decimal digit [c]. *)
Definition digit_value (c : ascii) : Z := Z.of_nat (code c - 48).

Definition upper_char (c : ascii) : ascii :=
  if ((97 <=? code c) && (code c <=? 122))%nat
  then ascii_of_nat (code c - 32) else c.

Fixpoint upper (s : string) : string :=
  match s with
  | EmptyString => EmptyString
  | String c s' => String (upper_char c) (upper s')
  end.

Definition lower_char (c : ascii) : ascii :=
  if ((65 <=? code c) && (code c <=? 90))%nat
  then ascii_of_nat (code c + 32) else c.

Fixpoint lower (s : string) : string :=
  match s with
  | EmptyString => EmptyString
  | String c s' => String (lower_char c) (lower s')
  end.

Fixpoint lstrip (s : string) : string :=
  match s with
  | EmptyString => EmptyString
  | String c s' => if isspace c then lstrip s' else s
  end.

Fixpoint rstrip (s : string) : string :=
  match s with
  | EmptyString => EmptyString
  | String c s' =>
      match rstrip s' with
      | EmptyString => if isspace c then EmptyString else String c EmptyString
      | t => String c t
      end
  end.

Definition strip (s : string) : string := rstrip (lstrip s).

(** [s[:n]] for [n >= 0]. *)
Fixpoint take (n : nat) (s : string) : string :=
  match n, s with
  | S n', String c s' => String c (take n' s')
  | _, _ => EmptyString
  end.

(** [s.replace(a, b)] for one-character [a] and [b]. *)
Fixpoint replace_char (a b : ascii) (s : string) : string :=
  match s with
  | EmptyString => EmptyString
  | String c s' =>
      String (if Ascii.eqb c a then b else c) (replace_char a b s')
  end.

(** [c in s]. *)
Fixpoint contains_char (c : ascii) (s : string) : bool :=
  match s with
  | EmptyString => false
  | String d s' => Ascii.eqb d c || contains_char c s'
  end.

(** [s.split(c, 1)[0]]: the text before the first [c] (all of [s] when
    [c] does not occur). *)
Fixpoint before_first (c : ascii) (s : string) : string :=
  match s with
  | EmptyString => EmptyString
  | String d s' => if Ascii.eqb d c then EmptyString else String d (before_first c s')
  end.

(** [s.split(c, 1)[1]] when [c] occurs in [s]: the text after the first [c]. *)
Fixpoint after_first (c : ascii) (s : string) : string :=
  match s with
  | EmptyString => EmptyString
  | String d s' => if Ascii.eqb d c then s' else after_first c s'
  end.

(** [sep.join(l)]. *)
Fixpoint join (sep : string) (l : list string) : string :=
  match l with
  | [] => EmptyString
  | [s] => s
  | s :: l' => s ++ sep ++ join sep l'
  end.

(** [str(n)] for an [int]. *)
Definition str_of_Z (n : Z) : string := NilEmpty.string_of_int (Z.to_int n).


End PyStr.

(** ** Python dicts: association lists in insertion order *)

Module PyDict.
Section Dict.
Context {V : Type}.

Definition dict : Type := list (string * V).

Fixpoint get (d : dict) (k : string) : option V :=
  match d with
  | [] => None
  | (k', v) :: d' => if String.eqb k' k then Some v else get d' k
  end.

Definition get_default (d : dict) (k : string) (dflt : V) : V :=
  match get d k with
  | Some v => v
  | None => dflt
  end.

Definition mem (d : dict) (k : string) : bool :=
  match get d k with
  | Some _ => true
  | None => false
  end.

(** [d[k] = v]: an existing key keeps its position. *)
Fixpoint set (d : dict) (k : string) (v : V) : dict :=
  match d with
  | [] => [(k, v)]
  | (k', v') :: d' =>
      if String.eqb k' k then (k', v) :: d' else (k', v') :: set d' k v
  end.

Definition keys (d : dict) : list string := map fst d.
Definition values (d : dict) : list V := map snd d.
End Dict.
Arguments dict V : clear implicits.
End PyDict.

(** [x in l] for a list of strings. *)
Definition str_in (x : string) (l : list string) : bool :=
  existsb (String.eqb x) l.

(** [s.add(x)] on a set kept as the list of its elements in order of
    first insertion. *)
Definition set_add (s : list string) (x : string) : list string :=
  if str_in x s then s else s ++ [x].

(** ** Sorting *)

Section Sorting.
Context {A : Type} (leb : A -> A -> bool).

Fixpoint insert_sorted (x : A) (l : list A) : list A :=
  match l with
  | [] => [x]
  | y :: l' => if leb x y then x :: l else y :: insert_sorted x l'
  end.

(** [sorted(l)]: the stable sort of [l]; equal elements keep their order. *)
Definition py_sorted (l : list A) : list A :=
  fold_right insert_sorted [] l.
End Sorting.

(** Comparison of the tuples [(int, str)] that [_size_sort_key] returns. *)
Definition key_ltb (a b : Z * string) : bool :=
  (fst a <? fst b) || ((fst a =? fst b) && String.ltb (snd a) (snd b)).

Definition key_leb (a b : Z * string) : bool :=
  (fst a <? fst b) || ((fst a =? fst b) && String.leb (snd a) (snd b)).

(** [sorted(l, key=key)] for a key that may raise: the keys are computed
    first, one call per element. *)
Definition py_sorted_by_key {A : Type} (key : A -> result (Z * string))
    (l : list A) : result (list A) :=
  ks <- mapM (fun a => k <- key a ;; Ok (k, a)) l ;;
  Ok (map snd (py_sorted (fun x y => key_leb (fst x) (fst y)) ks)).

(** ** Python values *)

(** The values a decoded JSON document and a row dictionary hold. *)
#[warnings="-register-all"] Inductive pyval : Type :=
| PNone
| PBool (b : bool)
| PInt (z : Z)
| PFloat (f : float)
| PStr (s : string)
| PList (l : list pyval)
| PDict (d : list (string * pyval)).

(** Text conversions of the Python runtime, taken as an interface. *)
Class PyText : Type := {
  (** [float(s)] for a [str]; [None] when it raises [ValueError]. *)
  float_of_str : string -> option float;
  (** [repr(x)] for a [float]. *)
  repr_float : float -> string;
  (** [repr(s)] for a [str]. *)
  repr_str : string -> string
}.

(** The integer nearest to [m * 2 ^ e], ties to even. *)
Definition round_scaled (m e : Z) : Z :=
  if 0 <=? e then m * 2 ^ e
  else
    let d := 2 ^ (- e) in
    let q := m / d in
    let r := m mod d in
    if 2 * r <? d then q
    else if d <? 2 * r then q + 1
    else if Z.even q then q else q + 1.

Definition two_digits (n : Z) : string :=
  if n <? 10 then ("0" ++ PyStr.str_of_Z n)%string else PyStr.str_of_Z n.

(** [f"{x:.2f}"]: the decimal with two fractional digits nearest to the
    binary value, ties to even. *)
Definition format_2f (x : float) : string :=
  match Prim2SF x with
  | S754_nan => "nan"
  | S754_infinity s => if s then "-inf" else "inf"
  | S754_zero s => if s then "-0.00" else "0.00"
  | S754_finite s m e =>
      let n := round_scaled (Zpos m * 100) e in
      ((if s then "-" else "") ++ PyStr.str_of_Z (n / 100) ++ "."
       ++ two_digits (n mod 100))%string
  end.

(** ** pandas data frames *)

Module Pandas.

(** A frame: the name of the index, the row labels, the column labels and
    the rows of cells. *)
Record DataFrame : Type := mkDataFrame {
  df_index_name : option string;
  df_index : list pyval;
  df_columns : list string;
  df_data : list (list pyval)
}.

Definition NaN : pyval := PFloat nan.

(** [RangeIndex(n)]. *)
Definition range_index (n : nat) : list pyval :=
  map (fun i => PInt (Z.of_nat i)) (seq 0 n).

(** [pd.DataFrame()]. *)
Definition empty_frame : DataFrame := mkDataFrame None [] [] [].

(** [pd.DataFrame({col: [v]})]. *)
Definition one_cell_frame (col : string) (v : pyval) : DataFrame :=
  mkDataFrame None (range_index 1) [col] [[v]].

(** The columns of [pd.DataFrame(records)]: the keys of the records in
    order of first appearance. *)
Definition columns_of (records : list (PyDict.dict pyval)) : list string :=
  fold_left (fun cols rec => fold_left set_add (PyDict.keys rec) cols)
            records [].

(** [pd.DataFrame(records)] for a list of dicts in which every column
    holds a [str], as in the table of the matrix builder, where the Price
    row and the header row hold one in every column: such a column has
    the dtype object and keeps the values as they are.  A record without
    a column gets NaN there. *)
Definition of_records (records : list (PyDict.dict pyval)) : DataFrame :=
  let cols := columns_of records in
  mkDataFrame None (range_index (length records)) cols
    (map (fun rec => map (fun c => PyDict.get_default rec c NaN) cols) records).

Fixpoint index_of (c : string) (cols : list string) : option nat :=
  match cols with
  | [] => None
  | c' :: cols' =>
      if String.eqb c' c then Some 0%nat
      else option_map S (index_of c cols')
  end.

Fixpoint remove_nth {A : Type} (n : nat) (l : list A) : list A :=
  match n, l with
  | _, [] => []
  | O, _ :: l' => l'
  | S n', x :: l' => x :: remove_nth n' l'
  end.

(** [df.set_index(c, inplace=True)]. *)
Definition set_index (c : string) (df : DataFrame) : result DataFrame :=
  match index_of c (df_columns df) with
  | None => Raise KeyError
  | Some i =>
      Ok (mkDataFrame (Some c)
            (map (fun r => nth i r PNone) (df_data df))
            (remove_nth i (df_columns df))
            (map (remove_nth i) (df_data df)))
  end.

(** [df[c] = None]: a new column goes last. *)
Definition assign_none (c : string) (df : DataFrame) : DataFrame :=
  match index_of c (df_columns df) with
  | Some i =>
      mkDataFrame (df_index_name df) (df_index df) (df_columns df)
        (map (fun r => firstn i r ++ PNone :: skipn (S i) r) (df_data df))
  | None =>
      mkDataFrame (df_index_name df) (df_index df) (df_columns df ++ [c])
        (map (fun r => r ++ [PNone]) (df_data df))
  end.

(** [df[cols]] for a list of labels. *)
Definition select (cols : list string) (df : DataFrame) : result DataFrame :=
  idxs <- mapM (fun c => match index_of c (df_columns df) with
                       | Some i => Ok i
                       | None => Raise KeyError
                       end) cols ;;
  Ok (mkDataFrame (df_index_name df) (df_index df) cols
        (map (fun r => map (fun i => nth i r PNone) idxs) (df_data df))).

(** [df.empty]. *)
Definition empty (df : DataFrame) : bool :=
  match df_index df, df_columns df with
  | [], _ | _, [] => true
  | _, _ => false
  end.

(** [df.iloc[i, j]]. *)
Definition iloc (df : DataFrame) (i j : nat) : option pyval :=
  match nth_error (df_data df) i with
  | Some r => nth_error r j
  | None => None
  end.

End Pandas.

(** ** [app/inventory_formatter.py] *)

(** A Canonical Row: the ten fields every backend emits.  The matrix
    builder is specified on Canonical Rows, dictionaries that have these
    keys with values of these types, so that [row.get(key, default)] is
    the field. *)
Record row : Type := mkRow {
  style : string;
  partId : string;
  color : string;
  size : string;
  description : string;
  warehouseId : string;
  warehouse : string;
  qty : Z;
  totalAvailable : option Z;
  price : option float
}.

Module InventoryFormatter.
Import PyStr.

Definition size_order : PyDict.dict Z :=
  [("XS", 1); ("S", 2); ("M", 3); ("L", 4); ("XL", 5);
   ("LT", 6); ("XLT", 7); ("2XLT", 8); ("3XLT", 9); ("4XLT", 10)].

Definition _size_sort_key (size : string) : result (Z * string) :=
  let size := strip (upper size) in
  match size with
  | EmptyString => Raise IndexError
  | String c base =>
      if isdigit c then Ok (digit_value c + 10, base)
      else Ok (PyDict.get_default size_order size 99, size)
  end.

Definition base_prices : PyDict.dict float :=
  [("S", 37.26%float); ("M", 37.26%float); ("L", 37.26%float);
   ("XL", 37.26%float); ("LT", 37.26%float); ("XLT", 37.26%float);
   ("2XLT", 38.26%float); ("3XLT", 40.26%float); ("4XLT", 41.26%float)].

(** [pricing_data and size in pricing_data]: [None] and the empty dict are
    falsy. *)
Definition get_size_price (size : string)
    (pricing_data : option (PyDict.dict float)) : string :=
  match pricing_data with
  | Some ((_ :: _) as pd) =>
      match PyDict.get pd size with
      | Some p => format_2f p
      | None => format_2f (PyDict.get_default base_prices (upper size) 37.26%float)
      end
  | _ => format_2f (PyDict.get_default base_prices (upper size) 37.26%float)
  end.

(** The per-style accumulator of the grouping loop. *)
Record product_data : Type := mkProduct {
  sizes : list string;
  warehouses : PyDict.dict (PyDict.dict Z);
  case_size : option Z;
  pricing : PyDict.dict float
}.

Definition new_product : product_data := mkProduct [] [] None [].

(** [(row.get('warehouse') or '').strip() or f"Warehouse {warehouse_id}"]. *)
Definition warehouse_name (r : row) : string :=
  match strip (warehouse r) with
  | EmptyString => ("Warehouse " ++ warehouseId r)%string
  | w => w
  end.

(** One iteration of the grouping loop. *)
Definition add_row (products : PyDict.dict product_data) (r : row)
    : PyDict.dict product_data :=
  let style := style r in
  let products :=
    if PyDict.mem products style then products
    else PyDict.set products style new_product in
  let size := upper (size r) in
  let warehouse_name := warehouse_name r in
  let qty := if qty r =? 0 then 0 else qty r in
  let p := PyDict.get_default products style new_product in
  let p :=
    match size with
    | EmptyString => p
    | _ => mkProduct (set_add (sizes p) size) (warehouses p) (case_size p) (pricing p)
    end in
  let whs :=
    if PyDict.mem (warehouses p) warehouse_name then warehouses p
    else PyDict.set (warehouses p) warehouse_name [] in
  let inner := PyDict.get_default whs warehouse_name [] in
  let whs := PyDict.set whs warehouse_name (PyDict.set inner size qty) in
  PyDict.set products style (mkProduct (sizes p) whs (case_size p) (pricing p)).

Definition group_rows (inventory_rows : list row) : PyDict.dict product_data :=
  fold_left add_row inventory_rows [].

Definition known_order : list string :=
  ["Dallas, TX"; "Cincinnati, OH"; "Richmond, VA"; "Jacksonville, FL";
   "Phoenix, AZ"; "Reno, NV"; "Minneapolis, MN"; "Robbinsville, NJ";
   "Seattle, WA"].

Definition warehouse_order (present : list string) : list string :=
  filter (fun w => str_in w present) known_order
  ++ py_sorted String.leb (filter (fun w => negb (str_in w known_order)) present).

(** A table row: the label under the key [''], then one entry per size. *)
Definition labelled_row (label : string) (all_sizes : list string)
    (f : string -> pyval) : PyDict.dict pyval :=
  fold_left (fun r size => PyDict.set r size (f size)) all_sizes
            [("", PStr label)].

(** The body of the loop over [warehouse_order]: the warehouse's row and
    the running totals. *)
Definition warehouse_row (whs : PyDict.dict (PyDict.dict Z))
    (all_sizes : list string) (warehouse : string)
    (total_inventory : PyDict.dict Z)
    : result (PyDict.dict pyval * PyDict.dict Z) :=
  fold_left
    (fun acc size =>
       '(r, tot) <- acc ;;
       let qty :=
         match PyDict.get whs warehouse with
         | Some inner => PyDict.get_default inner size 0
         | None => 0
         end in
       match PyDict.get tot size with
       | Some t => Ok (PyDict.set r size (PInt qty), PyDict.set tot size (t + qty))
       | None => Raise KeyError
       end)
    all_sizes (Ok ([("", PStr warehouse)], total_inventory)).

Definition warehouse_rows (whs : PyDict.dict (PyDict.dict Z))
    (all_sizes : list string) (order : list string)
    (total_inventory : PyDict.dict Z)
    : result (list (PyDict.dict pyval) * PyDict.dict Z) :=
  fold_left
    (fun acc warehouse =>
       '(table, tot) <- acc ;;
       '(r, tot') <- warehouse_row whs all_sizes warehouse tot ;;
       Ok (table ++ [r], tot'))
    order (Ok ([], total_inventory)).

Definition total_row (all_sizes : list string) (total_inventory : PyDict.dict Z)
    : result (PyDict.dict pyval) :=
  fold_left
    (fun acc size =>
       r <- acc ;;
       match PyDict.get total_inventory size with
       | Some t => Ok (PyDict.set r size (PInt t))
       | None => Raise KeyError
       end)
    all_sizes (Ok [("", PStr "Total Inventory")]).

Section Builder.

(** The order in which CPython iterates a set of strings, given the
    elements in order of insertion. *)
Variable set_iter : list string -> list string.

Definition format_inventory_table (inventory_rows : list row)
    (pricing_data : option (PyDict.dict float)) : result Pandas.DataFrame :=
  match inventory_rows with
  | [] => Ok Pandas.empty_frame
  | _ =>
      match group_rows inventory_rows with
      | [] => Ok Pandas.empty_frame
      | (style, product_data) :: _ =>
          all_sizes <- py_sorted_by_key _size_sort_key
                         (set_iter (sizes product_data)) ;;
          match all_sizes with
          | [] =>
              Ok (Pandas.one_cell_frame "Message" (PStr "No size data available"))
          | _ =>
              let pricing_row :=
                labelled_row "Price: $" all_sizes
                  (fun size => PStr (get_size_price size pricing_data)) in
              let case_size_value :=
                match case_size product_data with
                | Some n => PInt n
                | None => PNone
                end in
              let case_size_row :=
                labelled_row "Case Size" all_sizes (fun _ => case_size_value) in
              let warehouse_header :=
                labelled_row "Warehouse" all_sizes PStr in
              let present := PyDict.keys (warehouses product_data) in
              let total_inventory :=
                fold_left (fun d size => PyDict.set d size 0) all_sizes [] in
              '(rows, total_inventory) <-
                 warehouse_rows (warehouses product_data) all_sizes
                   (warehouse_order present) total_inventory ;;
              total <- total_row all_sizes total_inventory ;;
              let table_data :=
                [pricing_row; case_size_row; warehouse_header] ++ rows ++ [total] in
              Pandas.set_index "" (Pandas.of_records table_data)
          end
      end
  end.

(** [create_inventory_display_table]; [style_name] is not used. *)
Definition create_inventory_display_table (inventory_rows : list row)
    (style_name : string) : result Pandas.DataFrame :=
  df <- format_inventory_table inventory_rows None ;;
  if Pandas.empty df
  then Ok (Pandas.one_cell_frame "Message" (PStr "No inventory data available"))
  else Ok df.

End Builder.
End InventoryFormatter.

(** ** Python built-ins on values *)

Module Py.
Import PyStr.

(** [bool(v)]. *)
Definition truthy (v : pyval) : bool :=
  match v with
  | PNone => false
  | PBool b => b
  | PInt z => negb (z =? 0)
  | PFloat f => negb (PrimFloat.eqb f 0%float)
  | PStr s => negb (String.eqb s "")
  | PList l => match l with [] => false | _ => true end
  | PDict d => match d with [] => false | _ => true end
  end.

(** [a or b], both already evaluated (no operand here has an effect). *)
Definition or_ (a b : pyval) : pyval := if truthy a then a else b.

(** [v.get(k, dflt)]: only a dict has the method. *)
Definition get (v : pyval) (k : string) (dflt : pyval) : result pyval :=
  match v with
  | PDict d => Ok (PyDict.get_default d k dflt)
  | _ => Raise AttributeError
  end.

(** [for x in v]: the elements of a list, the keys of a dict, the
    characters of a str. *)
Fixpoint chars (s : string) : list pyval :=
  match s with
  | EmptyString => []
  | String c s' => PStr (String c EmptyString) :: chars s'
  end.

Definition iter (v : pyval) : result (list pyval) :=
  match v with
  | PList l => Ok l
  | PDict d => Ok (map PStr (PyDict.keys d))
  | PStr s => Ok (chars s)
  | _ => Raise TypeError
  end.

(** [v == s] for a str [s]. *)
Definition eq_str (v : pyval) (s : string) : bool :=
  match v with
  | PStr t => String.eqb t s
  | _ => false
  end.

Fixpoint is_substring (x s : string) : bool :=
  prefix x s ||
  match s with
  | EmptyString => false
  | String _ s' => is_substring x s'
  end.

(** [repr(v)] and [str(v)]. *)
Fixpoint repr `{PyText} (v : pyval) : string :=
  match v with
  | PNone => "None"
  | PBool true => "True"
  | PBool false => "False"
  | PInt z => str_of_Z z
  | PFloat f => repr_float f
  | PStr s => repr_str s
  | PList l => "[" ++ join ", " (map repr l) ++ "]"
  | PDict d =>
      "{" ++ join ", " (map (fun kv => repr_str (fst kv) ++ ": " ++ repr (snd kv)) d)
          ++ "}"
  end%string.

Definition str `{PyText} (v : pyval) : string :=
  match v with
  | PStr s => s
  | _ => repr v
  end.

(** [int(x)] for a float: truncation toward zero. *)
Definition int_of_float (f : float) : result Z :=
  match Prim2SF f with
  | S754_zero _ => Ok 0
  | S754_infinity _ => Raise OverflowError
  | S754_nan => Raise ValueError
  | S754_finite s m e =>
      let a := if 0 <=? e then Zpos m * 2 ^ e else Zpos m / 2 ^ (- e) in
      Ok (if s then - a else a)
  end.

(** [float(n)] for an int: the nearest binary64 value, ties to even. *)
Definition float_of_Z (n : Z) : result float :=
  match binary_normalize prec emax n 0 false with
  | S754_infinity _ => Raise OverflowError
  | sf => Ok (SF2Prim sf)
  end.

(** The decimal digits of [int(s)], with single underscores allowed
    between digits. [after_digit] tells whether the previous character was
    a digit. *)
Fixpoint digits_value (s : string) (after_digit : bool) (acc : Z) : option Z :=
  match s with
  | EmptyString => if after_digit then Some acc else None
  | String c s' =>
      if isdigit c then digits_value s' true (10 * acc + digit_value c)
      else if Ascii.eqb c "_" && after_digit then
        match s' with
        | String d _ => if isdigit d then digits_value s' false acc else None
        | EmptyString => None
        end
      else None
  end.

(** The white space that [int] skips around the digits of an ASCII
    string: TAB, LF, VT, FF, CR and space (not FS, GS, RS, US, which
    [str.strip] removes). *)
Definition isspace_c (c : ascii) : bool :=
  ((9 <=? code c) && (code c <=? 13) || (code c =? 32))%nat.

Fixpoint lstrip_c (s : string) : string :=
  match s with
  | EmptyString => EmptyString
  | String c s' => if isspace_c c then lstrip_c s' else s
  end.

Fixpoint rstrip_c (s : string) : string :=
  match s with
  | EmptyString => EmptyString
  | String c s' =>
      match rstrip_c s' with
      | EmptyString => if isspace_c c then EmptyString else String c EmptyString
      | t => String c t
      end
  end.

(** The number of decimal digits of a string. *)
Fixpoint count_digits (s : string) : nat :=
  match s with
  | EmptyString => O
  | String c s' => ((if isdigit c then 1 else 0) + count_digits s')%nat
  end.

(** [int(s)] for a str, base ten: surrounding white space, an optional
    sign, then digits.  The interpreter refuses a text with more than
    4300 digits ([sys.int_max_str_digits]) with the [ValueError] that it
    raises for a text that is no integer literal. *)
Definition int_of_str (s : string) : result Z :=
  if (4300 <? count_digits s)%nat then Raise ValueError
  else
    let body :=
      match rstrip_c (lstrip_c s) with
      | String "-" t => option_map Z.opp (digits_value t false 0)
      | String "+" t => digits_value t false 0
      | t => digits_value t false 0
      end in
    match body with
    | Some n => Ok n
    | None => Raise ValueError
    end.

(** [int(v)]. *)
Definition int (v : pyval) : result Z :=
  match v with
  | PInt z => Ok z
  | PBool b => Ok (if b then 1 else 0)
  | PFloat f => int_of_float f
  | PStr s => int_of_str s
  | PNone | PList _ | PDict _ => Raise TypeError
  end.

(** [float(v)]. *)
Definition float_ `{PyText} (v : pyval) : result float :=
  match v with
  | PFloat f => Ok f
  | PInt z => float_of_Z z
  | PBool b => Ok (if b then 1%float else 0%float)
  | PStr s =>
      match float_of_str s with
      | Some f => Ok f
      | None => Raise ValueError
      end
  | PNone | PList _ | PDict _ => Raise TypeError
  end.

End Py.

(** ** pandas: the dtype of a column *)

Module Dtypes.
Import Pandas.

(** The dtypes that a column of such values gets; [str_] is the string
    dtype that pandas 3 gives a column of texts. *)
Inductive dtype : Type :=
| object_
| int64
| float64
| bool_
| str_.

(** Which dtype pandas infers for the values of a column (a missing entry
    is NaN by then) is taken as an interface. *)
Class Inference : Type := {
  infer : list pyval -> dtype
}.

(** What a column of the dtype holds for a value.  A float64 column holds
    floats: an int as the nearest float, a bool as 1.0 or 0.0, None as
    NaN.  A string column shows None as NaN.  The other dtypes keep the
    value. *)
Definition astype (dt : dtype) (v : pyval) : pyval :=
  match dt with
  | float64 =>
      match v with
      | PInt n =>
          match Py.float_of_Z n with
          | Ok f => PFloat f
          | Raise _ => v
          end
      | PBool b => PFloat (if b then 1%float else 0%float)
      | PNone => NaN
      | _ => v
      end
  | str_ =>
      match v with
      | PNone => NaN
      | _ => v
      end
  | _ => v
  end.

Section Frames.
Context `{Inference}.

(** The values of a column before the dtype is chosen. *)
Definition raw_column (records : list (PyDict.dict pyval)) (c : string)
    : list pyval :=
  map (fun rec => PyDict.get_default rec c NaN) records.

(** [pd.DataFrame(records)] for a list of dicts: a record without a
    column gets NaN there, and every column shows its values under the
    dtype inferred for it. *)
Definition of_records (records : list (PyDict.dict pyval)) : DataFrame :=
  let cols := columns_of records in
  mkDataFrame None (range_index (length records)) cols
    (map (fun rec =>
            map (fun c => astype (infer (raw_column records c))
                            (PyDict.get_default rec c NaN)) cols)
         records).

End Frames.
End Dtypes.

(** ** [app/webjson.py] *)

Module WebJson.
Import PyStr.

Section Parser.
Context `{PyText}.

(** The nested [extract_price]. *)
Definition price_of_entry (v : pyval) : result (option float) :=
  fv <- Py.get v "formattedValue" PNone ;;
  if Py.truthy fv then
    match Py.float_ fv with
    | Ok f => Ok (Some f)
    | Raise _ => Ok None
    end
  else Ok None.

(** The loop over the preferred keys ["3"] and ["UPG"]; [key in price_map]
    and [price_map[key]] on a value that is not a dict. *)
Fixpoint preferred_price (price_map : pyval) (keys : list string)
    : result (option float) :=
  match keys with
  | [] => Ok None
  | key :: keys' =>
      match price_map with
      | PDict d =>
          match PyDict.get d key with
          | Some v =>
              p <- price_of_entry v ;;
              match p with
              | Some f => Ok (Some f)
              | None => preferred_price price_map keys'
              end
          | None => preferred_price price_map keys'
          end
      | PStr s =>
          if Py.is_substring key s then Raise TypeError
          else preferred_price price_map keys'
      | PList l =>
          if existsb (fun x => Py.eq_str x key) l then Raise TypeError
          else preferred_price price_map keys'
      | _ => Raise TypeError
      end
  end.

(** The fallback loop over [price_map.values()]. *)
Fixpoint first_price (vs : list pyval) : result (option float) :=
  match vs with
  | [] => Ok None
  | v :: vs' =>
      p <- price_of_entry v ;;
      match p with
      | Some f => Ok (Some f)
      | None => first_price vs'
      end
  end.

Definition extract_price (price_map : pyval) : result (option float) :=
  if negb (Py.truthy price_map) then Ok None
  else
    p <- preferred_price price_map ["3"; "UPG"] ;;
    match p with
    | Some f => Ok (Some f)
    | None =>
        match price_map with
        | PDict d => first_price (PyDict.values d)
        | _ => Raise AttributeError
        end
    end.

(** The dict comprehension over [data.get("warehouses", [])]. *)
Definition warehouse_names (ws : list pyval) : result (PyDict.dict pyval) :=
  fold_left
    (fun acc w =>
       d <- acc ;;
       code <- Py.get w "code" PNone ;;
       short <- Py.get w "shortName" PNone ;;
       name <- Py.get w "name" PNone ;;
       Ok (PyDict.set d (Py.str code)
             (Py.or_ (Py.or_ short name) (PStr (Py.str code)))))
    ws (Ok []).

(** The loop over [variantOptionQualifiers]: the value of the first
    qualifier named ["size"]. *)
Fixpoint find_size (qs : list pyval) : result pyval :=
  match qs with
  | [] => Ok PNone
  | q :: qs' =>
      k <- Py.get q "qualifier" PNone ;;
      if Py.eq_str k "size" then Py.get q "value" PNone
      else find_size qs'
  end.

(** The row appended for one stock entry. *)
Definition make_row (slug : string) (product : pyval) (warehouses : PyDict.dict pyval)
    (color_from_slug : string) (size : pyval) (price : option float)
    (whse_id : string) (qty_int : Z) : result (PyDict.dict pyval) :=
  base_product <- Py.get product "baseProduct" PNone ;;
  code <- Py.get product "code" PNone ;;
  name <- Py.get product "name" PNone ;;
  Ok [("style", Py.or_ (Py.or_ (Py.or_ (PStr slug) base_product) code) (PStr ""));
      ("partId", PStr "");
      ("color", PStr color_from_slug);
      ("size", Py.or_ size (PStr ""));
      ("description", Py.or_ name (PStr ""));
      ("warehouseId", PStr whse_id);
      ("warehouse", PyDict.get_default warehouses whse_id (PStr ""));
      ("qty", PInt qty_int);
      ("totalAvailable", PNone);
      ("price", match price with Some f => PFloat f | None => PNone end)].

(** The loop over [stock_map.items()]: an entry whose quantity [int]
    rejects is skipped. *)
Fixpoint stock_rows (mk : string -> Z -> result (PyDict.dict pyval))
    (items : list (string * pyval)) : result (list (PyDict.dict pyval)) :=
  match items with
  | [] => Ok []
  | (whse_id, qty) :: items' =>
      match Py.int qty with
      | Ok qty_int =>
          r <- mk whse_id qty_int ;;
          rs <- stock_rows mk items' ;;
          Ok (r :: rs)
      | Raise _ => stock_rows mk items'
      end
  end.

(** One iteration of the loop over [variant_options]. *)
Definition option_rows (slug : string) (product : pyval)
    (warehouses : PyDict.dict pyval) (color_from_slug : string) (opt : pyval)
    : result (list (PyDict.dict pyval)) :=
  quals <- Py.get opt "variantOptionQualifiers" (PList []) ;;
  qs <- Py.iter quals ;;
  size <- find_size qs ;;
  price_map <- Py.get opt "priceDataMap" PNone ;;
  price <- extract_price price_map ;;
  levels <- Py.get opt "stockLevelsMap" (PDict []) ;;
  available <- Py.get opt "availableStockMap" (PDict []) ;;
  match Py.or_ levels available with
  | PDict items =>
      stock_rows (make_row slug product warehouses color_from_slug size price) items
  | _ => Raise AttributeError
  end.

Fixpoint all_rows (f : pyval -> result (list (PyDict.dict pyval)))
    (opts : list pyval) : result (list (PyDict.dict pyval)) :=
  match opts with
  | [] => Ok []
  | opt :: opts' =>
      rs <- f opt ;;
      rest <- all_rows f opts' ;;
      Ok (rs ++ rest)
  end.

Definition color_of_slug (slug : string) : string :=
  if negb (String.eqb slug "") && contains_char "_" slug
  then after_first "_" slug else "".

Definition parse_inventory_json (data : pyval) (slug : string)
    : result (PyDict.dict pyval) :=
  product <- Py.get data "product" (PDict []) ;;
  ws <- Py.get data "warehouses" (PList []) ;;
  ws <- Py.iter ws ;;
  warehouses <- warehouse_names ws ;;
  variant_options <- Py.get product "variantOptions" (PList []) ;;
  let color_from_slug := color_of_slug slug in
  opts <- Py.iter variant_options ;;
  rows <- all_rows (option_rows slug product warehouses color_from_slug) opts ;;
  Ok [("rows", PList (map PDict rows))].

End Parser.

(** *** The transport: [requests] *)

(** What the code reads of a [requests.Response]: the status, the headers,
    the body text and the outcome of [resp.json()] ([None] when decoding
    the body fails). *)
Record response : Type := mkResponse {
  status_code : Z;
  headers : list (string * string);
  text : string;
  json : option pyval
}.

(** The outcome of [requests.get]: it raises (connection error, timeout,
    invalid argument) or returns a response. *)
Inductive reply : Type :=
| Failed
| Replied (resp : response).

(** The network, as the function sees it: the answer to a GET of a URL
    with a timeout, given the URLs requested before.  The request headers
    (the browser-like defaults, the Referer, and the Cookie and extra
    headers read from the environment) are the same in both requests of
    [fetch_inventory_json]; the network answers for them. *)
Definition network : Type := list string -> string -> Z -> reply.

(** [resp.raise_for_status()]: [HTTPError] for a 4xx or 5xx status. *)
Definition raise_for_status (resp : response) : result unit :=
  if (400 <=? status_code resp) && (status_code resp <? 600)
  then Raise HTTPError else Ok tt.

(** [resp.json()]. *)
Definition resp_json (resp : response) : result pyval :=
  match json resp with
  | Some data => Ok data
  | None => Raise JSONDecodeError
  end.

(** [resp.headers.get(name, "")]; header names compare without case. *)
Fixpoint header (hs : list (string * string)) (name : string) : string :=
  match hs with
  | [] => ""
  | (k, v) :: hs' =>
      if String.eqb (lower k) (lower name) then v else header hs' name
  end.

Definition inventory_url (slug : string) : string :=
  ("https://www.sanmar.com/p/" ++ slug ++ "/checkInventoryJson?pantWaistSize=")%string.

Definition snippet_of (resp : response) : string :=
  replace_char "010" " " (take 300 (text resp)).

Definition error_message (attempted_urls : list string) (resp : response) : string :=
  ("Non-JSON response. Tried: " ++ join ", " attempted_urls
   ++ ". Status " ++ str_of_Z (status_code resp)
   ++ ", content-type: " ++ header (headers resp) "Content-Type"
   ++ ". First 300 chars: " ++ snippet_of resp)%string.

(** The structured error returned at the end of the [except] branch. *)
Definition error_envelope (attempted_urls : list string) (resp : response)
    : PyDict.dict pyval :=
  [("rows", PList []);
   ("error", PBool true);
   ("message", PStr (error_message attempted_urls resp))].

Section Fetch.
Context `{PyText}.

(** The body of both [try] blocks once a response is there. *)
Definition decode_and_parse (resp : response) (slug : string)
    : result (PyDict.dict pyval) :=
  _ <- raise_for_status resp ;;
  data <- resp_json resp ;;
  parse_inventory_json data slug.

(** [fetch_inventory_json]: the URLs requested, in order, and the outcome.
    The first [requests.get] stands before the [try]; the second one is
    inside the inner [try], where a failure leaves [resp2] unbound and the
    error is built from the first response. *)
Definition fetch_inventory_json (net : network) (slug : string) (timeout : Z)
    : list string * result (PyDict.dict pyval) :=
  let url := inventory_url slug in
  match net [] url timeout with
  | Failed => ([url], Raise RequestException)
  | Replied resp =>
      let attempted_urls := [url] in
      match decode_and_parse resp slug with
      | Ok res => ([url], Ok res)
      | Raise _ =>
          let base :=
            if contains_char "_" slug then before_first "_" slug else slug in
          if negb (String.eqb base "") && negb (String.eqb base slug) then
            let url_base := inventory_url base in
            let attempted_urls := attempted_urls ++ [url_base] in
            match net [url] url_base timeout with
            | Failed =>
                ([url; url_base], Ok (error_envelope attempted_urls resp))
            | Replied resp2 =>
                match decode_and_parse resp2 base with
                | Ok res => ([url; url_base], Ok res)
                | Raise _ =>
                    ([url; url_base], Ok (error_envelope attempted_urls resp2))
                end
            end
          else ([url], Ok (error_envelope attempted_urls resp))
      end
  end.

End Fetch.
End WebJson.

(** ** [app/cli.py]: the webjson branch of the fetch loop *)

Module Cli.
Section Main.
Context `{PyText}.

(** The value [res] in one iteration of the loop of [main] for the
    webjson backend: [json_file] is the decoded content of the file given
    by [--json-file], when the option is there.  [fetch_inventory_json] is
    called with its default timeout.  An exception is caught by the loop,
    which reports it and goes on without rows for the style. *)
Definition fetch_style (json_file : option pyval) (net : WebJson.network)
    (style : string) : result (PyDict.dict pyval) :=
  match json_file with
  | Some data => WebJson.parse_inventory_json data style
  | None => snd (WebJson.fetch_inventory_json net style 20)
  end.

End Main.
End Cli.

(** ** [app/exporter.py] *)

Module Exporter.

Definition cols : list string :=
  ["style"; "partId"; "color"; "size"; "description"; "warehouseId";
   "warehouse"; "qty"; "totalAvailable"; "price"].

Section FlatExport.
Context `{Dtypes.Inference}.

Definition rows_to_dataframe (rows : list (PyDict.dict pyval))
    : result Pandas.DataFrame :=
  let df := Dtypes.of_records rows in
  let df :=
    fold_left
      (fun df c => if str_in c (Pandas.df_columns df) then df
                   else Pandas.assign_none c df)
      cols df in
  Pandas.select cols df.

End FlatExport.
End Exporter.

(** ** More string operations *)

Module PyStrOps.
Import PyStr.

(** [s[n:]] for [n >= 0]. *)
Fixpoint drop (n : nat) (s : string) : string :=
  match n, s with
  | S n', String _ s' => drop n' s'
  | _, _ => s
  end.

(** [s.endswith(suffix)]. *)
Definition endswith (s suffix : string) : bool :=
  (String.length suffix <=? String.length s)%nat
  && String.eqb (drop (String.length s - String.length suffix) s) suffix.

(** [s.split(sep)] for a non-empty [sep]: the text between the
    occurrences of [sep], found from the left without overlap.  [skip]
    counts the characters of a separator just found that are still to be
    passed; the head of the result is the piece being read. *)
Fixpoint split_from (sep : string) (skip : nat) (s : string) : list string :=
  match s with
  | EmptyString => [EmptyString]
  | String c s' =>
      match skip with
      | S k => split_from sep k s'
      | O =>
          if prefix sep s
          then EmptyString :: split_from sep (String.length sep - 1) s'
          else
            match split_from sep 0 s' with
            | piece :: pieces => String c piece :: pieces
            | [] => [String c EmptyString]
            end
      end
  end.

Definition split (sep s : string) : list string := split_from sep 0 s.

(** [s.strip(chars)]. *)
Fixpoint lstrip_chars (chars s : string) : string :=
  match s with
  | EmptyString => EmptyString
  | String c s' => if contains_char c chars then lstrip_chars chars s' else s
  end.

Fixpoint rstrip_chars (chars s : string) : string :=
  match s with
  | EmptyString => EmptyString
  | String c s' =>
      match rstrip_chars chars s' with
      | EmptyString =>
          if contains_char c chars then EmptyString else String c EmptyString
      | t => String c t
      end
  end.

Definition strip_chars (chars s : string) : string :=
  rstrip_chars chars (lstrip_chars chars s).

(** [re.split(r"[...]+", s)] for a class of characters [delim]: the text
    between the maximal runs of delimiters, with an empty piece before a
    leading run and after a trailing one.  [in_run] tells whether the
    previous character was a delimiter. *)
Fixpoint split_runs (delim : ascii -> bool) (in_run : bool) (s : string)
    : list string :=
  match s with
  | EmptyString => [EmptyString]
  | String c s' =>
      if delim c then
        if in_run then split_runs delim true s'
        else EmptyString :: split_runs delim true s'
      else
        match split_runs delim false s' with
        | piece :: pieces => String c piece :: pieces
        | [] => [String c EmptyString]
        end
  end.

Definition re_split (delim : ascii -> bool) (s : string) : list string :=
  split_runs delim false s.

(** The class [\s] of [re] on ASCII text. *)
Definition re_space (c : ascii) : bool := isspace c.

End PyStrOps.

(** ** [app/webjson.py]: the [checkInventory] endpoint *)

Module WebJsonCheck.
Import PyStr WebJson.

Definition check_url (slug : string) : string :=
  ("https://www.sanmar.com/p/" ++ slug ++ "/checkInventory")%string.

Section Fetch.
Context `{PyText}.

(** [fetch_inventory_check]: the URLs requested, in order, and the outcome.
    The [requests.get] stands before the [try]; in the [except] branch the
    function hands over to [fetch_inventory_json], for which the request
    already made is an earlier one. *)
Definition fetch_inventory_check (net : network) (slug : string) (timeout : Z)
    : list string * result (PyDict.dict pyval) :=
  let url := check_url slug in
  match net [] url timeout with
  | Failed => ([url], Raise RequestException)
  | Replied resp =>
      match decode_and_parse resp slug with
      | Ok res => ([url], Ok res)
      | Raise _ =>
          let later : network := fun earlier => net (url :: earlier) in
          let '(urls, res) := fetch_inventory_json later slug timeout in
          (url :: urls, res)
      end
  end.

End Fetch.
End WebJsonCheck.

(** ** [app/exporter.py]: saving *)

Module ExporterSave.
Import PyStr PyStrOps.

(** The writer that [save_rows] calls. *)
Inductive writer : Type :=
| to_excel
| to_csv.

(** The call [df.to_excel(path, index=False)] or
    [df.to_csv(path, index=False)]. *)
Record write : Type := mkWrite {
  write_with : writer;
  write_path : string;
  write_frame : Pandas.DataFrame
}.

(** [fmt or ("xlsx" if path.lower().endswith(".xlsx") else "csv")]. *)
Definition format_of (path : string) (fmt : option string) : string :=
  match fmt with
  | Some (String _ _ as f) => f
  | _ => if endswith (lower path) ".xlsx" then "xlsx" else "csv"
  end.

Section Save.
Context `{Dtypes.Inference}.

(** The writer of pandas: it writes the file and returns, or raises
    (there is no engine for the extension as it is written, which is
    what [to_excel] answers to a path that ends in [.XLSX]; the directory
    does not exist; the file cannot be written). *)
Variable run : write -> result unit.

(** [save_rows]: an exception of the writer is not caught. *)
Definition save_rows (rows : list (PyDict.dict pyval)) (path : string)
    (fmt : option string) : result string :=
  let fmt := format_of path fmt in
  df <- Exporter.rows_to_dataframe rows ;;
  if String.eqb fmt "xlsx" then
    let path :=
      if negb (endswith (lower path) ".xlsx") then (path ++ ".xlsx")%string
      else path in
    _ <- run (mkWrite to_excel path df) ;;
    Ok path
  else
    let path :=
      if negb (endswith (lower path) ".csv") then (path ++ ".csv")%string
      else path in
    _ <- run (mkWrite to_csv path df) ;;
    Ok path.

End Save.

End ExporterSave.

(** ** [app/cli.py]: the styles to fetch *)

Module CliStyles.
Import PyStr PyStrOps.

(** The loop of [dedupe_preserve_order]: the set [seen] and the list
    [out]. *)
Definition dedupe_step (normalize : bool) (acc : list string * list string)
    (x : string) : list string * list string :=
  let '(seen, out) := acc in
  let x := strip x in
  let x := if normalize then upper x else x in
  if String.eqb x "" || str_in x seen then (seen, out)
  else (set_add seen x, out ++ [x]).

Definition dedupe_preserve_order (items : list string) (normalize : bool)
    : list string :=
  snd (fold_left (dedupe_step normalize) items ([], [])).

(** The nested [extract_slug_from_url] of [main]; no operation of its
    [try] block raises on a [str]. *)
Definition extract_slug_from_url (u : string) : option string :=
  let parts := split "/p/" u in
  if (length parts <? 2)%nat then None
  else
    let tail := nth 1 parts "" in
    let slug := hd "" (split "/" tail) in
    match slug with
    | EmptyString => None
    | _ => Some slug
    end.

(** [[s for s in re.split(r"[,\s]+", text) if s]]: the slugs of [--styles]
    and of the styles file for the webjson backend. *)
Definition raw_slugs (text : string) : list string :=
  filter (fun s => negb (String.eqb s ""))
         (re_split (fun c => Ascii.eqb c "," || re_space c) text).

End CliStyles.

(** ** [app/search.py] *)

Module Search.
Import PyStr PyStrOps.

(** [x in v] for a str [x]: a substring of a str, an element of a list, a
    key of a dict; other values are not containers. *)
Definition contains (v : pyval) (x : string) : result bool :=
  match v with
  | PStr s => Ok (Py.is_substring x s)
  | PList l => Ok (existsb (fun e => Py.eq_str e x) l)
  | PDict d => Ok (PyDict.mem d x)
  | _ => Raise TypeError
  end.

(** The three lines of the [try] block on a [str]. *)
Definition slug_of_url (url : string) : string :=
  let slug_part := last (split "/p/" url) "" in
  let slug_part := hd "" (split "#" (hd "" (split "?" slug_part))) in
  strip_chars "/" (hd "" (split "/" slug_part)).

(** The slug of an item: from the URL when it is a str with ["/p/"] in
    it; the code otherwise, also when [url.split] raises inside the
    [try]. *)
Definition slug_of (url code : pyval) : result pyval :=
  if Py.truthy url then
    inside <- contains url "/p/" ;;
    if inside then
      match url with
      | PStr u => Ok (PStr (slug_of_url u))
      | _ => Ok code
      end
    else Ok code
  else Ok code.

(** One iteration of the loop over [results]. *)
Definition parse_item (item : pyval) : result (PyDict.dict pyval) :=
  code <- Py.get item "code" PNone ;;
  let code := Py.or_ code (PStr "") in
  name <- Py.get item "name" PNone ;;
  let name := Py.or_ name (PStr "") in
  display <- Py.get item "displayPriceText" PNone ;;
  sale <- Py.get item "salePriceText" PNone ;;
  original <- Py.get item "originalPriceText" PNone ;;
  let price := Py.or_ (Py.or_ (Py.or_ display sale) original) (PStr "") in
  style_number <- Py.get item "styleNumber" PNone ;;
  style <- Py.get item "style" PNone ;;
  let style_number := Py.or_ (Py.or_ style_number style) code in
  url <- Py.get item "url" PNone ;;
  pdp <- Py.get item "pdpUrl" PNone ;;
  let url := Py.or_ (Py.or_ url pdp) (PStr "") in
  slug <- slug_of url code ;;
  Ok [("slug", slug);
      ("code", code);
      ("styleNumber", style_number);
      ("name", name);
      ("priceText", price)].

Definition parse_search_results (data : pyval)
    : result (list (PyDict.dict pyval)) :=
  results <- Py.get data "results" PNone ;;
  products <- Py.get data "products" PNone ;;
  let results := Py.or_ (Py.or_ results products) (PList []) in
  items <- Py.iter results ;;
  mapM parse_item items.

End Search.

(** ** [app/config.py] *)

Module Config.
Import PyStr.

(** [os.environ]. *)
Definition environ : Type := PyDict.dict string.

(** [os.getenv(key, default)]. *)
Definition getenv (env : environ) (key default : string) : string :=
  PyDict.get_default env key default.

Record Settings : Type := mkSettings {
  sanmar_username : string;
  sanmar_password : string;
  sanmar_customer_number : string;
  use_test : bool;
  backend : string;
  timeout_seconds : Z;
  default_format : string
}.

(** The field defaults of the dataclass. *)
Definition defaults : Settings :=
  mkSettings "" "" "" false "promostandards" 25 "xlsx".

(** [a or b] for strs. *)
Definition or_str (a b : string) : string :=
  match a with
  | EmptyString => b
  | _ => a
  end.

(** [int(s)] for the str that [os.getenv] returns. *)
Definition int_of_text (s : string) : result Z := Py.int_of_str s.

Definition __post_init__ (self : Settings) (env : environ) : Settings :=
  mkSettings
    (strip (getenv env "SANMAR_USERNAME" (or_str (sanmar_username self) "")))
    (strip (getenv env "SANMAR_PASSWORD" (or_str (sanmar_password self) "")))
    (strip (getenv env "SANMAR_CUSTOMER_NUMBER"
              (or_str (sanmar_customer_number self) "")))
    (str_in (lower (getenv env "SANMAR_USE_TEST" "false")) ["1"; "true"; "yes"])
    (strip (lower (getenv env "SANMAR_BACKEND"
                     (or_str (backend self) "promostandards"))))
    (match int_of_text (getenv env "HTTP_TIMEOUT_SECONDS"
                          (str_of_Z (timeout_seconds self))) with
     | Ok n => n
     | Raise _ => 25
     end)
    (strip (lower (getenv env "OUTPUT_FORMAT"
                     (or_str (default_format self) "xlsx")))).

(** [Settings()]. *)
Definition new_settings (env : environ) : Settings := __post_init__ defaults env.

Definition get_endpoints (use_test : bool) : PyDict.dict string :=
  [("promostandards_inventory_wsdl",
    if use_test
    then "https://ws.sanmar.com:8080/promostandards/InventoryServiceBindingV2final?WSDL"
    else "https://ws.sanmar.com:8080/promostandards/InventoryServiceBindingV2final?WSDL");
   ("standard_inventory_wsdl",
    if use_test
    then "https://ws.sanmar.com:8080/SanMarWebService/SanMarWebServicePort?wsdl"
    else "https://ws.sanmar.com:8080/SanMarWebService/SanMarWebServicePort?wsdl")].

End Config.

(** ** [streamlit_app.py]: helpers *)

Module StreamlitApp.

(** [_sanitize_headers_for_log]: [None] and the empty dict are returned
    as they are; the mask is applied to a copy. *)
Definition _sanitize_headers_for_log (headers : option (PyDict.dict pyval))
    : option (PyDict.dict pyval) :=
  match headers with
  | None => None
  | Some [] => Some []
  | Some headers =>
      let masked := headers in
      let masked :=
        if PyDict.mem masked "Cookie"
        then PyDict.set masked "Cookie" (PStr "***") else masked in
      let masked :=
        if PyDict.mem masked "Authorization"
        then PyDict.set masked "Authorization" (PStr "***") else masked in
      Some masked
  end.

(** *** [as_bytes_xlsx_sheets]: the names of the sheets *)

(** [(raw_name or "Sheet").strip() or "Sheet"], cut to 31 characters. *)
Definition first_name (raw_name : string) : string :=
  PyStr.take 31
    (Config.or_str (PyStr.strip (Config.or_str raw_name "Sheet")) "Sheet").

(** The name tried in the [while] loop when the counter is [i]. *)
Definition numbered (base : string) (i : Z) : string :=
  let suffix := ("_" ++ PyStr.str_of_Z i)%string in
  Config.or_str
    (PyStr.take (Z.to_nat (Z.max 0 (31 - Z.of_nat (String.length suffix)))) base
     ++ suffix)
    ("Sheet_" ++ PyStr.str_of_Z i).

(** The [while name in used] loop from the state [name], [i]; [fuel]
    bounds the number of times its body runs. *)
Fixpoint unused_name (fuel : nat) (used : list string) (base name : string)
    (i : Z) : option string :=
  if str_in name used then
    match fuel with
    | O => None
    | S fuel' => unused_name fuel' used base (numbered base i) (i + 1)
    end
  else Some name.

(** The sheet names that the [for] loop passes to [df.to_excel], in the
    order of the keys of [sheets], as long as the writer accepts the
    sheets; [used] is the set of the names given so far. *)
Fixpoint sheet_names_from (fuel : nat) (used : list string)
    (raw_names : list string) : option (list string) :=
  match raw_names with
  | [] => Some []
  | raw_name :: rest =>
      let name := first_name raw_name in
      match unused_name fuel used name name 1 with
      | None => None
      | Some name =>
          match sheet_names_from fuel (set_add used name) rest with
          | None => None
          | Some names => Some (name :: names)
          end
      end
  end.

Definition sheet_names (fuel : nat) (raw_names : list string)
    : option (list string) :=
  sheet_names_from fuel [] raw_names.

End StreamlitApp.

(** ** Regular expressions: the fragment of [re] that the code uses *)

Module Regex.
Import PyStr PyStrOps.

(** A pattern is a sequence of atoms: the word boundary [\b] and a
    greedy bounded repetition [[class]{lo,hi}] of one character of a
    class. *)
Inductive atom : Type :=
| Boundary
| Repeat (class : ascii -> bool) (lo hi : nat).

(** The class [\w] on ASCII text: letters, digits and the underscore. *)
Definition is_word (c : ascii) : bool :=
  ((48 <=? code c) && (code c <=? 57)
   || (65 <=? code c) && (code c <=? 90)
   || (97 <=? code c) && (code c <=? 122)
   || (code c =? 95))%nat.

(** [\b] between the character before the position (none at the start)
    and the text from the position on. *)
Definition at_boundary (prev : option ascii) (s : string) : bool :=
  let before := match prev with Some c => is_word c | None => false end in
  let after := match s with String c _ => is_word c | EmptyString => false end in
  xorb before after.

(** The number of leading characters of [s] in the class, at most [hi]. *)
Fixpoint run_length (class : ascii -> bool) (hi : nat) (s : string) : nat :=
  match hi, s with
  | S hi', String c s' => if class c then S (run_length class hi' s') else O
  | _, _ => O
  end.

(** The last character of the [k] first ones, or [prev] when [k] is 0. *)
Definition last_of (prev : option ascii) (k : nat) (s : string) : option ascii :=
  match k with
  | O => prev
  | S k' => match drop k' s with String c _ => Some c | EmptyString => prev end
  end.

(** Backtracking over the count of a repetition: [k] characters first,
    then fewer, down to [lo]; [rest] matches what follows. *)
Fixpoint try_counts (rest : option ascii -> string -> option string)
    (lo k : nat) (prev : option ascii) (s : string) : option string :=
  if (k <? lo)%nat then None
  else
    match rest (last_of prev k s) (drop k s) with
    | Some m => Some (take k s ++ m)%string
    | None =>
        match k with
        | O => None
        | S k' => try_counts rest lo k' prev s
        end
    end.

(** The text that the pattern matches at the start of [s], if any. *)
Fixpoint match_here (pattern : list atom) (prev : option ascii) (s : string)
    : option string :=
  match pattern with
  | [] => Some EmptyString
  | Boundary :: pattern' =>
      if at_boundary prev s then match_here pattern' prev s else None
  | Repeat class lo hi :: pattern' =>
      try_counts (match_here pattern') lo (run_length class hi s) prev s
  end.

(** [pattern.findall(s)] for a pattern that matches no empty text: the
    matches from the left, without overlap.  [skip] counts the characters
    of the last match still to be passed. *)
Fixpoint findall_from (pattern : list atom) (skip : nat) (prev : option ascii)
    (s : string) : list string :=
  match s with
  | EmptyString => []
  | String c s' =>
      match skip with
      | S k => findall_from pattern k (Some c) s'
      | O =>
          match match_here pattern prev s with
          | Some m =>
              m :: findall_from pattern (String.length m - 1) (Some c) s'
          | None => findall_from pattern 0 (Some c) s'
          end
      end
  end.

Definition findall (pattern : list atom) (s : string) : list string :=
  findall_from pattern 0 None s.

End Regex.

(** ** [app/scraper.py]: style codes in a text *)

Module Scraper.
Import PyStr Regex.

(** [[A-Z]] and [\d] on ASCII text. *)
Definition is_upper (c : ascii) : bool :=
  ((65 <=? code c) && (code c <=? 90))%nat.

(** [re.compile(r"\b[A-Z]{1,5}\d{2,5}\b")]. *)
Definition STYLE_RE : list atom :=
  [Boundary; Repeat is_upper 1 5; Repeat isdigit 2 5; Boundary].

Section Styles.

(** The order in which CPython iterates a set of strings, given the
    elements in order of insertion. *)
Variable set_iter : list string -> list string.

Definition parse_styles_from_text (text : string) : list string :=
  py_sorted String.leb
    (set_iter
       (fold_left set_add (map upper (findall STYLE_RE (upper text))) [])).

End Styles.
End Scraper.

(** ** [re.sub] for the patterns of [_sanitize_xml_for_log] *)

Module RegexSub.
Import PyStr PyStrOps.

(** The lazy [.*?] followed by the literal [close]: the number of
    characters that [.*?] takes, the least [n] such that [close] stands
    after [n] characters of which none is a line feed. *)
Fixpoint lazy_until (close s : string) : option nat :=
  if prefix close s then Some O
  else
    match s with
    | EmptyString => None
    | String c s' =>
        if Ascii.eqb c "010" then None
        else option_map S (lazy_until close s')
    end.

(** The pattern [(open)(.*?)(close)] at the start of [s]: the length of
    the second group. *)
Definition match_pair (open close s : string) : option nat :=
  if prefix open s then lazy_until close (drop (String.length open) s)
  else None.

(** [re.sub(r"(open)(.*?)(close)", r"\1***\3", s)]: the matches from the
    left, without overlap, each replaced.  [skip] counts the characters
    of the last match still to be passed. *)
Fixpoint sub_from (open close : string) (skip : nat) (s : string) : string :=
  match s with
  | EmptyString => EmptyString
  | String c s' =>
      match skip with
      | S k => sub_from open close k s'
      | O =>
          match match_pair open close s with
          | Some n =>
              (open ++ "***" ++ close
               ++ sub_from open close
                    (String.length open + n + String.length close - 1) s')%string
          | None => String c (sub_from open close 0 s')
          end
      end
  end.

(** [re.sub(r"(<tag>)(.*?)(</tag>)", r"\1***\3", s)]. *)
Definition mask_tag (tag s : string) : string :=
  sub_from ("<" ++ tag ++ ">") ("</" ++ tag ++ ">") 0 s.

End RegexSub.

(** ** [streamlit_app.py]: masking the SOAP text for the log *)

Module StreamlitLog.
Import RegexSub.

(** [_sanitize_xml_for_log]: [None] and the empty text are returned as
    they are; [re.sub] raises on no [str], so that the [except] branch is
    never taken. *)
Definition _sanitize_xml_for_log (xml_text : option string) : option string :=
  match xml_text with
  | None => None
  | Some EmptyString => Some EmptyString
  | Some xml_text =>
      let masked := mask_tag "arg0" xml_text in
      let masked := mask_tag "arg1" masked in
      let masked := mask_tag "arg2" masked in
      let masked := mask_tag "shar:id" masked in
      let masked := mask_tag "shar:password" masked in
      let masked := mask_tag "id" masked in
      let masked := mask_tag "password" masked in
      Some masked
  end.

End StreamlitLog.

(** ** Notions used in the statements *)

(** *** The order that [_size_sort_key] induces *)

Module SizeOrder.
Import PyStr InventoryFormatter.

(** What the key looks at: the token upper-cased and stripped. *)
Definition normal_form (s : string) : string := strip (upper s).

(** A size token the key is defined on: ASCII text that is not blank. *)
Definition size_token (s : string) : Prop :=
  is_ascii s = true /\ normal_form s <> "".

(** [a] sorts strictly before [b]: both have a key and the key of [a] is
    the smaller tuple. *)
Definition sorts_before (a b : string) : Prop :=
  exists ka kb,
    _size_sort_key a = Ok ka /\ _size_sort_key b = Ok kb /\ key_ltb ka kb = true.

(** [a] does not sort after [b]: the key of [a] is at most that of [b]. *)
Definition not_after (a b : string) : Prop :=
  exists ka kb,
    _size_sort_key a = Ok ka /\ _size_sort_key b = Ok kb /\ key_leb ka kb = true.

Definition leading_digit (s : string) : option Z :=
  match normal_form s with
  | String c _ => if isdigit c then Some (digit_value c) else None
  | EmptyString => None
  end.

(** The letter-only sizes of the lookup table. *)
Definition letter_sizes : list string :=
  ["XS"; "S"; "M"; "L"; "XL"; "LT"; "XLT"].

(** A size the table does not know and that has no leading digit. *)
Definition unknown_size (s : string) : Prop :=
  size_token s /\ leading_digit s = None
  /\ PyDict.get size_order (normal_form s) = None.

Fixpoint ascending (l : list string) : Prop :=
  match l with
  | a :: (b :: _) as l' => sorts_before a b /\ ascending l'
  | _ => True
  end.

End SizeOrder.

(** *** What the matrix builder computes *)

Module Matrix.
Import PyStr InventoryFormatter.

(** The rows of the style of the first row: the only product the builder
    tabulates. *)
Definition first_group (rows : list row) : list row :=
  match rows with
  | [] => []
  | r0 :: _ => filter (fun r => String.eqb (style r) (style r0)) rows
  end.

(** The style of the first row. *)
Definition first_style (rows : list row) : string :=
  match rows with
  | [] => ""
  | r0 :: _ => style r0
  end.

(** The distinct non-empty sizes of a group, upper-cased, in order of
    first occurrence. *)
Definition group_sizes (g : list row) : list string :=
  fold_left
    (fun acc r =>
       match upper (size r) with
       | EmptyString => acc
       | s => set_add acc s
       end)
    g [].

(** The distinct warehouse labels of a group, in order of first
    occurrence. *)
Definition group_labels (g : list row) : list string :=
  fold_left (fun acc r => set_add acc (warehouse_name r)) g [].

(** The quantity of the last row of the group with the given label and
    (upper-cased) size; zero when there is none. *)
Definition last_qty (g : list row) (w s : string) : Z :=
  fold_left
    (fun acc r =>
       if String.eqb (warehouse_name r) w && String.eqb (upper (size r)) s
       then qty r else acc)
    g 0.

(** The text that the builder transforms, the size and the warehouse
    label, is ASCII. *)
Definition ascii_row (r : row) : Prop :=
  is_ascii (size r) = true /\ is_ascii (warehouse r) = true.

(** No size of the group is blank: every one has a sort key. *)
Definition sizes_have_keys (g : list row) : Prop :=
  Forall (fun s => SizeOrder.normal_form s <> "") (group_sizes g).

(** What one iteration of the grouping loop does to the accumulator of
    the row's style. *)
Definition add_to_product (p : product_data) (r : row) : product_data :=
  let size := upper (size r) in
  let name := warehouse_name r in
  let qty := if qty r =? 0 then 0 else qty r in
  let szs :=
    match size with
    | EmptyString => sizes p
    | _ => set_add (sizes p) size
    end in
  let whs :=
    if PyDict.mem (warehouses p) name then warehouses p
    else PyDict.set (warehouses p) name [] in
  let inner := PyDict.get_default whs name [] in
  mkProduct szs (PyDict.set whs name (PyDict.set inner size qty))
            (case_size p) (pricing p).

(** The quantity the table shows for a warehouse and a size. *)
Definition cell_of (whs : PyDict.dict (PyDict.dict Z)) (w s : string) : Z :=
  match PyDict.get whs w with
  | Some inner => PyDict.get_default inner s 0
  | None => 0
  end.

(** A table row before the frame is built. *)
Definition record_of (label : string) (all_sizes : list string)
    (f : string -> pyval) : PyDict.dict pyval :=
  ("", PStr label) :: map (fun s => (s, f s)) all_sizes.

(** The frame that [set_index] leaves, from the labels and the cells of
    the table rows. *)
Definition frame_of (lfs : list (string * (string -> pyval)))
    (all_sizes : list string) : Pandas.DataFrame :=
  Pandas.mkDataFrame (Some "")
    (map (fun lf => PStr (fst lf)) lfs)
    all_sizes
    (map (fun lf => map (snd lf) all_sizes) lfs).

(** The sum of a list of quantities. *)
Definition total (l : list Z) : Z := fold_right Z.add 0 l.

(** A quantity that comes from the rows: that of a row, or 0, which the
    table shows for a warehouse and a size without a row. *)
Definition from_rows (rows : list row) (z : Z) : Prop :=
  z = 0 \/ exists r, In r rows /\ qty r = z.

(** Column [j] of a block of rows of quantities. *)
Definition column (j : nat) (cells : list (list Z)) : list Z :=
  map (fun r => nth j r 0) cells.

(** The matrix for the sizes [all_sizes], the warehouses [ws] and the
    quantities [cell]: the Price, Case Size and header rows, one row per
    warehouse, and the Total row. *)
Definition matrix (all_sizes ws : list string)
    (cell : string -> string -> Z)
    (pricing_data : option (PyDict.dict float)) : Pandas.DataFrame :=
  Pandas.mkDataFrame (Some "")
    (map PStr (["Price: $"; "Case Size"; "Warehouse"] ++ ws ++ ["Total Inventory"]))
    all_sizes
    ([map (fun s => PStr (get_size_price s pricing_data)) all_sizes;
      map (fun _ => PNone) all_sizes;
      map PStr all_sizes]
     ++ map (fun w => map (fun s => PInt (cell w s)) all_sizes) ws
     ++ [map (fun s => PInt (total (map (fun w => cell w s) ws))) all_sizes]).

End Matrix.

(** A runtime instance to evaluate the worked examples of the parser,
    none of which converts a float to or from text. *)
Definition example_text : PyText :=
  {| float_of_str := fun _ => None;
     repr_float := fun _ => "";
     repr_str := fun s => s |}.

(** A set that iterates in insertion order, for the worked examples. *)
Definition insertion_order (l : list string) : list string := l.

(** *** The stock entries that produce a row *)

Module Stock.

(** The entries of a stock map whose quantity [int] accepts, with the
    integer. *)
Definition coercible (items : list (string * pyval)) : list (string * Z) :=
  flat_map
    (fun item =>
       match Py.int (snd item) with
       | Ok n => [(fst item, n)]
       | Raise _ => []
       end)
    items.

(** The variant options that the parser loops over. *)
Definition options (data : pyval) : list pyval :=
  match (product <- Py.get data "product" (PDict []) ;;
         variant_options <- Py.get product "variantOptions" (PList []) ;;
         Py.iter variant_options) with
  | Ok opts => opts
  | Raise _ => []
  end.

(** The stock map of a variant option: [stockLevelsMap] when it is not
    empty, [availableStockMap] otherwise. *)
Definition stock_map (opt : pyval) : list (string * pyval) :=
  match (levels <- Py.get opt "stockLevelsMap" (PDict []) ;;
         available <- Py.get opt "availableStockMap" (PDict []) ;;
         Ok (Py.or_ levels available)) with
  | Ok (PDict items) => items
  | _ => []
  end.

(** The stock entries of a payload, in the order of the payload. *)
Definition entries (data : pyval) : list (string * pyval) :=
  flat_map stock_map (options data).

(** The warehouse and the quantity of a row. *)
Definition stock_of (r : PyDict.dict pyval) : option pyval * option pyval :=
  (PyDict.get r "warehouseId", PyDict.get r "qty").

(** The text under a key of a dictionary. *)
Definition text_at (r : PyDict.dict pyval) (k : string) : option string :=
  match PyDict.get r k with
  | Some (PStr s) => Some s
  | _ => None
  end.

(** The Canonical Row that a dictionary is, when it has the ten keys with
    values of their types: the row that the matrix builder reads when it
    is given the dictionary. *)
Definition canonical (r : PyDict.dict pyval) : option row :=
  match text_at r "style", text_at r "partId", text_at r "color",
        text_at r "size", text_at r "description", text_at r "warehouseId",
        text_at r "warehouse" with
  | Some style, Some partId, Some color, Some size, Some description,
    Some warehouseId, Some warehouse =>
      match PyDict.get r "qty" with
      | Some (PInt qty) =>
          match PyDict.get r "totalAvailable", PyDict.get r "price" with
          | Some PNone, Some PNone =>
              Some (mkRow style partId color size description warehouseId
                      warehouse qty None None)
          | Some (PInt n), Some PNone =>
              Some (mkRow style partId color size description warehouseId
                      warehouse qty (Some n) None)
          | Some PNone, Some (PFloat f) =>
              Some (mkRow style partId color size description warehouseId
                      warehouse qty None (Some f))
          | Some (PInt n), Some (PFloat f) =>
              Some (mkRow style partId color size description warehouseId
                      warehouse qty (Some n) (Some f))
          | _, _ => None
          end
      | _ => None
      end
  | _, _, _, _, _, _, _ => None
  end.

End Stock.

(** *** The outcome of a fetch *)

Module Fetch.
Import WebJson.

(** The attempt on a response fails: the status is an error, the body
    does not decode, or the parser raises. *)
Definition attempt_fails `{PyText} (resp : response) (slug : string) : Prop :=
  exists e, decode_and_parse resp slug = Raise e.



(** Every row of the envelope has the given style and colour. *)
Definition rows_carry (env : PyDict.dict pyval) (st col : string) : Prop :=
  exists rows,
    PyDict.get env "rows" = Some (PList rows)
    /\ Forall (fun r => exists d, r = PDict d
                        /\ PyDict.get d "style" = Some (PStr st)
                        /\ PyDict.get d "color" = Some (PStr col)) rows.

End Fetch.

(** *** The flat export *)

Module Flat.
Import Dtypes.


(** [pd.isna(v)]: None and NaN are null. *)
Definition isna (v : pyval) : bool :=
  match v with
  | PNone => true
  | PFloat f => is_nan f
  | _ => false
  end.

End Flat.

(** *** Worked inputs *)

Module Examples.

(** A row with the fields the builder reads. *)
Definition stock (style size warehouseId warehouse : string) (qty : Z) : row :=
  mkRow style "" "" size "" warehouseId warehouse qty None None.

(** Two warehouses, one size. *)
Definition two_warehouses : list row :=
  [stock "PC61" "M" "1" "Dallas, TX" 5; stock "PC61" "M" "2" "Reno, NV" 3].

(** One warehouse, three sizes. *)
Definition three_sizes : list row :=
  [stock "PC61" "S" "1" "Dallas, TX" 5;
   stock "PC61" "M" "1" "Dallas, TX" 3;
   stock "PC61" "L" "1" "Dallas, TX" 2].

(** Rows without a size. *)
Definition no_sizes : list row :=
  [stock "PC61" "" "1" "Dallas, TX" 5; stock "PC61" "" "2" "Reno, NV" 3].

(** Two rows for one warehouse and size, and a second warehouse. *)
Definition duplicates : list row :=
  [stock "PC61" "M" "1" "Dallas, TX" 5;
   stock "PC61" "M" "2" "Reno, NV" 3;
   stock "PC61" "m" "1" "Dallas, TX" 9].

(** A payload with one variant, size M, and one stock entry. *)
Definition payload : pyval :=
  PDict
    [("product",
      PDict
        [("code", PStr "60397");
         ("name", PStr "Polo");
         ("variantOptions",
          PList
            [PDict
               [("variantOptionQualifiers",
                 PList [PDict [("qualifier", PStr "size"); ("value", PStr "M")]]);
                ("stockLevelsMap", PDict [("1", PInt 5)])]])]);
     ("warehouses",
      PList [PDict [("code", PStr "1"); ("shortName", PStr "Dallas, TX")]])].

(** What the parser makes of [payload] under a style and a colour. *)
Definition parsed_payload (style color : string) : PyDict.dict pyval :=
  [("rows",
    PList
      [PDict
         [("style", PStr style); ("partId", PStr "");
          ("color", PStr color); ("size", PStr "M");
          ("description", PStr "Polo"); ("warehouseId", PStr "1");
          ("warehouse", PStr "Dallas, TX"); ("qty", PInt 5);
          ("totalAvailable", PNone); ("price", PNone)]])].

Definition not_found : WebJson.response :=
  WebJson.mkResponse 404 [("Content-Type", "text/html")] "<html>Not Found</html>" None.

Definition found : WebJson.response :=
  WebJson.mkResponse 200 [("Content-Type", "application/json")] "{...}" (Some payload).

(** A network where nothing is found. *)
Definition net_not_found : WebJson.network := fun _ _ _ => WebJson.Replied not_found.

(** A network that is down. *)
Definition net_down : WebJson.network := fun _ _ _ => WebJson.Failed.

(** A network that knows the base style only: the first request is not
    found, the second one is answered. *)
Definition net_base_only : WebJson.network :=
  fun earlier _ _ =>
    match earlier with
    | [] => WebJson.Replied not_found
    | _ => WebJson.Replied found
    end.

(** A network that answers the first request. *)
Definition net_found : WebJson.network := fun _ _ _ => WebJson.Replied found.



(** The payload with the quantity "-3" in place of 5. *)
Definition negative_payload : pyval :=
  PDict
    [("product",
      PDict
        [("code", PStr "60397");
         ("name", PStr "Polo");
         ("variantOptions",
          PList
            [PDict
               [("variantOptionQualifiers",
                 PList [PDict [("qualifier", PStr "size"); ("value", PStr "M")]]);
                ("stockLevelsMap", PDict [("1", PStr "-3")])]])]);
     ("warehouses",
      PList [PDict [("code", PStr "1"); ("shortName", PStr "Dallas, TX")]])].

(** The row that the parser makes of it. *)
Definition negative_row : row :=
  mkRow "60397" "" "" "M" "Polo" "1" "Dallas, TX" (-3) None None.

(** A payload with three stock entries for the size M: one an integer,
    one that [int] rejects, one a text that [int] accepts. *)
Definition mixed_payload : pyval :=
  PDict
    [("product",
      PDict
        [("code", PStr "PC61");
         ("name", PStr "Tee");
         ("variantOptions",
          PList
            [PDict
               [("variantOptionQualifiers",
                 PList [PDict [("qualifier", PStr "size"); ("value", PStr "M")]]);
                ("stockLevelsMap",
                 PDict [("1", PInt 5); ("2", PStr "n/a"); ("3", PStr " 7 ")])]])]);
     ("warehouses",
      PList [PDict [("code", PStr "1"); ("shortName", PStr "Dallas, TX")];
             PDict [("code", PStr "2"); ("shortName", PStr "Reno, NV")];
             PDict [("code", PStr "3"); ("shortName", PStr "Seattle, WA")]])].

(** The Canonical Rows of [mixed_payload] under the slug PC61. *)
Definition mixed_rows : list row :=
  [mkRow "PC61" "" "" "M" "Tee" "1" "Dallas, TX" 5 None None;
   mkRow "PC61" "" "" "M" "Tee" "3" "Seattle, WA" 7 None None].

(** The same rows as dictionaries, and as the parser returns them. *)
Definition mixed_dicts : list (PyDict.dict pyval) :=
  [[("style", PStr "PC61"); ("partId", PStr "");
    ("color", PStr ""); ("size", PStr "M");
    ("description", PStr "Tee"); ("warehouseId", PStr "1");
    ("warehouse", PStr "Dallas, TX"); ("qty", PInt 5);
    ("totalAvailable", PNone); ("price", PNone)];
   [("style", PStr "PC61"); ("partId", PStr "");
    ("color", PStr ""); ("size", PStr "M");
    ("description", PStr "Tee"); ("warehouseId", PStr "3");
    ("warehouse", PStr "Seattle, WA"); ("qty", PInt 7);
    ("totalAvailable", PNone); ("price", PNone)]].

Definition parsed_mixed_payload : PyDict.dict pyval :=
  [("rows", PList (map PDict mixed_dicts))].

(** An inference for the worked examples: a column of ints is int64, a
    column of numbers and nulls with a float or a null in it is float64,
    a column of bools is bool, every other column is object. *)
Definition is_int (v : pyval) : bool :=
  match v with PInt _ => true | _ => false end.

Definition is_number_or_null (v : pyval) : bool :=
  match v with PInt _ | PFloat _ | PNone => true | _ => false end.

Definition is_bool (v : pyval) : bool :=
  match v with PBool _ => true | _ => false end.

Definition example_dtypes : Dtypes.Inference :=
  {| Dtypes.infer := fun col =>
       match col with
       | [] => Dtypes.object_
       | _ =>
           if forallb is_int col then Dtypes.int64
           else if forallb is_number_or_null col && negb (forallb Flat.isna col)
           then Dtypes.float64
           else if forallb is_bool col then Dtypes.bool_
           else Dtypes.object_
       end |}.

(** Two rows of a second style for the warehouse and the size of the
    first row. *)
Definition duplicates_of_another_style : list row :=
  [stock "A" "M" "1" "Dallas, TX" 1;
   stock "B" "M" "1" "Dallas, TX" 5;
   stock "B" "M" "1" "Dallas, TX" 9].

End Examples.

(** *** The order of the warehouse rows *)

Module WarehouseOrder.
Import InventoryFormatter.

(** [a] is shown above [b]: a warehouse of the known list comes before
    one that follows it in the list and before every other warehouse;
    two warehouses outside the list are in the order of their names. *)
Definition shown_before (a b : string) : Prop :=
  match Pandas.index_of a known_order, Pandas.index_of b known_order with
  | Some i, Some j => (i < j)%nat
  | Some _, None => True
  | None, Some _ => False
  | None, None => String.ltb a b = true
  end.

End WarehouseOrder.

(** *** More worked inputs *)

Module MoreExamples.

(** A row whose size is a single space. *)
Definition blank_size : list row :=
  [Examples.stock "PC61" " " "1" "Dallas, TX" 5].

(** Two styles; the second one has a blank size. *)
Definition two_styles : list row :=
  [Examples.stock "PC61" "M" "1" "Dallas, TX" 5;
   Examples.stock "K420" " " "1" "Dallas, TX" 7;
   Examples.stock "PC61" "L" "2" "Reno, NV" 3].

(** Warehouses inside and outside the known list, out of order. *)
Definition mixed_warehouses : list row :=
  [Examples.stock "PC61" "M" "7" "Zion, IL" 1;
   Examples.stock "PC61" "M" "6" "Reno, NV" 2;
   Examples.stock "PC61" "M" "8" "Akron, OH" 3;
   Examples.stock "PC61" "M" "1" "Dallas, TX" 4].

(** A response with status 200 whose body is the JSON list [[]]. *)
Definition json_list : WebJson.response :=
  WebJson.mkResponse 200 [("Content-Type", "application/json")] "[]"
    (Some (PList [])).

Definition net_json_list : WebJson.network :=
  fun _ _ _ => WebJson.Replied json_list.

End MoreExamples.

(** *** The default prices *)

Module Prices.

(** The price shown for a size when no pricing data is given. *)
Definition default_price (size : string) : string :=
  let size := PyStr.upper size in
  if String.eqb size "2XLT" then "38.26"
  else if String.eqb size "3XLT" then "40.26"
  else if String.eqb size "4XLT" then "41.26"
  else "37.26".

End Prices.

(** *** Saving *)

Module Save.

(** The file extension that goes with a writer. *)
Definition extension (w : ExporterSave.writer) : string :=
  match w with
  | ExporterSave.to_excel => ".xlsx"
  | ExporterSave.to_csv => ".csv"
  end.

End Save.

(** *** The styles of the command line *)

Module Styles.
Import PyStr.

(** The form under which [dedupe_preserve_order] compares and keeps an
    item: stripped, and upper-cased when [normalize] is set. *)
Definition normal (normalize : bool) (x : string) : string :=
  let x := strip x in
  if normalize then upper x else x.

(** What an item adds to the styles kept so far: its form, when it is
    not empty and not there yet. *)
Definition add (normalize : bool) (out : list string) (x : string)
    : list string :=
  let y := normal normalize x in
  if String.eqb y "" || str_in y out then out else out ++ [y].

End Styles.

(** *** Search results *)

Module Found.

(** The keys of a record of [parse_search_results]. *)
Definition fields : list string :=
  ["slug"; "code"; "styleNumber"; "name"; "priceText"].

(** The characters that end the slug in a URL. *)
Definition ends_slug (c : ascii) : bool :=
  Ascii.eqb c "/" || Ascii.eqb c "?" || Ascii.eqb c "#".

Fixpoint plain (s : string) : bool :=
  match s with
  | EmptyString => true
  | String c s' => negb (ends_slug c) && plain s'
  end.

(** An item of the search results with the given keys only. *)
Definition item (code url : string) : pyval :=
  PDict [("code", PStr code); ("url", PStr url)].

End Found.

(** *** Lists of slugs *)

Module Slugs.
Import PyStr PyStrOps.

(** The characters that separate the slugs of [--styles]. *)
Definition separates (c : ascii) : bool := Ascii.eqb c "," || re_space c.

Fixpoint all_chars (p : ascii -> bool) (s : string) : bool :=
  match s with
  | EmptyString => true
  | String c s' => p c && all_chars p s'
  end.

(** A slug as it can be written in a list: not empty, without comma and
    white space. *)
Definition writable (s : string) : Prop :=
  s <> "" /\ all_chars (fun c => negb (separates c)) s = true.

(** A separator: one or more commas and white-space characters. *)
Definition separator (s : string) : Prop :=
  s <> "" /\ all_chars separates s = true.

End Slugs.

(** *** Style codes *)

Module Codes.
Import PyStr.

(** The shape of a style code: one to five capital letters followed by
    two to five digits. *)
Definition style_shape (s : string) : Prop :=
  exists letters digits,
    s = (letters ++ digits)%string
    /\ (1 <= String.length letters <= 5)%nat
    /\ Slugs.all_chars Scraper.is_upper letters = true
    /\ (2 <= String.length digits <= 5)%nat
    /\ Slugs.all_chars isdigit digits = true.

(** Text that can stand between two codes: not empty, without letters,
    digits and underscores. *)
Definition gap (s : string) : Prop :=
  s <> "" /\ Slugs.all_chars (fun c => negb (Regex.is_word c)) s = true.

(** Where a code may start: at the start of the text or after a
    character that is no letter, digit or underscore. *)
Definition code_start (prev : option ascii) : Prop :=
  match prev with
  | None => True
  | Some c => Regex.is_word c = false
  end.

(** Where a code may end: at the end of the text or before such a
    character. *)
Definition code_end (rest : string) : Prop :=
  match rest with
  | EmptyString => True
  | String c _ => Regex.is_word c = false
  end.

End Codes.

(** *** Masked values *)

Module Masking.
Import RegexSub.

Definition is_lt (c : ascii) : bool := Ascii.eqb c "<".

Definition is_nl (c : ascii) : bool := Ascii.eqb c "010".

(** A value on one line without markup: no [<] and no line feed. *)
Definition plain (v : string) : Prop :=
  Slugs.all_chars (fun c => negb (is_lt c) && negb (is_nl c)) v = true.

Definition open_tag (tag : string) : string := ("<" ++ tag ++ ">")%string.

Definition close_tag (tag : string) : string := ("</" ++ tag ++ ">")%string.

(** The tags whose values [_sanitize_xml_for_log] masks. *)
Definition masked_tags : list string :=
  ["arg0"; "arg1"; "arg2"; "shar:id"; "shar:password"; "id"; "password"].

(** Every plain value that [out] shows between the tags of [tag] is the
    mask. *)
Definition masked (tag out : string) : Prop :=
  forall pre v post : string,
    out = (pre ++ open_tag tag ++ v ++ close_tag tag ++ post)%string ->
    plain v -> v = "***".

(** Two texts differ at a place that both have. *)
Fixpoint differ (a b : string) : bool :=
  match a, b with
  | String x a', String y b' => negb (Ascii.eqb x y) || differ a' b'
  | _, _ => false
  end.

(** No match of a pattern that starts with [open] can start inside [w],
    whatever follows [w]: at every [<] of [w] the text differs from
    [open]. *)
Fixpoint clear (open w : string) : bool :=
  match w with
  | EmptyString => true
  | String c w' => (negb (is_lt c) || differ w open) && clear open w'
  end.

(** The tag [k] can be told from the pattern of the tag [j]. *)
Definition apart (j k : string) : bool :=
  clear (open_tag j) (open_tag k) && clear (open_tag j) (close_tag k)
  && differ (open_tag k) (close_tag j).

(** No opening tag of a masked element starts in [pre], whole or cut off
    by the end of [pre]. *)
Definition tag_free (pre : string) : bool :=
  forallb (fun j => clear (open_tag j) pre) masked_tags.

(** What the proofs use of a tag: its name has no [<] and no line feed
    and does not start with [/]. *)
Definition tag_ok (tag : string) : bool :=
  Slugs.all_chars (fun c => negb (is_lt c) && negb (is_nl c)) tag
  && differ (open_tag tag) (close_tag tag).

End Masking.

(** * Properties *)

(** ** Comparison of strings and of keys *)

Section StringOrder.

Lemma ascii_compare_refl (c : ascii) : Ascii.compare c c = Eq.
Proof. unfold Ascii.compare. apply N.compare_refl. Qed.

Lemma ascii_compare_lt_trans (a b c : ascii) :
  Ascii.compare a b = Lt -> Ascii.compare b c = Lt -> Ascii.compare a c = Lt.
Proof.
  unfold Ascii.compare. rewrite !N.compare_lt_iff. apply N.lt_trans.
Qed.

Lemma string_compare_refl (s : string) : String.compare s s = Eq.
Proof.
  induction s as [|c s IH]; simpl; [reflexivity|].
  now rewrite ascii_compare_refl.
Qed.

Lemma string_compare_lt_trans (a b c : string) :
  String.compare a b = Lt -> String.compare b c = Lt -> String.compare a c = Lt.
Proof.
  revert b c.
  induction a as [|x a IH]; intros [|y b] [|z c]; simpl; try congruence.
  destruct (Ascii.compare x y) eqn:Hxy; try discriminate;
    destruct (Ascii.compare y z) eqn:Hyz; try discriminate; intros Hab Hbc.
  - apply Ascii.compare_eq_iff in Hxy, Hyz. subst.
    rewrite ascii_compare_refl. eauto.
  - apply Ascii.compare_eq_iff in Hxy. subst. now rewrite Hyz.
  - apply Ascii.compare_eq_iff in Hyz. subst. now rewrite Hxy.
  - now rewrite (ascii_compare_lt_trans _ _ _ Hxy Hyz).
Qed.

Lemma string_ltb_irrefl (s : string) : String.ltb s s = false.
Proof. unfold String.ltb. now rewrite string_compare_refl. Qed.

Lemma string_ltb_trans (a b c : string) :
  String.ltb a b = true -> String.ltb b c = true -> String.ltb a c = true.
Proof.
  unfold String.ltb.
  destruct (String.compare a b) eqn:Hab; try discriminate.
  destruct (String.compare b c) eqn:Hbc; try discriminate.
  now rewrite (string_compare_lt_trans _ _ _ Hab Hbc).
Qed.

Lemma string_trichotomy (a b : string) :
  String.ltb a b = true \/ a = b \/ String.ltb b a = true.
Proof.
  unfold String.ltb. rewrite (String.compare_antisym b a).
  destruct (String.compare a b) eqn:Hab; simpl; auto.
  apply String.compare_eq_iff in Hab. auto.
Qed.

Lemma key_ltb_irrefl (k : Z * string) : key_ltb k k = false.
Proof.
  unfold key_ltb. rewrite Z.ltb_irrefl, string_ltb_irrefl.
  now rewrite andb_false_r.
Qed.

Lemma key_ltb_trans (a b c : Z * string) :
  key_ltb a b = true -> key_ltb b c = true -> key_ltb a c = true.
Proof.
  unfold key_ltb. destruct a as [m s], b as [n t], c as [p u]. simpl.
  rewrite !orb_true_iff, !andb_true_iff, !Z.ltb_lt, !Z.eqb_eq.
  intros [Hmn | [Hmn Hst]] [Hnp | [Hnp Htu]]; subst.
  - left. lia.
  - now left.
  - now left.
  - right. split; [reflexivity|]. eapply string_ltb_trans; eassumption.
Qed.

Lemma key_trichotomy (a b : Z * string) :
  key_ltb a b = true \/ a = b \/ key_ltb b a = true.
Proof.
  unfold key_ltb. destruct a as [m s], b as [n t]. simpl.
  destruct (Z.lt_trichotomy m n) as [H | [H | H]].
  - left. apply orb_true_iff. left. now apply Z.ltb_lt.
  - subst. rewrite Z.eqb_refl, Z.ltb_irrefl. simpl.
    destruct (string_trichotomy s t) as [Hs | [Hs | Hs]]; subst; auto.
  - right. right. apply orb_true_iff. left. now apply Z.ltb_lt.
Qed.

Lemma key_ltb_fst (a b : Z * string) : fst a < fst b -> key_ltb a b = true.
Proof.
  intros Hlt. unfold key_ltb. apply orb_true_iff. left. now apply Z.ltb_lt.
Qed.

End StringOrder.

(** ** The size sort key *)

Section SizeKey.
Import PyStr InventoryFormatter SizeOrder.

Lemma digit_value_range (c : ascii) :
  isdigit c = true -> 0 <= digit_value c <= 9.
Proof.
  unfold isdigit, digit_value. rewrite andb_true_iff, !Nat.leb_le. lia.
Qed.

Lemma digit_value_inj (c d : ascii) :
  isdigit c = true -> isdigit d = true ->
  digit_value c = digit_value d -> c = d.
Proof.
  unfold isdigit, digit_value, code.
  rewrite !andb_true_iff, !Nat.leb_le. intros Hc Hd Heq.
  rewrite <- (ascii_nat_embedding c), <- (ascii_nat_embedding d).
  f_equal. lia.
Qed.

(** The rank the table gives a size without a leading digit: the entries
    for 2XLT, 3XLT and 4XLT are never reached. *)
Lemma letter_rank (c : ascii) (base : string) :
  isdigit c = false ->
  let r := PyDict.get_default size_order (String c base) 99 in
  1 <= r <= 7 \/ (r = 99 /\ PyDict.get size_order (String c base) = None).
Proof.
  intros Hc. unfold PyDict.get_default, size_order. cbn [PyDict.get].
  repeat match goal with
  | |- context [String.eqb ?k (String c base)] =>
      destruct (String.eqb_spec k (String c base)) as [Heq | _];
      [ try (left; lia);
        injection Heq as Heq _; subst c; discriminate Hc | ]
  end.
  right. split; reflexivity.
Qed.

Lemma size_key_digit (a : string) (c : ascii) (base : string) :
  normal_form a = String c base -> isdigit c = true ->
  _size_sort_key a = Ok (digit_value c + 10, base).
Proof.
  unfold normal_form, _size_sort_key. intros -> Hc. now rewrite Hc.
Qed.

Lemma size_key_letter (a : string) (c : ascii) (base : string) :
  normal_form a = String c base -> isdigit c = false ->
  _size_sort_key a =
  Ok (PyDict.get_default size_order (String c base) 99, String c base).
Proof.
  unfold normal_form, _size_sort_key. intros -> Hc. now rewrite Hc.
Qed.

Lemma size_key_defined (a : string) :
  normal_form a <> "" -> exists k, _size_sort_key a = Ok k.
Proof.
  intros Ha. destruct (normal_form a) as [|c base] eqn:Hn; [congruence|].
  destruct (isdigit c) eqn:Hc.
  - eexists. eapply size_key_digit; eassumption.
  - eexists. eapply size_key_letter; eassumption.
Qed.

Lemma size_key_blank (a : string) :
  normal_form a = "" -> _size_sort_key a = Raise IndexError.
Proof. unfold normal_form, _size_sort_key. now intros ->. Qed.

(** Tokens with one key have one normal form. *)
Lemma size_key_inj (a b : string) (k : Z * string) :
  _size_sort_key a = Ok k -> _size_sort_key b = Ok k ->
  normal_form a = normal_form b.
Proof.
  destruct (normal_form a) as [|c s] eqn:Ha;
    [rewrite (size_key_blank a Ha); discriminate|].
  destruct (normal_form b) as [|d t] eqn:Hb;
    [rewrite (size_key_blank b Hb); discriminate|].
  destruct (isdigit c) eqn:Hc, (isdigit d) eqn:Hd.
  - rewrite (size_key_digit a c s Ha Hc), (size_key_digit b d t Hb Hd).
    intros H1 H2. rewrite <- H1 in H2. injection H2 as Hv Ht. subst t.
    f_equal. apply digit_value_inj; auto. lia.
  - rewrite (size_key_digit a c s Ha Hc), (size_key_letter b d t Hb Hd).
    intros H1 H2. rewrite <- H1 in H2. injection H2 as Hv _. exfalso.
    pose proof (digit_value_range c Hc).
    destruct (letter_rank d t Hd) as [Hr | [Hr _]]; lia.
  - rewrite (size_key_letter a c s Ha Hc), (size_key_digit b d t Hb Hd).
    intros H1 H2. rewrite <- H1 in H2. injection H2 as Hv _. exfalso.
    pose proof (digit_value_range d Hd).
    destruct (letter_rank c s Hc) as [Hr | [Hr _]]; lia.
  - rewrite (size_key_letter a c s Ha Hc), (size_key_letter b d t Hb Hd).
    intros H1 H2. rewrite <- H1 in H2. congruence.
Qed.

Lemma sorts_before_irrefl (a : string) : ~ sorts_before a a.
Proof.
  intros (ka & kb & Ha & Hb & Hlt). rewrite Ha in Hb. injection Hb as <-.
  now rewrite key_ltb_irrefl in Hlt.
Qed.

Lemma sorts_before_trans (a b c : string) :
  sorts_before a b -> sorts_before b c -> sorts_before a c.
Proof.
  intros (ka & kb & Ha & Hb & Hab) (kb' & kc & Hb' & Hc & Hbc).
  rewrite Hb in Hb'. injection Hb' as <-.
  exists ka, kc. repeat split; auto. eapply key_ltb_trans; eassumption.
Qed.

Lemma sorts_before_total (a b : string) :
  normal_form a <> "" -> normal_form b <> "" ->
  sorts_before a b \/ normal_form a = normal_form b \/ sorts_before b a.
Proof.
  intros Ha Hb.
  destruct (size_key_defined a Ha) as [ka Hka].
  destruct (size_key_defined b Hb) as [kb Hkb].
  destruct (key_trichotomy ka kb) as [H | [H | H]].
  - left. now exists ka, kb.
  - subst kb. right. left. eapply size_key_inj; eassumption.
  - right. right. now exists kb, ka.
Qed.

Lemma letter_size_rank (t : string) :
  In t letter_sizes -> exists n, _size_sort_key t = Ok (n, t) /\ 1 <= n <= 7.
Proof.
  unfold letter_sizes. simpl.
  intros H; repeat destruct H as [<- | H]; try contradiction;
    eexists; (split; [vm_compute; reflexivity | lia]).
Qed.

Lemma leading_digit_key (d : string) (n : Z) :
  leading_digit d = Some n ->
  exists base, _size_sort_key d = Ok (n + 10, base) /\ 0 <= n <= 9.
Proof.
  unfold leading_digit.
  destruct (normal_form d) as [|c base] eqn:Hn; [discriminate|].
  destruct (isdigit c) eqn:Hc; [|discriminate].
  intros [= <-]. exists base. split.
  - now apply size_key_digit.
  - now apply digit_value_range.
Qed.

Lemma unknown_size_key (u : string) :
  unknown_size u -> _size_sort_key u = Ok (99, normal_form u).
Proof.
  intros [[_ Hne] [Hd Hget]]. unfold leading_digit in Hd.
  destruct (normal_form u) as [|c base] eqn:Hn; [congruence|].
  destruct (isdigit c) eqn:Hc; [discriminate|].
  rewrite (size_key_letter u c base Hn Hc).
  unfold PyDict.get_default. now rewrite Hget.
Qed.

(** A known token has a key below 99. *)
Lemma known_size_key (a : string) :
  size_token a -> ~ unknown_size a ->
  exists k, _size_sort_key a = Ok k /\ fst k < 99.
Proof.
  intros Htok Hknown. pose proof Htok as [_ Hne].
  destruct (normal_form a) as [|c base] eqn:Hn; [congruence|].
  destruct (isdigit c) eqn:Hc.
  - eexists. split; [eapply size_key_digit; eassumption|]. simpl.
    pose proof (digit_value_range c Hc). lia.
  - eexists. split; [eapply size_key_letter; eassumption|]. simpl.
    destruct (letter_rank c base Hc) as [Hr | [_ Hget]]; [lia|].
    exfalso. apply Hknown. split; [exact Htok|].
    unfold leading_digit. rewrite Hn, Hc. now split.
Qed.

End SizeKey.

Section SizeOrderClaim.
Import PyStr InventoryFormatter SizeOrder.

(** C4, as stated, fails: the sort key does not order the size tokens
    totally.  The tokens ["M"] and ["M "] are different, both have a key,
    the keys are equal, and neither token sorts before the other. *)
Lemma size_sort_key_ties :
  size_token "M" /\ size_token "M " /\ "M" <> "M "
  /\ _size_sort_key "M" = Ok (3, "M") /\ _size_sort_key "M " = Ok (3, "M")
  /\ ~ sorts_before "M" "M " /\ ~ sorts_before "M " "M".
Proof.
  repeat split; try discriminate.
  - intros (ka & kb & Ha & Hb & Hlt).
    vm_compute in Ha, Hb. injection Ha as <-. injection Hb as <-.
    discriminate Hlt.
  - intros (ka & kb & Ha & Hb & Hlt).
    vm_compute in Ha, Hb. injection Ha as <-. injection Hb as <-.
    discriminate Hlt.
Qed.

(** C4 (amended): on size tokens that are not blank, comparing the keys of
    [_size_sort_key] is a strict order that is total up to case and
    surrounding white space: two tokens are ordered one way or the other
    unless they have the same upper-cased, stripped form, and then they
    share a key.  The order satisfies
    XS < S < M < L < XL < LT < XLT < 2XLT < 3XLT < 4XLT; every size with a
    leading digit sorts after the letter-only sizes of the table, and
    such sizes are grouped by their leading digit; sizes unknown to the
    table sort after all others, ordered by name. *)
Theorem size_sort_key_order :
  (forall a, size_token a -> exists k, _size_sort_key a = Ok k)
  /\ (forall a, ~ sorts_before a a)
  /\ (forall a b c, sorts_before a b -> sorts_before b c -> sorts_before a c)
  /\ (forall a b, size_token a -> size_token b ->
        sorts_before a b \/ normal_form a = normal_form b \/ sorts_before b a)
  /\ (forall a b, normal_form a = normal_form b ->
        _size_sort_key a = _size_sort_key b)
  /\ ascending ["XS"; "S"; "M"; "L"; "XL"; "LT"; "XLT"; "2XLT"; "3XLT"; "4XLT"]
  /\ (forall t d n, In t letter_sizes -> leading_digit d = Some n ->
        sorts_before t d)
  /\ (forall d1 d2 n1 n2,
        leading_digit d1 = Some n1 -> leading_digit d2 = Some n2 ->
        n1 < n2 -> sorts_before d1 d2)
  /\ (forall a u, size_token a -> ~ unknown_size a -> unknown_size u ->
        sorts_before a u)
  /\ (forall u1 u2, unknown_size u1 -> unknown_size u2 ->
        (sorts_before u1 u2 <->
         String.ltb (normal_form u1) (normal_form u2) = true)).
Proof.
  repeat match goal with |- _ /\ _ => split end.
  - intros a [_ Ha]. now apply size_key_defined.
  - exact sorts_before_irrefl.
  - exact sorts_before_trans.
  - intros a b [_ Ha] [_ Hb]. now apply sorts_before_total.
  - intros a b Hab. unfold _size_sort_key. fold (normal_form a).
    fold (normal_form b). now rewrite Hab.
  - simpl. repeat split;
      (eexists; eexists; split; [vm_compute; reflexivity |
                                 split; [vm_compute; reflexivity | reflexivity]]).
  - intros t d n Ht Hd.
    destruct (letter_size_rank t Ht) as (m & Hkt & Hm).
    destruct (leading_digit_key d n Hd) as (base & Hkd & Hn).
    eexists; eexists. split; [exact Hkt|]. split; [exact Hkd|].
    apply key_ltb_fst. simpl. lia.
  - intros d1 d2 n1 n2 H1 H2 Hlt.
    destruct (leading_digit_key d1 n1 H1) as (b1 & Hk1 & _).
    destruct (leading_digit_key d2 n2 H2) as (b2 & Hk2 & _).
    eexists; eexists. split; [exact Hk1|]. split; [exact Hk2|].
    apply key_ltb_fst. simpl. lia.
  - intros a u Ha Hknown Hu.
    destruct (known_size_key a Ha Hknown) as (k & Hk & Hlt).
    eexists; eexists. split; [exact Hk|].
    split; [exact (unknown_size_key u Hu)|].
    apply key_ltb_fst. simpl. lia.
  - intros u1 u2 H1 H2.
    pose proof (unknown_size_key u1 H1) as K1.
    pose proof (unknown_size_key u2 H2) as K2.
    split.
    + intros (ka & kb & Ha & Hb & Hlt).
      rewrite K1 in Ha. rewrite K2 in Hb.
      injection Ha as <-. injection Hb as <-.
      unfold key_ltb in Hlt. simpl in Hlt. exact Hlt.
    + intros Hlt. eexists; eexists. split; [exact K1|]. split; [exact K2|].
      unfold key_ltb. simpl. exact Hlt.
Qed.

(** The theorem at work: a mixed-case, padded token has a key; 2XL comes
    after XL and before 3XL; the unknown XXL comes after 3XL and after the
    unknown OSFA. *)
Lemma size_sort_key_order_witness :
  (exists k, _size_sort_key " 2xl " = Ok k)
  /\ sorts_before "XL" "2XL"
  /\ sorts_before "2XL" "3XL"
  /\ sorts_before "3XL" "XXL"
  /\ sorts_before "OSFA" "XXL".
Proof.
  destruct size_sort_key_order
    as (Hkey & _ & _ & _ & _ & _ & Hdigit & Hgroup & Hlast & Hname).
  assert (unknown_size "XXL") as Hxxl.
  { repeat split. discriminate. }
  assert (unknown_size "OSFA") as Hosfa.
  { repeat split. discriminate. }
  split; [apply Hkey; split; [reflexivity | discriminate]|].
  split; [apply (Hdigit "XL" "2XL" 2); [simpl; tauto | reflexivity]|].
  split; [apply (Hgroup "2XL" "3XL" 2 3); [reflexivity | reflexivity | lia]|].
  split.
  - apply (Hlast "3XL" "XXL"); [split; [reflexivity | discriminate] | | exact Hxxl].
    intros (_ & Hd & _). discriminate Hd.
  - apply (Hname "OSFA" "XXL" Hosfa Hxxl). reflexivity.
Defined.

End SizeOrderClaim.

(** ** Dictionaries and sets *)

Section DictFacts.
Context {V : Type}.
Implicit Types (d : PyDict.dict V) (k : string) (v : V).

Lemma dict_get_set_same d k v : PyDict.get (PyDict.set d k v) k = Some v.
Proof.
  induction d as [|[k' v'] d IH]; simpl.
  - now rewrite String.eqb_refl.
  - destruct (String.eqb k' k) eqn:E; simpl; rewrite E; auto.
Qed.

Lemma dict_get_set_other d k k' v :
  k <> k' -> PyDict.get (PyDict.set d k v) k' = PyDict.get d k'.
Proof.
  intros Hne. induction d as [|[k0 v0] d IH]; simpl.
  - destruct (String.eqb_spec k k'); [contradiction | reflexivity].
  - destruct (String.eqb_spec k0 k) as [-> | Hk0]; simpl.
    + destruct (String.eqb_spec k k'); [contradiction | reflexivity].
    + now rewrite IH.
Qed.

Lemma dict_set_set d k v v' :
  PyDict.set (PyDict.set d k v) k v' = PyDict.set d k v'.
Proof.
  induction d as [|[k0 v0] d IH]; simpl.
  - now rewrite String.eqb_refl.
  - destruct (String.eqb k0 k) eqn:E; simpl; rewrite E; [reflexivity|].
    now rewrite IH.
Qed.

Lemma dict_get_In d k : PyDict.get d k <> None <-> In k (PyDict.keys d).
Proof.
  induction d as [|[k0 v0] d IH]; simpl.
  - split; [congruence | contradiction].
  - destruct (String.eqb_spec k0 k) as [-> | Hne].
    + split; [auto | discriminate].
    + rewrite IH. split; [auto | intros [? | ?]; [contradiction | assumption]].
Qed.

Lemma dict_get_None d k : PyDict.get d k = None <-> ~ In k (PyDict.keys d).
Proof.
  rewrite <- dict_get_In. destruct (PyDict.get d k); split; try congruence.
  intros Hn. exfalso. apply Hn. discriminate.
Qed.

Lemma dict_set_fresh d k v :
  ~ In k (PyDict.keys d) -> PyDict.set d k v = d ++ [(k, v)].
Proof.
  induction d as [|[k0 v0] d IH]; simpl; intros Hn; [reflexivity|].
  destruct (String.eqb_spec k0 k) as [-> | Hne]; [tauto|].
  rewrite IH; tauto.
Qed.

Lemma dict_keys_set d k v :
  PyDict.keys (PyDict.set d k v) =
  if PyDict.mem d k then PyDict.keys d else PyDict.keys d ++ [k].
Proof.
  unfold PyDict.mem.
  induction d as [|[k0 v0] d IH]; simpl; [reflexivity|].
  destruct (String.eqb_spec k0 k) as [-> | Hne]; simpl; [reflexivity|].
  rewrite IH. now destruct (PyDict.get d k).
Qed.

(** Assigning fresh, distinct keys one after the other appends them. *)
Lemma dict_fold_set_fresh (f : string -> V) (l : list string) d :
  NoDup l -> (forall k, In k l -> ~ In k (PyDict.keys d)) ->
  fold_left (fun r k => PyDict.set r k (f k)) l d =
  d ++ map (fun k => (k, f k)) l.
Proof.
  revert d. induction l as [|k l IH]; intros d Hnd Hfresh; simpl.
  - now rewrite app_nil_r.
  - inversion Hnd as [|? ? Hk Hnd']; subst.
    rewrite dict_set_fresh by (apply Hfresh; now left).
    rewrite IH; auto.
    + now rewrite <- app_assoc.
    + intros k' Hk'. unfold PyDict.keys. rewrite map_app, in_app_iff. simpl.
      intros [Hin | [<- | []]]; [|contradiction].
      apply (Hfresh k'); [now right | exact Hin].
Qed.

(** Reading a dict at its own keys gives its values. *)
Lemma dict_values_at_keys d (dflt : V) :
  NoDup (PyDict.keys d) ->
  map (fun k => PyDict.get_default d k dflt) (PyDict.keys d) = PyDict.values d.
Proof.
  unfold PyDict.get_default.
  induction d as [|[k0 v0] d IH]; simpl; intros Hnd; [reflexivity|].
  inversion Hnd as [|? ? Hk Hnd']; subst.
  rewrite String.eqb_refl. f_equal.
  rewrite <- (IH Hnd'). apply map_ext_in. intros k Hin.
  destruct (String.eqb_spec k0 k) as [-> | _]; [contradiction | reflexivity].
Qed.

End DictFacts.

Section SetFacts.

Lemma str_in_In (x : string) (l : list string) : str_in x l = true <-> In x l.
Proof.
  unfold str_in. rewrite existsb_exists. split.
  - intros (y & Hy & Heq). apply String.eqb_eq in Heq. now subst.
  - intros Hin. exists x. split; [assumption | apply String.eqb_refl].
Qed.

Lemma str_in_mem {V : Type} (d : PyDict.dict V) (k : string) :
  PyDict.mem d k = str_in k (PyDict.keys d).
Proof.
  unfold PyDict.mem. destruct (str_in k (PyDict.keys d)) eqn:E.
  - apply str_in_In, dict_get_In in E. now destruct (PyDict.get d k).
  - destruct (PyDict.get d k) eqn:G; [|reflexivity].
    assert (In k (PyDict.keys d)) as Hin by (apply dict_get_In; congruence).
    apply str_in_In in Hin. congruence.
Qed.

Lemma set_add_In (s : list string) (x y : string) :
  In y (set_add s x) <-> In y s \/ y = x.
Proof.
  unfold set_add. destruct (str_in x s) eqn:E.
  - apply str_in_In in E. split; [auto | intros [? | ->]; assumption].
  - rewrite in_app_iff. simpl. intuition.
Qed.

Lemma set_add_NoDup (s : list string) (x : string) :
  NoDup s -> NoDup (set_add s x).
Proof.
  intros Hnd. unfold set_add. destruct (str_in x s) eqn:E; [assumption|].
  apply NoDup_app; [assumption | repeat constructor; auto | ].
  intros y Hy [<- | []].
  apply str_in_In in Hy. congruence.
Qed.

Lemma set_add_present (s : list string) (x : string) :
  In x s -> set_add s x = s.
Proof.
  intros Hin. unfold set_add. apply str_in_In in Hin. now rewrite Hin.
Qed.

Lemma set_add_fresh (s : list string) (x : string) :
  ~ In x s -> set_add s x = s ++ [x].
Proof.
  intros Hn. unfold set_add. destruct (str_in x s) eqn:E; [|reflexivity].
  apply str_in_In in E. contradiction.
Qed.

End SetFacts.

(** ** Sorting *)

Section SortingFacts.
Context {A : Type}.

Lemma insert_sorted_perm (leb : A -> A -> bool) (x : A) (l : list A) :
  Permutation (insert_sorted leb x l) (x :: l).
Proof.
  induction l as [|y l IH]; simpl; [reflexivity|].
  destruct (leb x y); [reflexivity|].
  rewrite IH. apply perm_swap.
Qed.

Lemma py_sorted_perm (leb : A -> A -> bool) (l : list A) :
  Permutation (py_sorted leb l) l.
Proof.
  induction l as [|x l IH]; simpl; [reflexivity|].
  rewrite insert_sorted_perm. now constructor.
Qed.

Lemma py_sorted_In (leb : A -> A -> bool) (l : list A) (x : A) :
  In x (py_sorted leb l) <-> In x l.
Proof.
  split; apply Permutation_in;
    [apply py_sorted_perm | symmetry; apply py_sorted_perm].
Qed.

Lemma py_sorted_NoDup (leb : A -> A -> bool) (l : list A) :
  NoDup l -> NoDup (py_sorted leb l).
Proof.
  apply Permutation_NoDup. symmetry. apply py_sorted_perm.
Qed.

Lemma insert_sorted_Sorted (leb : A -> A -> bool) (x : A) (l : list A) :
  (forall a b, leb a b = false -> leb b a = true) ->
  Sorted (fun a b => leb a b = true) l ->
  Sorted (fun a b => leb a b = true) (insert_sorted leb x l).
Proof.
  intros Htotal. induction 1 as [|y l Hl IH Hy]; simpl.
  - repeat constructor.
  - destruct (leb x y) eqn:Hxy.
    + constructor; [now constructor | now constructor].
    + constructor; [exact IH|].
      destruct l as [|z l]; simpl.
      * constructor. now apply Htotal.
      * destruct (leb x z); constructor; [now apply Htotal|].
        now inversion Hy.
Qed.

Lemma py_sorted_Sorted (leb : A -> A -> bool) (l : list A) :
  (forall a b, leb a b = false -> leb b a = true) ->
  Sorted (fun a b => leb a b = true) (py_sorted leb l).
Proof.
  intros Htotal. induction l as [|x l IH]; simpl; [constructor|].
  now apply insert_sorted_Sorted.
Qed.

End SortingFacts.

Lemma key_leb_total (a b : Z * string) :
  key_leb a b = false -> key_leb b a = true.
Proof.
  unfold key_leb. destruct a as [m s], b as [n t]. simpl.
  rewrite orb_false_iff, orb_true_iff, andb_false_iff, andb_true_iff.
  rewrite Z.ltb_ge, Z.ltb_lt, Z.eqb_neq, !Z.eqb_eq.
  intros [Hge [Hne | Hs]]; [left; lia|].
  destruct (Z.eq_dec m n) as [-> | Hne]; [|left; lia].
  right. split; [reflexivity|].
  destruct (String.leb_total s t); congruence.
Qed.

Section SortedByKey.
Import InventoryFormatter SizeOrder.

(** When every element has a key, [sorted(l, key=...)] returns, and the
    result is a rearrangement of [l]. *)
Lemma mapM_keys_defined (l : list string) :
  Forall (fun s => normal_form s <> "") l ->
  exists ks,
    mapM (fun a => k <- _size_sort_key a ;; Ok (k, a)) l = Ok ks
    /\ map snd ks = l
    /\ Forall (fun p => _size_sort_key (snd p) = Ok (fst p)) ks.
Proof.
  induction 1 as [|s l Hs _ (ks & Hks & Hsnd & Hkey)]; simpl.
  - exists []. repeat split. constructor.
  - destruct (size_key_defined s Hs) as [k Hk]. rewrite Hk. simpl.
    rewrite Hks. simpl. exists ((k, s) :: ks). simpl. rewrite Hsnd.
    repeat split. now constructor.
Qed.

Lemma Sorted_map_snd (ks : list ((Z * string) * string)) :
  Forall (fun p => _size_sort_key (snd p) = Ok (fst p)) ks ->
  Sorted (fun x y => key_leb (fst x) (fst y) = true) ks ->
  Sorted not_after (map snd ks).
Proof.
  intros Hkey Hsorted. induction Hsorted as [|p ks Hs IH Hp]; simpl.
  - constructor.
  - inversion Hkey as [|? ? Hkp Hkey']; subst.
    constructor; [now apply IH|].
    destruct Hp as [|q ks Hpq]; simpl; constructor.
    inversion Hkey' as [|? ? Hkq _]; subst.
    now exists (fst p), (fst q).
Qed.

Lemma py_sorted_by_key_defined (l : list string) :
  Forall (fun s => normal_form s <> "") l ->
  exists sorted,
    py_sorted_by_key _size_sort_key l = Ok sorted
    /\ Permutation sorted l
    /\ Sorted not_after sorted.
Proof.
  intros Hl. destruct (mapM_keys_defined l Hl) as (ks & Hks & Hsnd & Hkey).
  unfold py_sorted_by_key. rewrite Hks. simpl.
  eexists. split; [reflexivity|]. split.
  - rewrite <- Hsnd. apply Permutation_map, py_sorted_perm.
  - apply Sorted_map_snd.
    + eapply Permutation_Forall; [symmetry; apply py_sorted_perm | exact Hkey].
    + apply (py_sorted_Sorted (fun x y => key_leb (fst x) (fst y))).
      intros a b. apply key_leb_total.
Qed.

End SortedByKey.

(** ** The grouping loop of the matrix builder *)

Section Grouping.
Import PyStr InventoryFormatter Matrix.

Lemma add_row_set (products : PyDict.dict product_data) (r : row) :
  add_row products r =
  PyDict.set products (style r)
    (add_to_product (PyDict.get_default products (style r) new_product) r).
Proof.
  unfold add_row.
  destruct (PyDict.mem products (style r)) eqn:Hmem.
  - unfold add_to_product. destruct (upper (size r)); reflexivity.
  - assert (PyDict.get_default products (style r) new_product = new_product)
      as ->.
    { unfold PyDict.get_default. unfold PyDict.mem in Hmem.
      now destruct (PyDict.get products (style r)). }
    assert (PyDict.get_default (PyDict.set products (style r) new_product)
              (style r) new_product = new_product) as ->.
    { unfold PyDict.get_default. now rewrite dict_get_set_same. }
    rewrite dict_set_set. unfold add_to_product.
    destruct (upper (size r)); reflexivity.
Qed.

(** The entry of the first style stays first; it sees the rows of its
    style only. *)
Lemma group_rows_head (l : list row) (st : string) (p : product_data)
    (tl : PyDict.dict product_data) :
  exists tl',
    fold_left add_row l ((st, p) :: tl) =
    (st, fold_left add_to_product
           (filter (fun r => String.eqb (style r) st) l) p) :: tl'.
Proof.
  revert p tl. induction l as [|r l IH]; intros p tl; simpl.
  - now exists tl.
  - rewrite add_row_set. simpl.
    destruct (String.eqb_spec st (style r)) as [-> | Hne].
    + rewrite String.eqb_refl. simpl.
      unfold PyDict.get_default. simpl. rewrite String.eqb_refl. apply IH.
    + destruct (String.eqb_spec (style r) st) as [Heq | _];
        [symmetry in Heq; contradiction|].
      apply IH.
Qed.

Lemma group_rows_first (r0 : row) (rest : list row) :
  exists tl,
    group_rows (r0 :: rest) =
    (style r0, fold_left add_to_product (first_group (r0 :: rest)) new_product)
      :: tl.
Proof.
  unfold group_rows. simpl fold_left at 1. rewrite add_row_set. simpl.
  destruct (group_rows_head rest (style r0)
              (add_to_product (PyDict.get_default [] (style r0) new_product) r0) [])
    as [tl Htl].
  exists tl. rewrite Htl. unfold first_group. simpl.
  now rewrite String.eqb_refl.
Qed.

Lemma product_sizes (g : list row) (p : product_data) :
  sizes (fold_left add_to_product g p) =
  fold_left
    (fun acc r =>
       match upper (size r) with
       | EmptyString => acc
       | s => set_add acc s
       end) g (sizes p).
Proof.
  revert p. induction g as [|r g IH]; intros p; simpl; [reflexivity|].
  rewrite IH. unfold add_to_product. simpl.
  now destruct (upper (size r)).
Qed.

Lemma product_case_size (g : list row) (p : product_data) :
  case_size (fold_left add_to_product g p) = case_size p.
Proof.
  revert p. induction g as [|r g IH]; intros p; simpl; [reflexivity|].
  now rewrite IH.
Qed.

Lemma add_to_product_labels (p : product_data) (r : row) :
  PyDict.keys (warehouses (add_to_product p r)) =
  set_add (PyDict.keys (warehouses p)) (warehouse_name r).
Proof.
  unfold add_to_product. simpl. rewrite dict_keys_set.
  unfold set_add. rewrite <- str_in_mem.
  destruct (PyDict.mem (warehouses p) (warehouse_name r)) eqn:Hmem.
  - now rewrite Hmem.
  - rewrite str_in_mem, dict_keys_set, Hmem.
    assert (str_in (warehouse_name r)
              (PyDict.keys (warehouses p) ++ [warehouse_name r]) = true) as ->.
    { apply str_in_In, in_app_iff. right. now left. }
    reflexivity.
Qed.

Lemma product_labels (g : list row) (p : product_data) :
  PyDict.keys (warehouses (fold_left add_to_product g p)) =
  fold_left (fun acc r => set_add acc (warehouse_name r)) g
            (PyDict.keys (warehouses p)).
Proof.
  revert p. induction g as [|r g IH]; intros p; simpl; [reflexivity|].
  now rewrite IH, add_to_product_labels.
Qed.

Lemma add_to_product_cell (p : product_data) (r : row) (w s : string) :
  cell_of (warehouses (add_to_product p r)) w s =
  if String.eqb (warehouse_name r) w && String.eqb (upper (size r)) s
  then qty r else cell_of (warehouses p) w s.
Proof.
  unfold add_to_product, cell_of. simpl.
  assert ((if qty r =? 0 then 0 else qty r) = qty r) as ->
    by (destruct (Z.eqb_spec (qty r) 0); congruence).
  set (whs := if PyDict.mem (warehouses p) (warehouse_name r)
              then warehouses p
              else PyDict.set (warehouses p) (warehouse_name r) []).
  assert (forall w', w' <> warehouse_name r ->
            PyDict.get whs w' = PyDict.get (warehouses p) w') as Hother.
  { intros w' Hw'. subst whs.
    destruct (PyDict.mem (warehouses p) (warehouse_name r)); [reflexivity|].
    apply dict_get_set_other. congruence. }
  assert (PyDict.get_default whs (warehouse_name r) [] =
          PyDict.get_default (warehouses p) (warehouse_name r) []) as Hsame.
  { subst whs. unfold PyDict.get_default, PyDict.mem.
    destruct (PyDict.get (warehouses p) (warehouse_name r)) eqn:G.
    - now rewrite G.
    - now rewrite dict_get_set_same. }
  destruct (String.eqb_spec (warehouse_name r) w) as [<- | Hw]; simpl.
  - rewrite dict_get_set_same, Hsame.
    unfold PyDict.get_default at 1.
    destruct (String.eqb_spec (upper (size r)) s) as [<- | Hs].
    + now rewrite dict_get_set_same.
    + rewrite dict_get_set_other by assumption.
      unfold PyDict.get_default.
      now destruct (PyDict.get (warehouses p) (warehouse_name r)).
  - rewrite dict_get_set_other by assumption.
    rewrite Hother by congruence. reflexivity.
Qed.

Lemma product_cell (g : list row) (p : product_data) (w s : string) :
  cell_of (warehouses (fold_left add_to_product g p)) w s =
  fold_left
    (fun acc r =>
       if String.eqb (warehouse_name r) w && String.eqb (upper (size r)) s
       then qty r else acc)
    g (cell_of (warehouses p) w s).
Proof.
  revert p. induction g as [|r g IH]; intros p; simpl; [reflexivity|].
  now rewrite IH, add_to_product_cell.
Qed.

(** What the grouping loop leaves for the first style. *)
Lemma group_rows_spec (r0 : row) (rest : list row) :
  let g := first_group (r0 :: rest) in
  exists pd tl,
    group_rows (r0 :: rest) = (style r0, pd) :: tl
    /\ sizes pd = group_sizes g
    /\ case_size pd = None
    /\ PyDict.keys (warehouses pd) = group_labels g
    /\ forall w s, cell_of (warehouses pd) w s = last_qty g w s.
Proof.
  intros g. destruct (group_rows_first r0 rest) as [tl Htl].
  eexists. exists tl. split; [exact Htl|]. fold g. repeat split.
  - apply product_sizes.
  - apply product_case_size.
  - apply product_labels.
  - intros w s. apply product_cell.
Qed.

End Grouping.

(** ** The rows of the table *)

Section TableRows.
Import PyStr InventoryFormatter Matrix.

Variable all_sizes : list string.
Hypothesis sizes_nodup : NoDup all_sizes.
Hypothesis sizes_nonempty : ~ In "" all_sizes.

Lemma labelled_row_record (label : string) (f : string -> pyval) :
  labelled_row label all_sizes f = record_of label all_sizes f.
Proof.
  unfold labelled_row, record_of.
  rewrite dict_fold_set_fresh; [reflexivity | assumption |].
  intros k Hk [<- | []]. contradiction.
Qed.

Lemma initial_totals (l : list string) (d : PyDict.dict Z) (s : string) :
  In s l \/ PyDict.get d s = Some 0 ->
  PyDict.get (fold_left (fun d size => PyDict.set d size 0) l d) s = Some 0.
Proof.
  revert d. induction l as [|x l IH]; intros d; simpl.
  - now intros [[] | H].
  - intros H. apply IH.
    destruct (String.eqb_spec x s) as [-> | Hne].
    + right. apply dict_get_set_same.
    + destruct H as [[Hx | Hin] | Hd]; [contradiction | now left |].
      right. now rewrite dict_get_set_other.
Qed.

Section OneWarehouse.
Variable whs : PyDict.dict (PyDict.dict Z).
Variable w : string.

Lemma warehouse_row_fold (l : list string) (r : PyDict.dict pyval)
    (tot : PyDict.dict Z) (t : string -> Z) :
  NoDup l ->
  (forall s, In s l -> PyDict.get tot s = Some (t s)) ->
  exists tot',
    fold_left
      (fun acc size =>
         '(r, tot) <- acc ;;
         let qty :=
           match PyDict.get whs w with
           | Some inner => PyDict.get_default inner size 0
           | None => 0
           end in
         match PyDict.get tot size with
         | Some t => Ok (PyDict.set r size (PInt qty), PyDict.set tot size (t + qty))
         | None => Raise KeyError
         end)
      l (Ok (r, tot)) =
    Ok (fold_left (fun r s => PyDict.set r s (PInt (cell_of whs w s))) l r, tot')
    /\ (forall s, In s l -> PyDict.get tot' s = Some (t s + cell_of whs w s))
    /\ (forall s, ~ In s l -> PyDict.get tot' s = PyDict.get tot s).
Proof.
  revert r tot. induction l as [|x l IH]; intros r tot Hnd Ht; simpl.
  - exists tot. repeat split; auto. intros s [].
  - inversion Hnd as [|? ? Hx Hnd']; subst.
    rewrite (Ht x) by now left. fold (cell_of whs w x).
    destruct (IH (PyDict.set r x (PInt (cell_of whs w x)))
                 (PyDict.set tot x (t x + cell_of whs w x)) Hnd')
      as (tot' & Hfold & Hin & Hout).
    { intros s Hs. rewrite dict_get_set_other; [apply Ht; now right|].
      intros ->. contradiction. }
    exists tot'. split; [exact Hfold|]. split.
    + intros s [<- | Hs]; [|now apply Hin].
      rewrite (Hout x Hx). apply dict_get_set_same.
    + intros s Hs. rewrite Hout by tauto.
      apply dict_get_set_other. intros ->. apply Hs. now left.
Qed.

Lemma warehouse_row_spec (tot : PyDict.dict Z) (t : string -> Z) :
  (forall s, In s all_sizes -> PyDict.get tot s = Some (t s)) ->
  exists tot',
    warehouse_row whs all_sizes w tot =
    Ok (record_of w all_sizes (fun s => PInt (cell_of whs w s)), tot')
    /\ (forall s, In s all_sizes ->
          PyDict.get tot' s = Some (t s + cell_of whs w s)).
Proof.
  intros Ht.
  destruct (warehouse_row_fold all_sizes [("", PStr w)] tot t sizes_nodup Ht)
    as (tot' & Hfold & Hin & _).
  exists tot'. split; [|exact Hin].
  rewrite <- labelled_row_record. unfold labelled_row, warehouse_row.
  exact Hfold.
Qed.

End OneWarehouse.

Lemma warehouse_rows_spec (whs : PyDict.dict (PyDict.dict Z))
    (order : list string) (table : list (PyDict.dict pyval))
    (tot : PyDict.dict Z) (t : string -> Z) :
  (forall s, In s all_sizes -> PyDict.get tot s = Some (t s)) ->
  exists tot',
    fold_left
      (fun acc warehouse =>
         '(table, tot) <- acc ;;
         '(r, tot') <- warehouse_row whs all_sizes warehouse tot ;;
         Ok (table ++ [r], tot'))
      order (Ok (table, tot)) =
    Ok (table ++ map (fun w => record_of w all_sizes
                                 (fun s => PInt (cell_of whs w s))) order,
        tot')
    /\ (forall s, In s all_sizes ->
          PyDict.get tot' s =
          Some (t s + total (map (fun w => cell_of whs w s) order))).
Proof.
  revert table tot t. induction order as [|w order IH]; intros table tot t Ht.
  - exists tot. simpl. rewrite app_nil_r. split; [reflexivity|].
    intros s Hs. rewrite Ht by assumption. f_equal. lia.
  - destruct (warehouse_row_spec whs w tot t Ht) as (tot1 & Hrow & Ht1).
    simpl fold_left. simpl bind at 2. rewrite Hrow. simpl bind.
    destruct (IH (table ++ [record_of w all_sizes
                              (fun s => PInt (cell_of whs w s))])
                 tot1 (fun s => t s + cell_of whs w s) Ht1)
      as (tot' & Hfold & Ht').
    exists tot'. rewrite Hfold. split.
    + now rewrite <- app_assoc.
    + intros s Hs. rewrite Ht' by assumption. f_equal. simpl. lia.
Qed.

Lemma total_row_fold (tot : PyDict.dict Z) (t : string -> Z)
    (l : list string) (r : PyDict.dict pyval) :
  (forall s, In s l -> PyDict.get tot s = Some (t s)) ->
  fold_left
    (fun acc size =>
       r <- acc ;;
       match PyDict.get tot size with
       | Some t => Ok (PyDict.set r size (PInt t))
       | None => Raise KeyError
       end)
    l (Ok r) =
  Ok (fold_left (fun r s => PyDict.set r s (PInt (t s))) l r).
Proof.
  revert r. induction l as [|x l IH]; intros r Ht; simpl; [reflexivity|].
  rewrite (Ht x) by now left. apply IH. intros s Hs. apply Ht. now right.
Qed.

Lemma total_row_spec (tot : PyDict.dict Z) (t : string -> Z) :
  (forall s, In s all_sizes -> PyDict.get tot s = Some (t s)) ->
  total_row all_sizes tot =
  Ok (record_of "Total Inventory" all_sizes (fun s => PInt (t s))).
Proof.
  intros Ht. unfold total_row. rewrite (total_row_fold tot t) by assumption.
  f_equal. apply labelled_row_record.
Qed.

End TableRows.

(** ** From the table rows to the frame *)

Section Frames.
Import PyStr InventoryFormatter Matrix.

Lemma fold_set_add_fresh (l acc : list string) :
  NoDup l -> (forall x, In x l -> ~ In x acc) ->
  fold_left set_add l acc = acc ++ l.
Proof.
  revert acc. induction l as [|x l IH]; intros acc Hnd Hfresh; simpl.
  - now rewrite app_nil_r.
  - inversion Hnd as [|? ? Hx Hnd']; subst.
    rewrite set_add_fresh by (apply Hfresh; now left).
    rewrite IH; auto.
    + now rewrite <- app_assoc.
    + intros y Hy. rewrite in_app_iff. simpl.
      intros [Hin | [<- | []]]; [|contradiction].
      apply (Hfresh y); [now right | exact Hin].
Qed.

Lemma fold_set_add_present (l acc : list string) :
  (forall x, In x l -> In x acc) -> fold_left set_add l acc = acc.
Proof.
  induction l as [|x l IH]; intros Hin; simpl; [reflexivity|].
  rewrite set_add_present by (apply Hin; now left).
  apply IH. intros y Hy. apply Hin. now right.
Qed.

Lemma record_of_keys (label : string) (all_sizes : list string)
    (f : string -> pyval) :
  PyDict.keys (record_of label all_sizes f) = "" :: all_sizes.
Proof.
  unfold record_of, PyDict.keys. simpl. f_equal.
  rewrite map_map. simpl. apply map_id.
Qed.

Lemma record_of_values (label : string) (all_sizes : list string)
    (f : string -> pyval) :
  PyDict.values (record_of label all_sizes f) = PStr label :: map f all_sizes.
Proof.
  unfold record_of, PyDict.values. simpl. f_equal.
  now rewrite map_map.
Qed.

Variable all_sizes : list string.
Hypothesis sizes_nodup : NoDup all_sizes.
Hypothesis sizes_nonempty : ~ In "" all_sizes.

Lemma columns_nodup : NoDup ("" :: all_sizes).
Proof. now constructor. Qed.

Lemma columns_of_uniform (lfs : list (string * (string -> pyval)))
    (acc : list string) :
  (forall x, In x ("" :: all_sizes) -> In x acc) ->
  fold_left (fun cols rec => fold_left set_add (PyDict.keys rec) cols)
    (map (fun lf => record_of (fst lf) all_sizes (snd lf)) lfs) acc = acc.
Proof.
  induction lfs as [|lf lfs IH]; intros Hacc; cbn [map fold_left];
    [reflexivity|].
  rewrite record_of_keys, fold_set_add_present by assumption.
  now apply IH.
Qed.

Lemma columns_of_records (lfs : list (string * (string -> pyval))) :
  lfs <> [] ->
  Pandas.columns_of (map (fun lf => record_of (fst lf) all_sizes (snd lf)) lfs)
  = "" :: all_sizes.
Proof.
  destruct lfs as [|lf lfs]; [congruence|]. intros _.
  unfold Pandas.columns_of. cbn [map fold_left].
  rewrite record_of_keys.
  rewrite (fold_set_add_fresh ("" :: all_sizes) []);
    [| apply columns_nodup | intros x _ []].
  simpl app. now apply columns_of_uniform.
Qed.

Lemma record_cells (label : string) (f : string -> pyval) :
  map (fun c => PyDict.get_default (record_of label all_sizes f) c Pandas.NaN)
      ("" :: all_sizes)
  = PStr label :: map f all_sizes.
Proof.
  rewrite <- record_of_keys with (label := label) (f := f).
  rewrite dict_values_at_keys.
  - apply record_of_values.
  - rewrite record_of_keys. apply columns_nodup.
Qed.

Lemma frame_of_records (lfs : list (string * (string -> pyval))) :
  lfs <> [] ->
  Pandas.set_index ""
    (Pandas.of_records
       (map (fun lf => record_of (fst lf) all_sizes (snd lf)) lfs))
  = Ok (frame_of lfs all_sizes).
Proof.
  intros Hne. unfold Pandas.of_records.
  rewrite (columns_of_records lfs Hne), map_map.
  rewrite (map_ext _ (fun lf => PStr (fst lf) :: map (snd lf) all_sizes))
    by (intros lf; apply record_cells).
  unfold Pandas.set_index, frame_of. cbn. now rewrite !map_map.
Qed.

End Frames.

(** ** The matrix builder as a whole *)

Section Builder.
Import PyStr InventoryFormatter Matrix SizeOrder.

Lemma group_sizes_fold_In (g : list row) (acc : list string) (s : string) :
  In s (fold_left
          (fun acc r =>
             match upper (size r) with
             | EmptyString => acc
             | s => set_add acc s
             end) g acc)
  <-> In s acc \/ (s <> "" /\ exists r, In r g /\ upper (size r) = s).
Proof.
  revert acc. induction g as [|r g IH]; intros acc; simpl.
  - split; [auto | intros [H | (_ & r & [] & _)]; exact H].
  - rewrite IH. destruct (upper (size r)) as [|c u] eqn:Hu.
    + split.
      * intros [H | (Hs & r' & Hr' & Heq)]; [auto|].
        right. split; [assumption|]. exists r'. auto.
      * intros [H | (Hs & r' & [<- | Hr'] & Heq)]; [auto | congruence |].
        right. split; [assumption|]. now exists r'.
    + rewrite set_add_In. split.
      * intros [[H | ->] | (Hs & r' & Hr' & Heq)]; [auto | |].
        -- right. split; [discriminate|]. exists r. auto.
        -- right. split; [assumption|]. exists r'. auto.
      * intros [H | (Hs & r' & [<- | Hr'] & Heq)]; [auto | |].
        -- left. right. congruence.
        -- right. split; [assumption|]. now exists r'.
Qed.

Lemma group_sizes_In (g : list row) (s : string) :
  In s (group_sizes g)
  <-> s <> "" /\ exists r, In r g /\ upper (size r) = s.
Proof.
  unfold group_sizes. rewrite group_sizes_fold_In. simpl. tauto.
Qed.

Lemma group_sizes_fold_NoDup (g : list row) (acc : list string) :
  NoDup acc ->
  NoDup (fold_left
           (fun acc r =>
              match upper (size r) with
              | EmptyString => acc
              | s => set_add acc s
              end) g acc).
Proof.
  revert acc. induction g as [|r g IH]; intros acc Hnd; simpl; [assumption|].
  apply IH. destruct (upper (size r)); [assumption|].
  now apply set_add_NoDup.
Qed.

Lemma group_sizes_NoDup (g : list row) : NoDup (group_sizes g).
Proof. apply group_sizes_fold_NoDup. constructor. Qed.

Lemma group_labels_fold_In (g : list row) (acc : list string) (w : string) :
  In w (fold_left (fun acc r => set_add acc (warehouse_name r)) g acc)
  <-> In w acc \/ exists r, In r g /\ warehouse_name r = w.
Proof.
  revert acc. induction g as [|r g IH]; intros acc; simpl.
  - split; [auto | intros [H | (r & [] & _)]; exact H].
  - rewrite IH, set_add_In. split.
    + intros [[H | ->] | (r' & Hr' & Heq)]; [auto | |].
      * right. exists r. auto.
      * right. exists r'. auto.
    + intros [H | (r' & [<- | Hr'] & Heq)]; [auto | |].
      * left. right. congruence.
      * right. now exists r'.
Qed.

Lemma group_labels_In (g : list row) (w : string) :
  In w (group_labels g) <-> exists r, In r g /\ warehouse_name r = w.
Proof.
  unfold group_labels. rewrite group_labels_fold_In. simpl. tauto.
Qed.

Lemma group_labels_fold_NoDup (g : list row) (acc : list string) :
  NoDup acc ->
  NoDup (fold_left (fun acc r => set_add acc (warehouse_name r)) g acc).
Proof.
  revert acc. induction g as [|r g IH]; intros acc Hnd; simpl; [assumption|].
  apply IH. now apply set_add_NoDup.
Qed.

Lemma group_labels_NoDup (g : list row) : NoDup (group_labels g).
Proof. apply group_labels_fold_NoDup. constructor. Qed.

Lemma known_order_NoDup : NoDup known_order.
Proof.
  unfold known_order.
  repeat (constructor; [simpl; intuition discriminate|]). constructor.
Qed.

Lemma warehouse_order_In (present : list string) (w : string) :
  In w (warehouse_order present) <-> In w present.
Proof.
  unfold warehouse_order. rewrite in_app_iff, py_sorted_In, !filter_In.
  rewrite negb_true_iff. split.
  - intros [[_ Hp] | [Hp _]]; [now apply str_in_In | exact Hp].
  - intros Hp. destruct (str_in w known_order) eqn:E.
    + left. split; [now apply str_in_In | now apply str_in_In].
    + right. now split.
Qed.

Lemma warehouse_order_NoDup (present : list string) :
  NoDup present -> NoDup (warehouse_order present).
Proof.
  intros Hnd. unfold warehouse_order. apply NoDup_app.
  - apply NoDup_filter, known_order_NoDup.
  - apply py_sorted_NoDup, NoDup_filter, Hnd.
  - intros w Hw. rewrite py_sorted_In, filter_In, negb_true_iff.
    apply filter_In in Hw. destruct Hw as [Hw _].
    apply str_in_In in Hw. intros [_ Hn]. congruence.
Qed.

Variable set_iter : list string -> list string.
Hypothesis set_iter_perm : forall l, Permutation (set_iter l) l.

(** The builder on a non-empty input whose sizes all have keys: the sizes
    of the first style, sorted, are the columns, and the result is the
    message frame when there is none and the matrix otherwise. *)
Lemma format_inventory_table_spec (r0 : row) (rest : list row)
    (pricing_data : option (PyDict.dict float)) :
  let g := first_group (r0 :: rest) in
  sizes_have_keys g ->
  exists all_sizes,
    Permutation all_sizes (group_sizes g)
    /\ Sorted not_after all_sizes
    /\ format_inventory_table set_iter (r0 :: rest) pricing_data =
       Ok (match all_sizes with
           | [] => Pandas.one_cell_frame "Message" (PStr "No size data available")
           | _ => matrix all_sizes (warehouse_order (group_labels g))
                    (last_qty g) pricing_data
           end).
Proof.
  intros g Hkeys.
  destruct (group_rows_spec r0 rest)
    as (pd & tl & Hgroup & Hsizes & Hcase & Hlabels & Hcell).
  fold g in Hsizes, Hlabels, Hcell.
  destruct (py_sorted_by_key_defined (set_iter (group_sizes g)))
    as (all_sizes & Hsorted & Hperm & Hord).
  { eapply Permutation_Forall; [symmetry; apply set_iter_perm | exact Hkeys]. }
  assert (Permutation all_sizes (group_sizes g)) as Hperm'
    by (rewrite Hperm; apply set_iter_perm).
  exists all_sizes. split; [exact Hperm'|]. split; [exact Hord|].
  unfold format_inventory_table. rewrite Hgroup, Hsizes, Hsorted. simpl bind.
  destruct all_sizes as [|s0 sizes'] eqn:Hall; [reflexivity|].
  rewrite <- Hall in *. clear Hall s0 sizes'.
  assert (NoDup all_sizes) as Hnd.
  { eapply Permutation_NoDup; [symmetry; exact Hperm' | apply group_sizes_NoDup]. }
  assert (~ In "" all_sizes) as Hne.
  { intros Hin. apply (Permutation_in _ Hperm') in Hin.
    apply group_sizes_In in Hin. now destruct Hin. }
  rewrite !(labelled_row_record all_sizes Hnd Hne).
  rewrite Hcase, Hlabels.
  destruct (warehouse_rows_spec all_sizes Hnd Hne (warehouses pd)
              (warehouse_order (group_labels g)) []
              (fold_left (fun d size => PyDict.set d size 0) all_sizes [])
              (fun _ => 0))
    as (tot' & Hrows & Htot).
  { intros s Hs. apply initial_totals. now left. }
  unfold warehouse_rows. rewrite Hrows. simpl bind. cbn [app].
  rewrite (total_row_spec all_sizes Hnd Hne tot' _ Htot). simpl bind.
  set (ws := warehouse_order (group_labels g)).
  pose (lfs :=
    [("Price: $", fun size => PStr (get_size_price size pricing_data));
     ("Case Size", fun _ : string => PNone);
     ("Warehouse", PStr)]
    ++ map (fun w => (w, fun s => PInt (cell_of (warehouses pd) w s))) ws
    ++ [("Total Inventory",
         fun s => PInt (total (map (fun w => cell_of (warehouses pd) w s) ws)))]).
  transitivity
    (Pandas.set_index ""
       (Pandas.of_records
          (map (fun lf => record_of (fst lf) all_sizes (snd lf)) lfs))).
  { f_equal. f_equal. subst lfs. rewrite !map_app, map_map. reflexivity. }
  rewrite (frame_of_records all_sizes Hnd Hne lfs) by (subst lfs; discriminate).
  f_equal. unfold frame_of, matrix. subst lfs. cbn [map app fst snd].
  f_equal.
  - rewrite !map_app, map_map. reflexivity.
  - rewrite !map_app, map_map. cbn [map snd]. f_equal. f_equal.
    + apply map_ext. intros w. apply map_ext. intros s. now rewrite Hcell.
    + f_equal. apply map_ext. intros s. f_equal.
      f_equal. apply map_ext. intros w. apply Hcell.
Qed.

End Builder.

(** ** Reading the matrix *)

Section MatrixFacts.
Import PyStr InventoryFormatter Matrix SizeOrder.

Lemma nth_error_after_three {A : Type} (a b c : A) (l : list A) (i : nat) :
  nth_error ([a; b; c] ++ l) (3 + i) = nth_error l i.
Proof. reflexivity. Qed.

Lemma matrix_cell (all_sizes ws : list string) (cell : string -> string -> Z)
    (pricing_data : option (PyDict.dict float)) (i j : nat) (w s : string) :
  nth_error ws i = Some w -> nth_error all_sizes j = Some s ->
  Pandas.iloc (matrix all_sizes ws cell pricing_data) (3 + i) j
  = Some (PInt (cell w s)).
Proof.
  intros Hw Hs. unfold Pandas.iloc, matrix. cbn [Pandas.df_data].
  rewrite nth_error_after_three.
  rewrite nth_error_app1
    by (rewrite length_map; apply nth_error_Some; congruence).
  rewrite nth_error_map, Hw. simpl. now rewrite nth_error_map, Hs.
Qed.

Lemma matrix_total (all_sizes ws : list string) (cell : string -> string -> Z)
    (pricing_data : option (PyDict.dict float)) (j : nat) (s : string) :
  nth_error all_sizes j = Some s ->
  Pandas.iloc (matrix all_sizes ws cell pricing_data) (3 + length ws) j
  = Some (PInt (total (map (fun w => cell w s) ws))).
Proof.
  intros Hs. unfold Pandas.iloc, matrix. cbn [Pandas.df_data].
  rewrite nth_error_after_three.
  rewrite nth_error_app2 by (rewrite length_map; lia).
  rewrite length_map, Nat.sub_diag. simpl. now rewrite nth_error_map, Hs.
Qed.

Lemma matrix_label (all_sizes ws : list string) (cell : string -> string -> Z)
    (pricing_data : option (PyDict.dict float)) (i : nat) (w : string) :
  nth_error ws i = Some w ->
  nth_error (Pandas.df_index (matrix all_sizes ws cell pricing_data)) (3 + i)
  = Some (PStr w).
Proof.
  intros Hw. unfold matrix. cbn [Pandas.df_index].
  rewrite nth_error_map, nth_error_after_three.
  rewrite nth_error_app1 by (apply nth_error_Some; congruence).
  now rewrite Hw.
Qed.

Lemma matrix_total_label (all_sizes ws : list string)
    (cell : string -> string -> Z)
    (pricing_data : option (PyDict.dict float)) :
  nth_error (Pandas.df_index (matrix all_sizes ws cell pricing_data))
            (3 + length ws)
  = Some (PStr "Total Inventory").
Proof.
  unfold matrix. cbn [Pandas.df_index].
  rewrite nth_error_map, nth_error_after_three.
  rewrite nth_error_app2 by lia. now rewrite Nat.sub_diag.
Qed.

Lemma total_nonneg (l : list Z) : Forall (fun z => 0 <= z) l -> 0 <= total l.
Proof. induction 1; simpl; lia. Qed.

Lemma last_qty_fold_nonneg (g : list row) (w s : string) (acc : Z) :
  Forall (fun r => 0 <= qty r) g -> 0 <= acc ->
  0 <= fold_left
         (fun acc r =>
            if String.eqb (warehouse_name r) w && String.eqb (upper (size r)) s
            then qty r else acc) g acc.
Proof.
  intros Hg. revert acc. induction Hg as [|r g Hr _ IH]; intros acc Hacc; simpl.
  - exact Hacc.
  - apply IH. now destruct (_ && _).
Qed.

Lemma last_qty_nonneg (g : list row) (w s : string) :
  Forall (fun r => 0 <= qty r) g -> 0 <= last_qty g w s.
Proof. intros Hg. apply last_qty_fold_nonneg; [assumption | lia]. Qed.

(** The last matching row decides the quantity. *)
Lemma last_qty_last (a b : list row) (r : row) (w s : string) :
  warehouse_name r = w -> upper (size r) = s ->
  Forall (fun r' => ~ (warehouse_name r' = w /\ upper (size r') = s)) b ->
  last_qty (a ++ r :: b) w s = qty r.
Proof.
  intros Hw Hs Hb. unfold last_qty. rewrite fold_left_app. simpl.
  rewrite Hw, Hs, !String.eqb_refl. simpl.
  generalize (qty r) as q. induction Hb as [|r' b Hr' _ IH]; intros q; simpl.
  - reflexivity.
  - destruct (String.eqb_spec (warehouse_name r') w) as [Ew | _]; simpl;
      [|apply IH].
    destruct (String.eqb_spec (upper (size r')) s) as [Es | _]; [|apply IH].
    exfalso. apply Hr'. now split.
Qed.

Lemma first_group_cons (r0 : row) (rest : list row) :
  first_group (r0 :: rest) =
  filter (fun r => String.eqb (style r) (style r0)) (r0 :: rest).
Proof. reflexivity. Qed.

Lemma first_group_nonneg (rows : list row) :
  Forall (fun r => 0 <= qty r) rows ->
  Forall (fun r => 0 <= qty r) (first_group rows).
Proof.
  intros Hrows. destruct rows as [|r0 rest]; [constructor|].
  rewrite first_group_cons. rewrite Forall_forall in *.
  intros r Hr. apply filter_In in Hr. now apply Hrows.
Qed.

(** A blank size makes [sorted] raise. *)
Lemma py_sorted_by_key_blank (l : list string) :
  Exists (fun s => normal_form s = "") l ->
  exists e, py_sorted_by_key _size_sort_key l = Raise e.
Proof.
  intros Hex. unfold py_sorted_by_key.
  assert (exists e, mapM (fun a => k <- _size_sort_key a ;; Ok (k, a)) l
                    = Raise e) as [e He].
  { induction Hex as [s l Hs | s l _ IH]; simpl.
    - rewrite (size_key_blank s Hs). simpl. now eexists.
    - destruct (_size_sort_key s); simpl; [|now eexists].
      destruct IH as [e ->]. simpl. now eexists. }
  rewrite He. simpl. now eexists.
Qed.

Variable set_iter : list string -> list string.
Hypothesis set_iter_perm : forall l, Permutation (set_iter l) l.

(** The builder raises exactly when a size of the first style is blank. *)
Lemma format_inventory_table_raises (r0 : row) (rest : list row)
    (pricing_data : option (PyDict.dict float)) :
  Exists (fun s => normal_form s = "") (group_sizes (first_group (r0 :: rest))) ->
  exists e, format_inventory_table set_iter (r0 :: rest) pricing_data = Raise e.
Proof.
  intros Hex.
  destruct (group_rows_spec r0 rest) as (pd & tl & Hgroup & Hsizes & _).
  destruct (py_sorted_by_key_blank
              (set_iter (group_sizes (first_group (r0 :: rest))))) as [e He].
  { apply Exists_exists in Hex. destruct Hex as (s & Hs & Hblank).
    apply Exists_exists. exists s. split; [|exact Hblank].
    eapply Permutation_in; [symmetry; apply set_iter_perm | exact Hs]. }
  exists e. unfold format_inventory_table.
  rewrite Hgroup, Hsizes, He. reflexivity.
Qed.

End MatrixFacts.

(** ** The matrix builder: rows, totals, quantities, duplicates *)

Section MatrixClaims.
Import PyStr InventoryFormatter Matrix SizeOrder.

Lemma list_as_nth {A : Type} (l : list A) (d : A) :
  map (fun j => nth j l d) (seq 0 (length l)) = l.
Proof.
  induction l as [|x l IH]; simpl; [reflexivity|].
  f_equal. rewrite <- seq_shift, map_map. exact IH.
Qed.

Lemma column_of_cells (sizes ws : list string) (cell : string -> string -> Z)
    (j : nat) :
  (j < length sizes)%nat ->
  column j (map (fun w => map (fun s => cell w s) sizes) ws)
  = map (fun w => cell w (nth j sizes "")) ws.
Proof.
  intros Hj. unfold column. rewrite map_map. apply map_ext. intros w.
  rewrite (nth_indep _ 0 (cell w "")) by (now rewrite length_map).
  apply (map_nth (fun s => cell w s)).
Qed.

Lemma first_group_filter (rows : list row) :
  first_group rows =
  filter (fun r => String.eqb (style r) (first_style rows)) rows.
Proof. now destruct rows. Qed.

Lemma first_group_In (rows : list row) (r : row) :
  In r (first_group rows) <-> In r rows /\ style r = first_style rows.
Proof.
  rewrite first_group_filter, filter_In. now rewrite String.eqb_eq.
Qed.

Variable set_iter : list string -> list string.
Hypothesis set_iter_perm : forall l, Permutation (set_iter l) l.

Lemma format_inventory_table_matrix (rows : list row)
    (pricing_data : option (PyDict.dict float)) :
  let g := first_group rows in
  group_sizes g <> [] -> sizes_have_keys g ->
  exists all_sizes,
    Permutation all_sizes (group_sizes g)
    /\ Sorted not_after all_sizes
    /\ format_inventory_table set_iter rows pricing_data =
       Ok (matrix all_sizes (warehouse_order (group_labels g)) (last_qty g)
             pricing_data).
Proof.
  intros g Hne Hkeys. destruct rows as [|r0 rest]; [now elim Hne|].
  destruct (format_inventory_table_spec set_iter set_iter_perm r0 rest
              pricing_data Hkeys) as (all_sizes & Hperm & Hord & Hfmt).
  exists all_sizes. split; [exact Hperm|]. split; [exact Hord|]. rewrite Hfmt.
  destruct all_sizes; [|reflexivity].
  apply Permutation_nil in Hperm. now elim Hne.
Qed.

Lemma format_inventory_table_message (rows : list row)
    (pricing_data : option (PyDict.dict float)) :
  rows <> [] -> group_sizes (first_group rows) = [] ->
  format_inventory_table set_iter rows pricing_data =
  Ok (Pandas.one_cell_frame "Message" (PStr "No size data available")).
Proof.
  intros Hrows Hempty. destruct rows as [|r0 rest]; [congruence|].
  destruct (format_inventory_table_spec set_iter set_iter_perm r0 rest
              pricing_data) as (all_sizes & Hperm & _ & Hfmt).
  { unfold sizes_have_keys. rewrite Hempty. constructor. }
  rewrite Hempty in Hperm. apply Permutation_sym, Permutation_nil in Hperm.
  now rewrite Hfmt, Hperm.
Qed.

(** The columns of the matrix are in the order of the sort key. *)
Lemma matrix_columns_sorted (rows : list row)
    (pricing_data : option (PyDict.dict float)) :
  group_sizes (first_group rows) <> [] ->
  sizes_have_keys (first_group rows) ->
  exists df,
    format_inventory_table set_iter rows pricing_data = Ok df
    /\ Sorted not_after (Pandas.df_columns df).
Proof.
  intros Hne Hkeys.
  destruct (format_inventory_table_matrix rows pricing_data Hne Hkeys)
    as (all_sizes & _ & Hord & Hfmt).
  eexists. split; [exact Hfmt | exact Hord].
Qed.

End MatrixClaims.

Section MatrixShape.
Import PyStr InventoryFormatter Matrix SizeOrder.

(** Two warehouses and one size: Dallas comes before Reno, and the total
    of M is 8. *)
Example two_warehouses_table :
  format_inventory_table insertion_order Examples.two_warehouses None
  = Ok (Pandas.mkDataFrame (Some "")
          [PStr "Price: $"; PStr "Case Size"; PStr "Warehouse";
           PStr "Dallas, TX"; PStr "Reno, NV"; PStr "Total Inventory"]
          ["M"]
          [[PStr "37.26"]; [PNone]; [PStr "M"];
           [PInt 5]; [PInt 3]; [PInt 8]]).
Proof. vm_compute. reflexivity. Qed.

(** C3, as stated, fails: the number of rows follows the warehouses, not
    the sizes.  One warehouse with three sizes gives a table of five rows
    (Price, Case Size, header, the warehouse, Total), not of 3 + 3. *)
Lemma matrix_row_count_three_sizes :
  exists df,
    format_inventory_table insertion_order
      Examples.three_sizes None = Ok df
    /\ Pandas.df_columns df = ["S"; "M"; "L"]
    /\ Pandas.df_index df =
       [PStr "Price: $"; PStr "Case Size"; PStr "Warehouse";
        PStr "Dallas, TX"; PStr "Total Inventory"]
    /\ length (Pandas.df_data df) = 5%nat
    /\ length (Pandas.df_data df) <> (length (Pandas.df_columns df) + 3)%nat.
Proof.
  eexists. split; [vm_compute; reflexivity|].
  repeat split; discriminate.
Qed.

(** C3 (amended): when the first style of the input has at least one size
    and none of its sizes is blank, [format_inventory_table] returns a
    table of exactly #warehouses + 4 rows: a Price row, a Case Size row, a
    header row of the size labels, one row per distinct warehouse label of
    that style, and a Total row, in this order.  The columns are the
    distinct sizes of the style, and the entry of the Total row for each
    size is the sum of that column over the warehouse rows. *)
Theorem matrix_rows_and_totals :
  forall (set_iter : list string -> list string)
         (rows : list row) (pricing_data : option (PyDict.dict float)),
  (forall l, Permutation (set_iter l) l) ->
  Forall ascii_row rows ->
  let g := first_group rows in
  group_sizes g <> [] ->
  sizes_have_keys g ->
  exists (df : Pandas.DataFrame) (all_sizes ws prices : list string)
         (cells : list (list Z)),
    format_inventory_table set_iter rows pricing_data = Ok df
    /\ Pandas.df_columns df = all_sizes
    /\ Permutation all_sizes (group_sizes g)
    /\ Pandas.df_index df =
       map PStr (["Price: $"; "Case Size"; "Warehouse"] ++ ws
                 ++ ["Total Inventory"])
    /\ NoDup ws
    /\ (forall w, In w ws <-> exists r, In r g /\ warehouse_name r = w)
    /\ Pandas.df_data df =
       [map PStr prices; map (fun _ => PNone) all_sizes; map PStr all_sizes]
       ++ map (map PInt) cells
       ++ [map (fun j => PInt (total (column j cells)))
               (seq 0 (length all_sizes))]
    /\ length cells = length ws
    /\ Forall (fun r => length r = length all_sizes) cells
    /\ length (Pandas.df_data df) = (length ws + 4)%nat.
Proof.
  intros set_iter rows pricing_data Hperm _ g Hne Hkeys.
  destruct (format_inventory_table_matrix set_iter Hperm rows pricing_data
              Hne Hkeys) as (all_sizes & Hsizes & _ & Hfmt).
  fold g in Hsizes, Hfmt.
  set (ws := warehouse_order (group_labels g)) in *.
  exists (matrix all_sizes ws (last_qty g) pricing_data), all_sizes, ws,
         (map (fun s => get_size_price s pricing_data) all_sizes),
         (map (fun w => map (fun s => last_qty g w s) all_sizes) ws).
  split; [exact Hfmt|]. split; [reflexivity|]. split; [exact Hsizes|].
  split; [reflexivity|].
  split; [apply warehouse_order_NoDup, group_labels_NoDup|].
  split.
  { intros w. subst ws. rewrite warehouse_order_In. apply group_labels_In. }
  split.
  { unfold matrix. cbn [Pandas.df_data]. apply f_equal2.
    - f_equal. now rewrite map_map.
    - apply f_equal2.
      + rewrite map_map. apply map_ext. intros w. now rewrite map_map.
      + f_equal. rewrite <- (list_as_nth all_sizes "") at 1. rewrite map_map.
        apply map_ext_in. intros j Hj. apply in_seq in Hj. f_equal. f_equal.
        rewrite column_of_cells by lia. reflexivity. }
  split; [now rewrite length_map|].
  split.
  { apply Forall_forall. intros r Hr. apply in_map_iff in Hr.
    destruct Hr as (w & <- & _). now rewrite length_map. }
  unfold matrix. cbn [Pandas.df_data].
  rewrite !length_app, length_map. simpl. lia.
Qed.

(** The theorem at work on two warehouses with one size: Dallas comes
    before Reno and the total of M is 8. *)
Lemma matrix_rows_and_totals_witness :
  exists (df : Pandas.DataFrame) (all_sizes ws prices : list string)
         (cells : list (list Z)),
    format_inventory_table insertion_order
      Examples.two_warehouses None = Ok df
    /\ Pandas.df_columns df = all_sizes
    /\ Permutation all_sizes (group_sizes (first_group Examples.two_warehouses))
    /\ Pandas.df_index df =
       map PStr (["Price: $"; "Case Size"; "Warehouse"] ++ ws
                 ++ ["Total Inventory"])
    /\ NoDup ws
    /\ (forall w, In w ws <->
          exists r, In r (first_group Examples.two_warehouses)
                    /\ warehouse_name r = w)
    /\ Pandas.df_data df =
       [map PStr prices; map (fun _ => PNone) all_sizes; map PStr all_sizes]
       ++ map (map PInt) cells
       ++ [map (fun j => PInt (total (column j cells)))
               (seq 0 (length all_sizes))]
    /\ length cells = length ws
    /\ Forall (fun r => length r = length all_sizes) cells
    /\ length (Pandas.df_data df) = (length ws + 4)%nat.
Proof.
  apply (@matrix_rows_and_totals insertion_order
           Examples.two_warehouses None).
  - intros l. apply Permutation_refl.
  - repeat constructor.
  - vm_compute. discriminate.
  - vm_compute. repeat constructor; discriminate.
Defined.

End MatrixShape.

Section EmptyInputs.
Import PyStr InventoryFormatter Matrix SizeOrder.

Lemma group_sizes_fold_no_sizes (g : list row) (acc : list string) :
  Forall (fun r => size r = "") g ->
  fold_left
    (fun acc r =>
       match upper (size r) with
       | EmptyString => acc
       | s => set_add acc s
       end) g acc = acc.
Proof.
  intros Hg. revert acc. induction Hg as [|r g Hr _ IH]; intros acc; simpl.
  - reflexivity.
  - rewrite Hr. simpl. apply IH.
Qed.

(** C5, as stated, fails for an input of zero rows:
    [format_inventory_table] returns the empty frame, with no row and no
    column. *)
Lemma format_inventory_table_zero_rows :
  format_inventory_table insertion_order [] None
  = Ok Pandas.empty_frame
  /\ Pandas.df_index Pandas.empty_frame = []
  /\ Pandas.df_columns Pandas.empty_frame = []
  /\ Pandas.df_data Pandas.empty_frame = []
  /\ Pandas.empty Pandas.empty_frame = true.
Proof. repeat split. Qed.

(** C5 (amended): for an input of zero rows [format_inventory_table]
    returns the empty frame, and it is its wrapper
    [create_inventory_display_table] that turns this into the one-cell
    table "No inventory data available".  For a non-empty input whose rows
    carry no non-empty size, [format_inventory_table] itself returns the
    one-cell table "No size data available", which the wrapper passes on.
    Neither function raises on these inputs. *)
Theorem tables_without_sizes :
  forall (set_iter : list string -> list string)
         (rows : list row) (pricing_data : option (PyDict.dict float))
         (style_name : string),
  (forall l, Permutation (set_iter l) l) ->
  rows <> [] ->
  Forall (fun r => size r = "") rows ->
  format_inventory_table set_iter [] pricing_data = Ok Pandas.empty_frame
  /\ create_inventory_display_table set_iter [] style_name =
     Ok (Pandas.one_cell_frame "Message" (PStr "No inventory data available"))
  /\ format_inventory_table set_iter rows pricing_data =
     Ok (Pandas.one_cell_frame "Message" (PStr "No size data available"))
  /\ create_inventory_display_table set_iter rows style_name =
     Ok (Pandas.one_cell_frame "Message" (PStr "No size data available")).
Proof.
  intros set_iter rows pricing_data style_name Hperm Hrows Hsizes.
  split; [reflexivity|]. split; [reflexivity|].
  assert (group_sizes (first_group rows) = []) as Hempty.
  { apply group_sizes_fold_no_sizes. rewrite first_group_filter.
    apply Forall_forall. intros r Hr. apply filter_In in Hr.
    rewrite Forall_forall in Hsizes. now apply Hsizes. }
  split.
  - now apply format_inventory_table_message.
  - unfold create_inventory_display_table.
    rewrite (format_inventory_table_message set_iter Hperm rows None Hrows Hempty).
    reflexivity.
Qed.

(** The theorem at work on two rows without a size. *)
Lemma tables_without_sizes_witness :
  format_inventory_table insertion_order [] None
  = Ok Pandas.empty_frame
  /\ create_inventory_display_table insertion_order [] "PC61" =
     Ok (Pandas.one_cell_frame "Message" (PStr "No inventory data available"))
  /\ format_inventory_table insertion_order
       Examples.no_sizes None =
     Ok (Pandas.one_cell_frame "Message" (PStr "No size data available"))
  /\ create_inventory_display_table insertion_order
       Examples.no_sizes "PC61" =
     Ok (Pandas.one_cell_frame "Message" (PStr "No size data available")).
Proof.
  apply (@tables_without_sizes insertion_order
           Examples.no_sizes None "PC61").
  - intros l. apply Permutation_refl.
  - discriminate.
  - repeat constructor.
Defined.

End EmptyInputs.

Section Duplicates.
Import PyStr InventoryFormatter Matrix SizeOrder.

(** C10, as stated, fails for rows of a style that is not the first one:
    the builder tabulates the style of the first row only.  Of the rows
    A, B, B for Dallas and size M with the quantities 1, 5 and 9 the cell
    holds 1, and so does the total, not the 9 of the later duplicate. *)
Lemma duplicates_of_another_style_are_not_shown :
  exists df,
    format_inventory_table insertion_order
      Examples.duplicates_of_another_style None = Ok df
    /\ Pandas.df_index df
       = map PStr ["Price: $"; "Case Size"; "Warehouse"; "Dallas, TX";
                   "Total Inventory"]
    /\ Pandas.df_columns df = ["M"]
    /\ Pandas.iloc df 3 0 = Some (PInt 1)
    /\ Pandas.iloc df 4 0 = Some (PInt 1).
Proof. eexists. split; [vm_compute; reflexivity|]. repeat split. Qed.

(** C10 (amended): of two rows of the tabulated style (the style of the
    first row) with the same warehouse label and the same upper-cased
    size, which is not empty, the cell of the matrix for that warehouse
    and size holds the quantity of the later one when no row after it
    has that style, label and size, not a sum; the Total row adds up the
    cells of the column, so it counts that quantity only.  Stated for
    sizes and labels in ASCII and a tabulated style without a blank size,
    on which the builder returns. *)
Theorem duplicate_rows_overwrite :
  forall (set_iter : list string -> list string)
         (l1 : list row) (r1 : row) (l2 : list row) (r2 : row)
         (l3 : list row) (pricing_data : option (PyDict.dict float)),
  (forall l, Permutation (set_iter l) l) ->
  let rows := l1 ++ r1 :: l2 ++ r2 :: l3 in
  Forall ascii_row rows ->
  style r1 = first_style rows ->
  style r2 = style r1 ->
  warehouse_name r2 = warehouse_name r1 ->
  upper (size r2) = upper (size r1) ->
  upper (size r2) <> "" ->
  Forall (fun r => ~ (style r = style r2
                      /\ warehouse_name r = warehouse_name r2
                      /\ upper (size r) = upper (size r2))) l3 ->
  sizes_have_keys (first_group rows) ->
  exists (df : Pandas.DataFrame) (i j : nat) (col : list Z),
    format_inventory_table set_iter rows pricing_data = Ok df
    /\ nth_error (Pandas.df_index df) (3 + i) = Some (PStr (warehouse_name r2))
    /\ nth_error (Pandas.df_columns df) j = Some (upper (size r2))
    /\ Pandas.iloc df (3 + i) j = Some (PInt (qty r2))
    /\ (forall k, (k < length col)%nat ->
          Pandas.iloc df (3 + k) j = Some (PInt (nth k col 0)))
    /\ (i < length col)%nat
    /\ nth i col 0 = qty r2
    /\ nth_error (Pandas.df_index df) (3 + length col)
       = Some (PStr "Total Inventory")
    /\ Pandas.iloc df (3 + length col) j = Some (PInt (total col)).
Proof.
  intros set_iter l1 r1 l2 r2 l3 pricing_data Hperm rows _
         Hstyle1 Hstyle2 Hname Hsize Hnonempty Hlast Hkeys.
  set (g := first_group rows) in *.
  set (w := warehouse_name r2). set (s := upper (size r2)).
  assert (In r2 g) as Hr2.
  { apply first_group_In. split; [|congruence].
    subst rows. apply in_app_iff. right. right.
    apply in_app_iff. right. now left. }
  assert (In s (group_sizes g)) as Hs.
  { apply group_sizes_In. split; [exact Hnonempty|]. now exists r2. }
  destruct (format_inventory_table_matrix set_iter Hperm rows pricing_data)
    as (all_sizes & Hsizes & _ & Hfmt); [intros E; fold g in E; now rewrite E in Hs
                                    | exact Hkeys |].
  fold g in Hsizes, Hfmt.
  set (ws := warehouse_order (group_labels g)) in *.
  assert (In w ws) as Hw.
  { subst ws. apply warehouse_order_In, group_labels_In. now exists r2. }
  destruct (In_nth_error ws w Hw) as [i Hi].
  assert (In s all_sizes) as Hs'
    by (eapply Permutation_in; [symmetry; exact Hsizes | exact Hs]).
  destruct (In_nth_error all_sizes s Hs') as [j Hj].
  assert (last_qty g w s = qty r2) as Hcell.
  { subst g. rewrite first_group_filter.
    remember (first_style rows) as st eqn:Hst. clear Hst. subst rows.
    replace (l1 ++ r1 :: l2 ++ r2 :: l3) with ((l1 ++ r1 :: l2) ++ r2 :: l3)
      by (now rewrite <- app_assoc).
    rewrite filter_app. cbn [filter].
    replace (String.eqb (style r2) st) with true
      by (symmetry; apply String.eqb_eq; congruence).
    apply last_qty_last; [reflexivity | reflexivity |].
    apply Forall_forall. intros r Hr. apply filter_In in Hr.
    destruct Hr as [Hr Hst]. apply String.eqb_eq in Hst.
    rewrite Forall_forall in Hlast. intros [Hn Hz].
    apply (Hlast r Hr). repeat split; try assumption. congruence. }
  exists (matrix all_sizes ws (last_qty g) pricing_data), i, j,
         (map (fun w' => last_qty g w' s) ws).
  rewrite length_map.
  split; [exact Hfmt|].
  split; [now apply matrix_label|].
  split; [exact Hj|].
  split; [rewrite <- Hcell; now apply matrix_cell|].
  split.
  { intros k Hk. destruct (nth_error ws k) as [w'|] eqn:Hk';
      [|apply nth_error_None in Hk'; lia].
    rewrite (matrix_cell all_sizes ws (last_qty g) pricing_data k j w' s Hk' Hj).
    f_equal. f_equal.
    rewrite (nth_indep _ 0 (last_qty g "" s)) by (now rewrite length_map).
    rewrite (map_nth (fun w' => last_qty g w' s)).
    f_equal. symmetry. now apply nth_error_nth. }
  split; [apply nth_error_Some; congruence|].
  split.
  { rewrite (nth_indep _ 0 (last_qty g "" s))
      by (rewrite length_map; apply nth_error_Some; congruence).
    rewrite (map_nth (fun w' => last_qty g w' s)).
    rewrite (nth_error_nth ws i "" Hi). exact Hcell. }
  split; [apply matrix_total_label|].
  now apply matrix_total.
Qed.

(** The theorem at work: Dallas has 5 and then 9 for size M, Reno has 3;
    the cell holds 9 and the total is 12. *)
Lemma duplicate_rows_overwrite_witness :
  exists (df : Pandas.DataFrame) (i j : nat) (col : list Z),
    format_inventory_table insertion_order
      Examples.duplicates None = Ok df
    /\ nth_error (Pandas.df_index df) (3 + i) = Some (PStr "Dallas, TX")
    /\ nth_error (Pandas.df_columns df) j = Some "M"
    /\ Pandas.iloc df (3 + i) j = Some (PInt 9)
    /\ (forall k, (k < length col)%nat ->
          Pandas.iloc df (3 + k) j = Some (PInt (nth k col 0)))
    /\ (i < length col)%nat
    /\ nth i col 0 = 9
    /\ nth_error (Pandas.df_index df) (3 + length col)
       = Some (PStr "Total Inventory")
    /\ Pandas.iloc df (3 + length col) j = Some (PInt (total col)).
Proof.
  apply (@duplicate_rows_overwrite insertion_order
           [] (Examples.stock "PC61" "M" "1" "Dallas, TX" 5)
           [Examples.stock "PC61" "M" "2" "Reno, NV" 3]
           (Examples.stock "PC61" "m" "1" "Dallas, TX" 9) [] None).
  - intros l. apply Permutation_refl.
  - repeat constructor.
  - reflexivity.
  - reflexivity.
  - reflexivity.
  - reflexivity.
  - discriminate.
  - constructor.
  - vm_compute. repeat constructor; discriminate.
Defined.

End Duplicates.

Section Quantities.
Import PyStr InventoryFormatter Matrix SizeOrder.

Lemma matrix_qty_cells (all_sizes ws : list string)
    (cell : string -> string -> Z)
    (pricing_data : option (PyDict.dict float)) (i j : nat) (v : pyval) :
  (3 <= i)%nat ->
  Pandas.iloc (matrix all_sizes ws cell pricing_data) i j = Some v ->
  exists z,
    v = PInt z
    /\ ((exists w s, z = cell w s)
        \/ exists s, z = total (map (fun w => cell w s) ws)).
Proof.
  intros Hi. replace i with (3 + (i - 3))%nat by lia.
  unfold Pandas.iloc, matrix. cbn [Pandas.df_data].
  rewrite nth_error_after_three.
  destruct (nth_error _ (i - 3)) as [r|] eqn:Hr; [|discriminate].
  intros Hv. apply nth_error_In in Hr, Hv.
  apply in_app_iff in Hr. destruct Hr as [Hr | [<- | []]].
  - apply in_map_iff in Hr. destruct Hr as (w & <- & _).
    apply in_map_iff in Hv. destruct Hv as (s & <- & _).
    eexists. split; [reflexivity|]. left. now exists w, s.
  - apply in_map_iff in Hv. destruct Hv as (s & <- & _).
    eexists. split; [reflexivity|]. right. now exists s.
Qed.

Lemma last_qty_fold_cases (g : list row) (w s : string) (acc : Z) :
  let z := fold_left
             (fun acc r =>
                if String.eqb (warehouse_name r) w
                   && String.eqb (upper (size r)) s
                then qty r else acc) g acc in
  z = acc \/ exists r, In r g /\ qty r = z.
Proof.
  revert acc. induction g as [|r g IH]; intros acc; cbn [fold_left];
    [now left|].
  cbv zeta in IH.
  destruct (String.eqb (warehouse_name r) w && String.eqb (upper (size r)) s).
  - destruct (IH (qty r)) as [E | (r' & Hr' & E)].
    + right. exists r. split; [now left | now symmetry].
    + right. exists r'. split; [now right | exact E].
  - destruct (IH acc) as [E | (r' & Hr' & E)]; [now left|].
    right. exists r'. split; [now right | exact E].
Qed.

Lemma last_qty_from_rows (g : list row) (w s : string) :
  from_rows g (last_qty g w s).
Proof. exact (last_qty_fold_cases g w s 0). Qed.

Section StockRows.

Lemma stock_rows_coercible (mk : string -> Z -> result (PyDict.dict pyval))
    (items : list (string * pyval)) :
  WebJson.stock_rows mk items =
  mapM (fun wn => mk (fst wn) (snd wn)) (Stock.coercible items).
Proof.
  induction items as [|[w q] items IH]; simpl; [reflexivity|].
  destruct (Py.int q) as [n | e]; simpl; now rewrite IH.
Qed.

Lemma stock_rows_skip (mk : string -> Z -> result (PyDict.dict pyval))
    (pre post : list (string * pyval)) (w : string) (q : pyval) (e : exn) :
  Py.int q = Raise e ->
  WebJson.stock_rows mk (pre ++ (w, q) :: post) =
  WebJson.stock_rows mk (pre ++ post).
Proof.
  intros Hq. rewrite !stock_rows_coercible. f_equal.
  unfold Stock.coercible. rewrite !flat_map_app. simpl. now rewrite Hq.
Qed.

Lemma or_truthy (a b : pyval) : Py.truthy a = true -> Py.or_ a b = a.
Proof. unfold Py.or_. now intros ->. Qed.

Lemma make_row_fields (slug : string) (product : pyval)
    (warehouses : PyDict.dict pyval) (color : string) (size : pyval)
    (price : option float) (w : string) (n : Z) (r : PyDict.dict pyval) :
  WebJson.make_row slug product warehouses color size price w n = Ok r ->
  PyDict.get r "warehouseId" = Some (PStr w)
  /\ PyDict.get r "qty" = Some (PInt n)
  /\ PyDict.get r "color" = Some (PStr color)
  /\ (slug <> "" -> PyDict.get r "style" = Some (PStr slug)).
Proof.
  unfold WebJson.make_row. destruct product; try discriminate.
  cbn [Py.get bind]. intros [= <-]. repeat split.
  intros Hslug. cbn [PyDict.get String.eqb Ascii.eqb Bool.eqb].
  assert (Py.truthy (PStr slug) = true) as Ht.
  { simpl. apply negb_true_iff. now apply String.eqb_neq. }
  rewrite !(or_truthy (PStr slug)) by exact Ht. reflexivity.
Qed.

End StockRows.

End Quantities.

(** ** Appending strings *)

Section StringAppend.

Lemma string_length_app (a b : string) :
  String.length (a ++ b) = (String.length a + String.length b)%nat.
Proof. induction a as [|c a IH]; simpl; [reflexivity | now rewrite IH]. Qed.

Lemma string_app_nil_r (a : string) : (a ++ "")%string = a.
Proof. induction a as [|c a IH]; simpl; [reflexivity | now rewrite IH]. Qed.

Lemma string_app_inv_head (a x y : string) :
  (a ++ x = a ++ y)%string -> x = y.
Proof.
  induction a as [|c a IH]; simpl; [auto|]. intros [= E]. now apply IH.
Qed.

Lemma string_app_inv_tail (x y b : string) :
  (x ++ b = y ++ b)%string -> x = y.
Proof.
  revert y. induction x as [|c x IH]; intros [|d y]; simpl; intros E.
  - reflexivity.
  - apply (f_equal String.length) in E. simpl in E.
    rewrite string_length_app in E. lia.
  - apply (f_equal String.length) in E. simpl in E.
    rewrite string_length_app in E. lia.
  - injection E as -> E. f_equal. now apply IH.
Qed.

End StringAppend.


(** ** The WebJSON fetch *)

Section WebFacts.
Import PyStr WebJson Fetch.


Lemma string_app_assoc (a b c : string) :
  ((a ++ b) ++ c = a ++ b ++ c)%string.
Proof. induction a as [|x a IH]; simpl; [reflexivity | now f_equal]. Qed.







Lemma inventory_url_inj (a b : string) :
  inventory_url a = inventory_url b -> a = b.
Proof.
  unfold inventory_url. intros E.
  apply string_app_inv_head in E. now apply string_app_inv_tail in E.
Qed.



Context `{PyText}.



(** The fetch, case by case. *)
Lemma fetch_first_fails (net : network) (slug : string) (timeout : Z) :
  net [] (inventory_url slug) timeout = Failed ->
  fetch_inventory_json net slug timeout
  = ([inventory_url slug], Raise RequestException).
Proof. intros Hnet. unfold fetch_inventory_json. now rewrite Hnet. Qed.

Lemma fetch_first_succeeds (net : network) (slug : string) (timeout : Z)
    (resp : response) (res : PyDict.dict pyval) :
  net [] (inventory_url slug) timeout = Replied resp ->
  decode_and_parse resp slug = Ok res ->
  fetch_inventory_json net slug timeout = ([inventory_url slug], Ok res).
Proof.
  intros Hnet Hres. unfold fetch_inventory_json. now rewrite Hnet, Hres.
Qed.

Lemma fetch_no_retry (net : network) (slug : string) (timeout : Z)
    (resp : response) :
  net [] (inventory_url slug) timeout = Replied resp ->
  attempt_fails resp slug ->
  (contains_char "_" slug = false \/ before_first "_" slug = "") ->
  fetch_inventory_json net slug timeout
  = ([inventory_url slug], Ok (error_envelope [inventory_url slug] resp)).
Proof.
  intros Hnet [e He] Hbase. unfold fetch_inventory_json.
  rewrite Hnet, He. destruct Hbase as [Hc | Hb].
  - rewrite Hc. rewrite String.eqb_refl, andb_false_r. reflexivity.
  - destruct (contains_char "_" slug) eqn:Hc.
    + rewrite Hb. reflexivity.
    + rewrite String.eqb_refl, andb_false_r. reflexivity.
Qed.


(** Once the first request is answered, the fetch returns. *)
Lemma fetch_replied_returns (net : network) (slug : string) (timeout : Z)
    (resp : response) :
  net [] (inventory_url slug) timeout = Replied resp ->
  exists env, snd (fetch_inventory_json net slug timeout) = Ok env.
Proof.
  intros Hnet. unfold fetch_inventory_json. rewrite Hnet. clear Hnet.
  destruct (decode_and_parse resp slug); [now eexists|].
  destruct (negb _ && negb _); [|now eexists].
  destruct (net _ _ timeout) as [|resp2]; [now eexists|].
  destruct (decode_and_parse resp2 _); now eexists.
Qed.

End WebFacts.

Section WebClaims.
Import PyStr WebJson Fetch.

(** C1: the claim does not hold of the code.  The first [requests.get]
    stands before the [try]: when it raises, [fetch_inventory_json]
    raises, and this is the only way it does.  Every failure after a first
    response (error status, undecodable body, parser error, any failure of
    the retry) gives an envelope. *)
Theorem fetch_raises_iff_first_request_fails :
  forall `{PyText} (net : network) (slug : string) (timeout : Z),
  ((exists e, snd (fetch_inventory_json net slug timeout) = Raise e)
   <-> net [] (inventory_url slug) timeout = Failed)
  /\ snd (fetch_inventory_json Examples.net_down "PC61_White" 20)
     = Raise RequestException.
Proof.
  intros Htext net slug timeout. split; [|reflexivity]. split.
  - intros [e He]. unfold fetch_inventory_json in He.
    destruct (net [] (inventory_url slug) timeout) as [|resp]; [reflexivity|].
    exfalso. destruct (decode_and_parse resp slug); [discriminate|].
    destruct (negb _ && negb _); [|discriminate].
    destruct (net _ _ timeout) as [|resp2]; [discriminate|].
    destruct (decode_and_parse resp2 _); discriminate.
  - intros Hnet. rewrite (fetch_first_fails net slug timeout Hnet).
    now eexists.
Qed.




End WebClaims.

(** ** The parser *)

Section ParserFacts.
Import PyStr WebJson Fetch.

Lemma bind_Ok {A B : Type} (m : result A) (k : A -> result B) (b : B) :
  bind m k = Ok b -> exists a, m = Ok a /\ k a = Ok b.
Proof. destruct m as [a | e]; simpl; [now exists a | discriminate]. Qed.

Lemma mapM_Forall {A B : Type} (f : A -> result B) (P : B -> Prop)
    (l : list A) (bs : list B) :
  (forall a b, f a = Ok b -> P b) -> mapM f l = Ok bs -> Forall P bs.
Proof.
  intros Hf. revert bs. induction l as [|a l IH]; simpl; intros bs Hbs.
  - injection Hbs as <-. constructor.
  - apply bind_Ok in Hbs. destruct Hbs as (b & Hb & Hbs).
    apply bind_Ok in Hbs. destruct Hbs as (bs' & Hbs' & Hbs).
    injection Hbs as <-. constructor; [now apply (Hf a) | now apply IH].
Qed.

Lemma all_rows_Forall (f : pyval -> result (list (PyDict.dict pyval)))
    (P : PyDict.dict pyval -> Prop) (opts : list pyval)
    (rows : list (PyDict.dict pyval)) :
  (forall opt rs, f opt = Ok rs -> Forall P rs) ->
  all_rows f opts = Ok rows -> Forall P rows.
Proof.
  intros Hf. revert rows. induction opts as [|opt opts IH]; simpl; intros rows Hr.
  - injection Hr as <-. constructor.
  - apply bind_Ok in Hr. destruct Hr as (rs & Hrs & Hr).
    apply bind_Ok in Hr. destruct Hr as (rest & Hrest & Hr).
    injection Hr as <-. apply Forall_app. split; [now apply (Hf opt) | now apply IH].
Qed.

Context `{PyText}.

Lemma option_rows_style (slug : string) (product : pyval)
    (warehouses : PyDict.dict pyval) (color : string) (opt : pyval)
    (rs : list (PyDict.dict pyval)) :
  slug <> "" ->
  option_rows slug product warehouses color opt = Ok rs ->
  Forall (fun d => PyDict.get d "style" = Some (PStr slug)
                   /\ PyDict.get d "color" = Some (PStr color)) rs.
Proof.
  intros Hslug Hrs. unfold option_rows in Hrs.
  do 7 (apply bind_Ok in Hrs; destruct Hrs as (? & _ & Hrs)).
  destruct (Py.or_ _ _); try discriminate.
  rewrite stock_rows_coercible in Hrs.
  eapply mapM_Forall; [|exact Hrs].
  intros [w n] r Hr. simpl in Hr. apply make_row_fields in Hr.
  destruct Hr as (_ & _ & Hcolor & Hstyle). split; [now apply Hstyle|].
  exact Hcolor.
Qed.

(** Every row that the parser emits for a non-empty slug carries the
    slug as its style and the text after its first underscore as its
    colour. *)
Lemma parse_inventory_json_style (data : pyval) (slug : string)
    (env : PyDict.dict pyval) :
  slug <> "" ->
  parse_inventory_json data slug = Ok env ->
  rows_carry env slug (color_of_slug slug).
Proof.
  intros Hslug Henv. unfold parse_inventory_json in Henv.
  do 7 (apply bind_Ok in Henv; destruct Henv as (? & ? & Henv)).
  injection Henv as <-.
  match goal with
  | Hr : all_rows _ _ = Ok ?rows |- _ =>
      exists (map PDict rows); split; [reflexivity|];
      apply Forall_map;
      eapply Forall_impl;
        [| eapply all_rows_Forall; [|exact Hr];
           intros opt rs; now apply option_rows_style]
  end.
  intros d Hd. now exists d.
Qed.

Lemma error_envelope_style (urls : list string) (resp : response)
    (st col : string) :
  rows_carry (error_envelope urls resp) st col.
Proof. exists []. split; [reflexivity | constructor]. Qed.

Lemma contains_char_before_first (c : ascii) (s : string) :
  contains_char c (before_first c s) = false.
Proof.
  induction s as [|d s IH]; [reflexivity|]. cbn [before_first].
  destruct (Ascii.eqb d c) eqn:E; [reflexivity|].
  cbn [contains_char]. now rewrite E, IH.
Qed.

(** The base style has no colour. *)
Lemma color_of_base_style (slug : string) :
  color_of_slug (before_first "_" slug) = "".
Proof.
  unfold color_of_slug. rewrite contains_char_before_first.
  now rewrite andb_false_r.
Qed.

End ParserFacts.

Section ParserClaims.
Import PyStr WebJson Fetch.

(** C6, as stated, fails on the fallback: the retry parses the payload
    under the base style, so the rows carry "60397" when the caller asked
    for "60397_InsBlue". *)
Lemma fallback_rows_carry_base_style :
  fetch_inventory_json (H := example_text) Examples.net_base_only
    "60397_InsBlue" 20
  = ([inventory_url "60397_InsBlue"; inventory_url "60397"],
     Ok [("rows",
          PList
            [PDict
               [("style", PStr "60397"); ("partId", PStr "");
                ("color", PStr ""); ("size", PStr "M");
                ("description", PStr "Polo"); ("warehouseId", PStr "1");
                ("warehouse", PStr "Dallas, TX"); ("qty", PInt 5);
                ("totalAvailable", PNone); ("price", PNone)]])])
  /\ "60397" <> "60397_InsBlue".
Proof. split; [vm_compute; reflexivity | discriminate]. Qed.

(** C6 (amended): every row that [parse_inventory_json] emits for a
    non-empty slug has that slug as its style, and the text after the
    first underscore of the slug as its colour, the empty text when the
    slug has no underscore.  So the rows that
    [fetch_inventory_json] returns from the first request carry the
    caller's slug, and the rows it returns from the retry carry the base
    style, the slug without its colour suffix, with an empty colour. *)
Theorem rows_carry_the_parsed_slug :
  forall `{PyText} (net : network) (slug : string) (timeout : Z)
         (data : pyval) (parsed env : PyDict.dict pyval),
  slug <> "" ->
  parse_inventory_json data slug = Ok parsed ->
  snd (fetch_inventory_json net slug timeout) = Ok env ->
  rows_carry parsed slug (color_of_slug slug)
  /\ match fst (fetch_inventory_json net slug timeout) with
     | [_] => rows_carry env slug (color_of_slug slug)
     | _ => rows_carry env (before_first "_" slug) ""
     end.
Proof.
  intros Htext net slug timeout data parsed env Hslug Hparsed Henv.
  split; [now apply (parse_inventory_json_style data)|].
  unfold fetch_inventory_json in *.
  destruct (net [] (inventory_url slug) timeout) as [|resp]; [discriminate|].
  destruct (decode_and_parse resp slug) as [res|e] eqn:Hres.
  - simpl in Henv. injection Henv as <-. cbn [fst].
    unfold decode_and_parse in Hres.
    do 2 (apply bind_Ok in Hres; destruct Hres as (? & _ & Hres)).
    now apply parse_inventory_json_style in Hres.
  - destruct (negb (String.eqb _ "") && negb _) eqn:Hguard.
    + set (base := if contains_char "_" slug then before_first "_" slug
                   else slug) in *.
      apply andb_true_iff in Hguard. destruct Hguard as [Hb Hd].
      apply negb_true_iff, String.eqb_neq in Hb.
      apply negb_true_iff, String.eqb_neq in Hd.
      assert (base = before_first "_" slug) as Hbase.
      { subst base. destruct (contains_char "_" slug); [reflexivity|].
        now elim Hd. }
      destruct (net _ _ timeout) as [|resp2].
      * simpl in Henv. injection Henv as <-. apply error_envelope_style.
      * destruct (decode_and_parse resp2 base) as [res|e2] eqn:Hres2.
        -- simpl in Henv. injection Henv as <-. cbn [fst].
           unfold decode_and_parse in Hres2.
           do 2 (apply bind_Ok in Hres2; destruct Hres2 as (? & _ & Hres2)).
           apply parse_inventory_json_style in Hres2; [|exact Hb].
           rewrite Hbase in Hres2. now rewrite color_of_base_style in Hres2.
        -- simpl in Henv. injection Henv as <-. apply error_envelope_style.
    + simpl in Henv. injection Henv as <-. apply error_envelope_style.
Qed.

(** The theorem at work: parsed directly, the payload carries the slug
    and its colour; fetched through the retry, it carries the base style
    and no colour. *)
Lemma rows_carry_the_parsed_slug_witness :
  rows_carry (Examples.parsed_payload "60397_InsBlue" "InsBlue")
    "60397_InsBlue" (color_of_slug "60397_InsBlue")
  /\ match fst (fetch_inventory_json (H := example_text)
                  Examples.net_base_only "60397_InsBlue" 20) with
     | [_] => rows_carry (Examples.parsed_payload "60397" "")
                "60397_InsBlue" (color_of_slug "60397_InsBlue")
     | _ => rows_carry (Examples.parsed_payload "60397" "")
              (before_first "_" "60397_InsBlue") ""
     end.
Proof.
  apply (@rows_carry_the_parsed_slug example_text Examples.net_base_only
           "60397_InsBlue" 20 Examples.payload).
  - discriminate.
  - vm_compute. reflexivity.
  - vm_compute. reflexivity.
Defined.

(** C7, as stated, fails in two ways.  On a payload on which the parser
    raises, here the JSON list [[]], the offline path raises, with no
    row set to compare, where the live path returns an envelope.  And when the payload is served for
    the base style only, the live path parses it under the base style:
    its rows carry "60397" and no colour, where the offline parse of the
    same payload under the slug "60397_InsBlue" carries the slug and the
    colour. *)
Lemma offline_and_live_differ :
  (Cli.fetch_style (H := example_text) (Some (PList [])) Examples.net_down
     "PC61" = Raise AttributeError
   /\ Cli.fetch_style (H := example_text) None MoreExamples.net_json_list
        "PC61"
      = Ok (error_envelope [inventory_url "PC61"] MoreExamples.json_list))
  /\ (Cli.fetch_style (H := example_text) (Some Examples.payload)
        Examples.net_down "60397_InsBlue"
      = Ok (Examples.parsed_payload "60397_InsBlue" "InsBlue")
      /\ Cli.fetch_style (H := example_text) None Examples.net_base_only
           "60397_InsBlue"
         = Ok (Examples.parsed_payload "60397" "")
      /\ Examples.parsed_payload "60397" ""
         <> Examples.parsed_payload "60397_InsBlue" "InsBlue").
Proof.
  repeat split; try (vm_compute; reflexivity). discriminate.
Qed.

(** C7 (amended): when the first request of the live path is answered,
    with a status that is not 4xx or 5xx, by a body that decodes to the
    payload, the live path and the offline parse of that payload under
    the same slug give the same result exactly when
    [parse_inventory_json] returns on the payload.  Then the live path
    returns the envelope of the offline parse, row for row, after this
    one request; the offline path makes no request.  When the parser
    raises, the offline path raises and the live path returns an
    envelope all the same. *)
Theorem offline_parse_is_the_live_parse :
  forall `{PyText} (net offline_net : network) (slug : string)
         (data : pyval) (resp : response),
  net [] (inventory_url slug) 20 = Replied resp ->
  raise_for_status resp = Ok tt ->
  json resp = Some data ->
  (Cli.fetch_style None net slug = Cli.fetch_style (Some data) offline_net slug
   <-> exists env, parse_inventory_json data slug = Ok env)
  /\ (forall env,
        Cli.fetch_style (Some data) offline_net slug = Ok env ->
        fetch_inventory_json net slug 20 = ([inventory_url slug], Ok env))
  /\ (forall e,
        Cli.fetch_style (Some data) offline_net slug = Raise e ->
        exists env, Cli.fetch_style None net slug = Ok env).
Proof.
  intros Htext net offline_net slug data resp Hnet Hstatus Hjson.
  assert (decode_and_parse resp slug = parse_inventory_json data slug) as Hlive.
  { unfold decode_and_parse, resp_json. now rewrite Hstatus, Hjson. }
  assert (forall env,
            parse_inventory_json data slug = Ok env ->
            fetch_inventory_json net slug 20 = ([inventory_url slug], Ok env))
    as Hfetch.
  { intros env Henv.
    apply (fetch_first_succeeds net slug 20 resp env Hnet). congruence. }
  destruct (fetch_replied_returns net slug 20 resp Hnet) as [live Hreturns].
  split; [|split].
  - unfold Cli.fetch_style. split.
    + intros E. rewrite Hreturns in E. now exists live.
    + intros [env Henv]. now rewrite (Hfetch env Henv), Henv.
  - intros env Henv. now apply Hfetch.
  - intros e _. exists live. exact Hreturns.
Qed.

(** The theorem at work: the payload saved from "PC61_White" parses
    offline, with the network down, to what the live fetch returns. *)
Lemma offline_parse_is_the_live_parse_witness :
  (Cli.fetch_style (H := example_text) None Examples.net_found "PC61_White"
   = Cli.fetch_style (H := example_text) (Some Examples.payload)
       Examples.net_down "PC61_White"
   <-> exists env,
         parse_inventory_json (H := example_text) Examples.payload
           "PC61_White" = Ok env)
  /\ (forall env,
        Cli.fetch_style (H := example_text) (Some Examples.payload)
          Examples.net_down "PC61_White" = Ok env ->
        fetch_inventory_json (H := example_text) Examples.net_found
          "PC61_White" 20
        = ([inventory_url "PC61_White"], Ok env))
  /\ (forall e,
        Cli.fetch_style (H := example_text) (Some Examples.payload)
          Examples.net_down "PC61_White" = Raise e ->
        exists env,
          Cli.fetch_style (H := example_text) None Examples.net_found
            "PC61_White" = Ok env).
Proof.
  apply (@offline_parse_is_the_live_parse example_text Examples.net_found
           Examples.net_down "PC61_White" Examples.payload Examples.found).
  - reflexivity.
  - reflexivity.
  - reflexivity.
Defined.

End ParserClaims.

(** ** Quantities *)

Section StockEntries.
Import PyStr WebJson.

Lemma coercible_app (a b : list (string * pyval)) :
  Stock.coercible (a ++ b) = Stock.coercible a ++ Stock.coercible b.
Proof. unfold Stock.coercible. apply flat_map_app. Qed.

Lemma mapM_stock (mk : string -> Z -> result (PyDict.dict pyval))
    (l : list (string * Z)) (rs : list (PyDict.dict pyval)) :
  (forall w n r, mk w n = Ok r ->
                 Stock.stock_of r = (Some (PStr w), Some (PInt n))) ->
  mapM (fun wn => mk (fst wn) (snd wn)) l = Ok rs ->
  map Stock.stock_of rs
  = map (fun wn => (Some (PStr (fst wn)), Some (PInt (snd wn)))) l.
Proof.
  intros Hmk. revert rs. induction l as [|[w n] l IH]; intros rs Hrs;
    cbn [mapM] in Hrs.
  - now injection Hrs as <-.
  - apply bind_Ok in Hrs. destruct Hrs as (r & Hr & Hrs).
    apply bind_Ok in Hrs. destruct Hrs as (rs' & Hrs' & Hrs).
    injection Hrs as <-. cbn [map fst snd].
    now rewrite (Hmk w n r Hr), (IH rs' Hrs').
Qed.

Lemma canonical_stock (r : PyDict.dict pyval) (c : row) :
  Stock.canonical r = Some c ->
  Stock.stock_of r = (Some (PStr (warehouseId c)), Some (PInt (qty c))).
Proof.
  unfold Stock.canonical, Stock.stock_of, Stock.text_at.
  destruct (PyDict.get r "style") as [[]|]; try discriminate.
  destruct (PyDict.get r "partId") as [[]|]; try discriminate.
  destruct (PyDict.get r "color") as [[]|]; try discriminate.
  destruct (PyDict.get r "size") as [[]|]; try discriminate.
  destruct (PyDict.get r "description") as [[]|]; try discriminate.
  destruct (PyDict.get r "warehouseId") as [[]|]; try discriminate.
  destruct (PyDict.get r "warehouse") as [[]|]; try discriminate.
  destruct (PyDict.get r "qty") as [[]|]; try discriminate.
  destruct (PyDict.get r "totalAvailable") as [[]|]; try discriminate;
    destruct (PyDict.get r "price") as [[]|]; try discriminate;
    now intros [= <-].
Qed.

(** Canonical Rows of the parser have the warehouses and the quantities
    of the accepted stock entries. *)
Lemma canonical_rows_stock (out : list (PyDict.dict pyval))
    (parsed : list row) (l : list (string * Z)) :
  Forall2 (fun r c => Stock.canonical r = Some c) out parsed ->
  map Stock.stock_of out
  = map (fun wn => (Some (PStr (fst wn)), Some (PInt (snd wn)))) l ->
  map (fun c => (warehouseId c, qty c)) parsed = l.
Proof.
  intros Hall. revert l. induction Hall as [|r c out parsed Hr _ IH];
    intros [|[w n] l] E; try discriminate; [reflexivity|].
  cbn [map fst snd] in E.
  assert (Stock.stock_of r = (Some (PStr w), Some (PInt n))) as E1
    by congruence.
  assert (map Stock.stock_of out
          = map (fun wn => (Some (PStr (fst wn)), Some (PInt (snd wn)))) l)
    as E2 by congruence.
  rewrite (canonical_stock r c Hr) in E1. injection E1 as Ew En.
  cbn [map]. now rewrite Ew, En, (IH l E2).
Qed.

Context `{PyText}.

Lemma option_rows_stock (slug : string) (product : pyval)
    (warehouses : PyDict.dict pyval) (color : string) (opt : pyval)
    (rs : list (PyDict.dict pyval)) :
  option_rows slug product warehouses color opt = Ok rs ->
  map Stock.stock_of rs
  = map (fun wn => (Some (PStr (fst wn)), Some (PInt (snd wn))))
        (Stock.coercible (Stock.stock_map opt)).
Proof.
  intros Hrs. unfold option_rows in Hrs.
  do 5 (apply bind_Ok in Hrs; destruct Hrs as (? & _ & Hrs)).
  apply bind_Ok in Hrs. destruct Hrs as (levels & Hlevels & Hrs).
  apply bind_Ok in Hrs. destruct Hrs as (available & Havailable & Hrs).
  unfold Stock.stock_map. rewrite Hlevels, Havailable. cbn [bind].
  destruct (Py.or_ levels available); try discriminate.
  rewrite stock_rows_coercible in Hrs.
  apply (mapM_stock _ _ _) in Hrs; [exact Hrs|].
  intros w n r Hr. apply make_row_fields in Hr.
  destruct Hr as (Hw & Hn & _). unfold Stock.stock_of. now rewrite Hw, Hn.
Qed.

Lemma all_rows_stock (f : pyval -> result (list (PyDict.dict pyval)))
    (opts : list pyval) (rows : list (PyDict.dict pyval)) :
  (forall opt rs,
     f opt = Ok rs ->
     map Stock.stock_of rs
     = map (fun wn => (Some (PStr (fst wn)), Some (PInt (snd wn))))
           (Stock.coercible (Stock.stock_map opt))) ->
  all_rows f opts = Ok rows ->
  map Stock.stock_of rows
  = map (fun wn => (Some (PStr (fst wn)), Some (PInt (snd wn))))
        (Stock.coercible (flat_map Stock.stock_map opts)).
Proof.
  intros Hf. revert rows. induction opts as [|opt opts IH]; intros rows Hr;
    cbn [all_rows] in Hr.
  - now injection Hr as <-.
  - apply bind_Ok in Hr. destruct Hr as (rs & Hrs & Hr).
    apply bind_Ok in Hr. destruct Hr as (rest & Hrest & Hr).
    injection Hr as <-. cbn [flat_map].
    now rewrite coercible_app, !map_app, (Hf opt rs Hrs), (IH rest Hrest).
Qed.

(** The rows of the parser are the stock entries whose quantity [int]
    accepts, in the order of the payload. *)
Lemma parse_inventory_json_stock (data : pyval) (slug : string)
    (env : PyDict.dict pyval) :
  parse_inventory_json data slug = Ok env ->
  exists out,
    env = [("rows", PList (map PDict out))]
    /\ map Stock.stock_of out
       = map (fun wn => (Some (PStr (fst wn)), Some (PInt (snd wn))))
             (Stock.coercible (Stock.entries data)).
Proof.
  intros Henv. unfold parse_inventory_json in Henv.
  apply bind_Ok in Henv. destruct Henv as (product & Hproduct & Henv).
  do 3 (apply bind_Ok in Henv; destruct Henv as (? & _ & Henv)).
  apply bind_Ok in Henv. destruct Henv as (vo & Hvo & Henv).
  apply bind_Ok in Henv. destruct Henv as (opts & Hopts & Henv).
  apply bind_Ok in Henv. destruct Henv as (out & Hout & Henv).
  injection Henv as <-. exists out. split; [reflexivity|].
  unfold Stock.entries, Stock.options.
  rewrite Hproduct. cbn [bind]. rewrite Hvo. cbn [bind]. rewrite Hopts.
  apply (all_rows_stock _ _ _) in Hout; [exact Hout|].
  intros opt rs. apply option_rows_stock.
Qed.

End StockEntries.

Section QuantityClaims.
Import PyStr WebJson InventoryFormatter Matrix SizeOrder.

(** C8, as stated, fails on the sign: a quantity is an integer, but
    nothing makes it non-negative.  The parser turns the upstream
    quantity "-3" into a Canonical Row with the quantity -3, and the
    builder shows -3 in the cell and in the Total row. *)
Lemma negative_quantity_reaches_the_matrix :
  exists r df,
    parse_inventory_json (H := example_text) Examples.negative_payload "60397"
    = Ok [("rows", PList [PDict r])]
    /\ PyDict.get r "qty" = Some (PInt (-3))
    /\ Stock.canonical r = Some Examples.negative_row
    /\ qty Examples.negative_row = -3
    /\ format_inventory_table insertion_order [Examples.negative_row] None
       = Ok df
    /\ Pandas.df_index df
       = map PStr ["Price: $"; "Case Size"; "Warehouse"; "Dallas, TX";
                   "Total Inventory"]
    /\ Pandas.iloc df 3 0 = Some (PInt (-3))
    /\ Pandas.iloc df 4 0 = Some (PInt (-3)).
Proof.
  do 2 eexists. split; [vm_compute; reflexivity|].
  split; [reflexivity|]. split; [reflexivity|]. split; [reflexivity|].
  split; [vm_compute; reflexivity|]. repeat split.
Qed.

(** C8 (amended): every quantity cell of the matrix, in the warehouse
    rows and in the Total row, is an integer: the quantity of a row, 0
    for a warehouse and a size without a row, or a sum of such; it is
    not negative when no row has a negative quantity.  The rows that
    [parse_inventory_json] emits are, in the order of the payload, the
    stock entries whose quantity [int] accepts, each with its warehouse
    and that integer as [qty]: an entry whose quantity [int] rejects makes
    no row.  So the Canonical Rows that the builder is given with the
    output of the parser have the quantities of the accepted entries and
    no other, and nothing of a rejected entry reaches the matrix.  The
    builder is taken on sizes and labels in ASCII and a tabulated style
    without a blank size, on which it returns. *)
Theorem quantities_are_integers_and_skipped :
  forall `{PyText} (set_iter : list string -> list string)
         (rows : list row) (pricing_data : option (PyDict.dict float))
         (data : pyval) (slug : string) (env : PyDict.dict pyval),
  (forall l, Permutation (set_iter l) l) ->
  Forall ascii_row rows ->
  sizes_have_keys (first_group rows) ->
  parse_inventory_json data slug = Ok env ->
  (exists df,
     format_inventory_table set_iter rows pricing_data = Ok df
     /\ forall i j v,
          (3 <= i)%nat -> Pandas.iloc df i j = Some v ->
          exists z col,
            v = PInt z
            /\ Forall (from_rows rows) col
            /\ (In z col \/ z = total col)
            /\ (Forall (fun r => 0 <= qty r) rows -> 0 <= z))
  /\ exists out,
       env = [("rows", PList (map PDict out))]
       /\ map Stock.stock_of out
          = map (fun wn => (Some (PStr (fst wn)), Some (PInt (snd wn))))
                (Stock.coercible (Stock.entries data))
       /\ forall parsed,
            Forall2 (fun r c => Stock.canonical r = Some c) out parsed ->
            map (fun c => (warehouseId c, qty c)) parsed
            = Stock.coercible (Stock.entries data).
Proof.
  intros Htext set_iter rows pricing_data data slug env Hperm _ Hkeys Henv.
  split.
  2:{ destruct (parse_inventory_json_stock data slug env Henv)
        as (out & Hout & Hstock).
      exists out. split; [exact Hout|]. split; [exact Hstock|].
      intros parsed Hparsed.
      exact (canonical_rows_stock out parsed _ Hparsed Hstock). }
  destruct rows as [|r0 rest].
  { exists Pandas.empty_frame. split; [reflexivity|].
    intros i j v _. unfold Pandas.iloc. simpl. now destruct i. }
  set (rows := r0 :: rest) in *. set (g := first_group rows) in *.
  assert (forall w s, from_rows rows (last_qty g w s)) as Hfrom.
  { intros w s. destruct (last_qty_from_rows g w s) as [E | (r & Hr & E)];
      [now left|].
    right. exists r. split; [|exact E]. subst g.
    now apply first_group_In in Hr. }
  destruct (format_inventory_table_spec set_iter Hperm r0 rest
              pricing_data Hkeys) as (all_sizes & _ & _ & Hfmt).
  eexists. split; [exact Hfmt|].
  intros i j v Hi. destruct all_sizes as [|s0 all_sizes].
  { unfold Pandas.iloc. simpl.
    destruct i as [|[|[|i]]]; try lia; discriminate. }
  intros Hv. apply matrix_qty_cells in Hv; [|exact Hi].
  fold rows g in Hv.
  destruct Hv as (z & -> & [(w & s & ->) | (s & ->)]).
  - exists (last_qty g w s), [last_qty g w s].
    split; [reflexivity|]. split; [constructor; [apply Hfrom | constructor]|].
    split; [left; now left|].
    intros Hqty. now apply last_qty_nonneg, first_group_nonneg.
  - set (ws := warehouse_order (group_labels g)).
    exists (total (map (fun w => last_qty g w s) ws)),
           (map (fun w => last_qty g w s) ws).
    split; [reflexivity|].
    split; [apply Forall_forall; intros z Hz; apply in_map_iff in Hz;
            destruct Hz as (w & <- & _); apply Hfrom|].
    split; [now right|].
    intros Hqty. apply total_nonneg, Forall_forall. intros z Hz.
    apply in_map_iff in Hz. destruct Hz as (w & <- & _).
    now apply last_qty_nonneg, first_group_nonneg.
Qed.

(** The theorem at work: two warehouses in the matrix, and a payload
    with three stock entries, of which the one with the quantity "n/a"
    makes no row. *)
Lemma quantities_are_integers_and_skipped_witness :
  (exists df,
     format_inventory_table insertion_order Examples.two_warehouses None
     = Ok df
     /\ forall i j v,
          (3 <= i)%nat -> Pandas.iloc df i j = Some v ->
          exists z col,
            v = PInt z
            /\ Forall (from_rows Examples.two_warehouses) col
            /\ (In z col \/ z = total col)
            /\ (Forall (fun r => 0 <= qty r) Examples.two_warehouses -> 0 <= z))
  /\ exists out,
       Examples.parsed_mixed_payload = [("rows", PList (map PDict out))]
       /\ map Stock.stock_of out
          = map (fun wn => (Some (PStr (fst wn)), Some (PInt (snd wn))))
                (Stock.coercible (Stock.entries Examples.mixed_payload))
       /\ forall parsed,
            Forall2 (fun r c => Stock.canonical r = Some c) out parsed ->
            map (fun c => (warehouseId c, qty c)) parsed
            = Stock.coercible (Stock.entries Examples.mixed_payload).
Proof.
  apply (@quantities_are_integers_and_skipped example_text insertion_order
           Examples.two_warehouses None Examples.mixed_payload "PC61").
  - intros l. apply Permutation_refl.
  - repeat constructor.
  - vm_compute. repeat constructor; discriminate.
  - vm_compute. reflexivity.
Defined.

(** The entry with the quantity "n/a" is skipped, and the matrix of the
    parsed rows has no cell for it: its warehouse has no row. *)
Example rejected_entry_is_skipped :
  Stock.entries Examples.mixed_payload
  = [("1", PInt 5); ("2", PStr "n/a"); ("3", PStr " 7 ")]
  /\ Stock.coercible (Stock.entries Examples.mixed_payload)
     = [("1", 5); ("3", 7)]
  /\ parse_inventory_json (H := example_text) Examples.mixed_payload "PC61"
     = Ok Examples.parsed_mixed_payload
  /\ Forall2 (fun r c => Stock.canonical r = Some c) Examples.mixed_dicts
       Examples.mixed_rows
  /\ exists df,
       format_inventory_table insertion_order Examples.mixed_rows None = Ok df
       /\ Pandas.df_index df
          = map PStr ["Price: $"; "Case Size"; "Warehouse"; "Dallas, TX";
                      "Seattle, WA"; "Total Inventory"]
       /\ Pandas.iloc df 3 0 = Some (PInt 5)
       /\ Pandas.iloc df 4 0 = Some (PInt 7)
       /\ Pandas.iloc df 5 0 = Some (PInt 12).
Proof.
  split; [vm_compute; reflexivity|]. split; [vm_compute; reflexivity|].
  split; [vm_compute; reflexivity|]. split; [repeat constructor|].
  eexists. split; [vm_compute; reflexivity|]. repeat split.
Qed.

End QuantityClaims.

(** ** The flat export *)

Section ExportFacts.
Import Pandas.

Lemma index_of_Some (c : string) (l : list string) (i : nat) :
  index_of c l = Some i -> nth_error l i = Some c.
Proof.
  revert i. induction l as [|x l IH]; simpl; intros i; [discriminate|].
  destruct (String.eqb_spec x c) as [-> | _].
  - now intros [= <-].
  - destruct (index_of c l) as [k|]; [|discriminate].
    intros [= <-]. simpl. now apply IH.
Qed.

Lemma index_of_None (c : string) (l : list string) :
  index_of c l = None <-> ~ In c l.
Proof.
  induction l as [|x l IH]; simpl; [tauto|].
  destruct (String.eqb_spec x c) as [-> | Hne].
  - split; [discriminate | tauto].
  - destruct (index_of c l); simpl.
    + split; [discriminate|]. intros Hn.
      assert (~ In c l) as Hn' by tauto. apply IH in Hn'. discriminate.
    + split; [|reflexivity]. intros _ [Hx | Hin]; [contradiction|].
      now apply IH.
Qed.



Lemma index_of_In (c : string) (l : list string) :
  In c l -> exists i, index_of c l = Some i.
Proof.
  intros Hin. destruct (index_of c l) as [i|] eqn:E; [now exists i|].
  apply index_of_None in E. contradiction.
Qed.





(** Adding the missing columns appends them, each filled with None. *)
Lemma add_missing_columns (l : list string) (df : DataFrame) :
  NoDup l ->
  let extra := filter (fun c => negb (str_in c (df_columns df))) l in
  fold_left
    (fun df c => if str_in c (df_columns df) then df else assign_none c df)
    l df
  = mkDataFrame (df_index_name df) (df_index df) (df_columns df ++ extra)
      (map (fun r => r ++ repeat PNone (length extra)) (df_data df)).
Proof.
  intros Hnd. revert df. induction Hnd as [|c l Hc Hnd IH]; intros df; simpl.
  - destruct df as [name idx cols data]. simpl. rewrite app_nil_r. f_equal.
    rewrite <- (map_id data) at 1. apply map_ext. intros r.
    now rewrite app_nil_r.
  - destruct (str_in c (df_columns df)) eqn:Hin; simpl; [apply IH|].
    rewrite IH. unfold assign_none.
    assert (index_of c (df_columns df) = None) as ->.
    { apply index_of_None. intros Hc'. apply str_in_In in Hc'. congruence. }
    simpl.
    assert (filter (fun c0 => negb (str_in c0 (df_columns df ++ [c]))) l
            = filter (fun c0 => negb (str_in c0 (df_columns df))) l) as ->.
    { apply filter_ext_in. intros x Hx. f_equal.
      destruct (str_in x (df_columns df)) eqn:Hx1.
      - apply str_in_In. apply in_app_iff. left. now apply str_in_In.
      - destruct (str_in x (df_columns df ++ [c])) eqn:Hx2; [|reflexivity].
        apply str_in_In, in_app_iff in Hx2. destruct Hx2 as [Hx2 | [<- | []]].
        + apply str_in_In in Hx2. congruence.
        + contradiction. }
    rewrite <- app_assoc. simpl. f_equal.
    rewrite map_map. apply map_ext. intros r. now rewrite <- app_assoc.
Qed.

Lemma mapM_index_of (cols all : list string) :
  (forall c, In c cols -> In c all) ->
  mapM (fun c => match index_of c all with
                 | Some i => Ok i
                 | None => Raise KeyError
                 end) cols
  = Ok (map (fun c => match index_of c all with
                      | Some i => i
                      | None => O
                      end) cols).
Proof.
  induction cols as [|c cols IH]; intros Hall; simpl; [reflexivity|].
  destruct (index_of_In c all (Hall c (or_introl eq_refl))) as [i ->]. simpl.
  rewrite IH by (intros x Hx; apply Hall; now right). reflexivity.
Qed.

Lemma cols_NoDup : NoDup Exporter.cols.
Proof.
  unfold Exporter.cols.
  repeat (constructor; [simpl; intuition discriminate|]). constructor.
Qed.

End ExportFacts.

Section ExportClaims.
Import Pandas Dtypes.




End ExportClaims.

(** * Further properties of the code *)

(** ** The matrix builder *)

Section SortedLists.
Context {A : Type}.

Lemma StronglySorted_filter (R : A -> A -> Prop) (f : A -> bool) (l : list A) :
  StronglySorted R l -> StronglySorted R (filter f l).
Proof.
  induction 1 as [|x l Hl IH Hx]; simpl; [constructor|].
  destruct (f x); [|exact IH].
  constructor; [exact IH|].
  rewrite Forall_forall in *. intros y Hy. apply filter_In in Hy.
  now apply Hx.
Qed.

Lemma StronglySorted_app (R : A -> A -> Prop) (l1 l2 : list A) :
  StronglySorted R l1 -> StronglySorted R l2 ->
  (forall a b, In a l1 -> In b l2 -> R a b) ->
  StronglySorted R (l1 ++ l2).
Proof.
  intros H1 H2 Hcross. induction H1 as [|x l1 Hl IH Hx]; simpl; [exact H2|].
  constructor.
  - apply IH. intros a b Ha Hb. apply Hcross; [now right | exact Hb].
  - apply Forall_app. split; [exact Hx|].
    apply Forall_forall. intros b Hb. apply Hcross; [now left | exact Hb].
Qed.

Lemma StronglySorted_weaken (R R' : A -> A -> Prop) (l : list A) :
  (forall a b, In a l -> In b l -> a <> b -> R a b -> R' a b) ->
  NoDup l -> StronglySorted R l -> StronglySorted R' l.
Proof.
  intros Himp Hnd H. induction H as [|x l Hl IH Hx]; [constructor|].
  inversion Hnd as [|? ? Hnotin Hnd']; subst.
  constructor.
  - apply IH; [|exact Hnd'].
    intros a b Ha Hb. apply Himp; now right.
  - rewrite Forall_forall in *. intros y Hy.
    apply Himp; [now left | now right | | now apply Hx].
    intros ->. contradiction.
Qed.

End SortedLists.

Lemma string_leb_iff (a b : string) :
  String.leb a b = true <-> String.ltb a b = true \/ a = b.
Proof.
  unfold String.leb, String.ltb.
  destruct (String.compare a b) eqn:Hc.
  - apply String.compare_eq_iff in Hc. tauto.
  - tauto.
  - split; [discriminate|]. intros [H | ->]; [discriminate|].
    now rewrite string_compare_refl in Hc.
Qed.

Lemma string_leb_trans (a b c : string) :
  String.leb a b = true -> String.leb b c = true -> String.leb a c = true.
Proof.
  rewrite !string_leb_iff. intros [Hab | ->] [Hbc | ->]; auto.
  left. eapply string_ltb_trans; eassumption.
Qed.

Lemma key_leb_iff (a b : Z * string) :
  key_leb a b = true <-> key_ltb a b = true \/ a = b.
Proof.
  unfold key_leb, key_ltb. destruct a as [m s], b as [n t]. simpl.
  rewrite !orb_true_iff, !andb_true_iff, string_leb_iff, Z.eqb_eq.
  split.
  - intros [H | [-> [H | ->]]]; auto.
  - intros [[H | [-> H]] | [= -> ->]]; auto.
Qed.

Lemma key_leb_trans (a b c : Z * string) :
  key_leb a b = true -> key_leb b c = true -> key_leb a c = true.
Proof.
  rewrite !key_leb_iff. intros [Hab | ->] [Hbc | ->]; auto.
  left. eapply key_ltb_trans; eassumption.
Qed.

Section MatrixMore.
Import PyStr InventoryFormatter Matrix SizeOrder WarehouseOrder.

Lemma first_group_idem (rows : list row) :
  first_group (first_group rows) = first_group rows.
Proof.
  destruct rows as [|r0 rest]; [reflexivity|].
  rewrite first_group_cons. cbn [filter]. rewrite String.eqb_refl.
  rewrite first_group_cons. cbn [filter]. rewrite String.eqb_refl.
  f_equal. induction rest as [|r rest IH]; simpl; [reflexivity|].
  destruct (style r =? style r0)%string eqn:E; simpl; [|exact IH].
  now rewrite E, IH.
Qed.

Lemma not_after_trans (a b c : string) :
  not_after a b -> not_after b c -> not_after a c.
Proof.
  intros (ka & kb & Ha & Hb & Hab) (kb' & kc & Hb' & Hc & Hbc).
  rewrite Hb in Hb'. injection Hb' as <-.
  exists ka, kc. repeat split; try assumption.
  eapply key_leb_trans; eassumption.
Qed.

Lemma size_key_raises (s : string) (e : exn) :
  _size_sort_key s = Raise e -> e = IndexError.
Proof.
  unfold _size_sort_key. destruct (strip (upper s)) as [|c base]; [congruence|].
  now destruct (isdigit c).
Qed.

Lemma keys_or_blank (l : list string) :
  Forall (fun s => normal_form s <> "") l
  \/ Exists (fun s => normal_form s = "") l.
Proof.
  induction l as [|s l IH].
  - left. constructor.
  - destruct (string_dec (normal_form s) "") as [Hs | Hs].
    + right. now left.
    + destruct IH as [IH | IH]; [left; now constructor | right; now right].
Qed.

(** The list of known warehouses is in the display order. *)
Lemma known_order_sorted : StronglySorted shown_before known_order.
Proof.
  unfold known_order.
  repeat (constructor; [|repeat (constructor; [vm_compute; lia|]); constructor]).
  constructor.
Qed.

Lemma warehouse_order_sorted (present : list string) :
  NoDup present -> StronglySorted shown_before (warehouse_order present).
Proof.
  intros Hnd. unfold warehouse_order. apply StronglySorted_app.
  - apply StronglySorted_filter, known_order_sorted.
  - set (others := filter (fun w => negb (str_in w known_order)) present).
    assert (forall w, In w (py_sorted String.leb others) ->
                      Pandas.index_of w known_order = None) as Hout.
    { intros w Hw. apply py_sorted_In in Hw. apply filter_In in Hw.
      destruct Hw as [_ Hw]. apply index_of_None. intros Hin.
      apply str_in_In in Hin. now rewrite Hin in Hw. }
    apply (StronglySorted_weaken (fun a b => String.leb a b = true)).
    + intros a b Ha Hb Hne Hab. unfold shown_before.
      rewrite (Hout a Ha), (Hout b Hb).
      apply string_leb_iff in Hab. destruct Hab; [assumption | contradiction].
    + apply py_sorted_NoDup, NoDup_filter, Hnd.
    + apply Sorted_StronglySorted.
      * intros a b c. apply string_leb_trans.
      * apply py_sorted_Sorted. intros a b Hab.
        destruct (String.leb_total a b); congruence.
  - intros a b Ha Hb. apply filter_In in Ha. destruct Ha as [Ha _].
    apply py_sorted_In, filter_In in Hb. destruct Hb as [_ Hb].
    unfold shown_before.
    destruct (index_of_In a known_order Ha) as [i ->].
    destruct (Pandas.index_of b known_order) as [j|] eqn:Hj; [|exact I].
    apply index_of_Some, nth_error_In in Hj.
    apply str_in_In in Hj. now rewrite Hj in Hb.
Qed.

Variable set_iter : list string -> list string.

(** X1: [format_inventory_table] tabulates one product only, the style of
    the first row: the rows of every other style are ignored, whatever
    they hold.  The result on a list of rows is the result on the rows
    that have the style of the first one. *)
Theorem only_first_style_is_tabulated :
  forall (rows : list row) (pricing_data : option (PyDict.dict float)),
  format_inventory_table set_iter rows pricing_data
  = format_inventory_table set_iter (first_group rows) pricing_data.
Proof.
  intros rows pricing_data. destruct rows as [|r0 rest]; [reflexivity|].
  assert (first_group (r0 :: rest)
          = r0 :: filter (fun r => String.eqb (style r) (style r0)) rest) as Hg.
  { rewrite first_group_cons. cbn [filter]. now rewrite String.eqb_refl. }
  destruct (group_rows_first r0 rest) as [tl Htl].
  destruct (group_rows_first r0
              (filter (fun r => String.eqb (style r) (style r0)) rest))
    as [tl' Htl'].
  rewrite <- Hg, first_group_idem in Htl'.
  rewrite Hg at 1. unfold format_inventory_table.
  rewrite <- Hg, Htl, Htl'. reflexivity.
Qed.

Hypothesis set_iter_perm : forall l, Permutation (set_iter l) l.

(** X2: in every matrix the Case Size row is empty: each of its cells is
    None.  The accumulator of a style is created with the key
    ['case_size'] set to None and nothing assigns it, so the default of 12
    in [product_data.get('case_size', 12)] is never used. *)
Theorem case_size_row_is_null :
  forall (rows : list row) (pricing_data : option (PyDict.dict float)),
  Forall ascii_row rows ->
  group_sizes (first_group rows) <> [] ->
  sizes_have_keys (first_group rows) ->
  exists df,
    format_inventory_table set_iter rows pricing_data = Ok df
    /\ nth_error (Pandas.df_index df) 1 = Some (PStr "Case Size")
    /\ forall j, (j < length (Pandas.df_columns df))%nat ->
                 Pandas.iloc df 1 j = Some PNone.
Proof.
  intros rows pricing_data _ Hne Hkeys.
  destruct (format_inventory_table_matrix set_iter set_iter_perm rows
              pricing_data Hne Hkeys) as (all_sizes & _ & _ & Hfmt).
  eexists. split; [exact Hfmt|]. split; [reflexivity|].
  intros j Hj. unfold Pandas.iloc, matrix in *. cbn in Hj |- *.
  rewrite nth_error_map.
  destruct (nth_error all_sizes j) eqn:E; [reflexivity|].
  apply nth_error_None in E. lia.
Qed.

(** X3: the warehouse rows of a matrix are in display order.  The index
    of the table is Price, Case Size, Warehouse, the warehouse labels and
    Total Inventory; among the warehouse labels, those of the known list
    (Dallas, Cincinnati, Richmond, Jacksonville, Phoenix, Reno,
    Minneapolis, Robbinsville, Seattle) come first, in the order of that
    list, and all other labels follow in ascending order of their
    names. *)
Theorem warehouse_rows_in_display_order :
  forall (rows : list row) (pricing_data : option (PyDict.dict float)),
  Forall ascii_row rows ->
  group_sizes (first_group rows) <> [] ->
  sizes_have_keys (first_group rows) ->
  exists df ws,
    format_inventory_table set_iter rows pricing_data = Ok df
    /\ Pandas.df_index df =
       map PStr (["Price: $"; "Case Size"; "Warehouse"] ++ ws
                 ++ ["Total Inventory"])
    /\ Permutation ws (group_labels (first_group rows))
    /\ StronglySorted shown_before ws.
Proof.
  intros rows pricing_data _ Hne Hkeys.
  destruct (format_inventory_table_matrix set_iter set_iter_perm rows
              pricing_data Hne Hkeys) as (all_sizes & _ & _ & Hfmt).
  eexists. exists (warehouse_order (group_labels (first_group rows))).
  split; [exact Hfmt|]. split; [reflexivity|]. split.
  - apply NoDup_Permutation.
    + apply warehouse_order_NoDup, group_labels_NoDup.
    + apply group_labels_NoDup.
    + intros w. apply warehouse_order_In.
  - apply warehouse_order_sorted, group_labels_NoDup.
Qed.

(** X4: the columns of a matrix are in the order of the size key: no
    column sorts after a column to its right, and no size appears
    twice. *)
Theorem matrix_columns_in_size_order :
  forall (rows : list row) (pricing_data : option (PyDict.dict float)),
  Forall ascii_row rows ->
  group_sizes (first_group rows) <> [] ->
  sizes_have_keys (first_group rows) ->
  exists df,
    format_inventory_table set_iter rows pricing_data = Ok df
    /\ NoDup (Pandas.df_columns df)
    /\ StronglySorted not_after (Pandas.df_columns df).
Proof.
  intros rows pricing_data _ Hne Hkeys.
  destruct (format_inventory_table_matrix set_iter set_iter_perm rows
              pricing_data Hne Hkeys) as (all_sizes & Hperm & Hord & Hfmt).
  eexists. split; [exact Hfmt|]. split.
  - eapply Permutation_NoDup; [symmetry; exact Hperm | apply group_sizes_NoDup].
  - apply Sorted_StronglySorted; [|exact Hord].
    intros a b c. apply not_after_trans.
Qed.

(** X5: [format_inventory_table] raises IndexError exactly when a row of
    the first style has a size that is not empty but blank (white space
    only): [_size_sort_key] strips it and reads its first character.  On
    every other input the function returns a table. *)
Theorem blank_size_raises_index_error :
  forall (rows : list row) (pricing_data : option (PyDict.dict float)),
  Forall ascii_row rows ->
  (format_inventory_table set_iter rows pricing_data = Raise IndexError
   <-> Exists (fun s => normal_form s = "") (group_sizes (first_group rows)))
  /\ ((exists df, format_inventory_table set_iter rows pricing_data = Ok df)
      <-> sizes_have_keys (first_group rows)).
Proof.
  intros rows pricing_data _.
  assert (sizes_have_keys (first_group rows) ->
          exists df, format_inventory_table set_iter rows pricing_data = Ok df)
    as Hok.
  { intros Hkeys. destruct rows as [|r0 rest]; [now eexists|].
    destruct (format_inventory_table_spec set_iter set_iter_perm r0 rest
                pricing_data Hkeys) as (all_sizes & _ & _ & Hfmt).
    eexists. exact Hfmt. }
  assert (Exists (fun s => normal_form s = "") (group_sizes (first_group rows)) ->
          format_inventory_table set_iter rows pricing_data = Raise IndexError)
    as Hraise.
  { intros Hex. destruct rows as [|r0 rest]; [inversion Hex|].
    destruct (group_rows_spec r0 rest) as (pd & tl & Hgroup & Hsizes & _).
    unfold format_inventory_table. rewrite Hgroup, Hsizes.
    assert (py_sorted_by_key _size_sort_key
              (set_iter (group_sizes (first_group (r0 :: rest))))
            = Raise IndexError) as ->; [|reflexivity].
    assert (Exists (fun s => normal_form s = "")
              (set_iter (group_sizes (first_group (r0 :: rest))))) as Hex'.
    { apply Exists_exists in Hex. destruct Hex as (s & Hs & Hblank).
      apply Exists_exists. exists s. split; [|exact Hblank].
      eapply Permutation_in; [symmetry; apply set_iter_perm | exact Hs]. }
    unfold py_sorted_by_key.
    assert (mapM (fun a => k <- _size_sort_key a ;; Ok (k, a))
              (set_iter (group_sizes (first_group (r0 :: rest))))
            = Raise IndexError) as ->; [|reflexivity].
    induction Hex' as [s l Hs | s l _ IH]; simpl.
    - unfold _size_sort_key. fold (normal_form s). now rewrite Hs.
    - destruct (_size_sort_key s) as [k|e] eqn:E; simpl; [now rewrite IH|].
      now rewrite (size_key_raises s e E). }
  assert (sizes_have_keys (first_group rows)
          \/ Exists (fun s => normal_form s = "")
               (group_sizes (first_group rows))) as Hcases.
  { apply keys_or_blank. }
  split; split.
  - intros Hr. destruct Hcases as [Hkeys | Hex]; [|exact Hex].
    destruct (Hok Hkeys) as [df Hdf]. congruence.
  - exact Hraise.
  - intros [df Hdf]. destruct Hcases as [Hkeys | Hex]; [exact Hkeys|].
    rewrite (Hraise Hex) in Hdf. discriminate.
  - exact Hok.
Qed.

End MatrixMore.

Section MatrixMoreWitnesses.
Import PyStr InventoryFormatter Matrix SizeOrder WarehouseOrder.

Lemma insertion_order_perm (l : list string) :
  Permutation (insertion_order l) l.
Proof. apply Permutation_refl. Qed.

(** The mixed warehouses as the builder shows them: the known ones in the
    order of the list, then the others by name. *)
Example mixed_warehouses_table :
  format_inventory_table insertion_order MoreExamples.mixed_warehouses None
  = Ok (Pandas.mkDataFrame (Some "")
          [PStr "Price: $"; PStr "Case Size"; PStr "Warehouse";
           PStr "Dallas, TX"; PStr "Reno, NV"; PStr "Akron, OH";
           PStr "Zion, IL"; PStr "Total Inventory"]
          ["M"]
          [[PStr "37.26"]; [PNone]; [PStr "M"];
           [PInt 4]; [PInt 2]; [PInt 3]; [PInt 1]; [PInt 10]]).
Proof. vm_compute. reflexivity. Qed.

Lemma case_size_row_is_null_witness :
  exists df,
    format_inventory_table insertion_order Examples.two_warehouses None = Ok df
    /\ nth_error (Pandas.df_index df) 1 = Some (PStr "Case Size")
    /\ forall j, (j < length (Pandas.df_columns df))%nat ->
                 Pandas.iloc df 1 j = Some PNone.
Proof.
  apply (case_size_row_is_null insertion_order insertion_order_perm
           Examples.two_warehouses None).
  - repeat constructor.
  - vm_compute. discriminate.
  - vm_compute. repeat constructor; discriminate.
Defined.

Lemma warehouse_rows_in_display_order_witness :
  exists df ws,
    format_inventory_table insertion_order MoreExamples.mixed_warehouses None
    = Ok df
    /\ Pandas.df_index df =
       map PStr (["Price: $"; "Case Size"; "Warehouse"] ++ ws
                 ++ ["Total Inventory"])
    /\ Permutation ws (group_labels (first_group MoreExamples.mixed_warehouses))
    /\ StronglySorted shown_before ws.
Proof.
  apply (warehouse_rows_in_display_order insertion_order insertion_order_perm
           MoreExamples.mixed_warehouses None).
  - repeat constructor.
  - vm_compute. discriminate.
  - vm_compute. repeat constructor; discriminate.
Defined.

Lemma matrix_columns_in_size_order_witness :
  exists df,
    format_inventory_table insertion_order Examples.three_sizes None = Ok df
    /\ NoDup (Pandas.df_columns df)
    /\ StronglySorted not_after (Pandas.df_columns df).
Proof.
  apply (matrix_columns_in_size_order insertion_order insertion_order_perm
           Examples.three_sizes None).
  - repeat constructor.
  - vm_compute. discriminate.
  - vm_compute. repeat constructor; discriminate.
Defined.

Lemma blank_size_raises_index_error_witness :
  (format_inventory_table insertion_order MoreExamples.blank_size None
   = Raise IndexError
   <-> Exists (fun s => normal_form s = "")
         (group_sizes (first_group MoreExamples.blank_size)))
  /\ ((exists df,
         format_inventory_table insertion_order MoreExamples.blank_size None
         = Ok df)
      <-> sizes_have_keys (first_group MoreExamples.blank_size)).
Proof.
  apply (blank_size_raises_index_error insertion_order insertion_order_perm
           MoreExamples.blank_size None).
  repeat constructor.
Defined.

(** The blank size does make the builder raise; in a row of another
    style it is not looked at. *)
Example blank_size_raises :
  format_inventory_table insertion_order MoreExamples.blank_size None
  = Raise IndexError
  /\ exists df,
       format_inventory_table insertion_order MoreExamples.two_styles None
       = Ok df
       /\ Pandas.df_columns df = ["M"; "L"].
Proof.
  split; [vm_compute; reflexivity|].
  eexists. split; vm_compute; reflexivity.
Qed.

End MatrixMoreWitnesses.

(** ** Prices *)

Section PricesMore.
Import PyStr InventoryFormatter.

(** X6: without pricing data ([None] or an empty dict, and this is how
    [create_inventory_display_table] calls the builder) the price of a
    size is its default, looked up without regard to case: 38.26 for
    2XLT, 40.26 for 3XLT, 41.26 for 4XLT and 37.26 for every other size,
    known to the table or not, always with two decimals. *)
Theorem default_prices :
  forall (size : string) (pricing_data : option (PyDict.dict float)),
  is_ascii size = true ->
  pricing_data = None \/ pricing_data = Some [] ->
  get_size_price size pricing_data = Prices.default_price size.
Proof.
  intros size pricing_data _ Hp.
  assert (get_size_price size pricing_data =
          format_2f (PyDict.get_default base_prices (upper size) 37.26%float))
    as -> by (destruct Hp as [-> | ->]; reflexivity).
  unfold Prices.default_price, PyDict.get_default, base_prices.
  cbn [PyDict.get]. cbv zeta.
  repeat match goal with
         | |- context [String.eqb ?a (upper size)] =>
             destruct (String.eqb_spec a (upper size)) as [<- | ?]
         end;
    try (vm_compute; reflexivity).
  repeat match goal with
         | |- context [String.eqb (upper size) ?a] =>
             destruct (String.eqb_spec (upper size) a) as [E | ?]
         end;
    try (symmetry in E; contradiction); vm_compute; reflexivity.
Qed.

Lemma default_prices_witness :
  get_size_price "3xlt" None = Prices.default_price "3xlt".
Proof.
  apply (default_prices "3xlt" None); [reflexivity | now left].
Defined.

End PricesMore.

(** ** The WebJSON fetch *)

Section WebMore.
Import PyStr WebJson Fetch.

Lemma check_url_not_inventory_url (slug : string) :
  WebJsonCheck.check_url slug <> inventory_url slug.
Proof.
  unfold WebJsonCheck.check_url, inventory_url. intros E.
  apply string_app_inv_head, string_app_inv_head in E. discriminate.
Qed.

Lemma before_first_split (c : ascii) (s : string) :
  contains_char c s = true ->
  s = (before_first c s ++ String c (after_first c s))%string.
Proof.
  induction s as [|d s IH]; simpl; [discriminate|].
  destruct (Ascii.eqb_spec d c) as [-> | _]; simpl; [reflexivity|].
  intros Hc. f_equal. now apply IH.
Qed.

Lemma check_url_not_base_url (slug : string) :
  contains_char "_" slug = true ->
  WebJsonCheck.check_url slug <> inventory_url (before_first "_" slug).
Proof.
  intros Hc. unfold WebJsonCheck.check_url, inventory_url. intros E.
  apply string_app_inv_head in E.
  rewrite (before_first_split "_" slug Hc) in E at 1.
  rewrite string_app_assoc in E.
  apply string_app_inv_head in E. discriminate.
Qed.

Context `{PyText}.

(** The URLs that [fetch_inventory_json] requests. *)
Lemma fetch_urls (net : network) (slug : string) (timeout : Z) :
  fst (fetch_inventory_json net slug timeout) = [inventory_url slug]
  \/ (contains_char "_" slug = true
      /\ before_first "_" slug <> slug
      /\ fst (fetch_inventory_json net slug timeout)
         = [inventory_url slug; inventory_url (before_first "_" slug)]).
Proof.
  unfold fetch_inventory_json.
  destruct (net [] (inventory_url slug) timeout) as [|resp]; [now left|].
  destruct (decode_and_parse resp slug); [now left|].
  destruct (contains_char "_" slug) eqn:Hc.
  - destruct (negb _ && negb (String.eqb (before_first "_" slug) slug))
      eqn:Hguard; [|now left].
    right. split; [reflexivity|]. split.
    + apply andb_true_iff in Hguard. destruct Hguard as [_ Hd].
      now apply negb_true_iff, String.eqb_neq in Hd.
    + destruct (net _ _ timeout) as [|resp2]; [reflexivity|].
      now destruct (decode_and_parse resp2 _).
  - rewrite String.eqb_refl, andb_false_r. now left.
Qed.

(** X7: [fetch_inventory_json] sends one request or two, never more, and
    never the same URL twice: the first is the [checkInventoryJson] URL of
    the slug, the second, when there is one, that of the base style (the
    text before the first underscore), which differs from the slug. *)
Theorem fetch_requests_are_few_and_distinct :
  forall (net : network) (slug : string) (timeout : Z),
  let urls := fst (fetch_inventory_json net slug timeout) in
  (urls = [inventory_url slug]
   \/ urls = [inventory_url slug; inventory_url (before_first "_" slug)])
  /\ (length urls <= 2)%nat
  /\ NoDup urls.
Proof.
  intros net slug timeout urls. subst urls.
  destruct (fetch_urls net slug timeout) as [-> | (_ & Hd & ->)].
  - split; [now left|]. split; [simpl; lia|].
    constructor; [intros [] | constructor].
  - split; [now right|]. split; [simpl; lia|].
    constructor; [|constructor; [intros [] | constructor]].
    intros [E | []]. apply inventory_url_inj in E. congruence.
Qed.

(** What [fetch_inventory_json] returns is a parsed payload or the error
    envelope of some response. *)
Lemma fetch_result (net : network) (slug : string) (timeout : Z)
    (res : PyDict.dict pyval) :
  snd (fetch_inventory_json net slug timeout) = Ok res ->
  (exists resp st, decode_and_parse resp st = Ok res)
  \/ (exists urls resp, res = error_envelope urls resp
                        /\ urls = fst (fetch_inventory_json net slug timeout)).
Proof.
  unfold fetch_inventory_json.
  destruct (net [] (inventory_url slug) timeout) as [|resp]; [discriminate|].
  destruct (decode_and_parse resp slug) as [r|e] eqn:Hr.
  - intros [= <-]. left. now exists resp, slug.
  - destruct (negb _ && negb _).
    + destruct (net _ _ timeout) as [|resp2].
      * intros [= <-]. right. now eexists _, _.
      * destruct (decode_and_parse resp2 _) as [r2|e2] eqn:Hr2.
        -- intros [= <-]. left. eexists _, _. exact Hr2.
        -- intros [= <-]. right. now eexists _, _.
    + intros [= <-]. right. now eexists _, _.
Qed.

Lemma decode_and_parse_rows (resp : response) (st : string)
    (res : PyDict.dict pyval) :
  decode_and_parse resp st = Ok res ->
  exists rows, res = [("rows", PList (map PDict rows))].
Proof.
  unfold decode_and_parse. intros Hres.
  do 2 (apply bind_Ok in Hres; destruct Hres as (? & _ & Hres)).
  unfold parse_inventory_json in Hres.
  do 7 (apply bind_Ok in Hres; destruct Hres as (? & _ & Hres)).
  injection Hres as <-. now eexists.
Qed.

(** X8: what [fetch_inventory_json] returns is one of two things, which a
    caller tells apart by the key ["error"]: parsed rows under the single
    key ["rows"], or the error envelope, which has no rows, the flag
    [error] set, and a message that begins with ["Non-JSON response.
    Tried: "] followed by the URL of the first request, whatever made the
    attempts fail. *)
Theorem fetch_returns_rows_or_error :
  forall (net : network) (slug : string) (timeout : Z)
         (res : PyDict.dict pyval),
  snd (fetch_inventory_json net slug timeout) = Ok res ->
  (PyDict.get res "error" = None
   /\ exists rows, res = [("rows", PList (map PDict rows))])
  \/ (PyDict.get res "error" = Some (PBool true)
      /\ PyDict.get res "rows" = Some (PList [])
      /\ exists message,
           PyDict.get res "message" = Some (PStr message)
           /\ prefix ("Non-JSON response. Tried: " ++ inventory_url slug)
                     message = true).
Proof.
  intros net slug timeout res Hres.
  destruct (fetch_result net slug timeout res Hres)
    as [(resp & st & Hok) | (urls & resp & -> & Hurls)].
  - left. destruct (decode_and_parse_rows resp st res Hok) as [rows ->].
    split; [reflexivity | now exists rows].
  - right. split; [reflexivity|]. split; [reflexivity|].
    eexists. split; [reflexivity|].
    unfold error_message.
    assert (exists rest, join ", " urls = (inventory_url slug ++ rest)%string)
      as [rest ->].
    { destruct (fetch_urls net slug timeout) as [E | (_ & _ & E)];
        rewrite E in Hurls; subst urls.
      - exists "". simpl. now rewrite string_app_nil_r.
      - eexists. reflexivity. }
    rewrite <- !string_app_assoc.
    set (p := ("Non-JSON response. Tried: " ++ inventory_url slug)%string).
    rewrite !string_app_assoc. fold p.
    generalize (rest ++
      ". Status " ++ str_of_Z (status_code resp) ++ ", content-type: "
      ++ header (headers resp) "Content-Type" ++ ". First 300 chars: "
      ++ snippet_of resp)%string.
    intros tl. clear. induction p as [|c p IH]; simpl.
    + now destruct tl.
    + destruct (ascii_dec c c); [exact IH | congruence].
Qed.

(** X9: a response whose body is valid JSON but not an object (a list, a
    string, a number, null) is a failed attempt like an undecodable body:
    the parser raises on it and the exception is caught.  For a slug
    without a colour suffix the function returns the error envelope built
    from that response, whose message calls it a non-JSON response. *)
Theorem json_that_is_not_an_object_is_refused :
  forall (net : network) (slug : string) (timeout : Z) (resp : response)
         (v : pyval),
  net [] (inventory_url slug) timeout = Replied resp ->
  json resp = Some v ->
  (forall d, v <> PDict d) ->
  contains_char "_" slug = false ->
  attempt_fails resp slug
  /\ fetch_inventory_json net slug timeout
     = ([inventory_url slug], Ok (error_envelope [inventory_url slug] resp)).
Proof.
  intros net slug timeout resp v Hnet Hjson Hv Hc.
  assert (attempt_fails resp slug) as Hfail.
  { unfold attempt_fails, decode_and_parse, resp_json. rewrite Hjson.
    destruct (raise_for_status resp); [|now eexists].
    cbn [bind]. unfold parse_inventory_json.
    destruct v; try (now eexists). now elim (Hv d). }
  split; [exact Hfail|].
  apply fetch_no_retry; [exact Hnet | exact Hfail | now left].
Qed.

Lemma fetch_raise_inv (net : network) (slug : string) (timeout : Z) (e : exn) :
  snd (fetch_inventory_json net slug timeout) = Raise e ->
  net [] (inventory_url slug) timeout = Failed.
Proof.
  unfold fetch_inventory_json.
  destruct (net [] (inventory_url slug) timeout) as [|resp]; [reflexivity|].
  destruct (decode_and_parse resp slug); [discriminate|].
  destruct (negb _ && negb _); [|discriminate].
  destruct (net _ _ timeout) as [|resp2]; [discriminate|].
  destruct (decode_and_parse resp2 _); discriminate.
Qed.

Lemma fetch_inventory_check_fallback (net : network) (slug : string)
    (timeout : Z) (resp : response) :
  net [] (WebJsonCheck.check_url slug) timeout = Replied resp ->
  attempt_fails resp slug ->
  let later : network := fun earlier => net (WebJsonCheck.check_url slug :: earlier) in
  WebJsonCheck.fetch_inventory_check net slug timeout
  = (WebJsonCheck.check_url slug :: fst (fetch_inventory_json later slug timeout),
     snd (fetch_inventory_json later slug timeout)).
Proof.
  intros Hnet [e He] later. unfold WebJsonCheck.fetch_inventory_check.
  rewrite Hnet, He. fold later.
  now destruct (fetch_inventory_json later slug timeout).
Qed.

(** X10: [fetch_inventory_check] raises in two cases only, both a request
    that gets no response: its own request to the [checkInventory] URL,
    which stands before the [try], and, after a failed attempt on that
    response, the first request of [fetch_inventory_json], to which it
    falls back.  Every other failure ends in a parsed payload or in the
    error envelope. *)
Theorem check_raises_iff_a_first_request_fails :
  forall (net : network) (slug : string) (timeout : Z),
  (exists e, snd (WebJsonCheck.fetch_inventory_check net slug timeout) = Raise e)
  <-> net [] (WebJsonCheck.check_url slug) timeout = Failed
      \/ (exists resp,
            net [] (WebJsonCheck.check_url slug) timeout = Replied resp
            /\ attempt_fails resp slug
            /\ net [WebJsonCheck.check_url slug] (inventory_url slug) timeout
               = Failed).
Proof.
  intros net slug timeout. split.
  - intros [e He].
    destruct (net [] (WebJsonCheck.check_url slug) timeout) as [|resp] eqn:Hnet;
      [now left|].
    right. exists resp. split; [reflexivity|].
    destruct (decode_and_parse resp slug) as [r|e'] eqn:Hr.
    + unfold WebJsonCheck.fetch_inventory_check in He.
      rewrite Hnet, Hr in He. discriminate.
    + assert (attempt_fails resp slug) as Hfail by now exists e'.
      split; [exact Hfail|].
      rewrite (fetch_inventory_check_fallback net slug timeout resp Hnet Hfail)
        in He.
      cbn [snd] in He. now apply fetch_raise_inv in He.
  - intros [Hnet | (resp & Hnet & Hfail & Hsecond)].
    + unfold WebJsonCheck.fetch_inventory_check. rewrite Hnet. now eexists.
    + rewrite (fetch_inventory_check_fallback net slug timeout resp Hnet Hfail).
      cbn [snd]. rewrite fetch_first_fails by exact Hsecond. now eexists.
Qed.

(** X11: [fetch_inventory_check] sends at most three requests and never
    the same URL twice: the [checkInventory] URL of the slug, then, when
    the attempt on its response fails, the requests of
    [fetch_inventory_json], that is the [checkInventoryJson] URL of the
    slug and possibly that of the base style.  When the first response
    parses, it is the only request and its rows are the result. *)
Theorem check_requests_are_few_and_distinct :
  forall (net : network) (slug : string) (timeout : Z),
  let urls := fst (WebJsonCheck.fetch_inventory_check net slug timeout) in
  let url := WebJsonCheck.check_url slug in
  let url_json := inventory_url slug in
  let url_base := inventory_url (before_first "_" slug) in
  (urls = [url] \/ urls = [url; url_json] \/ urls = [url; url_json; url_base])
  /\ (length urls <= 3)%nat
  /\ NoDup urls
  /\ (forall resp res,
        net [] url timeout = Replied resp ->
        decode_and_parse resp slug = Ok res ->
        WebJsonCheck.fetch_inventory_check net slug timeout = ([url], Ok res)).
Proof.
  intros net slug timeout urls url url_json url_base.
  assert (forall resp res,
            net [] url timeout = Replied resp ->
            decode_and_parse resp slug = Ok res ->
            WebJsonCheck.fetch_inventory_check net slug timeout = ([url], Ok res))
    as Hone.
  { intros resp res Hnet Hres. unfold WebJsonCheck.fetch_inventory_check.
    fold url. now rewrite Hnet, Hres. }
  assert (urls = [url]
          \/ urls = [url; url_json]
          \/ (contains_char "_" slug = true
              /\ before_first "_" slug <> slug
              /\ urls = [url; url_json; url_base])) as Hurls.
  { subst urls. unfold WebJsonCheck.fetch_inventory_check. fold url.
    destruct (net [] url timeout) as [|resp] eqn:Hnet; [now left|].
    destruct (decode_and_parse resp slug) as [r|e] eqn:Hr; [now left|].
    set (later := fun earlier => net (url :: earlier)).
    destruct (fetch_urls later slug timeout) as [E | (Hc & Hd & E)];
      destruct (fetch_inventory_json later slug timeout) as [us res];
      cbn [fst] in E |- *; rewrite E.
    - right. now left.
    - right. right. repeat split; assumption. }
  split; [|split; [|split; [|exact Hone]]].
  - destruct Hurls as [E | [E | (_ & _ & E)]]; auto.
  - destruct Hurls as [E | [E | (_ & _ & E)]]; rewrite E; simpl; lia.
  - destruct Hurls as [E | [E | (Hc & Hd & E)]]; rewrite E.
    + constructor; [intros [] | constructor].
    + constructor; [|constructor; [intros [] | constructor]].
      intros [E' | []]. symmetry in E'.
      now apply check_url_not_inventory_url in E'.
    + constructor; [|constructor; [|constructor; [intros [] | constructor]]].
      * intros [E' | [E' | []]]; symmetry in E'.
        -- now apply check_url_not_inventory_url in E'.
        -- now apply check_url_not_base_url in E'.
      * intros [E' | []]. apply inventory_url_inj in E'. congruence.
Qed.

End WebMore.

Section WebMoreWitnesses.
Import PyStr WebJson Fetch.

Lemma fetch_returns_rows_or_error_witness :
  (PyDict.get (error_envelope [inventory_url "PC61"] Examples.not_found) "error"
   = None
   /\ exists rows,
        error_envelope [inventory_url "PC61"] Examples.not_found
        = [("rows", PList (map PDict rows))])
  \/ (PyDict.get (error_envelope [inventory_url "PC61"] Examples.not_found)
        "error" = Some (PBool true)
      /\ PyDict.get (error_envelope [inventory_url "PC61"] Examples.not_found)
           "rows" = Some (PList [])
      /\ exists message,
           PyDict.get (error_envelope [inventory_url "PC61"] Examples.not_found)
             "message" = Some (PStr message)
           /\ prefix ("Non-JSON response. Tried: " ++ inventory_url "PC61")
                     message = true).
Proof.
  apply (@fetch_returns_rows_or_error example_text Examples.net_not_found
           "PC61" 20).
  reflexivity.
Defined.

Lemma json_that_is_not_an_object_is_refused_witness :
  attempt_fails (H := example_text) MoreExamples.json_list "PC61"
  /\ fetch_inventory_json (H := example_text) MoreExamples.net_json_list
       "PC61" 20
     = ([inventory_url "PC61"],
        Ok (error_envelope [inventory_url "PC61"] MoreExamples.json_list)).
Proof.
  apply (@json_that_is_not_an_object_is_refused example_text
           MoreExamples.net_json_list "PC61" 20 MoreExamples.json_list
           (PList [])).
  - reflexivity.
  - reflexivity.
  - discriminate.
  - reflexivity.
Defined.

(** The three requests of a slug with a colour suffix when nothing is
    found. *)
Example check_three_requests :
  fst (WebJsonCheck.fetch_inventory_check (H := example_text)
         Examples.net_not_found "60397_InsBlue" 20)
  = [WebJsonCheck.check_url "60397_InsBlue"; inventory_url "60397_InsBlue";
     inventory_url "60397"].
Proof. vm_compute. reflexivity. Qed.

End WebMoreWitnesses.

(** ** Saving the export *)

Section StringSuffix.
Import PyStr PyStrOps.

Lemma drop_app (a b : string) : drop (String.length a) (a ++ b) = b.
Proof. induction a as [|c a IH]; simpl; [now destruct b | exact IH]. Qed.

Lemma drop_split (n : nat) (s : string) :
  (n <= String.length s)%nat ->
  exists pre, s = (pre ++ drop n s)%string /\ String.length pre = n.
Proof.
  revert s. induction n as [|n IH]; intros s Hn.
  - exists "". split; [now destruct s | reflexivity].
  - destruct s as [|c s]; simpl in Hn; [lia|].
    destruct (IH s) as (pre & Hs & Hlen); [lia|].
    exists (String c pre). simpl. split; [now f_equal | now f_equal].
Qed.

Lemma endswith_iff (s suffix : string) :
  endswith s suffix = true <-> exists pre, s = (pre ++ suffix)%string.
Proof.
  unfold endswith. rewrite andb_true_iff, Nat.leb_le, String.eqb_eq. split.
  - intros [Hlen Hdrop].
    destruct (drop_split (String.length s - String.length suffix) s)
      as (pre & Hs & _); [lia|].
    exists pre. now rewrite <- Hdrop.
  - intros [pre ->]. rewrite string_length_app. split; [lia|].
    replace (String.length pre + String.length suffix - String.length suffix)%nat
      with (String.length pre) by lia.
    apply drop_app.
Qed.

Lemma endswith_app (a b : string) : endswith (a ++ b) b = true.
Proof. apply endswith_iff. now exists a. Qed.

Lemma lower_app (a b : string) : lower (a ++ b) = (lower a ++ lower b)%string.
Proof. induction a as [|c a IH]; simpl; [reflexivity | now rewrite IH]. Qed.

Lemma string_app_last (a b : string) (c d : ascii) :
  (a ++ String c "" = b ++ String d "")%string -> c = d.
Proof.
  revert b. induction a as [|x a IH]; intros [|y b]; simpl; intros E.
  - now injection E.
  - injection E as _ E. destruct b; discriminate.
  - injection E as _ E. destruct a; discriminate.
  - injection E as _ E. now apply IH in E.
Qed.

Lemma csv_is_not_xlsx (s : string) :
  endswith s ".csv" = true -> endswith s ".xlsx" = false.
Proof.
  intros Hcsv. destruct (endswith s ".xlsx") eqn:Hx; [|reflexivity].
  apply endswith_iff in Hcsv, Hx.
  destruct Hcsv as [p ->], Hx as [q Hq].
  change ".csv" with (".cs" ++ "v")%string in Hq.
  change ".xlsx" with (".xls" ++ "x")%string in Hq.
  rewrite <- !string_app_assoc in Hq.
  apply string_app_last in Hq. discriminate.
Qed.

End StringSuffix.

Section Saving.
Import PyStr PyStrOps ExporterSave Pandas Save.
Context `{Dtypes.Inference}.

Lemma rows_to_dataframe_defined (rows : list (PyDict.dict pyval)) :
  exists data,
    Exporter.rows_to_dataframe rows
    = Ok (mkDataFrame None (range_index (length rows)) Exporter.cols data).
Proof.
  unfold Exporter.rows_to_dataframe.
  rewrite (add_missing_columns Exporter.cols (Dtypes.of_records rows)
             cols_NoDup).
  cbv zeta. unfold Dtypes.of_records, select.
  cbn [df_index_name df_index df_columns df_data].
  set (C := columns_of rows).
  set (extra := filter (fun c => negb (str_in c C)) Exporter.cols).
  rewrite (mapM_index_of Exporter.cols (C ++ extra)).
  - cbn [bind]. eexists. reflexivity.
  - intros c Hc. apply in_app_iff.
    destruct (str_in c C) eqn:HcC; [left; now apply str_in_In|].
    right. subst extra. apply filter_In. split; [exact Hc|]. now rewrite HcC.
Qed.

(** X12: [save_rows] calls the writer once, with the export of the rows
    and a path that has the extension of the writer, compared without
    case: [.xlsx] for the Excel writer and [.csv] for the CSV writer.  A
    path that has the extension is kept as it is; otherwise the extension
    is appended, so that an Excel file asked for under [report.csv] goes
    to [report.csv.xlsx].  When the writer returns, [save_rows] returns
    that path; when the writer raises, as pandas does for a path that
    ends in [.XLSX], [save_rows] raises the same.  Saving again under
    the path makes the same call. *)
Theorem saved_path_has_the_extension_of_the_writer :
  forall (rows : list (PyDict.dict pyval)) (path : string)
         (fmt : option string),
  is_ascii path = true ->
  exists w df,
    Exporter.rows_to_dataframe rows = Ok df
    /\ write_frame w = df
    /\ endswith (lower (write_path w)) (extension (write_with w)) = true
    /\ write_path w
       = (if endswith (lower path) (extension (write_with w)) then path
          else path ++ extension (write_with w))%string
    /\ forall run : write -> result unit,
         save_rows run rows path fmt
         = match run w with
           | Ok _ => Ok (write_path w)
           | Raise e => Raise e
           end
         /\ save_rows run rows (write_path w) fmt
            = save_rows run rows path fmt.
Proof.
  intros rows path fmt _.
  destruct (rows_to_dataframe_defined rows) as [data Hdf].
  set (df := mkDataFrame None (range_index (length rows)) Exporter.cols data)
    in *.
  unfold save_rows. rewrite Hdf. cbn [bind].
  destruct (String.eqb (format_of path fmt) "xlsx") eqn:Hfmt.
  - destruct (endswith (lower path) ".xlsx") eqn:Hext; cbn [negb].
    + exists (mkWrite to_excel path df), df.
      cbn [write_path write_with write_frame extension].
      rewrite Hext, Hfmt. cbn [negb]. repeat split; reflexivity.
    + exists (mkWrite to_excel (path ++ ".xlsx") df), df.
      cbn [write_path write_with write_frame extension].
      rewrite Hext.
      assert (endswith (lower (path ++ ".xlsx")) ".xlsx" = true) as Hnew
        by (rewrite lower_app; apply endswith_app).
      assert (format_of (path ++ ".xlsx") fmt = format_of path fmt) as ->.
      { unfold format_of in *. destruct fmt as [[|c f]|]; try reflexivity;
          rewrite Hext in Hfmt; discriminate. }
      rewrite Hfmt, Hnew. cbn [negb]. repeat split; reflexivity.
  - destruct (endswith (lower path) ".csv") eqn:Hext; cbn [negb].
    + exists (mkWrite to_csv path df), df.
      cbn [write_path write_with write_frame extension].
      rewrite Hext, Hfmt. cbn [negb]. repeat split; reflexivity.
    + exists (mkWrite to_csv (path ++ ".csv") df), df.
      cbn [write_path write_with write_frame extension].
      rewrite Hext.
      assert (endswith (lower (path ++ ".csv")) ".csv" = true) as Hnew
        by (rewrite lower_app; apply endswith_app).
      assert (String.eqb (format_of (path ++ ".csv") fmt) "xlsx" = false) as ->.
      { unfold format_of in *. destruct fmt as [[|c f]|]; try exact Hfmt;
          now rewrite (csv_is_not_xlsx _ Hnew). }
      rewrite Hnew. cbn [negb]. repeat split; reflexivity.
Qed.

(** X13: the writer of [save_rows] is chosen by the format when one is
    given and by the path otherwise.  The call goes to the Excel writer
    exactly when the format is the string [xlsx], or when no format is
    given ([None] or the empty string) and the path ends in [.xlsx]
    without regard to case.  Every other format, such as [XLSX] or
    [json], goes to the CSV writer, whatever the extension of the path.
    [save_rows] returns, with the path of the call, exactly when the
    writer does. *)
Theorem writer_follows_the_format :
  forall (rows : list (PyDict.dict pyval)) (path : string)
         (fmt : option string),
  is_ascii path = true ->
  exists w,
    (forall run : write -> result unit,
       save_rows run rows path fmt
       = match run w with
         | Ok _ => Ok (write_path w)
         | Raise e => Raise e
         end)
    /\ (write_with w = to_excel
        <-> fmt = Some "xlsx"
            \/ ((fmt = None \/ fmt = Some "")
                /\ endswith (lower path) ".xlsx" = true)).
Proof.
  intros rows path fmt _.
  destruct (rows_to_dataframe_defined rows) as [data Hdf].
  unfold save_rows. rewrite Hdf. cbn [bind].
  assert (String.eqb (format_of path fmt) "xlsx" = true
          <-> fmt = Some "xlsx"
              \/ ((fmt = None \/ fmt = Some "")
                  /\ endswith (lower path) ".xlsx" = true)) as Hiff.
  { unfold format_of. destruct fmt as [[|c f]|].
    - destruct (endswith (lower path) ".xlsx"); split; auto.
      + intros [H0 | [_ H0]]; discriminate.
    - rewrite String.eqb_eq. split.
      + intros ->. now left.
      + intros [E | [[E | E] _]]; [congruence | discriminate | discriminate].
    - destruct (endswith (lower path) ".xlsx"); split; auto.
      + intros [H0 | [_ H0]]; discriminate. }
  destruct (String.eqb (format_of path fmt) "xlsx").
  - eexists (mkWrite to_excel _ _). split; [intros run; reflexivity|].
    cbn [write_with]. split; [intros _; now apply Hiff | reflexivity].
  - eexists (mkWrite to_csv _ _). split; [intros run; reflexivity|].
    cbn [write_with].
    split; [discriminate|]. intros H0. apply Hiff in H0. discriminate.
Qed.

End Saving.

Section SavingWitnesses.
Import PyStr PyStrOps ExporterSave Pandas Save.

Lemma saved_path_has_the_extension_of_the_writer_witness :
  exists w df,
    Exporter.rows_to_dataframe (H := Examples.example_dtypes) [] = Ok df
    /\ write_frame w = df
    /\ endswith (lower (write_path w)) (extension (write_with w)) = true
    /\ write_path w
       = (if endswith (lower "report.csv") (extension (write_with w))
          then "report.csv"
          else "report.csv" ++ extension (write_with w))%string
    /\ forall run : write -> result unit,
         save_rows (H := Examples.example_dtypes) run [] "report.csv"
           (Some "xlsx")
         = match run w with
           | Ok _ => Ok (write_path w)
           | Raise e => Raise e
           end
         /\ save_rows (H := Examples.example_dtypes) run [] (write_path w)
              (Some "xlsx")
            = save_rows (H := Examples.example_dtypes) run [] "report.csv"
                (Some "xlsx").
Proof.
  apply (@saved_path_has_the_extension_of_the_writer Examples.example_dtypes
           [] "report.csv" (Some "xlsx")).
  reflexivity.
Defined.

Lemma writer_follows_the_format_witness :
  exists w,
    (forall run : write -> result unit,
       save_rows (H := Examples.example_dtypes) run [] "out.xlsx" None
       = match run w with
         | Ok _ => Ok (write_path w)
         | Raise e => Raise e
         end)
    /\ (write_with w = to_excel
        <-> @None string = Some "xlsx"
            \/ ((@None string = None \/ @None string = Some "")
                /\ endswith (lower "out.xlsx") ".xlsx" = true)).
Proof.
  apply (@writer_follows_the_format Examples.example_dtypes [] "out.xlsx" None).
  reflexivity.
Defined.

(** An Excel file asked for under a CSV name, an unknown format, and a
    writer that refuses a path in capitals. *)
Example save_rows_paths :
  save_rows (H := Examples.example_dtypes) (fun _ => Ok tt) []
    "report.csv" (Some "xlsx") = Ok "report.csv.xlsx"
  /\ save_rows (H := Examples.example_dtypes) (fun _ => Ok tt) []
       "out.xlsx" (Some "XLSX") = Ok "out.xlsx.csv"
  /\ save_rows (H := Examples.example_dtypes)
       (fun w => if String.eqb (write_path w) "Out.XLSX"
                 then Raise ValueError else Ok tt)
       [] "Out.XLSX" None = Raise ValueError.
Proof. repeat split; vm_compute; reflexivity. Qed.

End SavingWitnesses.

(** ** The styles of the command line *)

Section StripFacts.
Import PyStr.

Lemma upper_char_idem (c : ascii) : upper_char (upper_char c) = upper_char c.
Proof. destruct c as [[] [] [] [] [] [] [] []]; reflexivity. Qed.

Lemma isspace_upper_char (c : ascii) : isspace (upper_char c) = isspace c.
Proof. destruct c as [[] [] [] [] [] [] [] []]; reflexivity. Qed.

Lemma upper_idem (s : string) : upper (upper s) = upper s.
Proof.
  induction s as [|c s IH]; simpl; [reflexivity|].
  now rewrite upper_char_idem, IH.
Qed.

Lemma lstrip_upper (s : string) : lstrip (upper s) = upper (lstrip s).
Proof.
  induction s as [|c s IH]; simpl; [reflexivity|].
  rewrite isspace_upper_char. now destruct (isspace c).
Qed.

Lemma rstrip_upper (s : string) : rstrip (upper s) = upper (rstrip s).
Proof.
  induction s as [|c s IH]; simpl; [reflexivity|].
  rewrite IH, isspace_upper_char.
  destruct (rstrip s); simpl; [now destruct (isspace c) | reflexivity].
Qed.

Lemma strip_upper (s : string) : strip (upper s) = upper (strip s).
Proof. unfold strip. now rewrite lstrip_upper, rstrip_upper. Qed.

(** What [lstrip] returns does not begin with white space. *)
Lemma lstrip_head (s : string) :
  match lstrip s with
  | EmptyString => True
  | String c _ => isspace c = false
  end.
Proof.
  induction s as [|c s IH]; simpl; [exact I|].
  destruct (isspace c) eqn:E; [exact IH | exact E].
Qed.

Lemma rstrip_idem (s : string) : rstrip (rstrip s) = rstrip s.
Proof.
  induction s as [|c s IH]; simpl; [reflexivity|].
  destruct (rstrip s) as [|d t] eqn:E.
  - destruct (isspace c) eqn:Hc; simpl; [reflexivity | now rewrite Hc].
  - simpl in *. now rewrite IH.
Qed.

(** [rstrip] keeps a first character that is not white space. *)
Lemma lstrip_rstrip (s : string) :
  match s with
  | EmptyString => True
  | String c _ => isspace c = false
  end ->
  lstrip (rstrip s) = rstrip s.
Proof.
  destruct s as [|c s]; simpl; [reflexivity|]. intros Hc.
  destruct (rstrip s); rewrite ?Hc; simpl; now rewrite Hc.
Qed.

Lemma strip_idem (s : string) : strip (strip s) = strip s.
Proof.
  unfold strip. rewrite (lstrip_rstrip (lstrip s) (lstrip_head s)).
  apply rstrip_idem.
Qed.

Lemma normal_idem (normalize : bool) (x : string) :
  Styles.normal normalize (Styles.normal normalize x)
  = Styles.normal normalize x.
Proof.
  unfold Styles.normal. destruct normalize.
  - now rewrite strip_upper, strip_idem, upper_idem.
  - apply strip_idem.
Qed.

End StripFacts.

Section Dedupe.
Import PyStr CliStyles.

(** The set [seen] and the list [out] hold the same items in the same
    order. *)
Lemma dedupe_fold (normalize : bool) (items : list string) (out : list string) :
  fold_left (dedupe_step normalize) items (out, out)
  = (fold_left (Styles.add normalize) items out,
     fold_left (Styles.add normalize) items out).
Proof.
  revert out. induction items as [|x items IH]; intros out; simpl;
    [reflexivity|].
  unfold Styles.add at 2 4. fold (Styles.normal normalize x). cbv zeta.
  destruct (String.eqb (Styles.normal normalize x) "") eqn:He; simpl;
    [apply IH|].
  destruct (str_in (Styles.normal normalize x) out) eqn:Hin; [apply IH|].
  unfold set_add. rewrite Hin. apply IH.
Qed.

Lemma dedupe_spec (normalize : bool) (items : list string) :
  dedupe_preserve_order items normalize
  = fold_left (Styles.add normalize) items [].
Proof.
  unfold dedupe_preserve_order. now rewrite (dedupe_fold normalize items []).
Qed.

Lemma add_facts (normalize : bool) (out : list string) (x : string) :
  NoDup out -> ~ In "" out ->
  NoDup (Styles.add normalize out x)
  /\ ~ In "" (Styles.add normalize out x)
  /\ (exists more, Styles.add normalize out x = out ++ more)
  /\ forall y, In y (Styles.add normalize out x) <->
               In y out \/ (y <> "" /\ Styles.normal normalize x = y).
Proof.
  intros Hnd Hne. unfold Styles.add. cbv zeta.
  set (y := Styles.normal normalize x).
  destruct (String.eqb_spec y "") as [Hy | Hy]; simpl.
  - split; [exact Hnd|]. split; [exact Hne|].
    split; [exists []; now rewrite app_nil_r|].
    intros z. split; [now left|]. intros [H | [Hz Hyz]]; [exact H|].
    congruence.
  - destruct (str_in y out) eqn:Hin.
    + apply str_in_In in Hin.
      split; [exact Hnd|]. split; [exact Hne|].
      split; [exists []; now rewrite app_nil_r|].
      intros z. split; [now left|]. intros [H | [Hz Hyz]]; [exact H|].
      now rewrite <- Hyz.
    + assert (~ In y out) as Hnin
        by (intros H; apply str_in_In in H; congruence).
      split.
      { apply NoDup_app; [exact Hnd | repeat constructor; intros [] | ].
        intros a Ha [<- | []]. contradiction. }
      split.
      { rewrite in_app_iff. intros [H | [H | []]]; [contradiction|].
        now apply Hy. }
      split; [now exists [y]|].
      intros z. rewrite in_app_iff. simpl. split.
      * intros [H | [<- | []]]; [now left | right; now split].
      * intros [H | [Hz <-]]; [now left | right; now left].
Qed.

Lemma dedupe_fold_facts (normalize : bool) (items out : list string) :
  NoDup out -> ~ In "" out ->
  NoDup (fold_left (Styles.add normalize) items out)
  /\ ~ In "" (fold_left (Styles.add normalize) items out)
  /\ (exists more, fold_left (Styles.add normalize) items out = out ++ more)
  /\ forall y, In y (fold_left (Styles.add normalize) items out) <->
               In y out
               \/ (y <> "" /\ exists x, In x items /\ Styles.normal normalize x = y).
Proof.
  revert out. induction items as [|x items IH]; intros out Hnd Hne; simpl.
  - split; [exact Hnd|]. split; [exact Hne|].
    split; [exists []; now rewrite app_nil_r|].
    intros y. split; [now left|]. intros [H | (_ & x & [] & _)]. exact H.
  - destruct (add_facts normalize out x Hnd Hne) as (A1 & A2 & (m1 & A3) & A4).
    destruct (IH _ A1 A2) as (H1 & H2 & (m2 & H3) & H4).
    split; [exact H1|]. split; [exact H2|]. split.
    { exists (m1 ++ m2). now rewrite H3, A3, app_assoc. }
    intros y. rewrite H4, A4. split.
    + intros [[H | [Hy Hx]] | (Hy & x' & Hx' & Hn)].
      * now left.
      * right. split; [exact Hy|]. exists x. split; [now left | exact Hx].
      * right. split; [exact Hy|]. exists x'. split; [now right | exact Hn].
    + intros [H | (Hy & x' & [<- | Hx'] & Hn)].
      * left. now left.
      * left. right. now split.
      * right. split; [exact Hy|]. now exists x'.
Qed.

(** X14: [dedupe_preserve_order] returns every style once, in the order
    of first appearance.  An item counts under its stripped form, and its
    upper-cased form when [normalize] is set; the result has no repeated
    and no empty entry, it holds exactly the non-empty forms of the items,
    and the result for a longer list extends the result for its
    beginning. *)
Theorem dedupe_keeps_each_style_once :
  forall (items : list string) (normalize : bool),
  Forall (fun x => is_ascii x = true) items ->
  let out := dedupe_preserve_order items normalize in
  NoDup out
  /\ ~ In "" out
  /\ (forall y, In y out <->
                y <> "" /\ exists x, In x items /\ Styles.normal normalize x = y)
  /\ (forall a b, items = a ++ b ->
                  exists more, out = dedupe_preserve_order a normalize ++ more).
Proof.
  intros items normalize _ out. subst out. rewrite dedupe_spec.
  destruct (dedupe_fold_facts normalize items [])
    as (H1 & H2 & _ & H4); [constructor | intros [] |].
  split; [exact H1|]. split; [exact H2|]. split.
  - intros y. rewrite H4. simpl. tauto.
  - intros a b ->. rewrite dedupe_spec, fold_left_app.
    destruct (dedupe_fold_facts normalize a []) as (Ha1 & Ha2 & _);
      [constructor | intros [] |].
    destruct (dedupe_fold_facts normalize b _ Ha1 Ha2) as (_ & _ & Hmore & _).
    exact Hmore.
Qed.

Lemma dedupe_fold_fixed (normalize : bool) (l out : list string) :
  NoDup (out ++ l) ->
  Forall (fun y => y <> "" /\ Styles.normal normalize y = y) l ->
  fold_left (Styles.add normalize) l out = out ++ l.
Proof.
  revert out. induction l as [|y l IH]; intros out Hnd Hl; simpl.
  - now rewrite app_nil_r.
  - inversion Hl as [|? ? [Hy Hfix] Hl']; subst.
    unfold Styles.add at 2. cbv zeta. rewrite Hfix.
    destruct (String.eqb_spec y "") as [E | _]; [contradiction|]. simpl.
    assert (str_in y out = false) as ->.
    { destruct (str_in y out) eqn:Hin; [|reflexivity].
      apply str_in_In in Hin. apply NoDup_remove_2 in Hnd.
      elim Hnd. apply in_app_iff. now left. }
    rewrite IH; [now rewrite <- app_assoc | now rewrite <- app_assoc | exact Hl'].
Qed.

(** X15: [dedupe_preserve_order] is idempotent: applied to its own result
    it changes nothing. *)
Theorem dedupe_is_idempotent :
  forall (items : list string) (normalize : bool),
  Forall (fun x => is_ascii x = true) items ->
  dedupe_preserve_order (dedupe_preserve_order items normalize) normalize
  = dedupe_preserve_order items normalize.
Proof.
  intros items normalize _.
  rewrite (dedupe_spec normalize (dedupe_preserve_order items normalize)).
  rewrite dedupe_spec.
  destruct (dedupe_fold_facts normalize items [])
    as (H1 & H2 & _ & H4); [constructor | intros [] |].
  apply (dedupe_fold_fixed normalize _ []); [exact H1|].
  apply Forall_forall. intros y Hy. apply H4 in Hy.
  destruct Hy as [[] | (Hne & x & _ & <-)].
  split; [exact Hne | apply normal_idem].
Qed.

End Dedupe.

Section DedupeWitnesses.
Import PyStr CliStyles.

Lemma dedupe_keeps_each_style_once_witness :
  let out := dedupe_preserve_order [" k420"; "PC61"; "K420 "; ""] true in
  NoDup out
  /\ ~ In "" out
  /\ (forall y, In y out <->
                y <> ""
                /\ exists x, In x [" k420"; "PC61"; "K420 "; ""]
                             /\ Styles.normal true x = y)
  /\ (forall a b, [" k420"; "PC61"; "K420 "; ""] = a ++ b ->
                  exists more, out = dedupe_preserve_order a true ++ more).
Proof.
  apply (dedupe_keeps_each_style_once [" k420"; "PC61"; "K420 "; ""] true).
  repeat constructor.
Defined.

Lemma dedupe_is_idempotent_witness :
  dedupe_preserve_order
    (dedupe_preserve_order [" k420"; "PC61"; "K420 "; ""] true) true
  = dedupe_preserve_order [" k420"; "PC61"; "K420 "; ""] true.
Proof.
  apply (dedupe_is_idempotent [" k420"; "PC61"; "K420 "; ""] true).
  repeat constructor.
Defined.

Example dedupe_styles :
  dedupe_preserve_order [" k420"; "PC61"; "K420 "; ""] true = ["K420"; "PC61"]
  /\ dedupe_preserve_order ["pc61_White"; "PC61_White"] false
     = ["pc61_White"; "PC61_White"].
Proof. split; reflexivity. Qed.

End DedupeWitnesses.

(** ** The slug of a product URL *)

Section SplitFacts.
Import PyStr PyStrOps.

Lemma split_from_cons (sep : string) (k : nat) (s : string) :
  exists piece pieces, split_from sep k s = piece :: pieces.
Proof.
  revert k. induction s as [|c s IH]; intros k; cbn [split_from];
    [do 2 eexists; reflexivity|].
  destruct k as [|k]; [|apply IH].
  destruct (prefix sep (String c s)); [do 2 eexists; reflexivity|].
  destruct (IH 0%nat) as (p & ps & ->). do 2 eexists; reflexivity.
Qed.

Lemma prefix_nil (s : string) : prefix "" s = true.
Proof. now destruct s. Qed.

Lemma prefix_head (c d : ascii) (sep s : string) :
  c <> d -> prefix (String c sep) (String d s) = false.
Proof. intros Hcd. simpl. now destruct (ascii_dec c d). Qed.

(** Text without the first character of the separator goes to the piece
    being read. *)
Lemma split_from_app (c : ascii) (sep a b : string) :
  contains_char c a = false ->
  split_from (String c sep) 0 (a ++ b)
  = match split_from (String c sep) 0 b with
    | piece :: pieces => (a ++ piece)%string :: pieces
    | [] => [a]
    end.
Proof.
  induction a as [|d a IH]; cbn [append contains_char].
  - intros _. now destruct (split_from_cons (String c sep) 0 b) as (p & ps & ->).
  - destruct (Ascii.eqb_spec d c) as [-> | Hd]; [discriminate|]. cbn [orb].
    intros Ha. cbn [split_from]. rewrite prefix_head by congruence.
    rewrite (IH Ha).
    now destruct (split_from_cons (String c sep) 0 b) as (p & ps & ->).
Qed.

(** The first piece of a split by one character does not hold it. *)
Lemma split_char_head (c : ascii) (s : string) :
  contains_char c (hd "" (split (String c "") s)) = false.
Proof.
  unfold split. induction s as [|d s IH]; cbn [split_from]; [reflexivity|].
  destruct (ascii_dec c d) as [-> | Hd].
  - replace (prefix (String d "") (String d s)) with true; [reflexivity|].
    simpl. destruct (ascii_dec d d); [now destruct s | congruence].
  - rewrite prefix_head by exact Hd.
    destruct (split_from_cons (String c "") 0 s) as (p & ps & E).
    rewrite E in *. cbn [hd contains_char] in *. rewrite IH.
    destruct (Ascii.eqb_spec d c) as [-> | _]; [contradiction | reflexivity].
Qed.

(** Without an occurrence of the separator there is one piece. *)
Lemma split_without_separator (sep s : string) :
  Py.is_substring sep s = false -> split sep s = [s].
Proof.
  unfold split. induction s as [|c s IH]; cbn [split_from Py.is_substring];
    [reflexivity|].
  intros Hs. apply orb_false_iff in Hs. destruct Hs as [Hp Hs].
  rewrite Hp. now rewrite (IH Hs).
Qed.

(** The first piece of a text that begins with ["/"], split by
    ["/p/"], is empty or begins with ["/"]. *)
Lemma split_after_slash (r : string) :
  let p := hd "" (split "/p/" (String "/" r)) in
  p = "" \/ exists q, p = String "/" q.
Proof.
  unfold split. cbn [split_from].
  destruct (prefix "/p/" (String "/" r)); cbn [hd]; [now left|].
  destruct (split_from_cons "/p/" 0 r) as (q & qs & ->). right. now exists q.
Qed.

End SplitFacts.

Section Slug.
Import PyStr PyStrOps CliStyles.

Lemma split_product_url (t : string) :
  split "/p/" ("https://www.sanmar.com/p/" ++ t)
  = "https://www.sanmar.com" :: split "/p/" t.
Proof. unfold split. cbn. now rewrite prefix_nil. Qed.

Lemma slug_segment (slug rest : string) :
  contains_char "/" slug = false ->
  rest = "" \/ (exists r, rest = String "/" r) ->
  hd "" (split "/" (hd "" (split "/p/" (slug ++ rest)))) = slug.
Proof.
  intros Hslug Hrest.
  assert (exists p, hd "" (split "/p/" (slug ++ rest)) = (slug ++ p)%string
                    /\ (p = "" \/ exists q, p = String "/" q)) as (p & -> & Hp).
  { unfold split. rewrite (split_from_app "/" "p/" slug rest Hslug).
    destruct (split_from_cons "/p/" 0 rest) as (p & ps & E). rewrite E.
    exists p. split; [reflexivity|].
    destruct Hrest as [-> | [r ->]].
    - injection E as <- _. now left.
    - pose proof (split_after_slash r) as Hr. unfold split in Hr.
      now rewrite E in Hr. }
  unfold split. rewrite (split_from_app "/" "" slug p Hslug).
  destruct Hp as [-> | [q ->]].
  - cbn. apply string_app_nil_r.
  - cbn [split_from].
    replace (prefix "/" (String "/" q)) with true
      by (simpl; now rewrite prefix_nil).
    cbn. apply string_app_nil_r.
Qed.

(** X16: the slug that [main] takes from a product URL is the path
    segment after [/p/].  For every slug that is not empty and has no
    ["/"], the URL [https://www.sanmar.com/p/] followed by the slug, alone
    or followed by a path, gives back the slug; so do the two URLs that
    the WebJSON backend requests for it. *)
Theorem product_url_gives_back_the_slug :
  forall (slug rest : string),
  slug <> "" ->
  contains_char "/" slug = false ->
  rest = "" \/ (exists r, rest = String "/" r) ->
  extract_slug_from_url ("https://www.sanmar.com/p/" ++ slug ++ rest)
  = Some slug
  /\ extract_slug_from_url (WebJson.inventory_url slug) = Some slug
  /\ extract_slug_from_url (WebJsonCheck.check_url slug) = Some slug.
Proof.
  assert (forall slug rest,
            slug <> "" -> contains_char "/" slug = false ->
            rest = "" \/ (exists r, rest = String "/" r) ->
            extract_slug_from_url ("https://www.sanmar.com/p/" ++ slug ++ rest)
            = Some slug) as Hurl.
  { intros slug rest Hne Hslug Hrest. unfold extract_slug_from_url.
    rewrite split_product_url.
    destruct (split_from_cons "/p/" 0 (slug ++ rest)) as (p & ps & E).
    pose proof (slug_segment slug rest Hslug Hrest) as Hseg.
    unfold split in *. rewrite E in *. cbn [length Nat.ltb Nat.leb nth hd] in *.
    rewrite Hseg. now destruct slug. }
  intros slug rest Hne Hslug Hrest.
  split; [now apply Hurl|].
  split; apply Hurl; try assumption; right; now eexists.
Qed.

(** A text is a segment without ["/"] followed by nothing or by a path. *)
Lemma cut_at_slash (t : string) :
  exists segment rest,
    t = (segment ++ rest)%string
    /\ contains_char "/" segment = false
    /\ (rest = "" \/ exists r, rest = String "/" r).
Proof.
  induction t as [|c t (segment & rest & E & Hseg & Hrest)].
  - exists "", "". repeat split. now left.
  - destruct (Ascii.eqb_spec c "/") as [-> | Hc].
    + exists "", (String "/" t). repeat split. right. now exists t.
    + exists (String c segment), rest. cbn [append contains_char].
      rewrite E at 1. repeat split; [|exact Hrest].
      rewrite Hseg. now destruct (Ascii.eqb_spec c "/").
Qed.

Lemma prefix_app_short (x a b : string) :
  prefix x (a ++ b) = true -> (String.length x <= String.length a)%nat ->
  prefix x a = true.
Proof.
  revert a. induction x as [|c x IH]; intros a Hp Hlen; [now destruct a|].
  destruct a as [|d a]; [simpl in Hlen; lia|].
  cbn [append] in Hp. simpl in Hp |- *.
  destruct (ascii_dec c d); [|discriminate].
  apply IH; [exact Hp | simpl in Hlen; lia].
Qed.

(** The pieces of a text around the first [/p/] in it. *)
Lemma split_first_occurrence (a t : string) :
  Py.is_substring "/p/" (a ++ "/p") = false ->
  split "/p/" (a ++ "/p/" ++ t) = a :: split "/p/" t.
Proof.
  unfold split. induction a as [|c a IH]; intros Ha.
  - cbn. now rewrite prefix_nil.
  - cbn [append Py.is_substring] in Ha. apply orb_false_iff in Ha.
    destruct Ha as [Hp Ha]. specialize (IH Ha).
    assert (prefix "/p/" (String c (a ++ "/p/" ++ t)) = false) as Hq.
    { apply not_true_is_false. intros Hq.
      assert (prefix "/p/" (String c (a ++ "/p")) = true) as Hr.
      { apply (prefix_app_short "/p/" (String c (a ++ "/p")) (String "/" t)).
        - replace (String c (a ++ "/p") ++ String "/" t)%string
            with (String c (a ++ "/p/" ++ t)); [exact Hq|].
          cbn [append]. f_equal. now rewrite string_app_assoc.
        - cbn [String.length]. rewrite string_length_app. simpl. lia. }
      congruence. }
    remember ("/p/" ++ t)%string as rest.
    cbn [append split_from]. rewrite Hq. now rewrite IH.
Qed.

(** X17: [extract_slug_from_url] returns [None] exactly when the URL has
    no [/p/] in it or the segment after the first [/p/] is empty, which
    is when nothing or a ["/"] follows the first [/p/]; otherwise it
    returns that segment, the text from the first [/p/] up to the next
    ["/"] or the end, which is not empty and holds no ["/"]. *)
Theorem extracted_slug_is_a_path_segment :
  forall (u : string),
  let segment := hd "" (split "/" (nth 1 (split "/p/" u) "")) in
  (extract_slug_from_url u = None
   <-> Py.is_substring "/p/" u = false \/ segment = "")
  /\ (forall slug, extract_slug_from_url u = Some slug ->
        slug = segment /\ slug <> "" /\ contains_char "/" slug = false
        /\ Py.is_substring "/p/" u = true)
  /\ (forall a t, u = (a ++ "/p/" ++ t)%string ->
        Py.is_substring "/p/" (a ++ "/p") = false ->
        (exists rest, t = (segment ++ rest)%string
                      /\ (rest = "" \/ exists r, rest = String "/" r))
        /\ (extract_slug_from_url u = None
            <-> t = "" \/ exists r, t = String "/" r)).
Proof.
  intros u segment.
  assert (Py.is_substring "/p/" u = false -> segment = "") as Hnone.
  { intros Hin. subst segment.
    now rewrite (split_without_separator "/p/" u Hin). }
  assert (Py.is_substring "/p/" u = true ->
          (length (split "/p/" u) <? 2)%nat = false) as Hlen.
  { intros Hin. apply Nat.ltb_ge.
    destruct (split "/p/" u) as [|p [|q ps]] eqn:E; [| |simpl; lia].
    - unfold split in E.
      destruct (split_from_cons "/p/" 0 u) as (p & ps & E'). congruence.
    - exfalso. clear Hnone segment. revert p E Hin. unfold split.
      induction u as [|c u IH]; intros p E Hin; [discriminate|].
      cbn [split_from] in E. cbn [Py.is_substring] in Hin.
      destruct (prefix "/p/" (String c u)) eqn:Hp.
      + destruct (split_from_cons "/p/" (String.length "/p/" - 1) u)
          as (q & qs & E'). rewrite E' in E. discriminate.
      + cbn [orb] in Hin.
        destruct (split_from "/p/" 0 u) as [|q [|q' qs]] eqn:E'.
        * destruct (split_from_cons "/p/" 0 u) as (q & qs & E''). congruence.
        * now apply (IH q).
        * discriminate. }
  assert (extract_slug_from_url u
          = match segment with "" => None | _ => Some segment end) as Hex.
  { unfold extract_slug_from_url.
    destruct (Py.is_substring "/p/" u) eqn:Hin.
    - now rewrite (Hlen eq_refl).
    - subst segment. now rewrite (split_without_separator "/p/" u Hin). }
  assert (extract_slug_from_url u = None <-> segment = "") as Hiff.
  { rewrite Hex. destruct segment; split; congruence. }
  split; [|split].
  - rewrite Hiff. split; [now right|]. intros [Hin | E]; auto.
  - intros slug Hslug. rewrite Hex in Hslug.
    destruct segment as [|c s] eqn:E; [discriminate|].
    injection Hslug as <-. split; [reflexivity|]. split; [discriminate|].
    split.
    + rewrite <- E. subst segment. apply split_char_head.
    + destruct (Py.is_substring "/p/" u) eqn:Hin; [reflexivity|].
      now specialize (Hnone eq_refl).
  - intros a t -> Ha.
    destruct (cut_at_slash t) as (s & rest & -> & Hs & Hrest).
    assert (segment = s) as Hseg.
    { subst segment. rewrite (split_first_occurrence a _ Ha). cbn [nth].
      pose proof (slug_segment s rest Hs Hrest) as E.
      destruct (split "/p/" (s ++ rest)) as [|p ps]; exact E. }
    split.
    + exists rest. now rewrite Hseg.
    + rewrite Hiff, Hseg. split.
      * intros ->. exact Hrest.
      * intros [E | [r E]].
        -- now destruct s.
        -- destruct s as [|c s]; [reflexivity|]. cbn [append] in E.
           injection E as -> _. discriminate.
Qed.

End Slug.

Section SlugWitnesses.
Import PyStr PyStrOps CliStyles.

Lemma product_url_gives_back_the_slug_witness :
  extract_slug_from_url
    ("https://www.sanmar.com/p/" ++ "60397_InsBlue" ++ "/checkInventory")
  = Some "60397_InsBlue"
  /\ extract_slug_from_url (WebJson.inventory_url "60397_InsBlue")
     = Some "60397_InsBlue"
  /\ extract_slug_from_url (WebJsonCheck.check_url "60397_InsBlue")
     = Some "60397_InsBlue".
Proof.
  apply (product_url_gives_back_the_slug "60397_InsBlue" "/checkInventory").
  - discriminate.
  - reflexivity.
  - right. now eexists.
Defined.

Lemma extracted_slug_is_a_path_segment_witness :
  let u := "https://www.sanmar.com/p/PC61_White/checkInventory" in
  (exists rest,
      "PC61_White/checkInventory"
      = (hd "" (split "/" (nth 1 (split "/p/" u) "")) ++ rest)%string
      /\ (rest = "" \/ exists r, rest = String "/" r))
  /\ (extract_slug_from_url u = None
      <-> "PC61_White/checkInventory" = ""
          \/ exists r, "PC61_White/checkInventory" = String "/" r).
Proof.
  exact (proj2 (proj2 (extracted_slug_is_a_path_segment
                         "https://www.sanmar.com/p/PC61_White/checkInventory"))
           "https://www.sanmar.com" "PC61_White/checkInventory"
           eq_refl eq_refl).
Defined.

(** A query string is not cut off, and a URL of another shape has no
    slug. *)
Example extract_slug_examples :
  extract_slug_from_url "https://www.sanmar.com/p/PC61_White?x=1"
  = Some "PC61_White?x=1"
  /\ extract_slug_from_url "https://www.sanmar.com/search/?text=polo" = None
  /\ extract_slug_from_url "https://www.sanmar.com/p/" = None.
Proof. repeat split. Qed.

End SlugWitnesses.

(** ** Search results *)

Section MapM.
Context {A B : Type}.

Lemma mapM_nth (f : A -> result B) (l : list A) (bs : list B) :
  mapM f l = Ok bs ->
  length bs = length l
  /\ forall i a, nth_error l i = Some a ->
                 exists b, nth_error bs i = Some b /\ f a = Ok b.
Proof.
  revert bs. induction l as [|a l IH]; simpl; intros bs Hbs.
  - injection Hbs as <-. split; [reflexivity|]. now intros [|i].
  - apply bind_Ok in Hbs. destruct Hbs as (b & Hb & Hbs).
    apply bind_Ok in Hbs. destruct Hbs as (bs' & Hbs' & Hbs).
    injection Hbs as <-. destruct (IH bs' Hbs') as [Hlen Hnth].
    split; [simpl; now rewrite Hlen|].
    intros [|i] x; simpl.
    + intros [= <-]. now exists b.
    + apply Hnth.
Qed.

End MapM.

Section SearchFacts.
Import PyStr PyStrOps Search.

Lemma split_char_cons (c d : ascii) (r : string) :
  hd "" (split (String c "") (String d r))
  = if Ascii.eqb c d then "" else String d (hd "" (split (String c "") r)).
Proof.
  unfold split. cbn [split_from].
  destruct (Ascii.eqb_spec c d) as [-> | Hcd].
  - replace (prefix (String d "") (String d r)) with true; [reflexivity|].
    simpl. destruct (ascii_dec d d); [now rewrite prefix_nil | congruence].
  - rewrite prefix_head by exact Hcd.
    now destruct (split_from_cons (String c "") 0 r) as (p & ps & ->).
Qed.

Lemma split_char_app (c : ascii) (a b : string) :
  contains_char c a = false ->
  hd "" (split (String c "") (a ++ b))
  = (a ++ hd "" (split (String c "") b))%string.
Proof.
  intros Ha. unfold split. rewrite (split_from_app c "" a b Ha).
  now destruct (split_from_cons (String c "") 0 b) as (p & ps & ->).
Qed.

Lemma plain_chars (s : string) :
  Found.plain s = true ->
  contains_char "/" s = false /\ contains_char "?" s = false
  /\ contains_char "#" s = false.
Proof.
  induction s as [|c s IH]; simpl; [now repeat split|].
  intros H. apply andb_true_iff in H. destruct H as [Hc Hs].
  destruct (IH Hs) as (H1 & H2 & H3). rewrite H1, H2, H3.
  unfold Found.ends_slug in Hc. apply negb_true_iff in Hc.
  apply orb_false_iff in Hc. destruct Hc as [Hc H'].
  apply orb_false_iff in Hc. destruct Hc as [Hc Hc'].
  now rewrite Hc, Hc', H'.
Qed.

Lemma strip_chars_without (c : ascii) (s : string) :
  contains_char c s = false -> strip_chars (String c "") s = s.
Proof.
  intros Hs. unfold strip_chars.
  assert (lstrip_chars (String c "") s = s) as ->.
  { destruct s as [|d s]; simpl in *; [reflexivity|].
    apply orb_false_iff in Hs. destruct Hs as [Hd _].
    rewrite Ascii.eqb_sym in Hd. now rewrite Hd. }
  induction s as [|d s IH]; simpl in *; [reflexivity|].
  apply orb_false_iff in Hs. destruct Hs as [Hd Hs].
  rewrite (IH Hs). rewrite Ascii.eqb_sym in Hd. rewrite Hd. simpl.
  now destruct s.
Qed.

Lemma no_separator_in_plain (slug suffix : string) :
  Found.plain slug = true ->
  Py.is_substring "/p/" suffix = false ->
  Py.is_substring "/p/" (slug ++ suffix) = false.
Proof.
  intros Hplain Hsuffix. induction slug as [|c slug IH]; [exact Hsuffix|].
  simpl in Hplain. apply andb_true_iff in Hplain. destruct Hplain as [Hc Hs].
  cbn [append Py.is_substring]. rewrite (IH Hs), orb_false_r.
  apply prefix_head. intros <-. discriminate.
Qed.

(** The text after [/p/], cut at the first [?], [#] and [/]. *)
Lemma cut_after_slug (slug suffix : string) :
  Found.plain slug = true ->
  suffix = "" \/ (exists c r, suffix = String c r /\ Found.ends_slug c = true) ->
  strip_chars "/"
    (hd "" (split "/"
       (hd "" (split "#" (hd "" (split "?" (slug ++ suffix)))))))
  = slug.
Proof.
  intros Hplain Hsuffix.
  destruct (plain_chars slug Hplain) as (Hslash & Hquery & Hhash).
  rewrite (split_char_app "?" slug suffix Hquery).
  rewrite (split_char_app "#" slug _ Hhash).
  rewrite (split_char_app "/" slug _ Hslash).
  assert (hd "" (split "/" (hd "" (split "#" (hd "" (split "?" suffix))))) = "")
    as ->.
  { destruct Hsuffix as [-> | (c & r & -> & Hc)]; [reflexivity|].
    unfold Found.ends_slug in Hc.
    rewrite (split_char_cons "?" c r).
    destruct (Ascii.eqb_spec "?" c) as [<- | Hq]; [reflexivity|].
    rewrite (split_char_cons "#" c _).
    destruct (Ascii.eqb_spec "#" c) as [<- | Hh]; [reflexivity|].
    rewrite (split_char_cons "/" c _).
    destruct (Ascii.eqb_spec "/" c) as [<- | Hs]; [reflexivity|].
    exfalso. apply orb_true_iff in Hc. destruct Hc as [Hc | Hc].
    - apply orb_true_iff in Hc. destruct Hc as [Hc | Hc];
        apply Ascii.eqb_eq in Hc; congruence.
    - apply Ascii.eqb_eq in Hc. congruence. }
  rewrite string_app_nil_r. now apply strip_chars_without.
Qed.

Lemma slug_of_product_url (base slug suffix : string) :
  base = "https://www.sanmar.com" \/ base = "" ->
  Found.plain slug = true ->
  suffix = "" \/ (exists c r, suffix = String c r /\ Found.ends_slug c = true) ->
  Py.is_substring "/p/" suffix = false ->
  Py.is_substring "/p/" (base ++ "/p/" ++ slug ++ suffix) = true
  /\ slug_of_url (base ++ "/p/" ++ slug ++ suffix) = slug.
Proof.
  intros Hbase Hplain Hsuffix Hsep.
  pose proof (no_separator_in_plain slug suffix Hplain Hsep) as Hnone.
  pose proof (split_without_separator "/p/" _ Hnone) as Hone.
  unfold slug_of_url.
  destruct Hbase as [-> | ->].
  - split; [cbn; now rewrite prefix_nil|].
    change ("https://www.sanmar.com" ++ "/p/" ++ slug ++ suffix)%string
      with ("https://www.sanmar.com/p/" ++ (slug ++ suffix))%string.
    rewrite split_product_url, Hone. cbn [last].
    now apply cut_after_slug.
  - split; [cbn; now rewrite prefix_nil|].
    assert (split "/p/" ("" ++ "/p/" ++ slug ++ suffix)
            = "" :: split "/p/" (slug ++ suffix)) as ->
      by (unfold split; cbn; now rewrite prefix_nil).
    rewrite Hone. cbn [last].
    now apply cut_after_slug.
Qed.

Lemma parse_item_dict (d : PyDict.dict pyval) :
  parse_item (PDict d)
  = let code := Py.or_ (PyDict.get_default d "code" PNone) (PStr "") in
    let url :=
      Py.or_ (Py.or_ (PyDict.get_default d "url" PNone)
                     (PyDict.get_default d "pdpUrl" PNone)) (PStr "") in
    slug <- slug_of url code ;;
    Ok [("slug", slug);
        ("code", code);
        ("styleNumber",
         Py.or_ (Py.or_ (PyDict.get_default d "styleNumber" PNone)
                        (PyDict.get_default d "style" PNone)) code);
        ("name", Py.or_ (PyDict.get_default d "name" PNone) (PStr ""));
        ("priceText",
         Py.or_ (Py.or_ (Py.or_ (PyDict.get_default d "displayPriceText" PNone)
                                (PyDict.get_default d "salePriceText" PNone))
                        (PyDict.get_default d "originalPriceText" PNone))
                (PStr ""))].
Proof. reflexivity. Qed.

Lemma parse_item_fields (item : pyval) (r : PyDict.dict pyval) :
  parse_item item = Ok r -> PyDict.keys r = Found.fields.
Proof.
  destruct item; try discriminate. rewrite parse_item_dict. cbv zeta.
  intros Hr. apply bind_Ok in Hr. destruct Hr as (slug & _ & Hr).
  now injection Hr as <-.
Qed.

(** X18: [parse_search_results] returns one record per item of the
    payload, in the order of the payload, and every record has exactly
    the keys slug, code, styleNumber, name and priceText.  The items are
    those under [results]; those under [products] are read only when
    [results] is missing, null or empty. *)
Theorem search_results_one_record_per_item :
  forall (d : PyDict.dict pyval) (items : list pyval)
         (out : list (PyDict.dict pyval)),
  (PyDict.get d "results" = Some (PList items) /\ items <> [])
  \/ ((PyDict.get d "results" = None
       \/ PyDict.get d "results" = Some PNone
       \/ PyDict.get d "results" = Some (PList []))
      /\ PyDict.get d "products" = Some (PList items)) ->
  parse_search_results (PDict d) = Ok out ->
  length out = length items
  /\ Forall (fun r => PyDict.keys r = Found.fields) out
  /\ forall i item, nth_error items i = Some item ->
       exists r, nth_error out i = Some r /\ parse_item item = Ok r.
Proof.
  intros d items out Hitems Hout.
  assert (parse_search_results (PDict d) = mapM parse_item items) as E.
  { unfold parse_search_results. cbn [Py.get bind]. unfold PyDict.get_default.
    destruct Hitems as [[-> Hne] | [Hr ->]].
    - destruct items; [congruence | reflexivity].
    - destruct Hr as [-> | [-> | ->]]; now destruct items. }
  rewrite E in Hout. destruct (mapM_nth parse_item items out Hout) as [Hlen Hnth].
  split; [exact Hlen|]. split; [|exact Hnth].
  eapply mapM_Forall; [|exact Hout]. intros a b. apply parse_item_fields.
Qed.

(** X19: the slug of a search result is the path segment after [/p/] of
    its URL.  For an item whose [url] is a product URL, absolute
    ([https://www.sanmar.com/p/...]) or relative ([/p/...]), the record
    has the text between [/p/] and the next [/], [?] or [#] as its slug,
    whatever code the item has. *)
Theorem search_slug_comes_from_the_url :
  forall (d : PyDict.dict pyval) (base slug suffix : string),
  base = "https://www.sanmar.com" \/ base = "" ->
  Found.plain slug = true ->
  suffix = "" \/ (exists c r, suffix = String c r /\ Found.ends_slug c = true) ->
  Py.is_substring "/p/" suffix = false ->
  PyDict.get d "url" = Some (PStr (base ++ "/p/" ++ slug ++ suffix)) ->
  exists r,
    parse_item (PDict d) = Ok r
    /\ PyDict.get r "slug" = Some (PStr slug).
Proof.
  intros d base slug suffix Hbase Hplain Hsuffix Hsep Hurl.
  destruct (slug_of_product_url base slug suffix Hbase Hplain Hsuffix Hsep)
    as [Hin Hslug].
  rewrite parse_item_dict. cbv zeta.
  set (url := (base ++ "/p/" ++ slug ++ suffix)%string) in *.
  assert (PyDict.get_default d "url" PNone = PStr url) as ->
    by (unfold PyDict.get_default; now rewrite Hurl).
  assert (url <> "") as Hne by (intros E; rewrite E in Hin; discriminate).
  assert (Py.truthy (PStr url) = true) as Ht
    by (simpl; now apply negb_true_iff, String.eqb_neq).
  rewrite !(or_truthy (PStr url)) by exact Ht.
  unfold slug_of. rewrite Ht. cbn [contains bind]. rewrite Hin, Hslug.
  eexists. split; reflexivity.
Qed.

(** X20: the edge cases of [parse_search_results].  A payload without
    results and without products gives the empty list; an item without a
    URL, or with a URL that has no [/p/], gets its code as slug; a payload
    that is not an object makes the function raise. *)
Theorem search_results_edge_cases :
  forall (d : PyDict.dict pyval) (code url : string) (v : pyval),
  PyDict.get d "results" = None ->
  PyDict.get d "products" = None ->
  Py.is_substring "/p/" url = false ->
  (forall d', v <> PDict d') ->
  parse_search_results (PDict d) = Ok []
  /\ (exists r, parse_item (Found.item code url) = Ok r
                /\ PyDict.get r "slug" = Some (PStr code))
  /\ parse_search_results v = Raise AttributeError.
Proof.
  intros d code url v Hr Hp Hurl Hv. split; [|split].
  - unfold parse_search_results. cbn [Py.get bind]. unfold PyDict.get_default.
    now rewrite Hr, Hp.
  - unfold Found.item. rewrite parse_item_dict. cbv zeta.
    cbn [PyDict.get_default PyDict.get String.eqb Ascii.eqb Bool.eqb].
    assert (Py.or_ (PStr code) (PStr "") = PStr code) as ->
      by now destruct code.
    assert (Py.or_ (Py.or_ (PStr url) PNone) (PStr "") = PStr url) as ->
      by now destruct url.
    assert (slug_of (PStr url) (PStr code) = Ok (PStr code)) as ->.
    { unfold slug_of. destruct (Py.truthy (PStr url)); [|reflexivity].
      cbn [contains bind]. now rewrite Hurl. }
    eexists. split; reflexivity.
  - destruct v; try reflexivity. now elim (Hv d0).
Qed.

End SearchFacts.

Section SearchWitnesses.
Import PyStr PyStrOps Search.

Lemma search_results_one_record_per_item_witness :
  length [[("slug", PStr "PC61_White"); ("code", PStr "PC61");
           ("styleNumber", PStr "PC61"); ("name", PStr "");
           ("priceText", PStr "")]]
  = length [Found.item "PC61" "/p/PC61_White?x=1"]
  /\ Forall (fun r => PyDict.keys r = Found.fields)
       [[("slug", PStr "PC61_White"); ("code", PStr "PC61");
         ("styleNumber", PStr "PC61"); ("name", PStr "");
         ("priceText", PStr "")]]
  /\ forall i item,
       nth_error [Found.item "PC61" "/p/PC61_White?x=1"] i = Some item ->
       exists r,
         nth_error [[("slug", PStr "PC61_White"); ("code", PStr "PC61");
                     ("styleNumber", PStr "PC61"); ("name", PStr "");
                     ("priceText", PStr "")]] i = Some r
         /\ parse_item item = Ok r.
Proof.
  apply (search_results_one_record_per_item
           [("results", PNone);
            ("products", PList [Found.item "PC61" "/p/PC61_White?x=1"])]).
  - right. split; [right; now left | reflexivity].
  - vm_compute. reflexivity.
Defined.

Lemma search_slug_comes_from_the_url_witness :
  exists r,
    parse_item
      (PDict [("code", PStr "PC61");
              ("url", PStr ("https://www.sanmar.com" ++ "/p/" ++ "PC61_White"
                            ++ "#reviews"))])
    = Ok r
    /\ PyDict.get r "slug" = Some (PStr "PC61_White").
Proof.
  apply (search_slug_comes_from_the_url
           [("code", PStr "PC61");
            ("url", PStr ("https://www.sanmar.com" ++ "/p/" ++ "PC61_White"
                          ++ "#reviews"))]
           "https://www.sanmar.com" "PC61_White" "#reviews").
  - now left.
  - reflexivity.
  - right. exists "#"%char, "reviews". now split.
  - reflexivity.
  - reflexivity.
Defined.

Lemma search_results_edge_cases_witness :
  parse_search_results (PDict [("total", PInt 0)]) = Ok []
  /\ (exists r, parse_item (Found.item "PC61" "/search/?text=polo") = Ok r
                /\ PyDict.get r "slug" = Some (PStr "PC61"))
  /\ parse_search_results (PList []) = Raise AttributeError.
Proof.
  apply (search_results_edge_cases [("total", PInt 0)] "PC61"
           "/search/?text=polo" (PList [])).
  - reflexivity.
  - reflexivity.
  - reflexivity.
  - discriminate.
Defined.

End SearchWitnesses.

(** ** Settings *)

Section LowerFacts.
Import PyStr.

Lemma lower_char_idem (c : ascii) : lower_char (lower_char c) = lower_char c.
Proof. destruct c as [[] [] [] [] [] [] [] []]; reflexivity. Qed.

Lemma isspace_lower_char (c : ascii) : isspace (lower_char c) = isspace c.
Proof. destruct c as [[] [] [] [] [] [] [] []]; reflexivity. Qed.

Lemma lower_idem (s : string) : lower (lower s) = lower s.
Proof.
  induction s as [|c s IH]; simpl; [reflexivity|].
  now rewrite lower_char_idem, IH.
Qed.

Lemma lstrip_lower (s : string) : lstrip (lower s) = lower (lstrip s).
Proof.
  induction s as [|c s IH]; simpl; [reflexivity|].
  rewrite isspace_lower_char. now destruct (isspace c).
Qed.

Lemma rstrip_lower (s : string) : rstrip (lower s) = lower (rstrip s).
Proof.
  induction s as [|c s IH]; simpl; [reflexivity|].
  rewrite IH, isspace_lower_char.
  destruct (rstrip s); simpl; [now destruct (isspace c) | reflexivity].
Qed.

Lemma strip_lower (s : string) : strip (lower s) = lower (strip s).
Proof. unfold strip. now rewrite lstrip_lower, rstrip_lower. Qed.

End LowerFacts.

Section SettingsFacts.
Import PyStr Config.

(** X21: the settings read from the environment are normalised.  The
    credentials are stripped of surrounding white space; the backend and
    the output format are lower-cased and stripped, so that
    [SANMAR_BACKEND=" WebJSON "] selects the backend [webjson]; the test
    flag is set exactly by the values 1, true and yes in any case (white
    space around them is not removed); and the timeout is the integer
    given, or 25 when the variable does not hold an integer.  Creating the
    settings never raises. *)
Theorem settings_are_normalised :
  forall (env : environ),
  Forall (fun kv => is_ascii (snd kv) = true) env ->
  let s := new_settings env in
  strip (sanmar_username s) = sanmar_username s
  /\ strip (sanmar_password s) = sanmar_password s
  /\ strip (sanmar_customer_number s) = sanmar_customer_number s
  /\ strip (backend s) = backend s
  /\ lower (backend s) = backend s
  /\ backend s = strip (lower (getenv env "SANMAR_BACKEND" "promostandards"))
  /\ strip (default_format s) = default_format s
  /\ lower (default_format s) = default_format s
  /\ (use_test s = true <->
      In (lower (getenv env "SANMAR_USE_TEST" "false")) ["1"; "true"; "yes"])
  /\ (int_of_text (getenv env "HTTP_TIMEOUT_SECONDS" "25")
      = Ok (timeout_seconds s)
      \/ ((exists e, int_of_text (getenv env "HTTP_TIMEOUT_SECONDS" "25")
                     = Raise e)
          /\ timeout_seconds s = 25)).
Proof.
  intros env _ s. subst s. unfold new_settings, __post_init__, defaults.
  cbn [sanmar_username sanmar_password sanmar_customer_number use_test
       backend timeout_seconds default_format or_str].
  repeat split; try apply strip_idem.
  - now rewrite strip_lower, lower_idem.
  - now rewrite strip_lower, lower_idem.
  - apply str_in_In.
  - apply str_in_In.
  - change (str_of_Z 25) with "25".
    destruct (int_of_text (getenv env "HTTP_TIMEOUT_SECONDS" "25")) as [n|e].
    + now left.
    + right. split; [now exists e | reflexivity].
Qed.

(** X22: the test flag has no effect on the endpoints: [get_endpoints]
    returns the same two WSDL URLs, under the keys
    [promostandards_inventory_wsdl] and [standard_inventory_wsdl], for
    the test and for the production environment, whatever the settings
    say. *)
Theorem test_flag_does_not_change_the_endpoints :
  forall (env env' : environ),
  get_endpoints (use_test (new_settings env))
  = get_endpoints (use_test (new_settings env'))
  /\ PyDict.keys (get_endpoints (use_test (new_settings env)))
     = ["promostandards_inventory_wsdl"; "standard_inventory_wsdl"]
  /\ get_endpoints true = get_endpoints false.
Proof.
  intros env env'.
  destruct (use_test (new_settings env)), (use_test (new_settings env'));
    repeat split.
Qed.

End SettingsFacts.

Section HeaderFacts.
Import StreamlitApp.

(** X23: [_sanitize_headers_for_log] masks the headers [Cookie] and
    [Authorization] and nothing else.  The result has the keys of the
    input in the same order; the value of a header named exactly [Cookie]
    or [Authorization] is three asterisks; every other header, also one
    named [cookie] in lower case, keeps its value; and no header is
    added. *)
Theorem headers_are_masked_for_the_log :
  forall (headers : PyDict.dict pyval),
  NoDup (PyDict.keys headers) ->
  exists masked,
    _sanitize_headers_for_log (Some headers) = Some masked
    /\ PyDict.keys masked = PyDict.keys headers
    /\ forall k,
         PyDict.get masked k
         = if String.eqb k "Cookie" || String.eqb k "Authorization"
           then option_map (fun _ => PStr "***") (PyDict.get headers k)
           else PyDict.get headers k.
Proof.
  intros headers _.
  assert (forall (d : PyDict.dict pyval) (name : string),
            let d' := if PyDict.mem d name
                      then PyDict.set d name (PStr "***") else d in
            PyDict.keys d' = PyDict.keys d
            /\ forall k, PyDict.get d' k
                         = if String.eqb k name
                           then option_map (fun _ => PStr "***") (PyDict.get d k)
                           else PyDict.get d k) as Hmask.
  { intros d name d'. subst d'. unfold PyDict.mem.
    destruct (PyDict.get d name) as [v|] eqn:G.
    - split.
      + rewrite dict_keys_set. unfold PyDict.mem. now rewrite G.
      + intros k. destruct (String.eqb_spec k name) as [-> | Hne].
        * now rewrite dict_get_set_same, G.
        * apply dict_get_set_other. congruence.
    - split; [reflexivity|]. intros k.
      destruct (String.eqb_spec k name) as [-> | Hne]; [now rewrite G | reflexivity]. }
  destruct headers as [|kv headers].
  { exists []. repeat split. intros k. simpl. now destruct (_ || _). }
  set (h := kv :: headers).
  destruct (Hmask h "Cookie") as [K1 G1]. cbv zeta in K1, G1.
  set (h1 := if PyDict.mem h "Cookie"
             then PyDict.set h "Cookie" (PStr "***") else h) in *.
  destruct (Hmask h1 "Authorization") as [K2 G2]. cbv zeta in K2, G2.
  exists (if PyDict.mem h1 "Authorization"
          then PyDict.set h1 "Authorization" (PStr "***") else h1).
  split; [reflexivity|]. split; [now rewrite K2, K1|].
  intros k. rewrite G2, G1.
  destruct (String.eqb k "Cookie") eqn:Hc,
           (String.eqb k "Authorization") eqn:Ha; try reflexivity.
  apply String.eqb_eq in Hc, Ha. rewrite Hc in Ha. discriminate.
Qed.

End HeaderFacts.

Section SettingsWitnesses.
Import PyStr Config StreamlitApp.

Lemma settings_are_normalised_witness :
  let s := new_settings [("SANMAR_BACKEND", " WebJSON ");
                         ("HTTP_TIMEOUT_SECONDS", "soon")] in
  strip (sanmar_username s) = sanmar_username s
  /\ strip (sanmar_password s) = sanmar_password s
  /\ strip (sanmar_customer_number s) = sanmar_customer_number s
  /\ strip (backend s) = backend s
  /\ lower (backend s) = backend s
  /\ backend s
     = strip (lower (getenv [("SANMAR_BACKEND", " WebJSON ");
                             ("HTTP_TIMEOUT_SECONDS", "soon")]
                       "SANMAR_BACKEND" "promostandards"))
  /\ strip (default_format s) = default_format s
  /\ lower (default_format s) = default_format s
  /\ (use_test s = true <->
      In (lower (getenv [("SANMAR_BACKEND", " WebJSON ");
                         ("HTTP_TIMEOUT_SECONDS", "soon")]
                   "SANMAR_USE_TEST" "false")) ["1"; "true"; "yes"])
  /\ (int_of_text (getenv [("SANMAR_BACKEND", " WebJSON ");
                           ("HTTP_TIMEOUT_SECONDS", "soon")]
                     "HTTP_TIMEOUT_SECONDS" "25")
      = Ok (timeout_seconds s)
      \/ ((exists e, int_of_text (getenv [("SANMAR_BACKEND", " WebJSON ");
                                          ("HTTP_TIMEOUT_SECONDS", "soon")]
                                    "HTTP_TIMEOUT_SECONDS" "25")
                     = Raise e)
          /\ timeout_seconds s = 25)).
Proof.
  apply (settings_are_normalised [("SANMAR_BACKEND", " WebJSON ");
                                  ("HTTP_TIMEOUT_SECONDS", "soon")]).
  repeat constructor.
Defined.

(** The backend as read from [" WebJSON "], and the timeout for a value
    that is not an integer. *)
Example settings_example :
  backend (new_settings [("SANMAR_BACKEND", " WebJSON ");
                         ("HTTP_TIMEOUT_SECONDS", "soon")]) = "webjson"
  /\ timeout_seconds (new_settings [("SANMAR_BACKEND", " WebJSON ");
                                    ("HTTP_TIMEOUT_SECONDS", "soon")]) = 25
  /\ use_test (new_settings [("SANMAR_USE_TEST", " true")]) = false.
Proof. repeat split. Qed.

Lemma headers_are_masked_for_the_log_witness :
  exists masked,
    _sanitize_headers_for_log
      (Some [("Accept", PStr "*/*"); ("Cookie", PStr "sid=1");
             ("cookie", PStr "sid=2")])
    = Some masked
    /\ PyDict.keys masked
       = PyDict.keys [("Accept", PStr "*/*"); ("Cookie", PStr "sid=1");
                      ("cookie", PStr "sid=2")]
    /\ forall k,
         PyDict.get masked k
         = if String.eqb k "Cookie" || String.eqb k "Authorization"
           then option_map (fun _ => PStr "***")
                  (PyDict.get [("Accept", PStr "*/*"); ("Cookie", PStr "sid=1");
                               ("cookie", PStr "sid=2")] k)
           else PyDict.get [("Accept", PStr "*/*"); ("Cookie", PStr "sid=1");
                            ("cookie", PStr "sid=2")] k.
Proof.
  apply (headers_are_masked_for_the_log
           [("Accept", PStr "*/*"); ("Cookie", PStr "sid=1");
            ("cookie", PStr "sid=2")]).
  repeat constructor; simpl; intuition discriminate.
Defined.

End SettingsWitnesses.

(** ** Lists of slugs *)

Section SlugLists.
Import PyStr PyStrOps CliStyles Slugs.

Lemma split_runs_cons (delim : ascii -> bool) (b : bool) (s : string) :
  exists piece pieces, split_runs delim b s = piece :: pieces.
Proof.
  revert b. induction s as [|c s IH]; intros b; cbn [split_runs];
    [do 2 eexists; reflexivity|].
  destruct (delim c).
  - destruct b; [apply IH | do 2 eexists; reflexivity].
  - destruct (IH false) as (p & ps & ->). do 2 eexists; reflexivity.
Qed.

(** Before a character that is no delimiter the state does not matter. *)
Lemma split_runs_word (delim : ascii -> bool) (b : bool) (c : ascii)
    (s : string) :
  delim c = false ->
  split_runs delim b (String c s) = split_runs delim false (String c s).
Proof. intros Hc. cbn [split_runs]. now rewrite Hc. Qed.

Lemma split_runs_app (delim : ascii -> bool) (a rest : string) :
  all_chars (fun c => negb (delim c)) a = true ->
  split_runs delim false (a ++ rest)
  = match split_runs delim false rest with
    | piece :: pieces => (a ++ piece)%string :: pieces
    | [] => [a]
    end.
Proof.
  induction a as [|c a IH]; cbn [append all_chars].
  - intros _. now destruct (split_runs_cons delim false rest) as (p & ps & ->).
  - intros H. apply andb_true_iff in H. destruct H as [Hc Ha].
    apply negb_true_iff in Hc. cbn [split_runs]. rewrite Hc, (IH Ha).
    now destruct (split_runs_cons delim false rest) as (p & ps & ->).
Qed.

(** A run of delimiters ends the piece being read. *)
Lemma split_runs_separator (delim : ascii -> bool) (sep rest : string) :
  all_chars delim sep = true ->
  split_runs delim true (sep ++ rest) = split_runs delim true rest.
Proof.
  induction sep as [|c sep IH]; cbn [append all_chars]; [reflexivity|].
  intros H. apply andb_true_iff in H. destruct H as [Hc Hs].
  cbn [split_runs]. rewrite Hc. now apply IH.
Qed.

Lemma raw_slugs_join (sep : string) (l : list string) :
  separator sep -> Forall writable l ->
  filter (fun s => negb (String.eqb s ""))
    (split_runs separates false (join sep l))
  = l
  /\ (l <> [] ->
      exists c s, join sep l = String c s /\ separates c = false).
Proof.
  intros [Hsep Hall] Hl. induction Hl as [|x l [Hx Hw] Hl IH].
  - split; [reflexivity | congruence].
  - destruct IH as [IH Hhead].
    assert (exists c s, x = String c s /\ separates c = false) as Hxc.
    { destruct x as [|c s]; [congruence|]. exists c, s. split; [reflexivity|].
      cbn [all_chars] in Hw. apply andb_true_iff in Hw.
      now apply negb_true_iff. }
    split.
    + destruct l as [|y l].
      * cbn [join]. rewrite <- (string_app_nil_r x) at 1.
        rewrite (split_runs_app separates x "" Hw). cbn.
        rewrite string_app_nil_r.
        destruct (String.eqb_spec x "") as [E | _]; [contradiction | reflexivity].
      * change (join sep (x :: y :: l))
          with (x ++ sep ++ join sep (y :: l))%string.
        rewrite (split_runs_app separates x _ Hw).
        destruct sep as [|c sep]; [congruence|].
        cbn [all_chars] in Hall. apply andb_true_iff in Hall.
        destruct Hall as [Hc Hrest].
        cbn [append split_runs]. rewrite Hc.
        rewrite (split_runs_separator separates sep _ Hrest).
        destruct (Hhead ltac:(discriminate)) as (d & s & Ed & Hd).
        rewrite Ed, (split_runs_word separates true d s Hd), <- Ed.
        cbn [filter]. rewrite string_app_nil_r.
        destruct (String.eqb_spec x "") as [E | _]; [contradiction|].
        cbn [negb]. f_equal. exact IH.
    + intros _. destruct Hxc as (c & s & -> & Hc).
      destruct l; cbn [join append]; do 2 eexists; split; try reflexivity;
        exact Hc.
Qed.

(** X24: a list of slugs for the webjson backend is read back as it was
    written.  When the slugs, none of them empty and none with a comma or
    white space in it, are joined by commas, by blanks or by any other mix
    of commas and white space, splitting the text gives the same slugs in
    the same order; and [dedupe_preserve_order], which [main] applies next
    without upper-casing, keeps them as they are when no slug is written
    twice. *)
Theorem slugs_are_read_back :
  forall (sep : string) (slugs : list string),
  Forall (fun s => is_ascii s = true) slugs ->
  separator sep ->
  Forall writable slugs ->
  raw_slugs (join sep slugs) = slugs
  /\ (NoDup slugs ->
      dedupe_preserve_order (raw_slugs (join sep slugs)) false = slugs).
Proof.
  intros sep slugs _ Hsep Hl.
  assert (raw_slugs (join sep slugs) = slugs) as E
    by apply (raw_slugs_join sep slugs Hsep Hl).
  split; [exact E|]. intros Hnd. rewrite E, dedupe_spec.
  apply (dedupe_fold_fixed false slugs []); [exact Hnd|].
  apply Forall_forall. intros s Hs.
  rewrite Forall_forall in Hl. destruct (Hl s Hs) as [Hne Hw].
  split; [exact Hne|]. unfold Styles.normal.
  clear - Hne Hw. unfold strip.
  assert (lstrip s = s) as ->.
  { destruct s as [|c s]; [reflexivity|]. cbn [all_chars] in Hw.
    apply andb_true_iff in Hw. destruct Hw as [Hc _].
    apply negb_true_iff in Hc. unfold separates in Hc.
    apply orb_false_iff in Hc. destruct Hc as [_ Hc].
    unfold re_space in Hc. cbn [lstrip]. now rewrite Hc. }
  clear Hne. induction s as [|c s IH]; [reflexivity|].
  cbn [all_chars] in Hw. apply andb_true_iff in Hw. destruct Hw as [Hc Hw].
  apply negb_true_iff in Hc. unfold separates in Hc.
  apply orb_false_iff in Hc. destruct Hc as [_ Hc]. unfold re_space in Hc.
  cbn [rstrip]. rewrite (IH Hw), Hc. now destruct s.
Qed.

End SlugLists.

Section SlugListsWitnesses.
Import PyStr PyStrOps CliStyles Slugs.

Lemma slugs_are_read_back_witness :
  raw_slugs (join ", " ["60397_InsBlue"; "PC61_White"])
  = ["60397_InsBlue"; "PC61_White"]
  /\ (NoDup ["60397_InsBlue"; "PC61_White"] ->
      dedupe_preserve_order
        (raw_slugs (join ", " ["60397_InsBlue"; "PC61_White"])) false
      = ["60397_InsBlue"; "PC61_White"]).
Proof.
  apply (slugs_are_read_back ", " ["60397_InsBlue"; "PC61_White"]).
  - repeat constructor.
  - split; [discriminate | reflexivity].
  - repeat constructor; discriminate.
Defined.

End SlugListsWitnesses.

(** ** Style codes in a text *)

Section RegexFacts.
Import PyStr PyStrOps Regex Slugs.

Lemma take_length_le (k : nat) (s : string) :
  (k <= String.length s)%nat -> String.length (take k s) = k.
Proof.
  revert s. induction k as [|k IH]; intros s Hk; [reflexivity|].
  destruct s as [|c s]; simpl in *; [lia|]. rewrite IH; lia.
Qed.

Lemma run_length_bounds (class : ascii -> bool) (hi : nat) (s : string) :
  (run_length class hi s <= hi)%nat
  /\ (run_length class hi s <= String.length s)%nat.
Proof.
  revert s. induction hi as [|hi IH]; intros s; [simpl; lia|].
  destruct s as [|c s]; simpl; [lia|].
  destruct (class c); simpl; [|lia]. destruct (IH s). lia.
Qed.

Lemma run_length_take (class : ascii -> bool) (hi k : nat) (s : string) :
  (k <= run_length class hi s)%nat -> all_chars class (take k s) = true.
Proof.
  revert hi s. induction k as [|k IH]; intros hi s Hk; [reflexivity|].
  destruct hi as [|hi], s as [|c s]; simpl in Hk; try lia.
  destruct (class c) eqn:Hc; [|lia].
  cbn [take all_chars]. rewrite Hc. apply (IH hi). lia.
Qed.

(** What a successful repetition took. *)
Lemma try_counts_inv (rest : option ascii -> string -> option string)
    (lo k : nat) (prev : option ascii) (s m : string) :
  try_counts rest lo k prev s = Some m ->
  exists j m',
    (lo <= j <= k)%nat
    /\ rest (last_of prev j s) (drop j s) = Some m'
    /\ m = (take j s ++ m')%string.
Proof.
  induction k as [|k IH]; cbn [try_counts].
  - destruct (Nat.ltb_spec 0 lo); [discriminate|].
    destruct (rest _ _) as [m'|] eqn:E; [|discriminate].
    intros [= <-]. exists 0%nat, m'. repeat split; try lia. exact E.
  - destruct (Nat.ltb_spec (S k) lo); [discriminate|].
    destruct (rest _ _) as [m'|] eqn:E.
    + intros [= <-]. exists (S k), m'. repeat split; try lia. exact E.
    + intros Hm. destruct (IH Hm) as (j & m' & Hj & Hrest & ->).
      exists j, m'. repeat split; try lia. exact Hrest.
Qed.

(** The first count that works is taken. *)
Lemma try_counts_first (rest : option ascii -> string -> option string)
    (lo k : nat) (prev : option ascii) (s m : string) :
  (lo <= k)%nat ->
  rest (last_of prev k s) (drop k s) = Some m ->
  try_counts rest lo k prev s = Some (take k s ++ m)%string.
Proof.
  intros Hk Hrest.
  assert ((k <? lo)%nat = false) as Hlt by (apply Nat.ltb_ge; lia).
  destruct k; cbn [try_counts]; rewrite Hlt; now rewrite Hrest.
Qed.

(** Every match that [findall] lists is a match of the pattern
    somewhere. *)
Lemma findall_from_matches (pattern : list atom) (k : nat)
    (prev : option ascii) (s m : string) :
  In m (findall_from pattern k prev s) ->
  exists prev' s', match_here pattern prev' s' = Some m.
Proof.
  revert k prev. induction s as [|c s IH]; intros k prev; cbn [findall_from];
    [contradiction|].
  destruct k as [|k]; [|apply IH].
  destruct (match_here pattern prev (String c s)) as [m0|] eqn:E;
    [|apply IH].
  intros [<- | Hin]; [now exists prev, (String c s) | now apply IH in Hin].
Qed.

Lemma drop_last (d : ascii) (a : string) :
  exists x, drop (String.length a) (String d a) = String x "".
Proof.
  revert d. induction a as [|c a IH]; intros d; [now exists d|].
  cbn [String.length drop]. apply IH.
Qed.

(** Passing the characters of a match. *)
Lemma findall_from_skip (pattern : list atom) (a rest : string)
    (prev : option ascii) :
  findall_from pattern (String.length a) prev (a ++ rest)
  = findall_from pattern 0 (last_of prev (String.length a) a) rest.
Proof.
  revert prev. induction a as [|c a IH]; intros prev; [reflexivity|].
  cbn [String.length append findall_from]. rewrite IH.
  f_equal. destruct a as [|d a]; [reflexivity|].
  cbn [String.length last_of drop].
  now destruct (drop_last d a) as [x ->].
Qed.

End RegexFacts.

Section StyleCodes.
Import PyStr PyStrOps Regex Slugs Scraper Codes.

Lemma is_upper_word (c : ascii) : is_upper c = true -> is_word c = true.
Proof. destruct c as [[] [] [] [] [] [] [] []]; try discriminate; reflexivity. Qed.

Lemma isdigit_word (c : ascii) : isdigit c = true -> is_word c = true.
Proof. destruct c as [[] [] [] [] [] [] [] []]; try discriminate; reflexivity. Qed.

Lemma isdigit_not_upper (c : ascii) : isdigit c = true -> is_upper c = false.
Proof. destruct c as [[] [] [] [] [] [] [] []]; try discriminate; reflexivity. Qed.

Lemma is_word_upper_char (c : ascii) : is_word (upper_char c) = is_word c.
Proof. destruct c as [[] [] [] [] [] [] [] []]; reflexivity. Qed.

Lemma upper_char_fixed (c : ascii) :
  is_upper c = true \/ isdigit c = true -> upper_char c = c.
Proof.
  destruct c as [[] [] [] [] [] [] [] []]; intros [H | H];
    try discriminate; reflexivity.
Qed.

(** What the pattern matches has the shape of a style code. *)
Lemma match_style_shape (prev : option ascii) (s m : string) :
  match_here STYLE_RE prev s = Some m -> style_shape m.
Proof.
  unfold STYLE_RE. cbn [match_here].
  destruct (at_boundary prev s); [|discriminate].
  intros Hm. apply try_counts_inv in Hm.
  destruct Hm as (j1 & m1 & Hj1 & Hm1 & ->).
  apply try_counts_inv in Hm1.
  destruct Hm1 as (j2 & m2 & Hj2 & Hm2 & ->).
  destruct (at_boundary _ _) in Hm2; [|discriminate]. injection Hm2 as <-.
  rewrite string_app_nil_r.
  destruct (run_length_bounds is_upper 5 s) as [Hhi1 Hlen1].
  destruct (run_length_bounds isdigit 5 (drop j1 s)) as [Hhi2 Hlen2].
  exists (take j1 s), (take j2 (drop j1 s)).
  split; [reflexivity|].
  rewrite !take_length_le by lia.
  split; [lia|]. split; [apply (run_length_take is_upper 5); lia|].
  split; [lia|]. apply (run_length_take isdigit 5); lia.
Qed.

Lemma take_app (a rest : string) : take (String.length a) (a ++ rest) = a.
Proof. induction a as [|c a IH]; simpl; [now destruct rest | now rewrite IH]. Qed.

(** A run of characters of the class, ended by the end of the text or by
    a character outside the class. *)
Lemma run_length_app (class : ascii -> bool) (hi : nat) (a rest : string) :
  all_chars class a = true ->
  (String.length a <= hi)%nat ->
  match rest with
  | EmptyString => True
  | String c _ => class c = false
  end ->
  run_length class hi (a ++ rest) = String.length a.
Proof.
  revert hi. induction a as [|c a IH]; intros hi Ha Hhi Hrest.
  - cbn [append String.length]. destruct hi, rest; try reflexivity.
    cbn [run_length]. now rewrite Hrest.
  - cbn [all_chars] in Ha. apply andb_true_iff in Ha. destruct Ha as [Hc Ha].
    cbn [String.length] in *. destruct hi as [|hi]; [lia|].
    cbn [append run_length]. rewrite Hc. f_equal. apply IH; [exact Ha | lia | exact Hrest].
Qed.

(** The last character of a run that is not empty. *)
Lemma last_of_run (class : ascii -> bool) (prev : option ascii)
    (a rest : string) :
  a <> "" -> all_chars class a = true ->
  exists c, last_of prev (String.length a) (a ++ rest) = Some c
            /\ class c = true.
Proof.
  intros Hne Ha. destruct a as [|d a]; [congruence|]. clear Hne.
  cbn [String.length last_of]. revert d Ha.
  induction a as [|e a IH]; intros d Ha.
  - cbn [String.length drop append]. exists d. split; [reflexivity|].
    cbn [all_chars] in Ha. now apply andb_true_iff in Ha.
  - cbn [all_chars] in Ha. apply andb_true_iff in Ha. destruct Ha as [_ Ha].
    cbn [String.length drop append]. apply (IH e Ha).
Qed.


(** A repetition that takes a whole run. *)
Lemma try_counts_run (rest : option ascii -> string -> option string)
    (lo : nat) (prev : option ascii) (a r m : string) :
  (lo <= String.length a)%nat ->
  rest (last_of prev (String.length a) (a ++ r)) r = Some m ->
  try_counts rest lo (String.length a) prev (a ++ r) = Some (a ++ m)%string.
Proof.
  intros Hlo Hrest.
  rewrite <- (take_app a r) at 3.
  apply try_counts_first; [exact Hlo|]. now rewrite drop_app.
Qed.

(** A code between a start and an end is matched whole. *)
Lemma match_style_token (prev : option ascii) (x rest : string) :
  code_start prev -> style_shape x -> code_end rest ->
  match_here STYLE_RE prev (x ++ rest) = Some x.
Proof.
  intros Hprev (letters & digits & -> & Hl & Hup & Hd & Hdig) Hrest.
  assert (letters <> "") as Hlne
    by (destruct letters; simpl in Hl; [lia | discriminate]).
  assert (digits <> "") as Hdne
    by (destruct digits; simpl in Hd; [lia | discriminate]).
  rewrite string_app_assoc.
  unfold STYLE_RE. cbn [match_here].
  assert (at_boundary prev (letters ++ digits ++ rest) = true) as ->.
  { unfold at_boundary. destruct letters as [|c letters]; [congruence|].
    cbn [all_chars] in Hup. apply andb_true_iff in Hup. destruct Hup as [Hc _].
    cbn [append]. rewrite (is_upper_word c Hc).
    destruct prev as [p|]; [|reflexivity]. simpl in Hprev. now rewrite Hprev. }
  assert (run_length is_upper 5 (letters ++ digits ++ rest)
          = String.length letters) as ->.
  { apply run_length_app; [exact Hup | lia |].
    destruct digits as [|d digits]; [congruence|]. cbn [append].
    cbn [all_chars] in Hdig. apply andb_true_iff in Hdig.
    destruct Hdig as [Hd0 _]. now apply isdigit_not_upper. }
  apply try_counts_run; [lia|].
  cbn [match_here].
  assert (run_length isdigit 5 (digits ++ rest) = String.length digits) as ->.
  { apply run_length_app; [exact Hdig | lia |].
    destruct rest as [|c rest]; [exact I|]. simpl in Hrest.
    destruct (isdigit c) eqn:E; [|reflexivity].
    apply isdigit_word in E. congruence. }
  replace (Some digits) with (Some (digits ++ "")%string)
    by now rewrite string_app_nil_r.
  apply try_counts_run; [lia|].
  destruct (last_of_run isdigit
              (last_of prev (String.length letters) (letters ++ digits ++ rest))
              digits rest Hdne Hdig) as (c & -> & Hc).
  unfold at_boundary. rewrite (isdigit_word c Hc).
  destruct rest as [|r rest]; [reflexivity|]. simpl in Hrest. now rewrite Hrest.
Qed.

(** No code starts at a character that is no capital letter. *)
Lemma match_style_none (prev : option ascii) (c : ascii) (s : string) :
  is_upper c = false -> match_here STYLE_RE prev (String c s) = None.
Proof.
  intros Hc. unfold STYLE_RE. cbn [match_here].
  destruct (at_boundary prev (String c s)); [|reflexivity].
  cbn [run_length]. rewrite Hc. reflexivity.
Qed.

Lemma findall_gap (prev : option ascii) (sep rest : string) :
  all_chars (fun c => negb (is_word c)) sep = true ->
  sep <> "" ->
  exists p, code_start (Some p)
            /\ findall_from STYLE_RE 0 prev (sep ++ rest)
               = findall_from STYLE_RE 0 (Some p) rest.
Proof.
  revert prev. induction sep as [|c sep IH]; intros prev Hall Hne;
    [congruence|].
  cbn [all_chars] in Hall. apply andb_true_iff in Hall.
  destruct Hall as [Hc Hall]. apply negb_true_iff in Hc.
  assert (is_upper c = false) as Hup.
  { destruct (is_upper c) eqn:E; [|reflexivity].
    apply is_upper_word in E. congruence. }
  cbn [append findall_from]. rewrite (match_style_none prev c _ Hup).
  destruct sep as [|d sep].
  - exists c. split; [exact Hc | reflexivity].
  - apply (IH (Some c) Hall). discriminate.
Qed.

(** The codes of a list written with gaps between them are found, all
    of them and in order. *)
Lemma findall_join (prev : option ascii) (sep : string) (l : list string) :
  code_start prev -> gap sep -> Forall style_shape l ->
  findall_from STYLE_RE 0 prev (join sep l) = l.
Proof.
  intros Hprev [Hne Hall] Hl. revert prev Hprev.
  induction Hl as [|x l Hx Hl IH]; intros prev Hprev; [reflexivity|].
  assert (exists c x', x = String c x') as (c & x' & Ex).
  { destruct Hx as (letters & digits & -> & Hlen & _).
    destruct letters as [|c letters]; simpl in Hlen; [lia|].
    now exists c, (letters ++ digits)%string. }
  assert (forall rest, code_end rest ->
            findall_from STYLE_RE 0 prev (x ++ rest)
            = x :: findall_from STYLE_RE 0
                     (last_of (Some c) (String.length x') x') rest) as Hstep.
  { intros rest Hrest.
    pose proof (match_style_token prev x rest Hprev Hx Hrest) as Hm.
    rewrite Ex in *. cbn [append findall_from] in *. rewrite Hm.
    replace (String.length (String c x') - 1)%nat with (String.length x')
      by (cbn [String.length]; lia).
    now rewrite findall_from_skip. }
  destruct l as [|y l].
  - cbn [join]. rewrite <- (string_app_nil_r x) at 1.
    rewrite (Hstep "" I). reflexivity.
  - change (join sep (x :: y :: l)) with (x ++ sep ++ join sep (y :: l))%string.
    rewrite Hstep.
    + destruct (findall_gap (last_of (Some c) (String.length x') x') sep
                  (join sep (y :: l)) Hall Hne) as (p & Hp & ->).
      f_equal. now apply IH.
    + destruct sep as [|d sep]; [congruence|]. cbn [append code_end].
      cbn [all_chars] in Hall. apply andb_true_iff in Hall.
      now apply negb_true_iff.
Qed.

Lemma upper_app (a b : string) : upper (a ++ b) = (upper a ++ upper b)%string.
Proof. induction a as [|c a IH]; simpl; [reflexivity | now rewrite IH]. Qed.

Lemma upper_join (sep : string) (l : list string) :
  upper (join sep l) = join (upper sep) (map upper l).
Proof.
  induction l as [|x l IH]; [reflexivity|].
  destruct l as [|y l]; [reflexivity|].
  change (join sep (x :: y :: l)) with (x ++ sep ++ join sep (y :: l))%string.
  rewrite !upper_app, IH. reflexivity.
Qed.

Lemma upper_fixed (s : string) :
  all_chars (fun c => is_upper c || isdigit c) s = true -> upper s = s.
Proof.
  induction s as [|c s IH]; cbn [all_chars upper]; [reflexivity|].
  intros H. apply andb_true_iff in H. destruct H as [Hc Hs].
  rewrite (IH Hs), upper_char_fixed; [reflexivity|].
  now apply orb_true_iff in Hc.
Qed.

Lemma all_chars_app (p : ascii -> bool) (a b : string) :
  all_chars p (a ++ b) = all_chars p a && all_chars p b.
Proof.
  induction a as [|c a IH]; cbn [append all_chars]; [reflexivity|].
  now rewrite IH, andb_assoc.
Qed.

Lemma all_chars_impl (p q : ascii -> bool) (s : string) :
  (forall c, p c = true -> q c = true) ->
  all_chars p s = true -> all_chars q s = true.
Proof.
  intros Hpq. induction s as [|c s IH]; cbn [all_chars]; [reflexivity|].
  intros H. apply andb_true_iff in H. destruct H as [Hc Hs].
  now rewrite (Hpq c Hc), (IH Hs).
Qed.

Lemma upper_style (m : string) : style_shape m -> upper m = m.
Proof.
  intros (letters & digits & -> & _ & Hup & _ & Hdig).
  apply upper_fixed. rewrite all_chars_app. apply andb_true_iff. split.
  - apply (all_chars_impl is_upper); [|exact Hup]. now intros c ->.
  - apply (all_chars_impl isdigit); [|exact Hdig].
    intros c ->. apply orb_true_r.
Qed.

Lemma upper_gap (sep : string) : gap sep -> gap (upper sep).
Proof.
  intros [Hne Hall]. split.
  - destruct sep; [congruence | discriminate].
  - clear Hne. induction sep as [|c sep IH]; [reflexivity|].
    cbn [all_chars upper] in *. apply andb_true_iff in Hall.
    destruct Hall as [Hc Hs]. now rewrite is_word_upper_char, Hc, (IH Hs).
Qed.

Lemma fold_set_add_In (l acc : list string) (x : string) :
  In x (fold_left set_add l acc) <-> In x acc \/ In x l.
Proof.
  revert acc. induction l as [|y l IH]; intros acc; simpl; [tauto|].
  rewrite IH, set_add_In. intuition auto.
Qed.

Lemma fold_set_add_NoDup (l acc : list string) :
  NoDup acc -> NoDup (fold_left set_add l acc).
Proof.
  revert acc. induction l as [|y l IH]; intros acc Hacc; simpl; [exact Hacc|].
  apply IH. now apply set_add_NoDup.
Qed.

(** A list in strictly ascending order is determined by its elements. *)
Lemma ascending_unique (l1 l2 : list string) :
  StronglySorted (fun a b => String.ltb a b = true) l1 ->
  StronglySorted (fun a b => String.ltb a b = true) l2 ->
  (forall x, In x l1 <-> In x l2) -> l1 = l2.
Proof.
  intros H1. revert l2. induction H1 as [|a l1 Hl1 IH Ha]; intros l2 H2 Hin.
  - destruct l2 as [|b l2]; [reflexivity|].
    exfalso. apply (Hin b). now left.
  - destruct H2 as [|b l2 Hl2 Hb].
    + exfalso. apply (Hin a). now left.
    + rewrite Forall_forall in Ha, Hb.
      assert (a = b) as <-.
      { destruct (proj1 (Hin a) (or_introl eq_refl)) as [E | Hal2];
          [now symmetry|].
        destruct (proj2 (Hin b) (or_introl eq_refl)) as [E | Hbl1];
          [exact E|].
        pose proof (Ha b Hbl1) as Hab. pose proof (Hb a Hal2) as Hba.
        pose proof (string_ltb_trans a b a Hab Hba) as Haa.
        rewrite string_ltb_irrefl in Haa. discriminate. }
      f_equal. apply IH; [exact Hl2|].
      intros x. split; intros Hx.
      * destruct (proj1 (Hin x) (or_intror Hx)) as [<- | Hx2]; [|exact Hx2].
        pose proof (Ha a Hx) as Haa. rewrite string_ltb_irrefl in Haa.
        discriminate.
      * destruct (proj2 (Hin x) (or_intror Hx)) as [<- | Hx1]; [|exact Hx1].
        pose proof (Hb a Hx) as Haa. rewrite string_ltb_irrefl in Haa.
        discriminate.
Qed.

Section Parse.
Variable set_iter : list string -> list string.
Hypothesis set_iter_perm : forall l, Permutation (set_iter l) l.

Lemma parse_styles_In (text y : string) :
  In y (parse_styles_from_text set_iter text)
  <-> In y (map upper (findall STYLE_RE (upper text))).
Proof.
  unfold parse_styles_from_text. rewrite py_sorted_In.
  split.
  - intros Hy. apply (Permutation_in _ (set_iter_perm _)) in Hy.
    apply fold_set_add_In in Hy. now destruct Hy.
  - intros Hy. apply (Permutation_in _ (Permutation_sym (set_iter_perm _))).
    apply fold_set_add_In. now right.
Qed.

Lemma parse_styles_ascending (text : string) :
  StronglySorted (fun a b => String.ltb a b = true)
    (parse_styles_from_text set_iter text).
Proof.
  unfold parse_styles_from_text.
  apply (StronglySorted_weaken (fun a b => String.leb a b = true)).
  - intros a b _ _ Hne Hab. apply string_leb_iff in Hab.
    destruct Hab; [assumption | contradiction].
  - apply py_sorted_NoDup.
    eapply Permutation_NoDup; [symmetry; apply set_iter_perm|].
    apply fold_set_add_NoDup. constructor.
  - apply Sorted_StronglySorted.
    + intros a b c. apply string_leb_trans.
    + apply py_sorted_Sorted. intros a b Hab.
      destruct (String.leb_total a b); congruence.
Qed.

Lemma findall_styles (text : string) :
  Forall style_shape (findall STYLE_RE text).
Proof.
  apply Forall_forall. intros m Hm. unfold findall in Hm.
  apply findall_from_matches in Hm. destruct Hm as (prev & s & Hm).
  now apply match_style_shape in Hm.
Qed.

Lemma map_upper_styles (l : list string) :
  Forall style_shape l -> map upper l = l.
Proof.
  induction 1 as [|x l Hx _ IH]; simpl; [reflexivity|].
  now rewrite (upper_style x Hx), IH.
Qed.

End Parse.

(** X25: [parse_styles_from_text] returns style codes only, each once, in
    ascending order.  Every entry has the shape of a style code, one to
    five capital letters followed by two to five digits; the entries are
    exactly the matches of the pattern in the upper-cased text; the list
    is strictly ascending, so no code is repeated; and the result does not
    depend on the order in which the set of matches is iterated. *)
Theorem styles_found_have_the_shape :
  forall (set_iter : list string -> list string) (text : string),
  (forall l, Permutation (set_iter l) l) ->
  is_ascii text = true ->
  let out := parse_styles_from_text set_iter text in
  Forall style_shape out
  /\ StronglySorted (fun a b => String.ltb a b = true) out
  /\ (forall y, In y out <-> In y (findall STYLE_RE (upper text)))
  /\ out = parse_styles_from_text insertion_order text.
Proof.
  intros set_iter text Hperm _ out. subst out.
  assert (forall it, (forall l, Permutation (it l) l) ->
            forall y, In y (parse_styles_from_text it text)
                      <-> In y (findall STYLE_RE (upper text))) as Hin.
  { intros it Hit y. rewrite (parse_styles_In it Hit).
    now rewrite (map_upper_styles _ (findall_styles (upper text))). }
  split; [|split; [|split]].
  - apply Forall_forall. intros y Hy. apply (Hin set_iter Hperm) in Hy.
    pose proof (findall_styles (upper text)) as Hall.
    rewrite Forall_forall in Hall. now apply Hall.
  - now apply parse_styles_ascending.
  - apply (Hin set_iter Hperm).
  - apply ascending_unique.
    + now apply parse_styles_ascending.
    + apply parse_styles_ascending. intros l. apply Permutation_refl.
    + intros y. rewrite (Hin set_iter Hperm), (Hin insertion_order); [tauto|].
      intros l. apply Permutation_refl.
Qed.

(** X26: style codes written out are found again.  In a text made of
    style codes with gaps between them (any text without letters, digits
    and underscores, such as a blank or a comma and a blank)
    [parse_styles_from_text] finds exactly these codes; so applying it to
    its own result, written out with such gaps, gives the same result. *)
Theorem styles_are_found_again :
  forall (set_iter : list string -> list string) (sep text : string)
         (codes : list string),
  (forall l, Permutation (set_iter l) l) ->
  is_ascii text = true ->
  is_ascii sep = true ->
  gap sep ->
  Forall style_shape codes ->
  (forall y, In y (parse_styles_from_text set_iter (join sep codes))
             <-> In y codes)
  /\ parse_styles_from_text set_iter
       (join sep (parse_styles_from_text set_iter text))
     = parse_styles_from_text set_iter text.
Proof.
  intros set_iter sep text codes Hperm _ _ Hsep Hcodes.
  assert (forall l, Forall style_shape l ->
            forall y, In y (parse_styles_from_text set_iter (join sep l))
                      <-> In y l) as Hin.
  { intros l Hl y. rewrite (parse_styles_In set_iter Hperm).
    rewrite upper_join, (map_upper_styles l Hl).
    unfold findall.
    rewrite (findall_join None (upper sep) l I (upper_gap sep Hsep) Hl).
    now rewrite (map_upper_styles l Hl). }
  split; [now apply Hin|].
  apply ascending_unique.
  - now apply parse_styles_ascending.
  - now apply parse_styles_ascending.
  - apply Hin. apply Forall_forall. intros y Hy.
    apply (parse_styles_In set_iter Hperm) in Hy.
    rewrite (map_upper_styles _ (findall_styles (upper text))) in Hy.
    pose proof (findall_styles (upper text)) as Hall.
    rewrite Forall_forall in Hall. now apply Hall.
Qed.

End StyleCodes.

Section StyleCodesWitnesses.
Import PyStr PyStrOps Regex Slugs Scraper Codes.

Lemma styles_found_have_the_shape_witness :
  let out := parse_styles_from_text insertion_order "pc61, K420 and pc61" in
  Forall style_shape out
  /\ StronglySorted (fun a b => String.ltb a b = true) out
  /\ (forall y, In y out <->
                In y (findall STYLE_RE (upper "pc61, K420 and pc61")))
  /\ out = parse_styles_from_text insertion_order "pc61, K420 and pc61".
Proof.
  apply (styles_found_have_the_shape insertion_order "pc61, K420 and pc61").
  - intros l. apply Permutation_refl.
  - reflexivity.
Defined.

Lemma styles_are_found_again_witness :
  (forall y, In y (parse_styles_from_text insertion_order
                     (join ", " ["PC61"; "K420"]))
             <-> In y ["PC61"; "K420"])
  /\ parse_styles_from_text insertion_order
       (join ", " (parse_styles_from_text insertion_order
                     "pc61, K420 and pc61"))
     = parse_styles_from_text insertion_order "pc61, K420 and pc61".
Proof.
  apply (styles_are_found_again insertion_order ", " "pc61, K420 and pc61"
           ["PC61"; "K420"]).
  - intros l. apply Permutation_refl.
  - reflexivity.
  - reflexivity.
  - split; [discriminate | reflexivity].
  - repeat constructor.
    + exists "PC", "61". repeat split; simpl; lia.
    + exists "K", "420". repeat split; simpl; lia.
Defined.

(** Codes in a text, and a code that is too long to be one. *)
Example styles_in_a_text :
  parse_styles_from_text insertion_order "pc61, K420 and pc61" = ["K420"; "PC61"]
  /\ parse_styles_from_text insertion_order "ABCDEF12 A123456 x_K420" = [].
Proof. split; vm_compute; reflexivity. Qed.

End StyleCodesWitnesses.

Section ParsedStyles.
Import PyStr PyStrOps Regex Slugs Scraper Codes CliStyles.

Lemma strip_fixed (s : string) :
  all_chars (fun c => negb (isspace c)) s = true -> strip s = s.
Proof.
  intros Hs. unfold strip.
  assert (lstrip s = s) as ->.
  { destruct s as [|c s]; [reflexivity|]. cbn [all_chars] in Hs.
    apply andb_true_iff in Hs. destruct Hs as [Hc _].
    apply negb_true_iff in Hc. cbn [lstrip]. now rewrite Hc. }
  induction s as [|c s IH]; [reflexivity|].
  cbn [all_chars] in Hs. apply andb_true_iff in Hs. destruct Hs as [Hc Hs].
  apply negb_true_iff in Hc. cbn [rstrip]. rewrite (IH Hs), Hc.
  now destruct s.
Qed.

Lemma style_normal (m : string) :
  style_shape m -> m <> "" /\ Styles.normal true m = m.
Proof.
  intros Hm. pose proof (upper_style m Hm) as Hup.
  destruct Hm as (letters & digits & -> & Hl & Hup' & _ & Hdig). split.
  - destruct letters; [cbn in Hl; lia | discriminate].
  - unfold Styles.normal. rewrite strip_fixed; [exact Hup|].
    rewrite all_chars_app. apply andb_true_iff. split.
    + apply (all_chars_impl is_upper); [|exact Hup'].
      intros c Hc. unfold is_upper in Hc. unfold isspace.
      apply andb_true_iff in Hc. destruct Hc as [Hc _].
      apply Nat.leb_le in Hc.
      destruct (Nat.leb_spec 9 (code c)), (Nat.leb_spec (code c) 13),
        (Nat.leb_spec 28 (code c)), (Nat.leb_spec (code c) 32);
        try reflexivity; lia.
    + apply (all_chars_impl isdigit); [|exact Hdig].
      intros c Hc. unfold isdigit in Hc. unfold isspace.
      apply andb_true_iff in Hc. destruct Hc as [Hc _].
      apply Nat.leb_le in Hc.
      destruct (Nat.leb_spec 9 (code c)), (Nat.leb_spec (code c) 13),
        (Nat.leb_spec 28 (code c)), (Nat.leb_spec (code c) 32);
        try reflexivity; lia.
Qed.

Lemma parse_styles_NoDup (set_iter : list string -> list string)
    (text : string) :
  (forall l, Permutation (set_iter l) l) ->
  NoDup (parse_styles_from_text set_iter text).
Proof.
  intros Hperm. unfold parse_styles_from_text. apply py_sorted_NoDup.
  eapply Permutation_NoDup; [symmetry; apply Hperm|].
  apply fold_set_add_NoDup. constructor.
Qed.

(** X27: for the SOAP backends [main] passes the styles that
    [parse_styles_from_text] finds through [dedupe_preserve_order] with
    upper-casing; this changes nothing, the styles are fetched in
    ascending order. *)
Theorem parsed_styles_pass_dedupe :
  forall (set_iter : list string -> list string) (text : string),
  (forall l, Permutation (set_iter l) l) ->
  is_ascii text = true ->
  dedupe_preserve_order (parse_styles_from_text set_iter text) true
  = parse_styles_from_text set_iter text.
Proof.
  intros set_iter text Hperm _. rewrite dedupe_spec.
  apply (dedupe_fold_fixed true _ []).
  - now apply parse_styles_NoDup.
  - apply Forall_forall. intros y Hy. apply style_normal.
    apply (parse_styles_In set_iter Hperm) in Hy.
    rewrite (map_upper_styles _ (findall_styles (upper text))) in Hy.
    pose proof (findall_styles (upper text)) as Hall.
    rewrite Forall_forall in Hall. now apply Hall.
Qed.

End ParsedStyles.

Section ParsedStylesWitnesses.
Import PyStr Scraper CliStyles.

Lemma parsed_styles_pass_dedupe_witness :
  dedupe_preserve_order
    (parse_styles_from_text insertion_order "pc61, K420 and pc61") true
  = parse_styles_from_text insertion_order "pc61, K420 and pc61".
Proof.
  apply (parsed_styles_pass_dedupe insertion_order "pc61, K420 and pc61").
  - intros l. apply Permutation_refl.
  - reflexivity.
Defined.

End ParsedStylesWitnesses.

(** ** The names of the sheets of a workbook *)

Section DecimalText.
Import PyStr Slugs.

Lemma string_of_uint_digits (d : Decimal.uint) :
  all_chars isdigit (NilEmpty.string_of_uint d) = true.
Proof. induction d; simpl; auto. Qed.

Lemma string_of_uint_length (d : Decimal.uint) :
  String.length (NilEmpty.string_of_uint d) = Decimal.nb_digits d.
Proof. induction d; simpl; auto. Qed.

Lemma usize_nb_digits (d : Decimal.uint) :
  DecimalPos.Unsigned.usize d = N.of_nat (Decimal.nb_digits d).
Proof.
  induction d; cbn [DecimalPos.Unsigned.usize Decimal.nb_digits];
    rewrite ?IHd; lia.
Qed.

Lemma str_of_Z_pos (p : positive) :
  str_of_Z (Z.pos p) = NilEmpty.string_of_uint (Pos.to_uint p).
Proof. reflexivity. Qed.

Lemma str_of_Z_digits (i : Z) :
  0 < i -> all_chars isdigit (str_of_Z i) = true.
Proof.
  destruct i as [|p|p]; try lia. intros _.
  rewrite str_of_Z_pos. apply string_of_uint_digits.
Qed.

Lemma str_of_Z_inj (a b : Z) : str_of_Z a = str_of_Z b -> a = b.
Proof.
  unfold str_of_Z. intros E. apply DecimalZ.to_int_inj.
  pose proof (NilEmpty.isi (Z.to_int a)) as Ha.
  pose proof (NilEmpty.isi (Z.to_int b)) as Hb.
  rewrite E in Ha. congruence.
Qed.

(** The decimal text of a positive number starts with a digit that is
    not zero. *)
Lemma unorm_head (d : Decimal.uint) :
  Decimal.unorm d = d -> d <> Decimal.zero -> d <> Decimal.Nil ->
  exists (acc : positive) (d' : Decimal.uint),
    Decimal.nb_digits d = S (Decimal.nb_digits d')
    /\ Pos.of_uint d = N.pos (Pos.of_uint_acc d' acc).
Proof.
  intros Hnorm Hzero Hnil.
  destruct d as [|e|e|e|e|e|e|e|e|e|e];
    try (eexists _, e; split; reflexivity).
  - contradiction.
  - exfalso. change (Decimal.unorm (Decimal.D0 e)) with (Decimal.unorm e)
      in Hnorm.
    assert (e <> Decimal.Nil) as He by (intros ->; now apply Hzero).
    pose proof (DecimalFacts.nb_digits_unorm e He) as Hle.
    rewrite Hnorm in Hle. cbn [Decimal.nb_digits] in Hle. lia.
Qed.

Lemma to_uint_head (p : positive) :
  exists (acc : positive) (d : Decimal.uint),
    Decimal.nb_digits (Pos.to_uint p) = S (Decimal.nb_digits d)
    /\ p = Pos.of_uint_acc d acc.
Proof.
  pose proof (DecimalPos.Unsigned.of_to p) as Hof.
  pose proof (DecimalPos.Unsigned.to_of (Pos.to_uint p)) as Hnorm.
  rewrite Hof in Hnorm. cbn [N.to_uint] in Hnorm.
  destruct (unorm_head (Pos.to_uint p)) as (acc & d & Hlen & Hval).
  - now symmetry.
  - apply DecimalPos.Unsigned.to_uint_nonzero.
  - apply DecimalPos.Unsigned.to_uint_nonnil.
  - exists acc, d. split; [exact Hlen|]. congruence.
Qed.

Lemma of_uint_acc_lower (d : Decimal.uint) (acc : positive) :
  (10 ^ N.of_nat (Decimal.nb_digits d) <= N.pos (Pos.of_uint_acc d acc))%N.
Proof.
  rewrite DecimalPos.Unsigned.of_uint_acc_rev, usize_nb_digits.
  nia.
Qed.

(** A positive number below [10 ^ k] is written with at most [k]
    digits. *)
Lemma str_of_Z_length (i : Z) (k : nat) :
  0 < i < 10 ^ Z.of_nat k -> (String.length (str_of_Z i) <= k)%nat.
Proof.
  destruct i as [|p|p]; try lia. intros [_ Hlt].
  rewrite str_of_Z_pos, string_of_uint_length.
  destruct (to_uint_head p) as (acc & d & -> & Hp).
  pose proof (of_uint_acc_lower d acc) as Hlow. rewrite <- Hp in Hlow.
  assert (10 ^ N.of_nat (Decimal.nb_digits d) < 10 ^ N.of_nat k)%N as Hpow.
  { eapply N.le_lt_trans; [exact Hlow|].
    apply N2Z.inj_lt. rewrite N2Z.inj_pow, nat_N_Z. exact Hlt. }
  apply N.pow_lt_mono_r_iff in Hpow; lia.
Qed.

End DecimalText.

Section SheetNames.
Import PyStr Slugs StreamlitApp.

Lemma take_length_min (n : nat) (s : string) :
  String.length (take n s) = Nat.min n (String.length s).
Proof.
  revert s. induction n as [|n IH]; intros [|c s]; simpl; auto.
Qed.

(** Two texts that end with an underscore and digits end with the same
    digits when they are equal. *)
Lemma numbered_suffix_inj (p1 p2 d1 d2 : string) :
  all_chars isdigit d1 = true -> all_chars isdigit d2 = true ->
  (p1 ++ "_" ++ d1 = p2 ++ "_" ++ d2)%string -> d1 = d2.
Proof.
  intros H1 H2. revert p2.
  induction p1 as [|c p1 IH]; intros [|c2 p2] E; cbn [append] in E.
  - now injection E.
  - injection E as <- E. rewrite E, all_chars_app in H1.
    cbn in H1. now rewrite andb_false_r in H1.
  - injection E as -> E. rewrite <- E, all_chars_app in H2.
    cbn in H2. now rewrite andb_false_r in H2.
  - injection E as _ E. now apply IH in E.
Qed.

Lemma numbered_eq (base : string) (i : Z) :
  numbered base i
  = (take (31 - S (String.length (str_of_Z i))) base ++ "_" ++ str_of_Z i)%string.
Proof.
  unfold numbered. cbv zeta. cbn [String.length append].
  replace (Z.to_nat
             (Z.max 0 (31 - Z.of_nat (S (String.length (str_of_Z i))))))
    with (31 - S (String.length (str_of_Z i)))%nat by lia.
  destruct (take (31 - S (String.length (str_of_Z i))) base); reflexivity.
Qed.

Lemma numbered_inj (base : string) (i j : Z) :
  0 < i -> 0 < j -> numbered base i = numbered base j -> i = j.
Proof.
  intros Hi Hj E. rewrite !numbered_eq in E.
  apply numbered_suffix_inj in E; try now apply str_of_Z_digits.
  now apply str_of_Z_inj.
Qed.

Lemma numbered_short (base : string) (i : Z) :
  0 < i < 10 ^ 30 ->
  numbered base i <> "" /\ (String.length (numbered base i) <= 31)%nat.
Proof.
  intros Hi. rewrite numbered_eq. split.
  - destruct (take _ base); discriminate.
  - pose proof (str_of_Z_length i 30 Hi) as Hlen.
    rewrite string_length_app, take_length_min. cbn [append String.length]. lia.
Qed.

Lemma first_name_short (raw_name : string) :
  first_name raw_name <> ""
  /\ (String.length (first_name raw_name) <= 31)%nat.
Proof.
  unfold first_name. split.
  - destruct (strip (Config.or_str raw_name "Sheet")); discriminate.
  - rewrite take_length_min. lia.
Qed.

Lemma numbered_seq_NoDup (base : string) (a m : nat) :
  (1 <= a)%nat ->
  NoDup (map (fun k => numbered base (Z.of_nat k)) (seq a m)).
Proof.
  revert a. induction m as [|m IH]; intros a Ha; cbn [seq map];
    [constructor|].
  constructor; [|apply IH; lia].
  intros Hx. apply in_map_iff in Hx. destruct Hx as (k & E & Hk).
  apply in_seq in Hk. apply numbered_inj in E; lia.
Qed.

(** The numbered names are all different, so a set holds at most as
    many of them as it has elements. *)
Lemma numbered_in_used (base : string) (used : list string) (m : nat) :
  (forall j, 1 <= j <= Z.of_nat m -> In (numbered base j) used) ->
  (m <= length used)%nat.
Proof.
  intros Hin.
  apply Nat.le_trans
    with (length (map (fun k => numbered base (Z.of_nat k)) (seq 1 m)));
    [rewrite length_map, length_seq; lia|].
  apply NoDup_incl_length.
  - now apply numbered_seq_NoDup.
  - intros x Hx. apply in_map_iff in Hx.
    destruct Hx as (k & <- & Hk). apply in_seq in Hk. apply Hin. lia.
Qed.

Lemma unused_name_spec (fuel : nat) (used : list string) (base : string) :
  forall (name : string) (i : Z),
  (i = 1 /\ name = base)
  \/ (1 < i /\ name = numbered base (i - 1) /\ In base used) ->
  (forall j, 1 <= j < i - 1 -> In (numbered base j) used) ->
  Z.of_nat (length used) + 1 < Z.of_nat fuel + i ->
  exists r,
    unused_name fuel used base name i = Some r
    /\ ~ In r used
    /\ (r = base
        \/ (In base used
            /\ exists j, 1 <= j <= Z.of_nat (length used) + 1
                         /\ r = numbered base j)).
Proof.
  induction fuel as [|fuel IH]; intros name i Hstate Hbelow Hfuel;
    cbn [unused_name]; destruct (str_in name used) eqn:Hname.
  - exfalso. apply str_in_In in Hname.
    assert (Z.to_nat (i - 1) <= length used)%nat.
    { apply (numbered_in_used base). intros j Hj.
      destruct (Z.eq_dec j (i - 1)) as [-> | Hne]; [|apply Hbelow; lia].
      destruct Hstate as [[-> _] | (_ & <- & _)]; [lia | exact Hname]. }
    destruct Hstate as [[-> _] | (Hi & _)]; lia.
  - exists name. split; [reflexivity|]. split.
    + intros Hin. apply str_in_In in Hin. congruence.
    + destruct Hstate as [[_ ->] | (Hi & -> & Hbase)]; [now left|].
      right. split; [exact Hbase|]. exists (i - 1). split; [|reflexivity].
      assert (Z.to_nat (i - 2) <= length used)%nat; [|lia].
      apply (numbered_in_used base). intros j Hj. apply Hbelow. lia.
  - apply str_in_In in Hname.
    assert (In base used) as Hbase.
    { destruct Hstate as [[_ <-] | (_ & _ & Hbase)]; assumption. }
    apply IH.
    + right. split; [destruct Hstate as [[-> _] | (Hi & _)]; lia|].
      split; [f_equal; lia | exact Hbase].
    + intros j Hj.
      destruct (Z.eq_dec j (i - 1)) as [-> | Hne]; [|apply Hbelow; lia].
      destruct Hstate as [[-> _] | (_ & <- & _)]; [lia | exact Hname].
    + lia.
  - exists name. split; [reflexivity|]. split.
    + intros Hin. apply str_in_In in Hin. congruence.
    + destruct Hstate as [[_ ->] | (Hi & -> & Hbase)]; [now left|].
      right. split; [exact Hbase|]. exists (i - 1). split; [|reflexivity].
      assert (Z.to_nat (i - 2) <= length used)%nat; [|lia].
      apply (numbered_in_used base). intros j Hj. apply Hbelow. lia.
Qed.

Lemma sheet_names_from_spec (fuel : nat) (raw_names : list string) :
  forall used : list string,
  (length used + length raw_names <= fuel)%nat ->
  Z.of_nat (length used + length raw_names) < 10 ^ 30 ->
  exists names,
    sheet_names_from fuel used raw_names = Some names
    /\ length names = length raw_names
    /\ NoDup names
    /\ (forall n, In n names -> ~ In n used)
    /\ Forall (fun n => n <> "" /\ (String.length n <= 31)%nat) names
    /\ (forall k raw,
          nth_error raw_names k = Some raw ->
          ~ In (first_name raw) used ->
          ~ In (first_name raw) (firstn k names) ->
          nth_error names k = Some (first_name raw)).
Proof.
  induction raw_names as [|raw rest IH]; intros used Hfuel Hfew;
    cbn [sheet_names_from].
  - exists []. split; [reflexivity|]. split; [reflexivity|].
    split; [constructor|]. split; [intros n []|]. split; [constructor|].
    intros [|k] raw; discriminate.
  - cbn [length] in Hfuel, Hfew.
    destruct (unused_name_spec fuel used (first_name raw) (first_name raw) 1)
      as (r & -> & Hfresh & Hr); [now left | intros j Hj; lia | lia |].
    assert (set_add used r = used ++ [r]) as Hadd.
    { unfold set_add. destruct (str_in r used) eqn:E; [|reflexivity].
      apply str_in_In in E. contradiction. }
    destruct (IH (set_add used r)) as (names & -> & Hlen & Hnd & Hdis & Hshort & Hown).
    { rewrite Hadd, length_app. cbn [length]. lia. }
    { rewrite Hadd, length_app. cbn [length]. lia. }
    exists (r :: names). split; [reflexivity|].
    split; [cbn [length]; now rewrite Hlen|].
    split; [|split; [|split]].
    + constructor; [|exact Hnd]. intros Hin. apply (Hdis r Hin).
      rewrite Hadd. apply in_or_app. right. now left.
    + intros n [<- | Hn]; [exact Hfresh|]. intros Hin. apply (Hdis n Hn).
      rewrite Hadd. apply in_or_app. now left.
    + constructor; [|exact Hshort].
      destruct Hr as [-> | (_ & j & Hj & ->)];
        [apply first_name_short | apply numbered_short; lia].
    + intros [|k] raw' Hraw' Hfree Hearlier; cbn [nth_error firstn] in *.
      * injection Hraw' as <-. f_equal.
        destruct Hr as [-> | (Hbase & _)]; [reflexivity | contradiction].
      * apply Hown; [exact Hraw' | | ].
        -- rewrite Hadd. intros Hin. apply in_app_or in Hin.
           destruct Hin as [Hin | [E | []]]; [contradiction|].
           apply Hearlier. now left.
        -- intros Hin. apply Hearlier. now right.
Qed.

Lemma unused_name_more_fuel (fuel fuel' : nat) (used : list string)
    (base : string) :
  (fuel <= fuel')%nat ->
  forall (name : string) (i : Z) (r : string),
  unused_name fuel used base name i = Some r ->
  unused_name fuel' used base name i = Some r.
Proof.
  revert fuel'. induction fuel as [|fuel IH]; intros fuel' Hle name i r;
    cbn [unused_name].
  - destruct fuel'; cbn [unused_name]; destruct (str_in name used);
      congruence.
  - destruct fuel' as [|fuel']; [lia|]. cbn [unused_name].
    destruct (str_in name used); [|congruence]. apply IH. lia.
Qed.

Lemma sheet_names_from_more_fuel (fuel fuel' : nat) (raw_names : list string) :
  (fuel <= fuel')%nat ->
  forall (used names : list string),
  sheet_names_from fuel used raw_names = Some names ->
  sheet_names_from fuel' used raw_names = Some names.
Proof.
  intros Hle. induction raw_names as [|raw rest IH]; intros used names;
    cbn [sheet_names_from]; [congruence|].
  destruct (unused_name fuel used _ _ 1) as [r|] eqn:Hr; [|discriminate].
  rewrite (unused_name_more_fuel fuel fuel' used _ Hle _ _ _ Hr).
  destruct (sheet_names_from fuel (set_add used r) rest) as [names'|] eqn:Hn;
    [|discriminate].
  now rewrite (IH _ _ Hn).
Qed.

(** X28: the sheets of a workbook get names that Excel accepts as
    different and short.  For fewer than [10 ^ 30] sheets the loop of
    [as_bytes_xlsx_sheets] ends for every sheet, with as many iterations
    as there are sheets at most, and gives one name for each key: no name
    is empty, none has more than 31 characters and no two are equal.  A
    sheet keeps its own name (the key stripped and cut to 31 characters,
    [Sheet] for a blank key) when no earlier sheet has that name. *)
Theorem sheet_names_are_short_and_distinct :
  forall (fuel : nat) (raw_names : list string),
  Forall (fun s => is_ascii s = true) raw_names ->
  (length raw_names <= fuel)%nat ->
  Z.of_nat (length raw_names) < 10 ^ 30 ->
  exists names,
    sheet_names fuel raw_names = Some names
    /\ (forall fuel', (length raw_names <= fuel')%nat ->
                      sheet_names fuel' raw_names = Some names)
    /\ length names = length raw_names
    /\ NoDup names
    /\ Forall (fun n => n <> "" /\ (String.length n <= 31)%nat) names
    /\ (forall k raw,
          nth_error raw_names k = Some raw ->
          ~ In (first_name raw) (firstn k names) ->
          nth_error names k = Some (first_name raw)).
Proof.
  intros fuel raw_names _ Hfuel Hfew. unfold sheet_names.
  destruct (sheet_names_from_spec fuel raw_names [])
    as (names & Hnames & Hlen & Hnd & _ & Hshort & Hown);
    [exact Hfuel | exact Hfew |].
  exists names. split; [exact Hnames|].
  split; [|split; [exact Hlen|split; [exact Hnd|split; [exact Hshort|]]]].
  - intros fuel' Hfuel'.
    destruct (sheet_names_from_spec fuel' raw_names [])
      as (names' & Hnames' & _); [exact Hfuel' | exact Hfew |].
    pose proof (sheet_names_from_more_fuel fuel (Nat.max fuel fuel') raw_names
                  (Nat.le_max_l _ _) _ _ Hnames) as H1.
    pose proof (sheet_names_from_more_fuel fuel' (Nat.max fuel fuel') raw_names
                  (Nat.le_max_r _ _) _ _ Hnames') as H2.
    congruence.
  - intros k raw Hraw Hearlier. apply Hown; [exact Hraw | intros [] | exact Hearlier].
Qed.

End SheetNames.

Section SheetNamesWitnesses.
Import PyStr StreamlitApp.

Lemma sheet_names_are_short_and_distinct_witness :
  exists names,
    sheet_names 3 ["Stock"; " Stock "; "Stock_1"] = Some names
    /\ (forall fuel',
          (length ["Stock"; " Stock "; "Stock_1"] <= fuel')%nat ->
          sheet_names fuel' ["Stock"; " Stock "; "Stock_1"] = Some names)
    /\ length names = length ["Stock"; " Stock "; "Stock_1"]
    /\ NoDup names
    /\ Forall (fun n => n <> "" /\ (String.length n <= 31)%nat) names
    /\ (forall k raw,
          nth_error ["Stock"; " Stock "; "Stock_1"] k = Some raw ->
          ~ In (first_name raw) (firstn k names) ->
          nth_error names k = Some (first_name raw)).
Proof.
  apply (sheet_names_are_short_and_distinct 3 ["Stock"; " Stock "; "Stock_1"]).
  - repeat constructor.
  - simpl. lia.
  - reflexivity.
Defined.

(** A name taken twice, a name that meets a numbered one, a blank key
    and a key of 40 characters. *)
Example sheet_names_examples :
  sheet_names 3 ["Stock"; " Stock "; "Stock_1"]
  = Some ["Stock"; "Stock_1"; "Stock_1_1"]
  /\ sheet_names 2 ["Sheet"; "  "] = Some ["Sheet"; "Sheet_1"]
  /\ sheet_names 2 ["0123456789012345678901234567890123456789";
                    "0123456789012345678901234567890XYZ"]
     = Some ["0123456789012345678901234567890";
             "01234567890123456789012345678_1"].
Proof. repeat split; vm_compute; reflexivity. Qed.

End SheetNamesWitnesses.

(** ** Masking the SOAP text *)

Section Texts.
Import PyStr PyStrOps Slugs Masking.

Lemma prefix_app (a r : string) : prefix a (a ++ r) = true.
Proof.
  induction a as [|x a IH]; cbn [append]; [apply prefix_nil|].
  cbn [prefix]. now destruct (ascii_dec x x).
Qed.

Lemma prefix_split (a s : string) :
  prefix a s = true -> exists r, s = (a ++ r)%string.
Proof.
  revert s. induction a as [|x a IH]; intros s H; [now exists s|].
  destruct s as [|y s]; cbn [prefix] in H; [discriminate|].
  destruct (ascii_dec x y) as [<- |]; [|discriminate].
  destruct (IH s H) as [r ->]. now exists r.
Qed.

Lemma prefix_drop (a s : string) :
  prefix a s = true -> s = (a ++ drop (String.length a) s)%string.
Proof.
  intros H. destruct (prefix_split a s H) as [r ->]. now rewrite drop_app.
Qed.

Lemma differ_sym (a b : string) : differ a b = differ b a.
Proof.
  revert b. induction a as [|x a IH]; intros [|y b]; cbn [differ]; auto.
  now rewrite IH, Ascii.eqb_sym.
Qed.

Lemma differ_prefix (a b r : string) :
  differ a b = true -> prefix a (b ++ r) = false.
Proof.
  revert b. induction a as [|x a IH]; intros [|y b]; cbn [differ];
    try discriminate.
  intros H. cbn [append prefix]. destruct (ascii_dec x y) as [-> |];
    [|reflexivity].
  rewrite Ascii.eqb_refl in H. now apply IH.
Qed.

Lemma differ_prefix_r (a b r : string) :
  differ a b = true -> prefix b (a ++ r) = false.
Proof.
  revert b. induction a as [|x a IH]; intros [|y b]; cbn [differ];
    try discriminate.
  intros H. cbn [append prefix]. destruct (ascii_dec y x) as [-> |];
    [|reflexivity].
  rewrite Ascii.eqb_refl in H. now apply IH.
Qed.

Lemma differ_app (a b x : string) :
  differ a b = true -> differ (a ++ x) b = true.
Proof.
  revert b. induction a as [|c a IH]; intros [|y b]; cbn [differ append];
    try discriminate.
  intros H. apply orb_true_iff in H. apply orb_true_iff.
  destruct H as [H | H]; [now left | right; now apply IH].
Qed.

(** Two ways to cut one text. *)
Lemma app_cut (a b c d : string) :
  (a ++ b = c ++ d)%string ->
  (exists m, c = a ++ m /\ b = m ++ d)%string
  \/ (exists m, m <> "" /\ a = c ++ m /\ d = m ++ b)%string.
Proof.
  revert c. induction a as [|x a IH]; intros c E; cbn [append] in E.
  - left. now exists c.
  - destruct c as [|y c]; cbn [append] in E.
    + right. exists (String x a). now repeat split.
    + injection E as <- E. destruct (IH c E) as [(m & -> & ->) | (m & Hm & -> & ->)].
      * left. now exists m.
      * right. now exists m.
Qed.

Lemma app_same_length (a b x y : string) :
  (a ++ x = b ++ y)%string -> String.length a = String.length b ->
  a = b /\ x = y.
Proof.
  revert b. induction a as [|t a IH]; intros [|u b] E Hlen;
    try discriminate; [now split|].
  cbn [append] in E. injection E as -> E. injection Hlen as Hlen.
  destruct (IH b E Hlen) as [-> ->]. now split.
Qed.

Lemma plain_lt_free (v : string) :
  plain v -> all_chars (fun c => negb (is_lt c)) v = true.
Proof.
  apply all_chars_impl. intros c H. now apply andb_true_iff in H.
Qed.

Lemma plain_one_line (v : string) :
  plain v -> all_chars (fun c => negb (is_nl c)) v = true.
Proof.
  apply all_chars_impl. intros c H. now apply andb_true_iff in H.
Qed.

(** A text with one [<] is cut at it in one way. *)
Lemma cut_at_lt (a b x y : string) :
  all_chars (fun c => negb (is_lt c)) a = true ->
  all_chars (fun c => negb (is_lt c)) y = true ->
  (b ++ String "<" x = a ++ String "<" y)%string -> b = a /\ x = y.
Proof.
  intros Ha Hy. revert b. induction a as [|t a IH]; intros [|u b] E;
    cbn [append] in E.
  - now injection E.
  - injection E as -> E. rewrite <- E, all_chars_app in Hy.
    cbn in Hy. now rewrite andb_false_r in Hy.
  - injection E as <- E. cbn in Ha. discriminate.
  - injection E as -> E. cbn [all_chars] in Ha.
    apply andb_true_iff in Ha. destruct (IH (proj2 Ha) b E) as [-> ->].
    now split.
Qed.

(** The first [<] of a text. *)
Lemma first_lt (a b x y : string) :
  all_chars (fun c => negb (is_lt c)) a = true ->
  all_chars (fun c => negb (is_lt c)) b = true ->
  (a ++ String "<" x = b ++ String "<" y)%string -> a = b /\ x = y.
Proof.
  intros Ha. revert b. induction a as [|t a IH]; intros [|u b] Hb E;
    cbn [append] in E.
  - now injection E.
  - injection E as <- E. cbn in Hb. discriminate.
  - injection E as -> E. cbn in Ha. discriminate.
  - injection E as -> E. cbn [all_chars] in Ha, Hb.
    apply andb_true_iff in Ha, Hb.
    destruct (IH (proj2 Ha) b (proj2 Hb) E) as [-> ->]. now split.
Qed.

End Texts.

Section OnePass.
Import PyStr PyStrOps Slugs Masking RegexSub.

Variables o c : string.
Let open : string := String "<" o.
Let close : string := String "<" (String "/" c).

Hypothesis o_lt_free : all_chars (fun x => negb (is_lt x)) o = true.
Hypothesis c_lt_free : all_chars (fun x => negb (is_lt x)) c = true.
Hypothesis o_one_line : all_chars (fun x => negb (is_nl x)) o = true.
Hypothesis open_not_close : differ open close = true.

Lemma sub_from_skip (k : nat) (s : string) :
  sub_from open close k s = sub_from open close 0 (drop k s).
Proof.
  revert s. induction k as [|k IH]; intros [|x s]; cbn [drop];
    try reflexivity.
  cbn [sub_from]. apply IH.
Qed.

Lemma match_pair_first (s : string) (n : nat) :
  match_pair open close s = Some n -> exists s', s = String "<" s'.
Proof.
  unfold match_pair. destruct (prefix open s) eqn:Hp; [|discriminate].
  intros _. apply prefix_split in Hp. destruct Hp as [r ->]. now exists (o ++ r)%string.
Qed.

Lemma match_pair_other (x : ascii) (s : string) :
  is_lt x = false -> match_pair open close (String x s) = None.
Proof.
  intros Hx. unfold match_pair, open. cbn [prefix].
  destruct (ascii_dec "<" x) as [<- |]; [discriminate | reflexivity].
Qed.

Lemma lazy_until_spec (s : string) (n : nat) :
  lazy_until close s = Some n ->
  exists X rest,
    s = (X ++ close ++ rest)%string /\ String.length X = n
    /\ all_chars (fun x => negb (is_nl x)) X = true.
Proof.
  revert n. induction s as [|x s IH]; intros n; cbn [lazy_until].
  - destruct (prefix close "") eqn:Hp; [|discriminate].
    intros [= <-]. apply prefix_split in Hp. destruct Hp as [r Hr].
    exists "", r. now repeat split.
  - destruct (prefix close (String x s)) eqn:Hp.
    + intros [= <-]. apply prefix_split in Hp. destruct Hp as [r Hr].
      exists "", r. now repeat split.
    + destruct (Ascii.eqb x "010") eqn:Hx; [discriminate|].
      destruct (lazy_until close s) as [m|]; [|discriminate].
      intros [= <-]. destruct (IH m eq_refl) as (X & rest & -> & <- & HX).
      exists (String x X), rest. repeat split. cbn [all_chars].
      unfold is_nl at 1. now rewrite Hx, HX.
Qed.

Lemma lazy_until_here (s : string) :
  prefix close s = true -> lazy_until close s = Some O.
Proof. intros H. destruct s; cbn [lazy_until]; now rewrite H. Qed.

Lemma lazy_until_found (a b : string) :
  all_chars (fun x => negb (is_nl x)) a = true ->
  lazy_until close (a ++ close ++ b) <> None.
Proof.
  induction a as [|x a IH]; intros Ha.
  - change ("" ++ close ++ b)%string with (close ++ b)%string.
    now rewrite lazy_until_here by apply prefix_app.
  - cbn [append lazy_until all_chars] in *.
    apply andb_true_iff in Ha. destruct Ha as [Hx Ha].
    destruct (prefix close _); [discriminate|].
    unfold is_nl in Hx. destruct (Ascii.eqb x "010"); [discriminate|].
    specialize (IH Ha). now destruct (lazy_until close (a ++ close ++ b)).
Qed.

Lemma lazy_until_plain (v rest : string) :
  plain v -> lazy_until close (v ++ close ++ rest) = Some (String.length v).
Proof.
  intros Hv. induction v as [|x v IH].
  - change ("" ++ close ++ rest)%string with (close ++ rest)%string.
    now rewrite lazy_until_here by apply prefix_app.
  - unfold plain in Hv. cbn [all_chars] in Hv.
    apply andb_true_iff in Hv. destruct Hv as [Hx Hv].
    apply andb_true_iff in Hx. destruct Hx as [Hlt Hnl].
    cbn [append lazy_until]. unfold close at 1. cbn [prefix].
    destruct (ascii_dec "<" x) as [<- |]; [discriminate|].
    unfold is_nl in Hnl. destruct (Ascii.eqb x "010"); [discriminate|].
    fold close. now rewrite (IH Hv).
Qed.

(** The two cases of [sub_from] on a text that is not empty. *)
Lemma sub_from_match_length (s : string) (n : nat) :
  match_pair open close s = Some n ->
  exists X rest,
    s = (open ++ X ++ close ++ rest)%string
    /\ all_chars (fun x => negb (is_nl x)) X = true
    /\ sub_from open close 0 s
       = (open ++ "***" ++ close ++ sub_from open close 0 rest)%string
    /\ String.length X = n.
Proof.
  intros Hm. pose proof Hm as Hm'. unfold match_pair in Hm'.
  destruct (prefix open s) eqn:Hp; [|discriminate].
  apply prefix_drop in Hp.
  destruct (lazy_until_spec _ _ Hm') as (X & rest & HX & Hlen & Hnl).
  exists X, rest. rewrite HX in Hp. split; [exact Hp|]. split; [exact Hnl|].
  split; [|exact Hlen].
  destruct s as [|x s']; [discriminate|].
  cbn [sub_from]. rewrite Hm, sub_from_skip.
  do 3 f_equal.
  assert (s' = (o ++ X ++ close ++ rest)%string) as ->
    by (unfold open in Hp; cbn [append] in Hp; congruence).
  replace (String.length open + n + String.length close - 1)%nat
    with (String.length (o ++ X ++ close))%nat
    by (rewrite !string_length_app; unfold open; cbn [String.length]; lia).
  replace (o ++ X ++ close ++ rest)%string
    with ((o ++ X ++ close) ++ rest)%string
    by now rewrite !string_app_assoc.
  now rewrite drop_app.
Qed.

Lemma sub_from_match (s : string) (n : nat) :
  match_pair open close s = Some n ->
  exists X rest,
    s = (open ++ X ++ close ++ rest)%string
    /\ all_chars (fun x => negb (is_nl x)) X = true
    /\ sub_from open close 0 s
       = (open ++ "***" ++ close ++ sub_from open close 0 rest)%string.
Proof.
  intros Hm.
  destruct (sub_from_match_length s n Hm) as (X & rest & H1 & H2 & H3 & _).
  now exists X, rest.
Qed.

Lemma sub_from_copy (x : ascii) (s : string) :
  match_pair open close (String x s) = None ->
  sub_from open close 0 (String x s) = String x (sub_from open close 0 s).
Proof. intros Hm. cbn [sub_from]. now rewrite Hm. Qed.

Lemma clear_lt_free (w : string) :
  all_chars (fun x => negb (is_lt x)) w = true -> clear open w = true.
Proof.
  induction w as [|x w IH]; cbn [all_chars clear]; [reflexivity|].
  intros H. apply andb_true_iff in H. destruct H as [Hx Hw].
  now rewrite Hx, (IH Hw).
Qed.

Lemma clear_app (a b : string) :
  clear open a = true -> clear open b = true -> clear open (a ++ b) = true.
Proof.
  intros Ha Hb. induction a as [|x a IH]; [exact Hb|].
  cbn [append clear] in *. apply andb_true_iff in Ha.
  destruct Ha as [Hx Ha]. rewrite (IH Ha), andb_true_r.
  apply orb_true_iff in Hx. apply orb_true_iff.
  destruct Hx as [Hx | Hx]; [now left | right].
  now apply (differ_app (String x a) open b).
Qed.

Lemma clear_close : clear open close = true.
Proof.
  unfold close. cbn [clear]. fold close.
  rewrite differ_sym, open_not_close, orb_true_r.
  cbn [andb is_lt Ascii.eqb Bool.eqb orb negb].
  now apply clear_lt_free.
Qed.

(** Where no match of the pattern can start inside [w], the text starts
    with [w] after the pass exactly when it did before. *)
Lemma prefix_sub_clear (w s : string) :
  clear open w = true ->
  prefix w (sub_from open close 0 s) = prefix w s.
Proof.
  revert s. induction w as [|a w IH]; intros s Hw;
    [now rewrite !prefix_nil|].
  cbn [clear] in Hw. apply andb_true_iff in Hw. destruct Hw as [Ha Hw].
  destruct s as [|x s]; [reflexivity|].
  destruct (match_pair open close (String x s)) as [n|] eqn:Hm.
  - destruct (sub_from_match _ _ Hm) as (X & rest & Hs & _ & ->). rewrite Hs.
    apply orb_true_iff in Ha. destruct Ha as [Ha | Ha].
    + unfold open. cbn [append prefix].
      destruct (ascii_dec a "<") as [-> |]; [discriminate | reflexivity].
    + now rewrite !(differ_prefix _ _ _ Ha).
  - rewrite (sub_from_copy _ _ Hm). cbn [prefix].
    destruct (ascii_dec a x); [now apply IH | reflexivity].
Qed.

Lemma prefix_sub_open (s : string) :
  prefix open (sub_from open close 0 s) = prefix open s.
Proof.
  destruct s as [|x s]; [reflexivity|].
  destruct (match_pair open close (String x s)) as [n|] eqn:Hm.
  - destruct (sub_from_match _ _ Hm) as (X & rest & Hs & _ & ->). rewrite Hs.
    now rewrite !prefix_app.
  - rewrite (sub_from_copy _ _ Hm). unfold open. cbn [prefix].
    destruct (ascii_dec "<" x); [|reflexivity].
    apply prefix_sub_clear. now apply clear_lt_free.
Qed.

Lemma sub_lt_free (w r : string) :
  all_chars (fun x => negb (is_lt x)) w = true ->
  sub_from open close 0 (w ++ r) = (w ++ sub_from open close 0 r)%string.
Proof.
  induction w as [|x w IH]; cbn [all_chars append]; [reflexivity|].
  intros H. apply andb_true_iff in H. destruct H as [Hx Hw].
  rewrite sub_from_copy, (IH Hw); [reflexivity|].
  apply match_pair_other. now destruct (is_lt x).
Qed.

Lemma lazy_until_sub_none (r : string) :
  lazy_until close r = None ->
  lazy_until close (sub_from open close 0 r) = None.
Proof.
  induction r as [|x r IH]; [auto|].
  destruct (match_pair open close (String x r)) as [n|] eqn:Hm.
  - destruct (sub_from_match _ _ Hm) as (X & rest & Hs & HX & _).
    rewrite Hs. intros Hnone. exfalso.
    apply (lazy_until_found (open ++ X) rest).
    + rewrite all_chars_app, HX. unfold open. cbn [all_chars].
      now rewrite o_one_line.
    + now rewrite string_app_assoc.
  - assert (prefix close (String x (sub_from open close 0 r))
            = prefix close (String x r)) as Hp.
    { rewrite <- (sub_from_copy _ _ Hm). apply prefix_sub_clear, clear_close. }
    rewrite (sub_from_copy _ _ Hm). cbn [lazy_until]. rewrite Hp.
    destruct (prefix close (String x r)); [discriminate|].
    destruct (Ascii.eqb x "010"); [reflexivity|].
    destruct (lazy_until close r); [discriminate|].
    intros _. now rewrite IH.
Qed.

(** A replacement [open ++ "***" ++ close] is cut before a [<] at its
    start or before its closing tag only. *)
Lemma block_cut (pre m : string) :
  (open ++ "***" ++ close)%string = (pre ++ String "<" m)%string ->
  pre = "" \/ String "<" m = close.
Proof.
  intros E. destruct pre as [|y pre]; [now left|]. right.
  unfold open in E. cbn [append] in E. injection E as _ E.
  change (o ++ String "*" (String "*" (String "*" close)))%string
    with (o ++ "***" ++ String "<" (String "/" c))%string in E.
  rewrite <- string_app_assoc in E. symmetry in E.
  apply cut_at_lt in E.
  - unfold close. now f_equal.
  - now rewrite all_chars_app, o_lt_free.
  - cbn [all_chars]. now rewrite c_lt_free.
Qed.

(** After the pass every plain value between the two tags is the
    mask. *)
Lemma sub_masks (n : nat) :
  forall s pre v post : string,
  (String.length s <= n)%nat ->
  sub_from open close 0 s = (pre ++ open ++ v ++ close ++ post)%string ->
  plain v -> v = "***".
Proof.
  induction n as [|n IH]; intros s pre v post Hlen E Hv.
  - destruct s; [|cbn in Hlen; lia]. now destruct pre.
  - destruct s as [|x s]; [now destruct pre|].
    destruct (match_pair open close (String x s)) as [k|] eqn:Hm.
    + destruct (sub_from_match _ _ Hm) as (X & rest & Hs & _ & Hsub).
      assert (String.length rest <= n)%nat as Hrest.
      { rewrite Hs in Hlen. unfold open in Hlen.
        cbn [append String.length] in Hlen.
        rewrite !string_length_app in Hlen. lia. }
      rewrite Hsub in E.
      replace (open ++ "***" ++ close ++ sub_from open close 0 rest)%string
        with ((open ++ "***" ++ close) ++ sub_from open close 0 rest)%string
        in E by now rewrite !string_app_assoc.
      apply app_cut in E.
      destruct E as [(m & -> & E) | (m & Hne & Hcut & E)];
        [now apply (IH rest m v post)|].
      destruct m as [|y m]; [contradiction|].
      assert (y = "<"%char) as -> by (unfold open in E; cbn in E; congruence).
      destruct (block_cut _ _ Hcut) as [-> | Hclose].
      * cbn [append] in Hcut. rewrite <- Hcut in E.
        rewrite !string_app_assoc in E. apply string_app_inv_head in E.
        unfold close in E. cbn [append] in E.
        change (String "*" (String "*" (String "*" ?t)))
          with ("***" ++ t)%string in E.
        apply first_lt in E; [apply E | now apply plain_lt_free | reflexivity].
      * exfalso. rewrite Hclose in E.
        pose proof (prefix_app open (v ++ close ++ post)) as Hp.
        rewrite E, (differ_prefix _ _ _ open_not_close) in Hp. discriminate.
    + rewrite (sub_from_copy _ _ Hm) in E.
      destruct pre as [|y pre].
      * exfalso. cbn [append] in E.
        pose proof (prefix_app open (v ++ close ++ post)) as Hp.
        rewrite <- E, <- (sub_from_copy _ _ Hm), prefix_sub_open in Hp.
        pose proof Hm as Hnone. unfold match_pair in Hnone.
        rewrite Hp in Hnone. apply prefix_split in Hp.
        destruct Hp as [r Hr]. rewrite Hr, drop_app in Hnone.
        unfold open in Hr. cbn [append] in Hr. injection Hr as -> ->.
        rewrite sub_lt_free in E by exact o_lt_free.
        change (open ++ v ++ close ++ post)%string
          with (String "<" (o ++ v ++ close ++ post)) in E.
        injection E as E. apply string_app_inv_head in E.
        change (String "<" (String "/" (c ++ post)))
          with (close ++ post)%string in E.
        apply lazy_until_sub_none in Hnone.
        rewrite E, lazy_until_plain in Hnone by exact Hv. discriminate.
      * cbn [append] in E. injection E as _ E.
        apply (IH s pre v post); [cbn in Hlen; lia | exact E | exact Hv].
Qed.

Section OtherTag.
Variables open' close' : string.
Hypothesis open'_lt : exists t, open' = String "<" t.
Hypothesis open'_clear : clear open open' = true.
Hypothesis close'_clear : clear open close' = true.
Hypothesis open'_not_close : differ open' close = true.

Lemma open'_not_open : differ open' open = true.
Proof.
  destruct open'_lt as [t Ht]. pose proof open'_clear as H.
  rewrite Ht in H. cbn [clear] in H. apply andb_true_iff in H.
  destruct H as [H _]. now rewrite Ht.
Qed.

(** A plain value that the text shows between the tags of another
    pattern after the pass stood there before the pass. *)
Lemma sub_keeps_other (n : nat) :
  forall s pre v post : string,
  (String.length s <= n)%nat ->
  sub_from open close 0 s = (pre ++ open' ++ v ++ close' ++ post)%string ->
  plain v ->
  exists pre' post', s = (pre' ++ open' ++ v ++ close' ++ post')%string.
Proof.
  destruct open'_lt as [t Ht].
  induction n as [|n IH]; intros s pre v post Hlen E Hv.
  - destruct s; [|cbn in Hlen; lia]. rewrite Ht in E. now destruct pre.
  - destruct s as [|x s]; [rewrite Ht in E; now destruct pre|].
    destruct (match_pair open close (String x s)) as [k|] eqn:Hm.
    + destruct (sub_from_match _ _ Hm) as (X & rest & Hs & _ & Hsub).
      assert (String.length rest <= n)%nat as Hrest.
      { rewrite Hs in Hlen. unfold open in Hlen.
        cbn [append String.length] in Hlen.
        rewrite !string_length_app in Hlen. lia. }
      rewrite Hsub in E.
      replace (open ++ "***" ++ close ++ sub_from open close 0 rest)%string
        with ((open ++ "***" ++ close) ++ sub_from open close 0 rest)%string
        in E by now rewrite !string_app_assoc.
      apply app_cut in E.
      destruct E as [(m & -> & E) | (m & Hne & Hcut & E)].
      * destruct (IH rest m v post Hrest E Hv) as (pre' & post' & Hr).
        exists (open ++ X ++ close ++ pre')%string, post'.
        rewrite Hs, Hr. now rewrite !string_app_assoc.
      * exfalso. destruct m as [|y m]; [contradiction|].
        assert (y = "<"%char) as -> by (rewrite Ht in E; cbn in E; congruence).
        pose proof (prefix_app open' (v ++ close' ++ post)) as Hp.
        rewrite E in Hp.
        destruct (block_cut _ _ Hcut) as [-> | Hclose].
        -- cbn [append] in Hcut. rewrite <- Hcut, string_app_assoc in Hp.
           rewrite (differ_prefix _ _ _ open'_not_open) in Hp. discriminate.
        -- rewrite Hclose in Hp.
           rewrite (differ_prefix _ _ _ open'_not_close) in Hp. discriminate.
    + rewrite (sub_from_copy _ _ Hm) in E.
      destruct pre as [|y pre].
      * cbn [append] in E.
        assert (clear open (open' ++ v ++ close') = true) as Hclear.
        { apply clear_app; [exact open'_clear|].
          apply clear_app; [|exact close'_clear].
          now apply clear_lt_free, plain_lt_free. }
        pose proof (prefix_app (open' ++ v ++ close') post) as Hp.
        rewrite !string_app_assoc, <- E, <- (sub_from_copy _ _ Hm) in Hp.
        rewrite (prefix_sub_clear _ _ Hclear) in Hp.
        apply prefix_split in Hp. destruct Hp as [post' Hp].
        exists "", post'. rewrite Hp. now rewrite !string_app_assoc.
      * cbn [append] in E. injection E as <- E.
        destruct (IH s pre v post) as (pre' & post' & ->);
          [cbn in Hlen; lia | exact E | exact Hv |].
        now exists (String x pre'), post'.
Qed.

End OtherTag.

(** Text in which no match can start is copied. *)
Lemma sub_clear (w r : string) :
  clear open w = true ->
  sub_from open close 0 (w ++ r) = (w ++ sub_from open close 0 r)%string.
Proof.
  induction w as [|x w IH]; [reflexivity|].
  intros H. pose proof H as Hw. cbn [clear] in Hw.
  apply andb_true_iff in Hw. destruct Hw as [Hx Hw].
  cbn [append]. rewrite sub_from_copy, (IH Hw); [reflexivity|].
  apply orb_true_iff in Hx. destruct Hx as [Hx | Hx].
  - apply match_pair_other. now destruct (is_lt x).
  - unfold match_pair.
    change (String x (w ++ r)) with (String x w ++ r)%string.
    now rewrite (differ_prefix_r _ _ _ Hx).
Qed.

(** An element with a plain value gets the mask. *)
Lemma sub_element (v post : string) :
  plain v ->
  sub_from open close 0 (open ++ v ++ close ++ post)
  = (open ++ "***" ++ close ++ sub_from open close 0 post)%string.
Proof.
  intros Hv.
  assert (match_pair open close (open ++ v ++ close ++ post)
          = Some (String.length v)) as Hm.
  { unfold match_pair. rewrite prefix_app, drop_app.
    now apply lazy_until_plain. }
  destruct (sub_from_match_length _ _ Hm) as (X & rest & Hs & _ & -> & Hlen).
  do 3 f_equal. apply string_app_inv_head in Hs.
  apply app_same_length in Hs; [|now symmetry].
  destruct Hs as [_ Hs]. apply string_app_inv_head in Hs. now subst.
Qed.

End OnePass.

Section Tags.
Import PyStr PyStrOps Slugs Masking RegexSub StreamlitLog.

Lemma tag_ok_facts (tag : string) :
  tag_ok tag = true ->
  all_chars (fun x => negb (is_lt x)) (tag ++ ">") = true
  /\ all_chars (fun x => negb (is_nl x)) (tag ++ ">") = true
  /\ differ (String "<" (tag ++ ">")) (String "<" (String "/" (tag ++ ">")))
     = true.
Proof.
  unfold tag_ok. intros H. apply andb_true_iff in H. destruct H as [Hp Hd].
  rewrite !all_chars_app.
  rewrite (plain_lt_free tag Hp), (plain_one_line tag Hp).
  repeat split. exact Hd.
Qed.

Lemma mask_tag_masks (tag s : string) :
  tag_ok tag = true -> masked tag (mask_tag tag s).
Proof.
  intros Hok pre v post E Hv.
  destruct (tag_ok_facts tag Hok) as (Hlt & Hnl & Hd).
  exact (sub_masks (tag ++ ">") (tag ++ ">") Hlt Hlt Hnl Hd
           (String.length s) s pre v post (le_n _) E Hv).
Qed.

Lemma mask_tag_keeps (j k s : string) :
  tag_ok j = true -> apart j k = true ->
  masked k s -> masked k (mask_tag j s).
Proof.
  intros Hok Hapart Hs pre v post E Hv.
  destruct (tag_ok_facts j Hok) as (Hlt & _ & _).
  unfold apart in Hapart. apply andb_true_iff in Hapart.
  destruct Hapart as [Hapart Hd]. apply andb_true_iff in Hapart.
  destruct Hapart as [Ho Hc].
  destruct (sub_keeps_other (j ++ ">") (j ++ ">") Hlt Hlt
              (open_tag k) (close_tag k)
              (ex_intro _ (k ++ ">")%string eq_refl) Ho Hc Hd
              (String.length s) s pre v post (le_n _) E Hv)
    as (pre' & post' & Hs').
  exact (Hs pre' v post' Hs' Hv).
Qed.

Lemma mask_tag_copies (j w r : string) :
  clear (open_tag j) w = true ->
  mask_tag j (w ++ r) = (w ++ mask_tag j r)%string.
Proof. intros Hw. exact (sub_clear (j ++ ">") (j ++ ">") w r Hw). Qed.

Lemma mask_tag_element (tag pre v post : string) :
  clear (open_tag tag) pre = true -> plain v ->
  mask_tag tag (pre ++ open_tag tag ++ v ++ close_tag tag ++ post)
  = (pre ++ open_tag tag ++ "***" ++ close_tag tag ++ mask_tag tag post)%string.
Proof.
  intros Hpre Hv. rewrite (mask_tag_copies tag pre _ Hpre). f_equal.
  exact (sub_element (tag ++ ">") (tag ++ ">") v post Hv).
Qed.

Lemma mask_tag_other (j k pre v post : string) :
  apart j k = true -> clear (open_tag j) pre = true -> plain v ->
  mask_tag j (pre ++ open_tag k ++ v ++ close_tag k ++ post)
  = (pre ++ open_tag k ++ v ++ close_tag k ++ mask_tag j post)%string.
Proof.
  intros Hapart Hpre Hv.
  unfold apart in Hapart. apply andb_true_iff in Hapart.
  destruct Hapart as [Hapart _]. apply andb_true_iff in Hapart.
  destruct Hapart as [Ho Hc].
  replace (pre ++ open_tag k ++ v ++ close_tag k ++ post)%string
    with ((pre ++ open_tag k ++ v ++ close_tag k) ++ post)%string
    by now rewrite !string_app_assoc.
  rewrite mask_tag_copies; [now rewrite !string_app_assoc|].
  set (open := open_tag j) in *.
  assert (forall a b, clear open a = true -> clear open b = true ->
                      clear open (a ++ b) = true) as Happ.
  { intros a b. exact (clear_app (j ++ ">") a b). }
  apply Happ; [exact Hpre|]. apply Happ; [exact Ho|].
  apply Happ; [|exact Hc].
  exact (clear_lt_free (j ++ ">") v (plain_lt_free v Hv)).
Qed.

Lemma mask_tag_empty (tag : string) : mask_tag tag "" = "".
Proof. reflexivity. Qed.

(** The seven passes. *)
Lemma sanitize_passes (xml : string) :
  _sanitize_xml_for_log (Some xml)
  = Some (mask_tag "password"
            (mask_tag "id"
               (mask_tag "shar:password"
                  (mask_tag "shar:id"
                     (mask_tag "arg2" (mask_tag "arg1" (mask_tag "arg0" xml))))))).
Proof. now destruct xml. Qed.

(** X29: the log never shows a credential that stands on one line.  For
    a text, [_sanitize_xml_for_log] returns a text in which every value
    without [<] and line feed between [<tag>] and [</tag>], for each of
    the seven tags [arg0], [arg1], [arg2], [shar:id], [shar:password],
    [id] and [password], is the mask [***]. *)
Theorem one_line_values_are_masked :
  forall xml : string,
  is_ascii xml = true ->
  exists out,
    _sanitize_xml_for_log (Some xml) = Some out
    /\ forall tag pre v post,
         In tag masked_tags ->
         out = (pre ++ open_tag tag ++ v ++ close_tag tag ++ post)%string ->
         plain v -> v = "***".
Proof.
  intros xml _. eexists. split; [apply sanitize_passes|].
  intros tag pre v post Htag. revert pre v post.
  change (masked tag
            (mask_tag "password"
               (mask_tag "id"
                  (mask_tag "shar:password"
                     (mask_tag "shar:id"
                        (mask_tag "arg2"
                           (mask_tag "arg1" (mask_tag "arg0" xml)))))))).
  unfold masked_tags in Htag. cbn [In] in Htag.
  repeat (destruct Htag as [<- | Htag];
          [repeat first
             [ solve [apply mask_tag_masks; reflexivity]
             | apply mask_tag_keeps; [reflexivity | reflexivity |] ]|]).
  contradiction.
Qed.

(** X30: an element of a masked tag with a one-line value is masked in
    place.  When no opening tag of a masked element starts in the text
    before it, the element is returned with the value replaced by [***],
    the text before it unchanged, and the text after it sanitised on its
    own. *)
Theorem element_is_masked_in_place :
  forall tag pre v post : string,
  is_ascii (pre ++ open_tag tag ++ v ++ close_tag tag ++ post) = true ->
  In tag masked_tags ->
  tag_free pre = true ->
  plain v ->
  exists rest,
    _sanitize_xml_for_log (Some post) = Some rest
    /\ _sanitize_xml_for_log
         (Some (pre ++ open_tag tag ++ v ++ close_tag tag ++ post)%string)
       = Some (pre ++ open_tag tag ++ "***" ++ close_tag tag ++ rest)%string.
Proof.
  intros tag pre v post _ Htag Hpre Hv.
  eexists. split; [apply sanitize_passes|]. rewrite sanitize_passes. f_equal.
  unfold tag_free, masked_tags in Hpre. cbn [forallb] in Hpre.
  repeat (apply andb_true_iff in Hpre; destruct Hpre as [?Hpre Hpre]).
  assert (plain "***") as Hmask by reflexivity.
  unfold masked_tags in Htag. cbn [In] in Htag.
  repeat (destruct Htag as [<- | Htag];
          [repeat first
             [ rewrite mask_tag_element by assumption
             | rewrite mask_tag_other by (reflexivity || assumption) ];
           reflexivity|]).
  contradiction.
Qed.

End Tags.

Section TagsWitnesses.
Import PyStr PyStrOps Slugs Masking RegexSub StreamlitLog.

Lemma one_line_values_are_masked_witness :
  exists out,
    _sanitize_xml_for_log (Some "<arg0>12345</arg0><id>me</id>") = Some out
    /\ forall tag pre v post,
         In tag masked_tags ->
         out = (pre ++ open_tag tag ++ v ++ close_tag tag ++ post)%string ->
         plain v -> v = "***".
Proof.
  apply (one_line_values_are_masked "<arg0>12345</arg0><id>me</id>").
  reflexivity.
Defined.

Lemma element_is_masked_in_place_witness :
  exists rest,
    _sanitize_xml_for_log (Some "<id>me</id>") = Some rest
    /\ _sanitize_xml_for_log
         (Some ("<soap:Body>" ++ open_tag "arg0" ++ "12345"
                ++ close_tag "arg0" ++ "<id>me</id>")%string)
       = Some ("<soap:Body>" ++ open_tag "arg0" ++ "***"
               ++ close_tag "arg0" ++ rest)%string.
Proof.
  apply (element_is_masked_in_place "arg0" "<soap:Body>" "12345" "<id>me</id>").
  - reflexivity.
  - left. reflexivity.
  - reflexivity.
  - reflexivity.
Defined.

(** A value on one line, a value on two lines, and no text. *)
Example sanitize_xml_examples :
  _sanitize_xml_for_log (Some "<arg0>12345</arg0><id>me</id>")
  = Some "<arg0>***</arg0><id>***</id>"
  /\ _sanitize_xml_for_log (Some (String "<" (String "i" (String "d" (String ">"
       (String "a" (String "010" (String "b" "</id>"))))))))
     = Some (String "<" (String "i" (String "d" (String ">"
       (String "a" (String "010" (String "b" "</id>")))))))
  /\ _sanitize_xml_for_log None = None
  /\ _sanitize_xml_for_log (Some "") = Some "".
Proof. repeat split. Qed.

End TagsWitnesses.
